(* ===== verification/_CoqProject ===== *)
-Q . S2P
Prelude.v
PyValues.v
Effects.v
Traces.v
Canned.v
Wire.v
Expect.v
Mosquitto.v
WireFormat.v
Broker.v
Connack.v
Handshake.v
Script.v
Conform.v
Discipline.v
Lifecycle.v
Capabilities.v
Qos.v
Retained.v
Sessions.v
Identity.v
Forwarding.v
Oracle.v
Main.v
Exceptions.v
Honest.v
Scripts.v
Transcript.v
Acceptance.v
Dialogues.v
Suite.v
Rejection.v
Paths.v
CommandLine.v
CommandGrammar.v
Program.v
