(* ===== verification/Prelude.v ===== *)
(** * Verification of the MQTT interoperability driver of netz

    netz is a library of network protocols written in Zig.  Its Python part is
    one program, [tools/interop/mqtt_mosquitto_vectors.py]: it launches the
    netz MQTT broker as a child process, speaks raw MQTT to it over TCP with
    packets from Mosquitto's packet generators, and asserts the broker's
    answers byte by byte.  The program is a gate: a release relies on its
    verdict.  This development models the whole program and proves what makes
    that verdict trustworthy: that it reads the stream correctly however it is
    cut into chunks, that each assertion accepts exactly what it should, that
    a run which passes has performed the dialogue that the scenarios describe,
    that a broker which follows that dialogue passes and one that breaks it
    where the driver looks fails, that a run ends if its system calls return,
    that nothing in the driver itself goes wrong, and that it keeps its
    sockets, timeouts and processes in order.

    ** The program and its model

    The driver is a blocking script.  A Python computation is a function of
    the monad [M] ([Effects]): it threads the state [W] of an arbitrary
    platform (sockets, processes, clock), ends in [Ok], [Raise e] or [Diverge]
    and records its system calls with their results.  [Platform] is the
    interface to the operating system, one operation per call that the driver
    makes; [PlatformLaws] are the two facts that it relies on ([recv(n)]
    returns at most [n] bytes, [settimeout] does not fail on the open sockets
    on which it is called).  Theorems hold for every platform, that is, for
    every behaviour of the broker and the network in which calls return: a call
    that blocks for ever, as [readline] on a silent broker, is not modelled.
    Mosquitto's generators are third-party code: records of functions
    ([Mosquitto]) that every definition takes as arguments.

    - [PyValues]: bytes, strings, lists and exceptions of Python.
    - [Effects]: the platform, the monad, [try], [with], [for].
    - [Traces]: rules for runs; [terminates], [emits], [costs], [keeps].
    - [Canned]: a concrete platform with prepared inboxes, for evaluation.
    - [Wire]: [read_packet] and [recv_exact]; [serves] and [streams], a
      socket that delivers given bytes in any chunks, with nothing or with
      anything behind them.
    - [Expect]: [expect_packet], [expect_packets_unordered], and the timed
      [recv] blocks that the scenarios repeat (silence, dropped connection).
    - [Mosquitto], [WireFormat]: the generator modules as parameters; the MQTT
      layouts as laws, and an instance that satisfies them.
    - [Broker]: [free_port] and [NetzBroker] ([__init__], [__enter__],
      [connect], [__exit__]); [Lifecycle]: its theorems.
    - [Connack]: [expected_connack], [connect_client], [connect_v5],
      [connect_persistent_v5]; [Handshake]: their theorems.
    - [Capabilities], [Qos], [Retained], [Sessions], [Forwarding]: the 36
      scenario functions, under their names in the source, each as one
      definition; the tables that a scenario has as local variables are
      definitions of their own.
    - [Identity]: the check of assigned client identifiers.
    - [Oracle]: reference definitions of the MQTT rules behind the tables.
    - [Main]: the list of scenarios and [main]; every scenario keeps the
      disciplines of [Discipline] and [Lifecycle].
    - [Exceptions]: the exceptions that can escape from a scenario.
    - [Honest]: the trace of a run is what the platform did.
    - [Script], [Scripts]: scenarios as declarative scripts; every scenario
      plays its script.
    - [Conform], [Acceptance]: the platforms that follow a script; every
      scenario, and [main], passes on them.
    - [Transcript]: the byte streams that the scripts prescribe, on which the
      whole suite passes.
    - [Rejection]: the platforms that leave a script; [main] raises on them.
    - [Dialogues], [Suite]: theorems about single scenarios and about [main].
    - [Paths], [CommandLine], [CommandGrammar]: [pathlib] and [argparse] as far
      as [parse_args] uses them, and the grammar of the accepted lines.
    - [Program]: [main] from its first line, with the arguments and imports.

    ** What the theorems show

    - Framing ([Wire]): the round trip with the MQTT encoding for every
      chunking; the error on truncated streams and on overlong lengths; what is
      returned is exactly what was received.
    - Assertions ([Expect], [Handshake], [Identity], [Qos]): each assertion is
      equivalent to a predicate on the packets of the stream, with its error
      message otherwise; the handshakes for CONNACKs with one byte of Remaining
      Length, and what they make of longer ones.
    - Processes ([Lifecycle]): the verdict of a [with NetzBroker] block in every
      case ([closes]); no two brokers at once; what happens when a broker does
      not start or stop; where calls without a timeout occur.
    - Disciplines ([Suite]): monitors over the trace of any run of [main] for
      sockets, timeouts, processes and the connection budget of each broker.
    - Refinement ([Suite], [Acceptance], [Rejection], [Dialogues]): the scripts
      are a specification of [main] from both sides.  A passing run performs
      exactly the scripts; a platform that follows them, whatever acceptable
      packets, order and chunks it chooses (packets may share a chunk), makes
      [main] pass; a platform that follows them up to a step and there fails a
      call, delivers other bytes, stops short or breaks a silence makes [main]
      raise.  Consequences for QoS 2 delivery, and, by the reference
      definitions of [Oracle], for shared subscriptions, subscription
      identifiers and Retain Handling.
    - Exceptions ([Exceptions]): a scenario ends with an assertion, a broker
      failure or an exception of the operating system, but for the five
      scenarios that are named.
    - Command line ([CommandGrammar], [Program]): the accepted lines, what is
      launched for them, and that nothing is launched for the others.
    - The verdict of [main]: it ends if its calls return, stops at the first
      failure, prints last.

    ** Bounds

    The [while] loops carry fuel: [recv_exact] one round per byte it still
    needs, [read_packet] four rounds for the four bytes of a Remaining Length.
    [terminates] states that the fuel suffices, and it is proved for every
    computation of the development ([Suite.main_total]); no theorem excuses a
    run that is out of fuel.  Fuel bounds the loops, not the time of a call.

    ** What is not modelled

    The texts of [argparse] for usage and help, and arguments that are not
    ASCII.  What an import finds: the generator modules are the results of a
    parameter of [program].  A call that never returns.  A generator call that
    raises: generators are total functions here, and their laws
    ([WireFormat.GeneratorLaws]) speak of arguments in range only.  The Zig code of netz, which is the environment behind
    [Platform].

    ** Plan

    Next: a reference broker as a platform, so that the suite can be shown to
    accept it and to reject faulty variants; the expected answers on session
    and message expiry as consequences of a timed reference. *)

From Stdlib Require Import ZArith Lia.
From stdpp Require Import base list option strings gmultiset.
From Stdlib Require Strings.Byte.
Local Open Scope Z_scope.

(** ** Scopes, databases, tactics *)

(** The notations of the development: [let!] for expressions that can raise,
    [k @= v] for keyword arguments. *)
Declare Scope netz_scope.
Delimit Scope netz_scope with netz.
Open Scope netz_scope.

(** The rules that compose properties of computations.  Constants are opaque
    to it, so that a rule applies by the head symbol of a computation. *)
Create HintDb netz discriminated.
#[export] Hint Constants Opaque : netz.

(** The case distinction at the head of a computation. *)
Ltac split_computation :=
  match goal with
  | |- _ (match ?x with _ => _ end) => destruct x
  end.

(** ** Lengths as integers *)

(** [len(b)] as a Python integer. *)
Definition len {A} (b : list A) : Z := Z.of_nat (length b).

Lemma len_nonneg {A} (l : list A) : 0 <= len l.
Proof. unfold len. lia. Qed.

Lemma len_app {A} (l k : list A) : len (l ++ k) = len l + len k.
Proof. unfold len. rewrite length_app. lia. Qed.

Lemma len_nil_inv {A} (l : list A) : len l = 0 -> l = [].
Proof. destruct l; [done|]. unfold len. simpl. lia. Qed.

(** ** Decisions *)

Lemma dec_neq_stable {A} `{EqDecision A} (x y : A) : ~ x <> y <-> x = y.
Proof. split; [apply dec_stable|naive_solver]. Qed.

(** Decide a goal about [bool_decide] and lengths by cases. *)
Ltac by_cases :=
  repeat case_bool_decide; repeat case_decide; simpl in *; unfold len in *; simpl in *;
  first [done | f_equal; naive_solver lia | naive_solver lia].
