(* ===== verification/PyValues.v ===== *)
(** * Python values used by the driver

    The fragment of Python's built-in values and exceptions that
    [tools/interop/mqtt_mosquitto_vectors.py] relies on: [bytes] with indexing,
    slicing, [hex] and [int.from_bytes]; [str] with [removeprefix],
    [startswith], [split], ASCII decoding and [repr]; [list.remove]; the
    exception classes that the driver raises or catches. *)

From Stdlib Require Import ZArith Lia Ascii.
From stdpp Require Import base list option strings.
From Stdlib Require Strings.Byte Numbers.DecimalString Numbers.DecimalZ
  Numbers.DecimalPos.
From S2P Require Import Prelude.
Local Open Scope Z_scope.

(** ** Bytes

    A Python [bytes] (or [bytearray]) value is a list of 8-bit bytes. *)

Abbreviation byte := Byte.byte.
Abbreviation bytes := (list Byte.byte).

#[global] Instance byte_eq_dec : EqDecision byte := Byte.byte_eq_dec.

(** The integer a byte denotes, and the byte of an integer in [range(256)]. *)
Definition b2z (b : byte) : Z := Z.of_N (Byte.to_N b).

Definition byte_of_Z (z : Z) : option byte :=
  if decide (0 <= z < 256) then Byte.of_N (Z.to_N z) else None.

(** [byte.of z] for arithmetic that is known to stay in range: the low eight
    bits of [z]. *)
Definition lo8 (z : Z) : byte :=
  default Byte.x00 (Byte.of_N (Z.to_N (z mod 256))).

(** ** Exceptions

    One constructor per exception class that the driver raises, catches or
    lets escape; [OSError] stands for every other operating-system error and
    carries its description, and [SystemExit] the message that was written
    before it was raised. *)

Inductive exn : Type :=
  | AssertionError (msg : string)
  | RuntimeError (msg : string)
  | ValueError
  | IndexError
  | UnicodeDecodeError
  | SocketTimeout
  | ConnectionResetError
  | BrokenPipeError
  | TimeoutExpired
  | OSError (what : string)
  | ModuleNotFoundError (name : string)
  | SystemExit (status : Z) (message : string).

#[global] Instance exn_eq_dec : EqDecision exn.
Proof. solve_decision. Defined.

(** A call either raises or returns. *)
Abbreviation result A := (exn + A)%type.

(** Sequencing of expressions that can raise, and [if cond: raise e]. *)
Definition rbind {A B} (r : result A) (k : A -> result B) : result B :=
  match r with inl e => inl e | inr a => k a end.

Notation "'let!' x ':=' r 'in' k" := (rbind r (fun x => k))
  (at level 200, x name, r at level 100, k at level 200) : netz_scope.

Definition check (bad : bool) (e : exn) : result unit :=
  if bad then inl e else inr tt.

(** ** Indexing and slicing *)

(** [b[i]]: negative indices count from the end, out of range raises. *)
Definition py_index {A} (b : list A) (i : Z) : result A :=
  let j := if decide (i < 0) then i + len b else i in
  if decide (j < 0) then inl IndexError
  else match b !! Z.to_nat j with Some x => inr x | None => inl IndexError end.

(** [b[lo:hi]] for non-negative bounds: clamped, never raises. *)
Definition py_slice {A} (b : list A) (lo hi : Z) : list A :=
  take (Z.to_nat hi - Z.to_nat lo) (drop (Z.to_nat lo) b).

(** [b[lo:]] for a non-negative bound. *)
Definition py_from {A} (b : list A) (lo : Z) : list A := drop (Z.to_nat lo) b.

(** A test of [b[i]] against an integer, and the short-circuit [or] of tests
    that can raise. *)
Definition test_index (b : bytes) (i : Z) (f : Z -> bool) : result bool :=
  match py_index b i with inr x => inr (f (b2z x)) | inl e => inl e end.

Definition py_or (c1 c2 : result bool) : result bool :=
  match c1 with inr false => c2 | _ => c1 end.

(** [bytes([z1, z2, ...])]: raises [ValueError] outside [range(256)]. *)
Fixpoint py_bytes (zs : list Z) : result bytes :=
  match zs with
  | [] => inr []
  | z :: zs' =>
      match byte_of_Z z, py_bytes zs' with
      | Some b, inr bs => inr (b :: bs)
      | _, _ => inl ValueError
      end
  end.

(** [int.from_bytes(b, "big")]. *)
Definition int_from_bytes_big (b : bytes) : Z :=
  fold_left (fun acc x => acc * 256 + b2z x) b 0.

(** ** Text *)

Definition hex_digit (n : N) : ascii :=
  if decide (n < 10)%N then ascii_of_N (48 + n) else ascii_of_N (87 + n).

Definition hex_byte (b : byte) : string :=
  let n := Byte.to_N b in
  String (hex_digit (n / 16)) (String (hex_digit (n mod 16)) EmptyString).

(** [b.hex()]. *)
Definition hex (b : bytes) : string := foldr (fun x s => hex_byte x +:+ s) "" b.

(** [str(n)], [str(flag)] as f-strings print them. *)
Definition str_int (z : Z) : string :=
  DecimalString.NilZero.string_of_int (Z.to_int z).
Definition str_bool (b : bool) : string := if b then "True" else "False".

(** [sep.join(parts)]. *)
Fixpoint join (sep : string) (parts : list string) : string :=
  match parts with
  | [] => ""
  | [p] => p
  | p :: ps => p +:+ sep +:+ join sep ps
  end.

(** The characters of a string as a list, and back. *)
Abbreviation chars := String.list_ascii_of_string.
Abbreviation of_chars := String.string_of_list_ascii.

Definition byte_of_ascii (c : ascii) : byte := lo8 (Z.of_N (N_of_ascii c)).
Definition ascii_of_byte (b : byte) : ascii := ascii_of_N (Byte.to_N b).

(** A bytes literal [b"..."]. *)
Definition bytes_of_str (s : string) : bytes := byte_of_ascii <$> chars s.

(** [b.decode("ascii")]. *)
Definition decode_ascii (b : bytes) : result string :=
  if decide (Forall (fun x => b2z x < 128) b)
  then inr (of_chars (ascii_of_byte <$> b))
  else inl UnicodeDecodeError.

(** [s.startswith(p)] and [s.removeprefix(p)]. *)
Definition startswith (s p : string) : bool := String.prefix p s.

Definition removeprefix (s p : string) : string :=
  if startswith s p
  then of_chars (drop (String.length p) (chars s)) else s.

(** [s.split(sep)] for a one-character separator. *)
Fixpoint split_chars (sep : ascii) (cs : list ascii) : list (list ascii) :=
  match cs with
  | [] => [[]]
  | c :: cs' =>
      if decide (c = sep) then [] :: split_chars sep cs'
      else match split_chars sep cs' with
           | [] => [[c]]
           | w :: ws => (c :: w) :: ws
           end
  end.

Definition split (s : string) (sep : ascii) : list string :=
  of_chars <$> split_chars sep (chars s).

(** [sub in s] for strings. *)
Fixpoint occurs_in (sub s : string) : bool :=
  String.prefix sub s ||
  match s with
  | EmptyString => false
  | String _ s' => occurs_in sub s'
  end.

(** [s.strip()]: the ASCII characters that Python counts as white space. *)
Definition is_space (c : ascii) : bool :=
  let n := N_of_ascii c in
  bool_decide (n = 32%N) || (bool_decide (9 <= n)%N && bool_decide (n <= 13)%N)
  || (bool_decide (28 <= n)%N && bool_decide (n <= 31)%N).

Fixpoint lstrip_chars (cs : list ascii) : list ascii :=
  match cs with
  | [] => []
  | c :: cs' => if is_space c then lstrip_chars cs' else cs
  end.

Definition strip (s : string) : string :=
  of_chars (reverse (lstrip_chars (reverse (lstrip_chars (chars s))))).

(** [repr(s)] of an ASCII string: single quotes unless the text holds a single
    quote and no double quote; backslash, quote and control characters are
    escaped. *)
Definition quote1 : ascii := ascii_of_nat 39.
Definition quote2 : ascii := ascii_of_nat 34.
Definition backslash : ascii := ascii_of_nat 92.

Definition repr_char (q c : ascii) : string :=
  let n := N_of_ascii c in
  if decide (c = q \/ c = backslash) then of_chars [backslash; c]
  else if decide (n = 9%N) then of_chars [backslash; "t"%char]
  else if decide (n = 10%N) then of_chars [backslash; "n"%char]
  else if decide (n = 13%N) then of_chars [backslash; "r"%char]
  else if decide (n < 32 \/ n = 127)%N
  then of_chars [backslash; "x"%char] +:+ hex_byte (byte_of_ascii c)
  else of_chars [c].

Definition repr (s : string) : string :=
  let q := if decide (quote1 ∈ chars s /\ quote2 ∉ chars s)
           then quote2 else quote1 in
  of_chars [q] +:+ foldr (fun c acc => repr_char q c +:+ acc) "" (chars s)
  +:+ of_chars [q].

(** ** Lists *)

(** [l.remove(x)]: drops the first occurrence, [None] stands for the
    [ValueError] of a missing element. *)
Fixpoint py_remove {A} `{EqDecision A} (x : A) (l : list A) : option (list A) :=
  match l with
  | [] => None
  | y :: l' => if decide (y = x) then Some l' else (y ::.) <$> py_remove x l'
  end.

(** [enumerate(l, start)] and [range(lo, hi)]. *)
Fixpoint enumerate {A} (start : Z) (l : list A) : list (Z * A) :=
  match l with
  | [] => []
  | x :: l' => (start, x) :: enumerate (start + 1) l'
  end.

Definition range (lo hi : Z) : list Z :=
  (fun n => lo + Z.of_nat n) <$> seq 0 (Z.to_nat (hi - lo)).

(** ** Facts *)

Lemma b2z_range b : 0 <= b2z b < 256.
Proof. destruct b; vm_compute; split; congruence. Qed.

Lemma b2z_inj b1 b2 : b2z b1 = b2z b2 -> b1 = b2.
Proof.
  unfold b2z. intros H%N2Z.inj.
  pose proof (Byte.of_to_N b1) as H1. pose proof (Byte.of_to_N b2) as H2.
  rewrite H in H1. congruence.
Qed.

Lemma byte_of_Z_b2z b : byte_of_Z (b2z b) = Some b.
Proof. destruct b; reflexivity. Qed.

Lemma b2z_byte_of_Z z b : byte_of_Z z = Some b -> b2z b = z.
Proof.
  unfold byte_of_Z, b2z. case_decide as Hz; [|done]. intros Hb.
  apply Byte.to_of_N in Hb. lia.
Qed.

Lemma byte_of_Z_is_Some z : 0 <= z < 256 -> is_Some (byte_of_Z z).
Proof.
  intros Hz. unfold byte_of_Z. case_decide; [|lia].
  destruct (Byte.of_N (Z.to_N z)) eqn:E; [eauto|].
  apply Byte.of_N_None_iff in E. lia.
Qed.

Lemma b2z_lo8 z : b2z (lo8 z) = z mod 256.
Proof.
  pose proof (Z.mod_pos_bound z 256 ltac:(lia)) as Hz.
  destruct (byte_of_Z_is_Some _ Hz) as [b Hb].
  pose proof (b2z_byte_of_Z _ _ Hb) as Hv.
  unfold byte_of_Z in Hb. case_decide; [|lia].
  unfold lo8. by rewrite Hb.
Qed.

Lemma lo8_b2z b : lo8 (b2z b) = b.
Proof. apply b2z_inj. rewrite b2z_lo8. apply Z.mod_small, b2z_range. Qed.

(** An index in range. *)
Lemma py_index_ok {A} (l : list A) i :
  0 <= i < len l -> exists x, py_index l i = inr x.
Proof.
  intros Hi. unfold py_index. rewrite (decide_False (P:=i < 0)) by lia.
  rewrite decide_False by lia. destruct (l !! Z.to_nat i) eqn:Hl; [eauto|].
  apply lookup_ge_None in Hl. unfold len in Hi. lia.
Qed.

(** [py_remove] succeeds exactly on the members, and takes one copy out. *)
Lemma py_remove_Some {A} `{EqDecision A} (x : A) l l' :
  py_remove x l = Some l' -> l ≡ₚ x :: l'.
Proof.
  revert l'. induction l as [|y l IH]; intros l'; simpl; [done|].
  case_decide as Hy; [by intros [= ->]; subst|].
  destruct (py_remove x l) as [k|]; simpl; [|done]. intros [= <-].
  rewrite (IH k eq_refl). apply Permutation_swap.
Qed.

Lemma py_remove_is_Some {A} `{EqDecision A} (x : A) l :
  x ∈ l -> is_Some (py_remove x l).
Proof.
  induction l as [|y l IH]; intros Hx; simpl; [by apply not_elem_of_nil in Hx|].
  case_decide; [eauto|]. destruct IH as [k ->]; [|eauto].
  apply elem_of_cons in Hx as [->|?]; done.
Qed.

Lemma py_remove_perm {A} `{EqDecision A} (x : A) l l' :
  l ≡ₚ x :: l' -> exists k, py_remove x l = Some k /\ k ≡ₚ l'.
Proof.
  intros Hp. destruct (py_remove_is_Some x l) as [k Hk].
  { rewrite Hp. apply list_elem_of_here. }
  exists k. split; [done|]. apply (Permutation_cons_inv (a:=x)).
  by rewrite <-(py_remove_Some x l k Hk).
Qed.

Lemma length_enumerate {A} start (l : list A) :
  length (enumerate start l) = length l.
Proof. revert start. induction l; intros; simpl; auto. Qed.

Lemma elem_of_enumerate {A} start i x (l : list A) : (i, x) ∈ enumerate start l -> x ∈ l.
Proof.
  revert start. induction l as [|y l IH]; intros start; simpl;
    [by intros ?%not_elem_of_nil|].
  rewrite !elem_of_cons. intros [[= -> ->]|Hi]; eauto.
Qed.

Lemma py_slice_all {A} (l : list A) hi : len l <= hi -> py_slice l 0 hi = l.
Proof.
  intros Hh. unfold py_slice, len in *. rewrite drop_0.
  apply take_ge. lia.
Qed.

(** Text with a known prefix. *)
Lemma startswith_app p s : startswith (p +:+ s) p = true.
Proof.
  unfold startswith. induction p as [|c p IH]; simpl; [by destruct s|].
  by destruct (ascii_dec c c).
Qed.

Lemma chars_app s1 s2 : chars (s1 +:+ s2) = chars s1 ++ chars s2.
Proof. induction s1 as [|c s1 IH]; simpl; [done|]. by f_equal. Qed.

Lemma of_chars_chars s : of_chars (chars s) = s.
Proof. apply String.string_of_list_ascii_of_string. Qed.

Lemma chars_of_chars cs : chars (of_chars cs) = cs.
Proof. apply String.list_ascii_of_string_of_list_ascii. Qed.

Lemma length_chars s : length (chars s) = String.length s.
Proof. induction s; simpl; auto. Qed.

Lemma removeprefix_app p s : removeprefix (p +:+ s) p = s.
Proof.
  unfold removeprefix. rewrite startswith_app, chars_app, <-length_chars.
  rewrite drop_app_length. apply of_chars_chars.
Qed.

(** Decimal numerals are read back. *)
Lemma parse_str_int z :
  Z.of_int <$> DecimalString.NilZero.int_of_string (str_int z) = Some z.
Proof.
  unfold str_int.
  rewrite DecimalString.NilZero.isi; [simpl; by rewrite DecimalZ.of_to|..];
    (destruct z as [|p|p]; simpl; try done; intros [= Hp];
     by apply (DecimalPos.Unsigned.to_uint_nonnil p)).
Qed.

Lemma test_index_nth b i f :
  0 <= i -> test_index b i f =
    match b !! Z.to_nat i with Some x => inr (f (b2z x)) | None => inl IndexError end.
Proof.
  intros Hi. unfold test_index, py_index. cbv zeta.
  rewrite (decide_False (P:=i < 0)) by lia. rewrite decide_False by lia.
  by destruct (b !! Z.to_nat i).
Qed.
