(* ===== verification/Effects.v ===== *)
(** * The driver's effects

    The driver is a blocking script: it calls the operating system through
    [socket], [subprocess] and [time], and every call either returns or
    raises.  [Platform] is the interface to that outside world (the sockets,
    the broker process, the clock); a computation threads the platform's
    state, ends in an [outcome] and records the calls it made with their
    results, in order, as a trace. *)

From Stdlib Require Import ZArith Lia.
From stdpp Require Import base list option strings.
From S2P Require Import Prelude PyValues.
Local Open Scope Z_scope.

(** Handles.  Times and timeouts are in milliseconds: [settimeout(5)] is
    [5000], [settimeout(0.05)] is [50], [sleep(2)] is [2000]. *)
Abbreviation sock := nat.
Abbreviation proc := nat.
Definition seconds (n : Z) : Z := 1000 * n.

(** ** The platform

    A call returns or raises: a platform on which a call never returns is not
    in the model.  That is a real assumption for [readline] and [read], which
    have no timeout: a broker that writes nothing and does not exit keeps
    [__enter__] waiting.  [Suite.main_total] says where these calls occur. *)

Class Platform (W : Type) := {
  sys_socket : W -> result sock * W;
  sys_bind : sock -> string -> Z -> W -> result unit * W;
  sys_getsockname : sock -> W -> result (string * Z) * W;
  sys_create_connection : string -> Z -> Z -> W -> result sock * W;
  sys_settimeout : sock -> Z -> W -> result unit * W;
  sys_sendall : sock -> bytes -> W -> result unit * W;
  sys_recv : sock -> Z -> W -> result bytes * W;
  sys_close : sock -> W -> result unit * W;
  sys_popen : list string -> W -> result proc * W;
  sys_readline : proc -> W -> result string * W;
  sys_read : proc -> W -> result string * W;
  sys_wait : proc -> Z -> W -> result Z * W;
  sys_terminate : proc -> W -> result unit * W;
  sys_sleep : Z -> W -> result unit * W;
  sys_print : string -> W -> result unit * W;
}.

(** What the driver relies on of every platform: [recv(n)] returns at most [n]
    bytes, and [settimeout] accepts every non-negative timeout.  The second law
    is about open sockets; the driver uses no other ([Suite.main_sockets]). *)
Class PlatformLaws (W : Type) `{Platform W} := {
  sys_recv_bound s n w bs w' :
    0 <= n -> sys_recv s n w = (inr bs, w') -> len bs <= n;
  sys_settimeout_ok s ms w :
    0 <= ms -> exists w', sys_settimeout s ms w = (inr tt, w');
}.

(** ** Events *)

Inductive event : Type :=
  | EvSocket (r : result sock)
  | EvBind (s : sock) (host : string) (port : Z) (r : result unit)
  | EvGetsockname (s : sock) (r : result (string * Z))
  | EvConnect (host : string) (port timeout : Z) (r : result sock)
  | EvSettimeout (s : sock) (ms : Z) (r : result unit)
  | EvSendall (s : sock) (data : bytes) (r : result unit)
  | EvRecv (s : sock) (n : Z) (r : result bytes)
  | EvClose (s : sock) (r : result unit)
  | EvPopen (command : list string) (r : result proc)
  | EvReadline (p : proc) (r : result string)
  | EvRead (p : proc) (r : result string)
  | EvWait (p : proc) (timeout : Z) (r : result Z)
  | EvTerminate (p : proc) (r : result unit)
  | EvSleep (ms : Z) (r : result unit)
  | EvPrint (line : string) (r : result unit).

Abbreviation trace := (list event).

(** ** Computations

    [Diverge] is the outcome of a loop that uses up its fuel: the loops below
    are given enough of it, which [terminates] records. *)

Inductive outcome (A : Type) : Type :=
  | Ok (a : A)
  | Raise (e : exn)
  | Diverge.
Arguments Ok {_} _.
Arguments Raise {_} _.
Arguments Diverge {_}.

Definition of_result {A} (r : result A) : outcome A :=
  match r with inr a => Ok a | inl e => Raise e end.

Definition M (W A : Type) : Type := W -> outcome A * W * trace.

Section monad.
  Context {W : Type}.

#[export] Instance M_ret : MRet (M W) := fun A a w => (Ok a, w, []).

#[export] Instance M_bind : MBind (M W) := fun A B k m w =>
    match m w with
    | (Ok a, w1, t1) => let '(o, w2, t2) := k a w1 in (o, w2, t1 ++ t2)
    | (Raise e, w1, t1) => (Raise e, w1, t1)
    | (Diverge, w1, t1) => (Diverge, w1, t1)
    end.

Definition raise {A} (e : exn) : M W A := fun w => (Raise e, w, []).

(** The pure part of an expression that can raise. *)
Definition lift {A} (r : result A) : M W A := fun w => (of_result r, w, []).

(** A loop whose fuel is exhausted. *)
Definition out_of_fuel {A} : M W A := fun w => (Diverge, w, []).

(** [try: m except <handled>: h]. *)
Definition try_except {A} (m : M W A) (handled : exn -> bool) (h : exn -> M W A)
    : M W A := fun w =>
    match m w with
    | (Raise e, w1, t1) =>
        if handled e then let '(o, w2, t2) := h e w1 in (o, w2, t1 ++ t2)
        else (Raise e, w1, t1)
    | r => r
    end.

(** A context manager around [m]: [f] runs on both exits and is told whether
    [m] raised; what [f] raises replaces the outcome of [m]. *)
Definition with_exit {A} (m : M W A) (f : bool -> M W unit) : M W A := fun w =>
    let exit_with raised o w1 t1 :=
      match f raised w1 with
      | (Ok _, w2, t2) => (o, w2, t1 ++ t2)
      | (Raise e, w2, t2) => (Raise e, w2, t1 ++ t2)
      | (Diverge, w2, t2) => (Diverge, w2, t1 ++ t2)
      end in
    match m w with
    | (Ok a, w1, t1) => exit_with false (Ok a) w1 t1
    | (Raise e, w1, t1) => exit_with true (Raise e) w1 t1
    | (Diverge, w1, t1) => (Diverge, w1, t1)
    end.

(** [try: m finally: f]. *)
Definition finally {A} (m : M W A) (f : M W unit) : M W A := with_exit m (fun _ => f).

(** [for x in l: body(x)]. *)
Fixpoint for_each {A} (l : list A) (body : A -> M W unit) : M W unit :=
    match l with
    | [] => mret tt
    | x :: l' => body x ;; for_each l' body
    end.

(** [for x in l: acc = body(acc, x)], for a loop that updates a variable. *)
Fixpoint for_fold {A B} (l : list A) (acc : B) (body : B -> A -> M W B) : M W B :=
    match l with
    | [] => mret acc
    | x :: l' => acc' ← body acc x; for_fold l' acc' body
    end.

(** [if cond: raise e]. *)
Definition raise_if (cond : bool) (e : exn) : M W unit :=
    if cond then raise e else mret tt.

End monad.

(** ** System calls *)

Section calls.
  Context {W : Type} `{Platform W}.

Definition call {A} (f : W -> result A * W) (ev : result A -> event) : M W A :=
    fun w => let '(r, w') := f w in (of_result r, w', [ev r]).

Definition new_socket : M W sock := call sys_socket EvSocket.
Definition bind s host port : M W unit :=
    call (sys_bind s host port) (EvBind s host port).
Definition getsockname s : M W (string * Z) :=
    call (sys_getsockname s) (EvGetsockname s).
Definition create_connection host port timeout : M W sock :=
    call (sys_create_connection host port timeout) (EvConnect host port timeout).
Definition settimeout s ms : M W unit :=
    call (sys_settimeout s ms) (EvSettimeout s ms).
Definition sendall s data : M W unit :=
    call (sys_sendall s data) (EvSendall s data).
Definition recv s n : M W bytes := call (sys_recv s n) (EvRecv s n).
Definition close s : M W unit := call (sys_close s) (EvClose s).
Definition popen command : M W proc := call (sys_popen command) (EvPopen command).
Definition readline p : M W string := call (sys_readline p) (EvReadline p).
Definition read p : M W string := call (sys_read p) (EvRead p).
Definition wait p timeout : M W Z := call (sys_wait p timeout) (EvWait p timeout).
Definition terminate p : M W unit := call (sys_terminate p) (EvTerminate p).
Definition sleep ms : M W unit := call (sys_sleep ms) (EvSleep ms).
Definition print line : M W unit := call (sys_print line) (EvPrint line).

(** [with <opened> as sock: body]: the socket is closed on every exit. *)
Definition with_socket {A} (opened : M W sock) (body : sock -> M W A) : M W A :=
    s ← opened; finally (body s) (close s).

End calls.
