(* ===== verification/Traces.v ===== *)
(** * Reasoning about runs

    Rules for the monad of [Effects]: [runs m Q] says that every run of [m],
    on every platform state, ends with an outcome and a trace that satisfy
    [Q].  On top of it, the compositional properties that the components
    share: [terminates] (no loop runs out of fuel), [emits] (every event of
    the trace satisfies a predicate), [costs] (a passing run has a given
    number of events of a kind), [keeps] (a monitor over the trace ends in the
    state it started in).  Their rules are hints of the database [netz]. *)

From Stdlib Require Import ZArith Lia.
From stdpp Require Import base list option strings gmultiset.
From S2P Require Import Prelude PyValues Effects.
Local Open Scope Z_scope.

Section runs.
  Context {W : Type}.

Definition runs {A} (m : M W A) (Q : outcome A -> trace -> Prop) : Prop :=
    forall w o w' t, m w = (o, w', t) -> Q o t.

Lemma runs_mono {A} (m : M W A) (P Q : outcome A -> trace -> Prop) :
    runs m P -> (forall o t, P o t -> Q o t) -> runs m Q.
Proof. intros Hm HPQ w o w' t Hr. eauto. Qed.

Lemma runs_and {A} (m : M W A) (P Q : outcome A -> trace -> Prop) :
    runs m P -> runs m Q -> runs m (fun o t => P o t /\ Q o t).
Proof. intros HP HQ w o w' t Hr. eauto. Qed.

Lemma runs_ret {A} (a : A) (Q : outcome A -> trace -> Prop) :
    Q (Ok a) [] -> runs (mret a) Q.
Proof. by intros ? w o w' t [= <- <- <-]. Qed.

Lemma runs_raise {A} e (Q : outcome A -> trace -> Prop) :
    Q (Raise e) [] -> runs (raise e) Q.
Proof. by intros ? w o w' t [= <- <- <-]. Qed.

Lemma runs_lift {A} (r : result A) (Q : outcome A -> trace -> Prop) :
    Q (of_result r) [] -> runs (lift r) Q.
Proof. by intros ? w o w' t [= <- <- <-]. Qed.

Lemma runs_bind {A B} (m : M W A) (k : A -> M W B) (Q : outcome B -> trace -> Prop) :
    runs m (fun o t => match o with
                       | Ok a => runs (k a) (fun o' t' => Q o' (t ++ t'))
                       | Raise e => Q (Raise e) t
                       | Diverge => Q Diverge t
                       end) ->
    runs (m ≫= k) Q.
Proof.
    intros Hm w o w' t. unfold mbind, M_bind.
    destruct (m w) as [[[a|e|] w1] t1] eqn:E; specialize (Hm _ _ _ _ E); simpl in Hm.
    - destruct (k a w1) as [[o2 w2] t2] eqn:E2. intros [= <- <- <-]. eauto.
    - by intros [= <- <- <-].
    - by intros [= <- <- <-].
Qed.

Lemma runs_try {A} (m : M W A) (handled : exn -> bool) h (Q : outcome A -> trace -> Prop) :
    runs m (fun o t => match o with
                       | Raise e =>
                           if handled e
                           then runs (h e) (fun o' t' => Q o' (t ++ t'))
                           else Q (Raise e) t
                       | _ => Q o t
                       end) ->
    runs (try_except m handled h) Q.
Proof.
    intros Hm w o w' t. unfold try_except.
    destruct (m w) as [[[a|e|] w1] t1] eqn:E; specialize (Hm _ _ _ _ E); simpl in Hm.
    - by intros [= <- <- <-].
    - destruct (handled e); [|by intros [= <- <- <-]].
      destruct (h e w1) as [[o2 w2] t2] eqn:E2. intros [= <- <- <-]. eauto.
    - by intros [= <- <- <-].
Qed.

Lemma runs_with_exit {A} (m : M W A) (f : bool -> M W unit) (Q : outcome A -> trace -> Prop) :
    let after raised o t :=
      runs (f raised) (fun o' t' =>
        match o' with
        | Ok _ => Q o (t ++ t')
        | Raise e => Q (Raise e) (t ++ t')
        | Diverge => Q Diverge (t ++ t')
        end) in
    runs m (fun o t =>
      match o with
      | Ok a => after false (Ok a) t
      | Raise e => after true (Raise e) t
      | Diverge => Q Diverge t
      end) ->
    runs (with_exit m f) Q.
Proof.
    intros after Hm w o w' t. unfold with_exit.
    destruct (m w) as [[[a|e|] w1] t1] eqn:E; specialize (Hm _ _ _ _ E); simpl in Hm.
    - destruct (f false w1) as [[[u|e|] w2] t2] eqn:E2; intros [= <- <- <-];
        apply (Hm _ _ _ _ E2).
    - destruct (f true w1) as [[[u|e'|] w2] t2] eqn:E2; intros [= <- <- <-];
        apply (Hm _ _ _ _ E2).
    - by intros [= <- <- <-].
Qed.

End runs.

Section call_rules.
  Context {W : Type} `{Platform W}.

Lemma runs_call {A} (f : W -> result A * W) ev (Q : outcome A -> trace -> Prop) :
    (forall w r w', f w = (r, w') -> Q (of_result r) [ev r]) ->
    runs (call f ev) Q.
Proof.
    intros HQ w o w' t. unfold call.
    destruct (f w) as [r w1] eqn:E. intros [= <- <- <-]. eauto.
Qed.

End call_rules.

(** ** Termination: no loop of a computation runs out of fuel *)

Definition terminates {W A} (m : M W A) : Prop := runs m (fun o _ => o <> Diverge).

Section terminates.
  Context {W : Type}.

Lemma terminates_ret {A} (a : A) : terminates (W:=W) (mret a).
Proof. by apply runs_ret. Qed.

Lemma terminates_raise {A} e : terminates (W:=W) (A:=A) (raise e).
Proof. by apply runs_raise. Qed.

Lemma terminates_lift {A} (r : result A) : terminates (W:=W) (lift r).
Proof. apply runs_lift. by destruct r. Qed.

Lemma terminates_bind {A B} (m : M W A) (k : A -> M W B) :
    terminates m -> (forall a, terminates (k a)) -> terminates (m ≫= k).
Proof.
    intros Hm Hk. apply runs_bind. eapply runs_mono; [exact Hm|].
    intros [a|e|] t Ho; try done. apply Hk.
Qed.

Lemma terminates_try {A} (m : M W A) handled h :
    terminates m -> (forall e, terminates (h e)) ->
    terminates (try_except m handled h).
Proof.
    intros Hm Hh. apply runs_try. eapply runs_mono; [exact Hm|].
    intros [a|e|] t Ho; try done. destruct (handled e); [apply Hh|done].
Qed.

Lemma terminates_with_exit {A} (m : M W A) f :
    terminates m -> (forall b, terminates (f b)) -> terminates (with_exit m f).
Proof.
    intros Hm Hf. apply runs_with_exit. eapply runs_mono; [exact Hm|].
    intros [a|e|] t Ho; try done; (eapply runs_mono; [apply Hf|]); by intros [].
Qed.

Lemma terminates_finally {A} (m : M W A) f :
    terminates m -> terminates f -> terminates (finally m f).
Proof. intros. by apply terminates_with_exit. Qed.

Lemma terminates_for_each {A} (l : list A) (body : A -> M W unit) :
    (forall x, terminates (body x)) -> terminates (for_each l body).
Proof.
    intros Hb. induction l; simpl; [apply terminates_ret|].
    by apply terminates_bind.
Qed.

Lemma terminates_for_fold {A B} (l : list A) (body : B -> A -> M W B) acc :
    (forall b x, terminates (body b x)) -> terminates (for_fold l acc body).
Proof.
    intros Hb. revert acc. induction l; intros acc; simpl; [apply terminates_ret|].
    apply terminates_bind; auto.
Qed.

Lemma terminates_raise_if b e : terminates (W:=W) (raise_if b e).
Proof. destruct b; [apply terminates_raise|apply terminates_ret]. Qed.

Lemma terminates_call {A} (f : W -> result A * W) ev :
    terminates (call f ev).
Proof. apply runs_call. by intros ? [] ? ?. Qed.

Lemma terminates_with_socket `{Platform W} {A} opened (body : sock -> M W A) :
    terminates opened -> (forall s, terminates (body s)) ->
    terminates (with_socket opened body).
Proof.
    intros Ho Hb. apply terminates_bind; [done|]. intros s.
    apply terminates_finally; [done|apply terminates_call].
Qed.

End terminates.

#[export] Hint Resolve terminates_ret terminates_raise terminates_lift
  terminates_bind terminates_try terminates_with_exit terminates_finally terminates_for_each
  terminates_for_fold terminates_raise_if terminates_call
  terminates_with_socket : netz.

(** ** Every event satisfies a predicate *)

Definition emits {W A} (P : event -> Prop) (m : M W A) : Prop :=
  runs m (fun _ t => Forall P t).

Section emits.
  Context {W : Type} (P : event -> Prop).

Lemma emits_ret {A} (a : A) : emits (W:=W) P (mret a).
Proof. by apply runs_ret. Qed.

Lemma emits_raise {A} e : emits (W:=W) (A:=A) P (raise e).
Proof. by apply runs_raise. Qed.

Lemma emits_lift {A} (r : result A) : emits (W:=W) P (lift r).
Proof. by apply runs_lift. Qed.

Lemma emits_out_of_fuel {A} : emits (W:=W) (A:=A) P out_of_fuel.
Proof. by intros w o w' t [= <- <- <-]. Qed.

Lemma emits_bind {A B} (m : M W A) (k : A -> M W B) :
    emits P m -> (forall a, emits P (k a)) -> emits P (m ≫= k).
Proof.
    intros Hm Hk. apply runs_bind. eapply runs_mono; [exact Hm|].
    intros [a|e|] t Ho; try done. eapply runs_mono; [apply Hk|].
    intros; by apply Forall_app.
Qed.

Lemma emits_try {A} (m : M W A) handled h :
    emits P m -> (forall e, emits P (h e)) -> emits P (try_except m handled h).
Proof.
    intros Hm Hh. apply runs_try. eapply runs_mono; [exact Hm|].
    intros [a|e|] t Ho; try done. destruct (handled e); [|done].
    eapply runs_mono; [apply Hh|]. intros; by apply Forall_app.
Qed.

Lemma emits_with_exit {A} (m : M W A) f :
    emits P m -> (forall b, emits P (f b)) -> emits P (with_exit m f).
Proof.
    intros Hm Hf. apply runs_with_exit. eapply runs_mono; [exact Hm|].
    intros [a|e|] t Ho; try done; (eapply runs_mono; [apply Hf|]);
      intros [] ??; by apply Forall_app.
Qed.

Lemma emits_finally {A} (m : M W A) f :
    emits P m -> emits P f -> emits P (finally m f).
Proof. intros. by apply emits_with_exit. Qed.

Lemma emits_for_each {A} (l : list A) (body : A -> M W unit) :
    (forall x, emits P (body x)) -> emits P (for_each l body).
Proof.
    intros Hb. induction l; simpl; [apply emits_ret|]. by apply emits_bind.
Qed.

Lemma emits_for_fold {A B} (l : list A) (body : B -> A -> M W B) acc :
    (forall b x, emits P (body b x)) -> emits P (for_fold l acc body).
Proof.
    intros Hb. revert acc. induction l; intros acc; simpl; [apply emits_ret|].
    apply emits_bind; auto.
Qed.

Lemma emits_raise_if b e : emits (W:=W) P (raise_if b e).
Proof. destruct b; [apply emits_raise|apply emits_ret]. Qed.

Lemma emits_call {A} (f : W -> result A * W) ev :
    (forall r, P (ev r)) -> emits P (call f ev).
Proof. intros HP. apply runs_call. intros; by repeat constructor. Qed.

Lemma emits_with_socket `{Platform W} {A} opened (body : sock -> M W A) :
    emits P opened -> (forall s, emits P (body s)) ->
    (forall s r, P (EvClose s r)) -> emits P (with_socket opened body).
Proof.
    intros Ho Hb Hc. apply emits_bind; [done|]. intros s.
    apply emits_finally; [done|]. by apply emits_call.
Qed.

End emits.

#[export] Hint Resolve emits_ret emits_raise emits_lift emits_out_of_fuel
  emits_bind emits_try emits_with_exit emits_finally emits_for_each emits_for_fold
  emits_raise_if emits_call emits_with_socket : netz.

(** ** Counting the events of a kind in passing runs *)

Definition count (f : event -> bool) (t : trace) : Z := len (List.filter f t).

Definition costs {W A} (f : event -> bool) (n : Z) (m : M W A) : Prop :=
  runs m (fun o t => forall a, o = Ok a -> count f t = n).

Lemma count_app f t1 t2 : count f (t1 ++ t2) = count f t1 + count f t2.
Proof. unfold count. by rewrite List.filter_app, len_app. Qed.

Lemma count_none f t : Forall (fun e => f e = false) t -> count f t = 0.
Proof.
  unfold count. induction 1 as [|e t He _ IH]; [done|].
  simpl. by rewrite He.
Qed.

Section costs.
  Context {W : Type} (f : event -> bool).

Lemma costs_weaken {A} (m : M W A) n n' : costs f n m -> n = n' -> costs f n' m.
Proof. by intros ? <-. Qed.

Lemma costs_emits {A} (m : M W A) :
    emits (fun e => f e = false) m -> costs f 0 m.
Proof. intros Hm. eapply runs_mono; [exact Hm|]. intros; by apply count_none. Qed.

Lemma costs_raise {A} n e : costs (W:=W) (A:=A) f n (raise e).
Proof. by apply runs_raise. Qed.

Lemma costs_bind {A B} (m : M W A) (k : A -> M W B) n1 n2 :
    costs f n1 m -> (forall a, costs f n2 (k a)) -> costs f (n1 + n2) (m ≫= k).
Proof.
    intros Hm Hk. apply runs_bind. eapply runs_mono; [exact Hm|].
    intros [a|e|] t Ho; try done. eapply runs_mono; [apply Hk|].
    intros o' t' Ho' b Hb. rewrite count_app, (Ho a), (Ho' b); done.
Qed.

Lemma costs_with_exit {A} (m : M W A) g n1 n2 :
    costs f n1 m -> costs f n2 (g false) -> costs f (n1 + n2) (with_exit m g).
Proof.
    intros Hm Hg. apply runs_with_exit. eapply runs_mono; [exact Hm|].
    intros [a|e|] t Ho; try done.
    - eapply runs_mono; [exact Hg|]. intros [u|?|] t' Ho' b Hb; try done.
      rewrite count_app, (Ho b), (Ho' u); done.
    - by intros w [] w' t' Hr.
Qed.

Lemma costs_finally {A} (m : M W A) g n1 n2 :
    costs f n1 m -> costs f n2 g -> costs f (n1 + n2) (finally m g).
Proof. apply (costs_with_exit m (fun _ => g)). Qed.

Lemma costs_for_each {A} (l : list A) (body : A -> M W unit) n :
    (forall x, costs f n (body x)) -> costs f (len l * n) (for_each l body).
Proof.
    intros Hb. induction l as [|x l IH]; simpl.
    - apply costs_emits, emits_ret.
    - eapply costs_weaken; [by apply costs_bind|]. unfold len. simpl. lia.
Qed.

Lemma costs_for_fold {A B} (l : list A) (body : B -> A -> M W B) acc n :
    (forall b x, costs f n (body b x)) -> costs f (len l * n) (for_fold l acc body).
Proof.
    intros Hb. revert acc. induction l as [|x l IH]; intros acc; simpl.
    - apply costs_emits, emits_ret.
    - eapply costs_weaken; [by apply costs_bind|]. unfold len. simpl. lia.
Qed.

Lemma costs_with_socket `{Platform W} {A} opened (body : sock -> M W A) n1 n2 :
    (forall s r, f (EvClose s r) = false) ->
    costs f n1 opened -> (forall s, costs f n2 (body s)) ->
    costs f (n1 + n2) (with_socket opened body).
Proof.
    intros Hc Ho Hb. apply costs_bind; [done|]. intros s.
    eapply costs_weaken; [apply costs_finally; [done|]|apply Z.add_0_r].
    by apply costs_emits, emits_call.
Qed.

End costs.

(** ** Monitors over traces *)

Section monitor.
  Context {X : Type} (step : X -> event -> option X).

Fixpoint watch (x : X) (t : trace) : option X :=
    match t with
    | [] => Some x
    | e :: t' => match step x e with Some x' => watch x' t' | None => None end
    end.

Lemma watch_app x t1 t2 :
    watch x (t1 ++ t2) = match watch x t1 with Some x' => watch x' t2 | None => None end.
Proof.
    revert x. induction t1 as [|e t1 IH]; intros x; simpl; [done|].
    destruct (step x e); simpl; auto.
Qed.

(** From every monitor state in [I], every run of [m] returns to it. *)
Definition keeps {W A} (I : X -> Prop) (m : M W A) : Prop :=
    forall x, I x -> runs m (fun o t => o <> Diverge -> watch x t = Some x).

Context {W : Type}.
Implicit Types I : X -> Prop.

Lemma keeps_weaken {A} I I' (m : M W A) :
    keeps I m -> (forall x, I' x -> I x) -> keeps I' m.
Proof. intros Hm HI x Hx. by apply Hm, HI. Qed.

Lemma keeps_ret {A} I (a : A) : keeps (W:=W) I (mret a).
Proof. intros x _. by apply runs_ret. Qed.

Lemma keeps_raise {A} I e : keeps (W:=W) (A:=A) I (raise e).
Proof. intros x _. by apply runs_raise. Qed.

Lemma keeps_lift {A} I (r : result A) : keeps (W:=W) I (lift r).
Proof. intros x _. by apply runs_lift. Qed.

Lemma keeps_out_of_fuel {A} I : keeps (W:=W) (A:=A) I out_of_fuel.
Proof. by intros x _ w o w' t [= <- <- <-]. Qed.

Lemma keeps_bind {A B} I (m : M W A) (k : A -> M W B) :
    keeps I m -> (forall a, keeps I (k a)) -> keeps I (m ≫= k).
Proof.
    intros Hm Hk x Hx. apply runs_bind. eapply runs_mono; [by apply Hm|].
    intros [a|e|] t Ho; simpl; [|by intros _; apply Ho|done].
    eapply runs_mono; [by apply (Hk a)|].
    intros o' t' Ho' Hd. rewrite watch_app, Ho by done. by apply Ho'.
Qed.

Lemma keeps_try {A} I (m : M W A) handled h :
    keeps I m -> (forall e, keeps I (h e)) -> keeps I (try_except m handled h).
Proof.
    intros Hm Hh x Hx. apply runs_try. eapply runs_mono; [by apply Hm|].
    intros [a|e|] t Ho; simpl; try done. destruct (handled e); [|done].
    eapply runs_mono; [by apply (Hh e)|].
    intros o' t' Ho' Hd. rewrite watch_app, Ho by done. by apply Ho'.
Qed.

Lemma keeps_with_exit {A} I (m : M W A) f :
    keeps I m -> (forall b, keeps I (f b)) -> keeps I (with_exit m f).
Proof.
    intros Hm Hf x Hx. apply runs_with_exit. eapply runs_mono; [by apply Hm|].
    intros [a|e|] t Ho; simpl; try done; (eapply runs_mono; [by apply Hf|]);
      intros [] t' Ho' Hd; try done; rewrite watch_app, Ho by done; by apply Ho'.
Qed.

Lemma keeps_finally {A} I (m : M W A) f :
    keeps I m -> keeps I f -> keeps I (finally m f).
Proof. intros. by apply keeps_with_exit. Qed.

Lemma keeps_for_each {A} I (l : list A) (body : A -> M W unit) :
    (forall x, keeps I (body x)) -> keeps I (for_each l body).
Proof.
    intros Hb. induction l; simpl; [apply keeps_ret|]. by apply keeps_bind.
Qed.

Lemma keeps_for_each_in {A} I (l : list A) (body : A -> M W unit) :
    (forall x, x ∈ l -> keeps I (body x)) -> keeps I (for_each l body).
Proof.
    induction l as [|y l IH]; intros Hb; simpl; [apply keeps_ret|].
    apply keeps_bind; [apply Hb, list_elem_of_here|].
    intros _. apply IH. intros x Hx. by apply Hb, list_elem_of_further.
Qed.

(** Over a list that is written out, the rounds are taken one by one. *)
Lemma keeps_for_each_nil {A} I (body : A -> M W unit) : keeps I (for_each [] body).
Proof. apply keeps_ret. Qed.

Lemma keeps_for_each_cons {A} I x (l : list A) (body : A -> M W unit) :
    keeps I (body x) -> keeps I (for_each l body) -> keeps I (for_each (x :: l) body).
Proof. intros. by apply keeps_bind. Qed.

Lemma keeps_for_fold_nil {A B} I acc (body : B -> A -> M W B) :
    keeps I (for_fold [] acc body).
Proof. apply keeps_ret. Qed.

Lemma keeps_for_fold_cons {A B} I x (l : list A) acc (body : B -> A -> M W B) :
    keeps I (body acc x) -> (forall b, keeps I (for_fold l b body)) ->
    keeps I (for_fold (x :: l) acc body).
Proof. intros. by apply keeps_bind. Qed.

Lemma keeps_for_fold {A B} I (l : list A) (body : B -> A -> M W B) acc :
    (forall b x, keeps I (body b x)) -> keeps I (for_fold l acc body).
Proof.
    intros Hb. revert acc. induction l; intros acc; simpl; [apply keeps_ret|].
    apply keeps_bind; auto.
Qed.

Lemma keeps_raise_if I b e : keeps (W:=W) I (raise_if b e).
Proof. destruct b; [apply keeps_raise|apply keeps_ret]. Qed.

Lemma keeps_call {A} I (f : W -> result A * W) ev :
    (forall x r, I x -> step x (ev r) = Some x) -> keeps I (call f ev).
Proof.
    intros Hs x Hx. apply runs_call. intros w r w' _ _. simpl.
    by rewrite Hs.
Qed.

End monitor.

#[export] Hint Resolve keeps_ret keeps_raise keeps_lift keeps_out_of_fuel
  keeps_bind keeps_try keeps_with_exit keeps_finally keeps_for_each keeps_for_fold
  keeps_raise_if keeps_for_each_nil keeps_for_fold_nil : netz.
#[export] Hint Resolve keeps_for_each_cons keeps_for_fold_cons | 0 : netz.
