(* ===== verification/Canned.v ===== *)
(** * A canned platform

    A concrete [Platform] on which the driver can be evaluated: every
    connection that it accepts has a prepared inbox, data in chunks of any
    size, an end of stream, or an exception for one [recv].  It satisfies
    [PlatformLaws]; the theorems over all platforms are instantiated with it
    at concrete inputs. *)

From Stdlib Require Import ZArith Lia.
From stdpp Require Import base list option strings.
From S2P Require Import Prelude PyValues Effects.
Local Open Scope Z_scope.

Inductive inbox_item : Type :=
  | Chunk (c : bytes)
  | Eof
  | Fault (e : exn).

Record canned : Type := Canned {
  inboxes : list (list inbox_item);     (** by connection, in order *)
  accepted : nat;                       (** connections so far *)
  refuses_after : nat;                  (** connections the listener accepts *)
  launched : nat;                       (** processes so far *)
  log_line : string;                    (** first line of a broker's log *)
  exit_status : result Z;               (** what [wait] reports; -15 once terminated *)
}.

(** A listener that accepts every connection, with these inboxes, and a broker
    that starts and exits cleanly. *)
Definition good (l : list (list inbox_item)) : canned :=
  Canned l 0 1000 0 "netz mqtt broker listening" (inr 0).

Definition set_inboxes l (w : canned) : canned :=
  Canned l w.(accepted) w.(refuses_after) w.(launched) w.(log_line) w.(exit_status).

(** Socket handles are the connections' numbers; an exhausted inbox times
    out, an end of stream stays. *)
Definition canned_recv (s : sock) (n : Z) (w : canned) : result bytes * canned :=
  match w.(inboxes) !! s with
  | Some (Chunk c :: items) =>
      let got := take (Z.to_nat n) c in
      let left := drop (Z.to_nat n) c in
      (inr got,
       set_inboxes (<[s := if decide (left = []) then items else Chunk left :: items]>
                      w.(inboxes)) w)
  | Some (Eof :: _) => (inr [], w)
  | Some (Fault e :: items) => (inl e, set_inboxes (<[s := items]> w.(inboxes)) w)
  | _ => (inl SocketTimeout, w)
  end.

Definition canned_connect (w : canned) : result sock * canned :=
  if decide (w.(accepted) < w.(refuses_after))%nat then
    (inr w.(accepted),
     Canned w.(inboxes) (S w.(accepted)) w.(refuses_after) w.(launched)
       w.(log_line) w.(exit_status))
  else (inl (OSError "connection refused"), w).

#[export] Instance canned_platform : Platform canned := {|
  sys_socket w := (inr 1000%nat, w);
  sys_bind _ _ _ w := (inr tt, w);
  sys_getsockname _ w := (inr ("127.0.0.1", 18830), w);
  sys_create_connection _ _ _ w := canned_connect w;
  sys_settimeout _ _ w := (inr tt, w);
  sys_sendall _ _ w := (inr tt, w);
  sys_recv := canned_recv;
  sys_close _ w := (inr tt, w);
  sys_popen _ w :=
    (inr w.(launched),
     Canned w.(inboxes) w.(accepted) w.(refuses_after) (S w.(launched))
       w.(log_line) w.(exit_status));
  sys_readline _ w := (inr w.(log_line), w);
  sys_read _ w := (inr "", w);
  sys_wait _ _ w := (w.(exit_status), w);
  sys_terminate _ w :=
    (inr tt, Canned w.(inboxes) w.(accepted) w.(refuses_after) w.(launched)
               w.(log_line) (inr (-15)));
  sys_sleep _ w := (inr tt, w);
  sys_print _ w := (inr tt, w);
|}.

#[export] Instance canned_laws : PlatformLaws canned.
Proof.
  split; [|eauto]. intros s n w bs w' Hn. unfold sys_recv; simpl. unfold canned_recv.
  destruct (inboxes w !! s) as [[|[c| |e] items]|]; intros [= <- <-].
  - unfold len. rewrite length_take. lia.
  - done.
Qed.

