(* ===== verification/Wire.v ===== *)
(** * Packet framing: [recv_exact] and [read_packet]

    The driver reads the broker's byte stream one MQTT control packet at a
    time.  The model follows the two loops of the source; the theorems relate
    them to the MQTT framing ([packet], [vbi]) whatever the chunks in which
    the operating system delivers the stream. *)

From Stdlib Require Import ZArith Lia.
From stdpp Require Import base list option strings.
From S2P Require Import Prelude PyValues Effects Traces Canned.
Local Open Scope Z_scope.

(** ** The code *)

Section wire.
  Context {W : Type} `{Platform W}.

Definition closed_early : exn :=
    AssertionError "broker closed before complete packet".

Definition malformed_length : exn :=
    AssertionError "malformed MQTT Remaining Length".

(** The loop of [recv_exact]: [result] is the accumulated [bytearray]. *)
Fixpoint recv_loop (fuel : nat) (s : sock) (count : Z) (result : bytes)
    : M W bytes :=
    if decide (len result < count) then
      match fuel with
      | O => out_of_fuel
      | S fuel' =>
          part ← recv s (count - len result);
          if decide (part = []) then raise closed_early
          else recv_loop fuel' s count (result ++ part)
      end
    else mret result.

(** Every iteration appends at least one byte, so [count] of them are enough. *)
Definition recv_exact (s : sock) (count : Z) : M W bytes :=
    recv_loop (Z.to_nat count) s count [].

(** The loop of [read_packet] over the Remaining Length field. *)
Fixpoint length_loop (fuel : nat) (s : sock) (remaining_bytes : bytes)
      (multiplier remaining : Z) : M W (bytes * Z) :=
    match fuel with
    | O => out_of_fuel
    | S fuel' =>
        one ← recv_exact s 1;
        encoded ← lift (py_index one 0);
        let remaining_bytes := remaining_bytes ++ [encoded] in
        let remaining := remaining + Z.land (b2z encoded) 0x7F * multiplier in
        if decide (Z.land (b2z encoded) 0x80 = 0)
        then mret (remaining_bytes, remaining)
        else
          let multiplier := multiplier * 128 in
          if decide (multiplier > 128 * 128 * 128) then raise malformed_length
          else length_loop fuel' s remaining_bytes multiplier remaining
    end.

(** The multiplier test ends the loop in its fourth round at the latest. *)
Definition read_packet (s : sock) : M W bytes :=
    fixed ← recv_exact s 1;
    '(remaining_bytes, remaining) ← length_loop 4 s [] 1 0;
    body ← recv_exact s remaining;
    mret (fixed ++ remaining_bytes ++ body).

End wire.

(** ** MQTT framing *)

(** A variable byte integer: every byte but the last has its high bit set. *)
Inductive vbi : bytes -> Z -> Prop :=
  | vbi_last b : b2z b < 128 -> vbi [b] (b2z b)
  | vbi_more b bs n :
      128 <= b2z b -> vbi bs n -> vbi (b :: bs) (b2z b - 128 + 128 * n).

(** A control packet: a fixed header byte, the length of the rest in at most
    four bytes, the rest. *)
Definition packet (p : bytes) : Prop :=
  exists fixed rl body,
    p = fixed :: rl ++ body /\ vbi rl (len body) /\ (length rl <= 4)%nat.

(** The encoder that the MQTT specification gives for a Remaining Length. *)
Fixpoint encode_vbi (fuel : nat) (n : Z) : bytes :=
  match fuel with
  | O => []
  | S fuel' =>
      if decide (n < 128) then [lo8 n]
      else lo8 (n mod 128 + 128) :: encode_vbi fuel' (n / 128)
  end.

Definition frame (fixed : byte) (body : bytes) : bytes :=
  fixed :: encode_vbi 4 (len body) ++ body.

(** ** Facts about the framing *)

Lemma land_7F b : Z.land (b2z b) 0x7F = b2z b mod 128.
Proof. by destruct b. Qed.

Lemma land_80 b : Z.land (b2z b) 0x80 = 0 <-> b2z b < 128.
Proof. by destruct b; vm_compute; split. Qed.

Lemma vbi_nonneg bs n : vbi bs n -> 0 <= n.
Proof. induction 1; pose proof (b2z_range b); lia. Qed.

Lemma vbi_bound bs n : vbi bs n -> n < 128 ^ len bs.
Proof.
  induction 1 as [b Hb|b bs n Hb Hv IH].
  - by change (128 ^ len [b]) with 128.
  - pose proof (b2z_range b).
    replace (len (b :: bs)) with (len bs + 1) by (unfold len; simpl; lia).
    rewrite Z.pow_add_r by (unfold len; lia). lia.
Qed.

(** A value has one reading: [vbi] is a function of the bytes, and no
    encoding is a prefix of another. *)
Lemma vbi_prefix_det bs n bs' n' r r' :
  vbi bs n -> vbi bs' n' -> bs ++ r = bs' ++ r' -> bs = bs' /\ n = n'.
Proof.
  intros Hv. revert bs' n'. induction Hv as [b Hb|b bs n Hb Hv IH];
    intros bs' n' Hv' Happ; destruct Hv' as [b' Hb'|b' bs' n' Hb' Hv'];
    injection Happ as -> Happ; try lia; [done|].
  destruct (IH _ _ Hv' Happ). by subst.
Qed.

Lemma encode_vbi_ok k n :
  (0 < k)%nat -> 0 <= n < 128 ^ Z.of_nat k ->
  vbi (encode_vbi k n) n /\ (length (encode_vbi k n) <= k)%nat.
Proof.
  revert n. induction k as [|k IH]; intros n Hk Hn; [lia|]. simpl.
  case_decide as Hs.
  - split; [|simpl; lia].
    rewrite <-(Z.mod_small n 256) at 2 by lia. rewrite <-b2z_lo8.
    constructor. rewrite b2z_lo8, Z.mod_small; lia.
  - rewrite Nat2Z.inj_succ, Z.pow_succ_r in Hn by lia.
    assert (Hk' : (0 < k)%nat) by (destruct k; [simpl in Hn; lia|lia]).
    pose proof (Z.div_mod n 128 ltac:(lia)) as Hdm.
    pose proof (Z.mod_pos_bound n 128 ltac:(lia)) as Hmb.
    destruct (IH (n / 128) Hk') as [Hv Hl].
    { split; [apply Z.div_pos; lia|apply Z.div_lt_upper_bound; lia]. }
    assert (Hb : b2z (lo8 (n mod 128 + 128)) = n mod 128 + 128).
    { rewrite b2z_lo8, Z.mod_small; lia. }
    split; [|simpl; lia].
    replace n with (b2z (lo8 (n mod 128 + 128)) - 128 + 128 * (n / 128)) at 3 by lia.
    constructor; [lia|done].
Qed.

Lemma frame_packet fixed body : len body < 128 ^ 4 -> packet (frame fixed body).
Proof.
  intros Hl. destruct (encode_vbi_ok 4 (len body)) as [Hv Hk]; [lia| |].
  { split; [apply len_nonneg|done]. }
  by exists fixed, (encode_vbi 4 (len body)), body.
Qed.

(** ** Byte streams

    [serves s K bs w]: from platform state [w] the next bytes of socket [s]
    are [bs], delivered in non-empty chunks of whatever sizes the operating
    system likes; once they are consumed the state satisfies [K].  Nothing
    follows [bs]: a [recv] that asks for more gets at most the rest of it. *)

Section stream.
  Context {W : Type} `{Platform W}.

Inductive serves (s : sock) (K : W -> Prop) : bytes -> W -> Prop :=
  | serves_done w : K w -> serves s K [] w
  | serves_more b bs w :
      (forall n, 0 < n -> exists c rest w',
         b :: bs = c ++ rest /\ c <> [] /\ len c <= n /\
         sys_recv s n w = (inr c, w') /\ serves s K rest w') ->
      serves s K (b :: bs) w.

(** [streams s K bs w]: the same, with any bytes behind [bs].  A [recv] may
    return bytes beyond [bs], as when several packets have arrived in one
    buffer; whoever consumes exactly [bs] is then in a state of [K]. *)
Inductive streams (s : sock) (K : W -> Prop) : bytes -> W -> Prop :=
  | streams_done w : K w -> streams s K [] w
  | streams_more b bs w :
      (forall n, 0 < n -> exists c w',
         sys_recv s n w = (inr c, w') /\ c <> [] /\ len c <= n /\
         ((exists rest, b :: bs = c ++ rest /\ streams s K rest w') \/
          (exists more, more <> [] /\ c = (b :: bs) ++ more))) ->
      streams s K (b :: bs) w.

(** The stream has ended: [recv] returns [b""]. *)
Definition at_eof (s : sock) (w : W) : Prop :=
    forall n, 0 < n -> exists w', sys_recv s n w = (inr [], w').

(** The stream is silent or broken: [recv] raises. *)
Definition fails_with (s : sock) (e : exn) (w : W) : Prop :=
    forall n, 0 < n -> exists w', sys_recv s n w = (inl e, w').

(** What [recv_loop] answers when the stream stops short. *)
Inductive stops (s : sock) : exn -> W -> Prop :=
  | stops_eof w : at_eof s w -> stops s closed_early w
  | stops_error e w : fails_with s e w -> stops s e w.

(** What remains behind a non-empty chunk is shorter. *)
Lemma rest_shorter (bs c rest : bytes) :
    bs = c ++ rest -> c <> [] -> (length rest < length bs)%nat.
Proof. intros -> Hc. rewrite length_app. destruct c; [done|simpl; lia]. Qed.

Lemma serves_mono s (K K' : W -> Prop) bs w :
    (forall v, K v -> K' v) -> serves s K bs w -> serves s K' bs w.
Proof.
    intros HK. remember (length bs) as n eqn:Hn. revert bs w Hn.
    induction n as [n IH] using lt_wf_ind. intros bs w -> Hs.
    destruct Hs as [w Hw|b bs w Hs]; [constructor; auto|].
    constructor. intros k Hk. destruct (Hs k Hk) as (c & rest & w' & Hc & Hc0 & ? & ? & Hr).
    exists c, rest, w'. split_and!; try done.
    eapply IH; [|done|done]. by eapply rest_shorter.
Qed.

Lemma streams_mono s (K K' : W -> Prop) bs w :
    (forall v, K v -> K' v) -> streams s K bs w -> streams s K' bs w.
Proof.
    intros HK. remember (length bs) as n eqn:Hn. revert bs w Hn.
    induction n as [n IH] using lt_wf_ind. intros bs w -> Hs.
    destruct Hs as [w Hw|b bs w Hs]; [constructor; auto|].
    constructor. intros k Hk. destruct (Hs k Hk) as (c & w' & Hr & Hc & Hl & Hcase).
    exists c, w'. split_and!; try done. destruct Hcase as [(rest & Hb & Hs')|?]; [left|by right].
    exists rest. split; [done|]. eapply IH; [|done|done]. by eapply rest_shorter.
Qed.

(** A stream taken in two parts: the bytes of the second are among those that
    may come along with the first. *)
Lemma serves_app s K bs1 bs2 w :
    serves s K (bs1 ++ bs2) w -> streams s (serves s K bs2) bs1 w.
Proof.
    remember (length bs1) as n eqn:Hn. revert bs1 w Hn.
    induction n as [n IH] using lt_wf_ind. intros bs1 w -> Hs.
    destruct bs1 as [|b bs1]; [by constructor|].
    simpl in Hs. inversion Hs as [|b' bs' w' Hk]; subst. constructor. intros k Hk0.
    destruct (Hk k Hk0) as (c & rest & w' & Hb & Hc & Hl & Hr & Hs').
    exists c, w'. split_and!; try done.
    change (b :: bs1 ++ bs2) with ((b :: bs1) ++ bs2) in Hb.
    apply app_eq_inv in Hb as [(k' & Hb & ->)|(k' & -> & ->)].
    - left. exists k'. split; [done|]. eapply IH; [|done|done]. by eapply rest_shorter.
    - destruct (decide (k' = [])) as [->|Hk']; [|right; by exists k'].
      left. exists []. rewrite !app_nil_r. split; [done|]. by constructor.
Qed.

Lemma streams_app s K bs1 bs2 w :
    streams s K (bs1 ++ bs2) w -> streams s (streams s K bs2) bs1 w.
Proof.
    remember (length bs1) as n eqn:Hn. revert bs1 w Hn.
    induction n as [n IH] using lt_wf_ind. intros bs1 w -> Hs.
    destruct bs1 as [|b bs1]; [by constructor|].
    simpl in Hs. inversion Hs as [|b' bs' w' Hk]; subst. constructor. intros k Hk0.
    destruct (Hk k Hk0) as (c & w' & Hr & Hc & Hl & Hcase).
    exists c, w'. split_and!; try done.
    destruct Hcase as [(rest & Hb & Hs')|(more & Hm & ->)].
    - change (b :: bs1 ++ bs2) with ((b :: bs1) ++ bs2) in Hb.
      apply app_eq_inv in Hb as [(k' & Hb & ->)|(k' & -> & ->)].
      + left. exists k'. split; [done|]. eapply IH; [|done|done]. by eapply rest_shorter.
      + destruct (decide (k' = [])) as [->|Hk']; [|right; by exists k'].
        left. exists []. rewrite !app_nil_r. split; [done|]. by constructor.
    - right. exists (bs2 ++ more). split; [by destruct bs2|].
      simpl. by rewrite <-(assoc_L (++)).
Qed.

(** A [recv] within [bs] returns a beginning of it. *)
Lemma recv_streams s K n bs w :
    0 < n <= len bs -> streams s K bs w ->
    exists c rest w', bs = c ++ rest /\ c <> [] /\
      recv s n w = (Ok c, w', [EvRecv s n (inr c)]) /\ streams s K rest w'.
Proof.
    intros Hn Hs. destruct Hs as [|b bs w Hs]; [unfold len in Hn; simpl in Hn; lia|].
    destruct (Hs n (proj1 Hn)) as (c & w' & Hr & Hc & Hl & Hcase).
    unfold recv, call. rewrite Hr.
    destruct Hcase as [(rest & Hb & Hs')|(more & Hm & ->)]; [by exists c, rest, w'|].
    destruct Hm. apply len_nil_inv. rewrite len_app in Hl. pose proof (len_nonneg more). lia.
Qed.

(** [recv_loop] collects exactly the bytes that are missing. *)
Lemma recv_loop_streams fuel s K count acc bs w :
    count = len acc + len bs -> (length bs <= fuel)%nat -> streams s K bs w ->
    exists w' t, recv_loop fuel s count acc w = (Ok (acc ++ bs), w', t) /\ K w'.
Proof.
    revert acc bs w. induction fuel as [|fuel IH]; intros acc bs w Hn Hf Hs; simpl;
      (destruct bs as [|b bs];
       [rewrite decide_False by (unfold len in *; simpl in *; lia); rewrite app_nil_r;
        inversion Hs; eauto|]); [simpl in Hf; lia|].
    assert (0 < len (b :: bs)) by (unfold len; simpl; lia). rewrite decide_True by lia.
    destruct (recv_streams s K (count - len acc) (b :: bs) w)
      as (c & rest & w1 & Hb & Hc & Hr & Hs1); [lia|done|].
    unfold mbind, M_bind. rewrite Hr, decide_False by done.
    pose proof (rest_shorter _ _ _ Hb Hc) as Hlt. rewrite Hb in Hn |- *.
    destruct (IH (acc ++ c) rest w1) as (w2 & t2 & Hl & HK); [|simpl in *; lia|done|].
    { rewrite len_app in Hn. rewrite len_app. lia. }
    exists w2. eexists. rewrite Hl, <-(assoc_L (++)). done.
Qed.

Lemma recv_exact_streams s K bs w :
    streams s K bs w ->
    exists w' t, recv_exact s (len bs) w = (Ok bs, w', t) /\ K w'.
Proof.
    intros Hs. unfold recv_exact. apply (recv_loop_streams _ s K (len bs) [] bs w); [done| |done].
    unfold len. lia.
Qed.

(** A stream that stops before [count] bytes makes [recv_loop] raise. *)
Lemma recv_loop_stops fuel s e count acc bs w :
    len acc + len bs < count -> (Z.to_nat (count - len acc) <= fuel)%nat ->
    serves s (stops s e) bs w ->
    exists w' t, recv_loop fuel s count acc w = (Raise e, w', t).
Proof.
    revert acc bs w. induction fuel as [|fuel IH]; intros acc bs w Hc Hf Hs; simpl;
      pose proof (len_nonneg bs); rewrite decide_True by lia; [lia|].
    unfold mbind, M_bind, recv, call. inversion Hs as [w0 Hk Heq|b bs' w0 Hk Heq]; subst.
    - destruct Hk as [w Hk|e w Hk];
        destruct (Hk (count - len acc) ltac:(lia)) as [w' ->]; simpl; eauto.
    - destruct (Hk (count - len acc) ltac:(lia)) as (c & r & w' & Hcr & Hc0 & Hl & -> & Hs').
      simpl. rewrite decide_False by done. rewrite Hcr, len_app in *.
      assert (0 < len c) by (destruct c; [done|unfold len; simpl; lia]).
      destruct (IH (acc ++ c) r w') as (w2 & t2 & ->); [rewrite len_app; lia| |done|eauto].
      rewrite len_app. lia.
Qed.

Lemma recv_exact_stops s e count bs w :
    len bs < count -> serves s (stops s e) bs w ->
    exists w' t, recv_exact s count w = (Raise e, w', t).
Proof.
    intros Hl Hs. apply (recv_loop_stops _ s e count [] bs w); [..|done];
      change (len (@nil byte)) with 0; lia.
Qed.

End stream.

(** ** [read_packet] on a byte stream *)

Section read_packet.
  Context {W : Type} `{Platform W}.

(** One round of the length loop, on the byte [b]. *)
Lemma length_loop_step fuel s K rb mult acc b w :
    streams s K [b] w ->
    exists w' t,
      K w' /\
      length_loop (S fuel) s rb mult acc w =
        (let acc' := acc + (b2z b mod 128) * mult in
         let '(o, w2, t2) :=
           (if decide (b2z b < 128) then mret (rb ++ [b], acc')
            else if decide (mult * 128 > 128 * 128 * 128) then raise malformed_length
            else length_loop fuel s (rb ++ [b]) (mult * 128) acc') w'
         in (o, w2, t ++ t2)).
Proof.
    intros Hs. destruct (recv_exact_streams s K [b] w Hs) as (w1 & t1 & Hr & Hs1).
    exists w1, t1. split; [done|]. simpl length_loop. change (len [b]) with 1 in Hr.
    unfold mbind at 1, M_bind at 1. rewrite Hr.
    unfold mbind, M_bind, lift. simpl. rewrite land_7F.
    destruct (decide (b2z b < 128)) as [Hb|Hb].
    - by rewrite decide_True by (by apply land_80).
    - rewrite decide_False by (by rewrite land_80).
      match goal with |- context [(if decide (_ > _) then ?a else ?b) w1] =>
        destruct ((if decide (mult * 128 > 128 * 128 * 128) then a else b) w1)
          as [[o2 w2] t2] end. done.
Qed.

(** A well-formed length field is decoded to the value it denotes. *)
Lemma length_loop_vbi fuel s K rb mult acc rl n w :
    vbi rl n -> (length rl <= fuel)%nat ->
    1 <= mult -> mult * 128 ^ (len rl - 1) <= 128 * 128 * 128 ->
    streams s K rl w ->
    exists w' t, length_loop fuel s rb mult acc w = (Ok (rb ++ rl, acc + n * mult), w', t) /\
                 K w'.
Proof.
    intros Hv. revert fuel rb mult acc w.
    induction Hv as [b Hb|b rl n Hb Hv IH]; intros fuel rb mult acc w Hf Hm1 Hm Hs;
      (destruct fuel as [|fuel]; [simpl in Hf; lia|]);
      pose proof (b2z_range b) as Hr.
    - destruct (length_loop_step fuel s K rb mult acc b w Hs) as (w1 & t1 & Hs1 & ->). cbv zeta.
      rewrite decide_True by done. simpl. rewrite Z.mod_small by lia. eauto.
    - apply (streams_app s K [b] rl) in Hs.
      destruct (length_loop_step fuel s _ rb mult acc b w Hs) as (w1 & t1 & Hs1 & ->). cbv zeta.
      assert (Hpow : 128 ^ (len (b :: rl) - 1) = 128 * 128 ^ (len rl - 1)).
      { rewrite <-Z.pow_succ_r; [f_equal; unfold len; simpl; lia|].
        destruct Hv; unfold len; simpl; lia. }
      assert (1 <= 128 ^ (len rl - 1)) by (pose proof (Z.pow_pos_nonneg 128 (len rl - 1));
        destruct Hv; unfold len in *; simpl in *; lia).
      rewrite Hpow in Hm.
      rewrite decide_False by lia. rewrite decide_False by nia.
      destruct (IH fuel (rb ++ [b]) (mult * 128) (acc + (b2z b mod 128) * mult) w1)
        as (w2 & t2 & -> & Hs2); try done; [simpl in Hf; lia|lia|nia|].
      exists w2. eexists. split; [|done]. rewrite <-(assoc_L (++)). simpl.
      do 4 f_equal. rewrite <-(Z.mod_small (b2z b - 128) 128) by lia.
      replace (b2z b) with (b2z b - 128 + 1 * 128) at 1 by lia.
      rewrite Z.mod_add by lia. ring.
Qed.

(** Four bytes of length keep the multiplier within its bound. *)
Lemma multiplier_bound (rl : bytes) :
    (length rl <= 4)%nat -> 1 * 128 ^ (len rl - 1) <= 128 * 128 * 128.
Proof.
    intros Hl. change (128 * 128 * 128) with (128 ^ 3). rewrite Z.mul_1_l.
    apply Z.pow_le_mono_r; unfold len; lia.
Qed.

(** [read_packet] returns the first packet of the stream, whatever the chunks
    and whatever has arrived behind it. *)
Lemma read_packet_streams s K p w :
    packet p -> streams s K p w ->
    exists w' t, read_packet s w = (Ok p, w', t) /\ K w'.
Proof.
    intros (fixed & rl & body & -> & Hv & Hl) Hs.
    apply (streams_app s K [fixed] (rl ++ body)) in Hs.
    destruct (recv_exact_streams s _ [fixed] w Hs) as (w1 & t1 & Hr1 & Hs1%streams_app).
    destruct (length_loop_vbi 4 s (streams s K body) [] 1 0 rl (len body) w1 Hv Hl) as (w2 & t2 & Hr2 & Hs2);
      [done|by apply multiplier_bound|exact Hs1|].
    rewrite Z.mul_1_r, Z.add_0_l in Hr2.
    destruct (recv_exact_streams s K body w2 Hs2) as (w3 & t3 & Hr3 & HK).
    exists w3. eexists. split; [|done]. unfold read_packet, mbind, M_bind.
    change (len [fixed]) with 1 in Hr1. rewrite Hr1, Hr2, Hr3. simpl. reflexivity.
Qed.

(** ... and it leaves the rest unread. *)
Lemma read_packet_serves s K p rest w :
    packet p -> serves s K (p ++ rest) w ->
    exists w' t, read_packet s w = (Ok p, w', t) /\ serves s K rest w'.
Proof. intros Hp Hs%serves_app. by apply read_packet_streams. Qed.

End read_packet.

(** ** What a successful read has consumed *)

Inductive reads (s : sock) : bytes -> trace -> Prop :=
  | reads_nil : reads s [] []
  | reads_chunk n c bs t :
      c <> [] -> 0 < n -> len c <= n -> reads s bs t ->
      reads s (c ++ bs) (EvRecv s n (inr c) :: t).

Lemma reads_app s bs1 bs2 t1 t2 :
  reads s bs1 t1 -> reads s bs2 t2 -> reads s (bs1 ++ bs2) (t1 ++ t2).
Proof.
  intros H1 H2. induction H1 as [|n c bs t Hc Hn Hl H1 IH]; simpl; [done|].
  rewrite <-(assoc_L (++)). by constructor.
Qed.

(** At most one call of [recv] per byte. *)
Lemma reads_length s bs t : reads s bs t -> (length t <= length bs)%nat.
Proof.
  induction 1 as [|n c bs t Hc _ _ _ IH]; simpl; [done|].
  rewrite length_app. destruct c; [done|]. simpl. lia.
Qed.

Section sound.
  Context {W : Type} `{PlatformLaws W}.

Lemma recv_loop_reads fuel s count acc :
    len acc <= count ->
    runs (recv_loop fuel s count acc) (fun o t => forall bs, o = Ok bs ->
      exists new, bs = acc ++ new /\ len bs = count /\ reads s new t).
Proof.
    revert acc. induction fuel as [|fuel IH]; intros acc Hacc; simpl.
    - case_decide; [by intros w o w' t [= <- <- <-]|].
      apply runs_ret. intros bs [= <-]. exists []. rewrite app_nil_r.
      split_and!; [done|lia|constructor].
    - case_decide as Hlt.
      + apply runs_bind, runs_call. intros w [e|c] w' Hr; simpl; [done|].
        case_decide as Hc; [by apply runs_raise|].
        assert (Hb : len c <= count - len acc) by (eapply sys_recv_bound; [|exact Hr]; lia).
        eapply runs_mono; [apply IH; rewrite len_app; lia|].
        intros o t Ho bs Hbs. destruct (Ho bs Hbs) as (new & -> & Hl & Hrd).
        exists (c ++ new). rewrite <-(assoc_L (++)) in *.
        split_and!; [done|done|by constructor; [|lia|..]].
      + apply runs_ret. intros bs [= <-]. exists []. rewrite app_nil_r.
        split_and!; [done|lia|constructor].
Qed.

(** [recv_exact(sock, count)] returns exactly [count] bytes, which are the
    bytes it consumed. *)
Lemma recv_exact_reads s count :
    0 <= count ->
    runs (recv_exact s count) (fun o t => forall bs, o = Ok bs ->
      len bs = count /\ reads s bs t).
Proof.
    intros Hc. eapply runs_mono; [by apply recv_loop_reads|].
    intros o t Ho bs Hbs. by destruct (Ho bs Hbs) as (new & -> & ? & ?).
Qed.

Lemma length_loop_reads fuel s rb mult acc :
    runs (length_loop fuel s rb mult acc) (fun o t => forall r, o = Ok r ->
      exists rl n, r = (rb ++ rl, acc + n * mult) /\ vbi rl n /\
        (length rl <= fuel)%nat /\ reads s rl t).
Proof.
    revert rb mult acc. induction fuel as [|fuel IH]; intros rb mult acc; simpl.
    { by intros w o w' t [= <- <- <-]. }
    apply runs_bind. eapply runs_mono; [by apply recv_exact_reads|].
    intros [one|e|] t Ho; try done. destruct (Ho one eq_refl) as [Hl Hrd].
    destruct one as [|b [|? ?]]; [done| |unfold len in Hl; simpl in Hl; lia].
    apply runs_bind, runs_lift. simpl. rewrite land_7F.
    pose proof (b2z_range b) as Hrange. case_decide as Hb.
    - apply runs_ret. intros r [= <-]. exists [b], (b2z b). rewrite app_nil_r.
      apply land_80 in Hb. rewrite Z.mod_small by lia.
      split_and!; [done|by constructor|simpl; lia|done].
    - rewrite land_80 in Hb. case_decide; [by apply runs_raise|].
      eapply runs_mono; [apply IH|]. intros o t' Ho' r Hr.
      destruct (Ho' r Hr) as (rl & n & -> & Hv & Hk & Hrd').
      exists (b :: rl), (b2z b - 128 + 128 * n).
      split_and!; [|by constructor; [lia|]|simpl; lia|by apply (reads_app s [b] rl)].
      rewrite <-(assoc_L (++)). simpl. f_equal.
      rewrite <-(Z.mod_small (b2z b - 128) 128) by lia.
      replace (b2z b) with (b2z b - 128 + 1 * 128) at 1 by lia.
      rewrite Z.mod_add by lia. ring.
Qed.

(** What [read_packet] returns is one well-formed packet, and exactly the
    bytes it consumed from the socket. *)
Lemma read_packet_reads s :
    runs (read_packet s) (fun o t => forall p, o = Ok p -> packet p /\ reads s p t).
Proof.
    apply runs_bind. eapply runs_mono; [by apply recv_exact_reads|].
    intros [fixed|e|] t Ho; try done. destruct (Ho fixed eq_refl) as [Hl Hrd].
    destruct fixed as [|h [|? ?]]; [done| |unfold len in Hl; simpl in Hl; lia].
    apply runs_bind. eapply runs_mono; [apply length_loop_reads|].
    intros [r|e|] t2 Ho2; try done.
    destruct (Ho2 r eq_refl) as (rl & n & -> & Hv & Hk & Hrd2).
    rewrite Z.mul_1_r, Z.add_0_l. apply runs_bind.
    eapply runs_mono; [apply recv_exact_reads, (vbi_nonneg rl n Hv)|].
    intros [body|e|] t3 Ho3; try done. destruct (Ho3 body eq_refl) as [<- Hrd3].
    apply runs_ret. intros p [= <-]. rewrite app_nil_r. split.
    - by exists h, rl, body.
    - apply (reads_app s [h]); [done|]. by apply reads_app.
Qed.

End sound.

(** ** Termination and footprint *)

Section footprint.
  Context {W : Type} `{Platform W}.

Lemma recv_loop_terminates fuel s count acc :
    (Z.to_nat (count - len acc) <= fuel)%nat -> terminates (recv_loop fuel s count acc).
Proof.
    revert acc. induction fuel as [|fuel IH]; intros acc Hf; simpl;
      case_decide as Hlt; try apply terminates_ret; [lia|].
    apply terminates_bind; [apply terminates_call|]. intros c.
    case_decide as Hc; [apply terminates_raise|]. apply IH.
    rewrite len_app. assert (0 < len c) by (destruct c; [done|unfold len; simpl; lia]). lia.
Qed.

Lemma recv_exact_terminates s count : terminates (recv_exact s count).
Proof. apply recv_loop_terminates. change (len (@nil byte)) with 0. lia. Qed.

Lemma length_loop_terminates fuel s rb mult acc :
    0 < mult <= 128 ^ 3 -> 128 ^ 3 < mult * 128 ^ Z.of_nat fuel ->
    terminates (length_loop fuel s rb mult acc).
Proof.
    revert rb mult acc. induction fuel as [|fuel IH]; intros rb mult acc Hm Hf;
      [simpl in Hf; lia|]. rewrite Nat2Z.inj_succ, Z.pow_succ_r in Hf by lia.
    simpl. apply terminates_bind; [apply recv_exact_terminates|]. intros one.
    apply terminates_bind; [apply terminates_lift|]. intros b.
    case_decide; [apply terminates_ret|]. case_decide; [apply terminates_raise|].
    apply IH; lia.
Qed.

Lemma read_packet_terminates s : terminates (read_packet s).
Proof.
    apply terminates_bind; [apply recv_exact_terminates|]. intros fixed.
    apply terminates_bind; [by apply length_loop_terminates|]. intros [rb n].
    apply terminates_bind; [apply recv_exact_terminates|]. intros body.
    apply terminates_ret.
Qed.

(** The only system call of the readers is [recv] on their socket. *)
Definition is_recv (s : sock) (e : event) : Prop := exists n r, e = EvRecv s n r.

Lemma recv_exact_emits s count : emits (is_recv s) (recv_exact s count).
Proof.
    unfold recv_exact. generalize (@nil byte). generalize (Z.to_nat count).
    intros fuel. induction fuel as [|fuel IH]; intros acc; simpl; case_decide;
      try apply emits_ret; [apply emits_out_of_fuel|].
    apply emits_bind; [apply emits_call; unfold is_recv; eauto|].
    intros c. case_decide; [apply emits_raise|apply IH].
Qed.

Lemma read_packet_emits s : emits (is_recv s) (read_packet s).
Proof.
    apply emits_bind; [apply recv_exact_emits|]. intros fixed.
    apply emits_bind; [|intros [rb n]; apply emits_bind;
      [apply recv_exact_emits|intros; apply emits_ret]].
    generalize (@nil byte) 1 0. generalize 4%nat. intros fuel.
    induction fuel as [|fuel IH]; intros rb mult acc; simpl;
      [apply emits_out_of_fuel|].
    apply emits_bind; [apply recv_exact_emits|]. intros one.
    apply emits_bind; [apply emits_lift|]. intros b.
    case_decide; [apply emits_ret|]. case_decide; [apply emits_raise|apply IH].
Qed.

End footprint.

#[export] Hint Resolve read_packet_terminates : netz.

(** ** Bad streams *)

Section bad_streams.
  Context {W : Type} `{Platform W}.

Lemma recv_one_serves s K b rest w :
    serves s K (b :: rest) w ->
    exists w' t, recv_exact s 1 w = (Ok [b], w', t) /\ serves s K rest w'.
Proof. intros Hs%(serves_app s K [b]). by apply (recv_exact_streams s _ [b]). Qed.

(** The stream stops inside the length field. *)
Lemma length_loop_stops fuel s e rb mult acc bs missing n w :
    vbi (bs ++ missing) n -> missing <> [] ->
    (length (bs ++ missing) <= fuel)%nat ->
    1 <= mult -> mult * 128 ^ (len (bs ++ missing) - 1) <= 128 * 128 * 128 ->
    serves s (stops s e) bs w ->
    exists w' t, length_loop fuel s rb mult acc w = (Raise e, w', t).
Proof.
    revert fuel rb mult acc n w.
    induction bs as [|b bs IH]; intros fuel rb mult acc n w Hv Hm Hf Hm1 Hmul Hs;
      (destruct fuel as [|fuel];
       [destruct missing; [done|]; rewrite length_app in Hf; simpl in Hf; lia|]).
    - destruct (recv_exact_stops s e 1 [] w) as (w' & t & Hr); [done|done|].
      simpl. unfold mbind, M_bind. rewrite Hr. eauto.
    - simpl in Hv, Hf. inversion Hv as [b' Hb [Heq Hnil]|b' bs' n' Hb Hv' Heq]; subst.
      { symmetry in Hnil. by apply app_eq_nil in Hnil as [-> ->]. }
      apply (serves_app s _ [b] bs) in Hs.
      destruct (length_loop_step fuel s _ rb mult acc b w Hs) as (w1 & t1 & Hs1 & ->).
      assert (Hpow : 128 ^ (len ((b :: bs) ++ missing) - 1) =
                     128 * 128 ^ (len (bs ++ missing) - 1)).
      { rewrite <-Z.pow_succ_r; [f_equal; unfold len; simpl; lia|].
        rewrite len_app. destruct missing; [done|]. unfold len. simpl. lia. }
      assert (1 <= 128 ^ (len (bs ++ missing) - 1)).
      { pose proof (Z.pow_pos_nonneg 128 (len (bs ++ missing) - 1)).
        rewrite len_app in *. destruct missing; [done|]. unfold len in *. simpl in *. lia. }
      rewrite Hpow in Hmul. cbv zeta.
      rewrite decide_False by lia. rewrite decide_False by nia.
      destruct (IH fuel (rb ++ [b]) (mult * 128) (acc + (b2z b mod 128) * mult) n' w1)
        as (w2 & t2 & ->); try done; [simpl in Hf; lia|lia|nia|]. eauto.
Qed.

(** The stream stops inside a packet. *)
Lemma read_packet_stops s e p bs missing w :
    packet p -> p = bs ++ missing -> missing <> [] ->
    serves s (stops s e) bs w ->
    exists w' t, read_packet s w = (Raise e, w', t).
Proof.
    intros (fixed & rl & body & -> & Hv & Hl) Hp Hm Hs. unfold read_packet.
    destruct bs as [|b bs].
    { destruct (recv_exact_stops s e 1 [] w) as (w' & t & Hr); [done|done|].
      unfold mbind, M_bind. rewrite Hr. eauto. }
    injection Hp as <- Hp.
    destruct (recv_one_serves s _ fixed bs w Hs) as (w1 & t1 & Hr1 & Hs1).
    unfold mbind, M_bind. rewrite Hr1.
    apply app_eq_inv in Hp as [(k & -> & ->)|(k & -> & ->)].
    - destruct (decide (k = [])) as [->|Hk].
      + rewrite app_nil_r, ?app_nil_l in *.
        rewrite <-(app_nil_r bs) in Hs1. apply serves_app in Hs1.
        destruct (length_loop_vbi 4 s (serves s (stops s e) []) [] 1 0 bs (len body) w1 Hv Hl)
          as (w2 & t2 & -> & Hs2); [done|by apply multiplier_bound|exact Hs1|].
        rewrite Z.mul_1_r, Z.add_0_l.
        destruct (recv_exact_stops s e (len body) [] w2) as (w3 & t3 & ->); eauto.
        destruct body; [done|]. unfold len. simpl. lia.
      + destruct (length_loop_stops 4 s e [] 1 0 bs k _ w1 Hv Hk Hl) as (w2 & t2 & ->);
          [done|by apply multiplier_bound|done|eauto].
    - apply serves_app in Hs1.
      destruct (length_loop_vbi 4 s (serves s (stops s e) k) [] 1 0 rl (len (k ++ missing))
        w1 Hv Hl)
        as (w2 & t2 & -> & Hs2); [done|by apply multiplier_bound|exact Hs1|].
      rewrite Z.mul_1_r, Z.add_0_l.
      destruct (recv_exact_stops s e (len (k ++ missing)) k w2) as (w3 & t3 & ->); eauto.
      rewrite len_app. destruct missing; [done|]. unfold len. simpl. lia.
Qed.

(** Four continuation bytes. *)
Lemma length_loop_overlong s K bs rest w :
    length bs = 4%nat -> Forall (fun b => 128 <= b2z b) bs ->
    serves s K (bs ++ rest) w ->
    exists w' t, length_loop 4 s [] 1 0 w = (Raise malformed_length, w', t) /\
                 serves s K rest w'.
Proof.
    intros Hl Hf Hs. do 4 (destruct bs as [|? bs]; [done|]). destruct bs; [|done].
    rewrite !Forall_cons in Hf. destruct Hf as (? & ? & ? & ? & _). simpl app in Hs.
    edestruct (length_loop_step 3) as (w1 & t1 & Hs1 & ->); [apply serves_app, Hs|].
    cbv zeta. do 2 rewrite decide_False by lia.
    edestruct (length_loop_step 2) as (w2 & t2 & Hs2 & ->); [apply serves_app, Hs1|].
    cbv zeta. do 2 rewrite decide_False by lia.
    edestruct (length_loop_step 1) as (w3 & t3 & Hs3 & ->); [apply serves_app, Hs2|].
    cbv zeta. do 2 rewrite decide_False by lia.
    edestruct (length_loop_step 0) as (w4 & t4 & Hs4 & ->); [apply serves_app, Hs3|].
    cbv zeta. rewrite decide_False by lia. rewrite decide_True by lia.
    simpl. eauto.
Qed.

End bad_streams.

(** ** Properties *)

Section properties.
  Context {W : Type} `{Platform W}.

(** C14: round trip of the framing: whatever the chunks in which the stream
    arrives, a packet that the MQTT encoder framed is read back byte for byte,
    and nothing of what follows it is consumed. *)
Theorem read_packet_roundtrip s K fixed body rest w :
    len body < 128 ^ 4 -> serves s K (frame fixed body ++ rest) w ->
    exists w' t, read_packet s w = (Ok (frame fixed body), w', t) /\
                 serves s K rest w'.
Proof. intros Hl. by apply read_packet_serves, frame_packet. Qed.

(** C16: a stream that stops inside a packet, by an orderly end or by a failing
    [recv] (a timeout, a reset), makes [read_packet] raise: the end of stream
    as the driver's own assertion, the failure as itself. *)
Theorem read_packet_truncated s e p bs missing w :
    packet p -> p = bs ++ missing -> missing <> [] ->
    serves s (stops s e) bs w ->
    exists w' t, read_packet s w = (Raise e, w', t).
Proof. apply read_packet_stops. Qed.

(** C15: a Remaining Length with four continuation bytes is rejected after
    exactly five bytes of the stream. *)
Theorem read_packet_rejects_overlong s K fixed bs rest w :
    length bs = 4%nat -> Forall (fun b => 128 <= b2z b) bs ->
    serves s K (fixed :: bs ++ rest) w ->
    exists w' t, read_packet s w = (Raise malformed_length, w', t) /\
                 serves s K rest w'.
Proof.
    intros Hl Hf Hs. destruct (recv_one_serves s K fixed _ w Hs) as (w1 & t1 & Hr1 & Hs1).
    destruct (length_loop_overlong s K bs rest w1 Hl Hf Hs1) as (w2 & t2 & Hr2 & Hs2).
    exists w2. eexists. split; [|done]. unfold read_packet, mbind, M_bind.
    by rewrite Hr1, Hr2.
Qed.

(** [read_packet] always comes to an end, on every platform: it returns or
    raises, and its only system calls are [recv] on the given socket. *)
Theorem read_packet_total s w :
    exists o w' t, read_packet s w = (o, w', t) /\ o <> Diverge /\
                   Forall (is_recv s) t.
Proof.
    destruct (read_packet s w) as [[o w'] t] eqn:E. exists o, w', t.
    split_and!; [done|by eapply read_packet_terminates|by eapply read_packet_emits].
Qed.

(** C17: what [read_packet] returns is one well-formed control packet and
    exactly the bytes that it took from the socket, in at most one call of
    [recv] per byte. *)
Theorem read_packet_exact `{!PlatformLaws W} s w p w' t :
    read_packet s w = (Ok p, w', t) ->
    packet p /\ reads s p t /\ (length t <= length p)%nat.
Proof.
    intros Hr. destruct (read_packet_reads s _ _ _ _ Hr p eq_refl) as [Hp Hrd].
    split_and!; [done|done|by eapply reads_length].
Qed.

End properties.

(** ** The canned platform serves its inboxes *)

Lemma canned_serves s cs tail w :
  inboxes w !! s = Some ((Chunk <$> cs) ++ tail) -> Forall (.≠ []) cs ->
  serves s (fun w' => w' = set_inboxes (<[s := tail]> (inboxes w)) w) (concat cs) w.
Proof.
  set (K := fun w' => w' = _). intros Hw Hne.
  assert (HK : forall l, <[s := l]> (inboxes w) !! s = Some l).
  { intros l. apply list_lookup_insert_eq. by eapply lookup_lt_Some. }
  enough (Hgen : forall n cs v, (length (concat cs) <= n)%nat -> Forall (.≠ []) cs ->
    v = set_inboxes (<[s := (Chunk <$> cs) ++ tail]> (inboxes w)) w ->
    serves s K (concat cs) v).
  { apply (Hgen (length (concat cs)) cs w); [done|done|].
    rewrite list_insert_id by done. by destruct w. }
  clear cs Hw Hne. intros n. induction n as [|n IH]; intros cs v Hn Hne ->;
    (destruct cs as [|[|b c] cs]; [by constructor|by inversion Hne|]); simpl in *; [lia|].
  apply Forall_cons in Hne as [_ Hne]. constructor. intros k Hk.
  unfold sys_recv; simpl. unfold canned_recv; simpl. rewrite HK.
  destruct (Z.to_nat k) as [|k'] eqn:Ek; [lia|]. simpl.
  exists (b :: take k' c), (drop k' c ++ concat cs). eexists.
  split_and!; [|done| |reflexivity|].
  - simpl. by rewrite (assoc_L (++)), take_drop.
  - unfold len. simpl. rewrite length_take. lia.
  - assert (Hd : (length (drop k' c) <= length c)%nat) by (rewrite length_drop; lia).
    rewrite length_app in Hn. case_decide as Hdrop.
    + rewrite Hdrop. apply IH; [simpl; lia|done|].
      unfold set_inboxes; simpl. by rewrite list_insert_insert_eq.
    + apply (IH (drop k' c :: cs)); [simpl; rewrite length_app; lia|by constructor|].
      unfold set_inboxes; simpl. by rewrite list_insert_insert_eq.
Qed.

(** The first bytes of a chunk, with the rest of the chunk behind them. *)
Lemma canned_streams s (K : canned -> Prop) c more tail w :
  inboxes w !! s = Some (Chunk (c ++ more) :: tail) -> c <> [] ->
  K (set_inboxes (<[s := if decide (more = []) then tail else Chunk more :: tail]> (inboxes w)) w) ->
  streams s K c w.
Proof.
  remember (length c) as k eqn:Hk. revert c w Hk.
  induction k as [k IH] using lt_wf_ind. intros c w -> Hw Hc HK.
  destruct c as [|b c]; [done|]. constructor. intros n Hn.
  unfold sys_recv; simpl. unfold canned_recv. rewrite Hw.
  set (m := Z.to_nat n). assert (0 < m)%nat by lia.
  rewrite take_app, drop_app. eexists _, _. split; [reflexivity|].
  assert (take m (b :: c) <> []) by (destruct m; [lia|done]).
  split_and!; [by destruct (take m (b :: c))| |].
  { unfold len. rewrite length_app, !length_take. lia. }
  destruct (decide (m < length (b :: c))%nat) as [Hm|Hm].
  - left. exists (drop m (b :: c)).
    replace (m - length (b :: c))%nat with 0%nat by lia. rewrite take_0, drop_0, app_nil_r.
    split; [by rewrite take_drop|].
    assert (drop m (b :: c) <> []).
    { intros Hd%(f_equal length). rewrite length_drop in Hd. simpl in *. lia. }
    rewrite decide_False by (by intros [? _]%app_eq_nil).
    eapply (IH (length (drop m (b :: c)))); [rewrite length_drop; simpl in *; lia|done| |done|].
    + unfold set_inboxes; simpl. rewrite list_lookup_insert_eq; [done|by eapply lookup_lt_Some].
    + unfold set_inboxes in *; simpl in *. by rewrite list_insert_insert_eq.
  - rewrite take_ge, drop_ge, app_nil_l by lia.
    destruct (decide (take (m - length (b :: c)) more = [])) as [Ht|Ht]; [left|right; eauto].
    exists []. rewrite Ht, !app_nil_r. split; [done|]. constructor.
    enough (drop (m - length (b :: c)) more = more) as -> by done.
    by rewrite <-(take_drop (m - length (b :: c)) more) at 2; rewrite Ht.
Qed.

(** ** Witnesses *)

(** A PINGRESP that arrives byte by byte in front of other data. *)
Definition sample_stream : canned :=
  good [[Chunk [lo8 0xD0]; Chunk [lo8 0]; Chunk [lo8 0x20; lo8 2]; Eof]].

Lemma sample_stream_serves :
  serves 0%nat (fun w => w = set_inboxes [[Eof]] sample_stream)
    (frame (lo8 0xD0) [] ++ [lo8 0x20; lo8 2]) sample_stream.
Proof.
  apply (canned_serves 0%nat [[lo8 0xD0]; [lo8 0]; [lo8 0x20; lo8 2]] [Eof] sample_stream);
    [done|by repeat constructor].
Qed.

Lemma read_packet_roundtrip_witness :
  exists w' t,
    read_packet 0%nat sample_stream = (Ok (frame (lo8 0xD0) []), w', t) /\
    serves 0%nat (fun w => w = set_inboxes [[Eof]] sample_stream) [lo8 0x20; lo8 2] w'.
Proof.
  apply (read_packet_roundtrip 0%nat (fun w => w = set_inboxes [[Eof]] sample_stream)
           (lo8 0xD0) [] [lo8 0x20; lo8 2] sample_stream); [done|exact sample_stream_serves].
Defined.

(** A CONNACK of which only three bytes arrive before the broker closes. *)
Definition cut_stream : canned := good [[Chunk [lo8 0x20]; Chunk [lo8 2; lo8 0]; Eof]].

Lemma cut_stream_stops :
  serves 0%nat (stops 0%nat closed_early) [lo8 0x20; lo8 2; lo8 0] cut_stream.
Proof.
  eapply serves_mono;
    [|apply (canned_serves 0%nat [[lo8 0x20]; [lo8 2; lo8 0]] [Eof] cut_stream);
      [done|by repeat constructor]].
  intros w ->. apply stops_eof. intros n Hn. eauto.
Qed.

Lemma read_packet_truncated_witness :
  exists w' t, read_packet 0%nat cut_stream = (Raise closed_early, w', t).
Proof.
  apply (read_packet_truncated 0%nat closed_early (frame (lo8 0x20) [lo8 0; lo8 0])
           [lo8 0x20; lo8 2; lo8 0] [lo8 0] cut_stream).
  - by apply frame_packet.
  - reflexivity.
  - done.
  - exact cut_stream_stops.
Defined.

(** A hostile length field. *)
Definition overlong_stream : canned :=
  good [[Chunk [lo8 0x30; lo8 0xFF; lo8 0x80]; Chunk [lo8 0x80; lo8 0x80]; Chunk [lo8 7]]].

Lemma read_packet_rejects_overlong_witness :
  exists w' t,
    read_packet 0%nat overlong_stream = (Raise malformed_length, w', t) /\
    serves 0%nat (fun w => w = set_inboxes [[]] overlong_stream) [lo8 7] w'.
Proof.
  apply (read_packet_rejects_overlong 0%nat (fun w => w = set_inboxes [[]] overlong_stream)
           (lo8 0x30) [lo8 0xFF; lo8 0x80; lo8 0x80; lo8 0x80] [lo8 7] overlong_stream).
  - reflexivity.
  - by repeat constructor.
  - apply (canned_serves 0%nat
      [[lo8 0x30; lo8 0xFF; lo8 0x80]; [lo8 0x80; lo8 0x80]; [lo8 7]] [] overlong_stream);
      [done|by repeat constructor].
Defined.

Lemma read_packet_exact_witness :
  packet [lo8 0xD0; lo8 0] /\
  reads 0%nat [lo8 0xD0; lo8 0]
    [EvRecv 0%nat 1 (inr [lo8 0xD0]); EvRecv 0%nat 1 (inr [lo8 0])] /\
  (2 <= 2)%nat.
Proof.
  eapply (read_packet_exact 0%nat sample_stream). reflexivity.
Defined.
