(* ===== verification/Expect.v ===== *)
(** * Assertions on the packets of a socket

    [expect_packet] and [expect_packets_unordered] of the driver, and the
    timed read with which its scenarios check that nothing arrives. *)

From Stdlib Require Import ZArith Lia.
From stdpp Require Import base list option strings.
From S2P Require Import Prelude PyValues Effects Traces Canned Wire.
Local Open Scope Z_scope.

Section expect.
  Context {W : Type} `{Platform W}.

Definition expect_packet (s : sock) (expected : bytes) (label : string) : M W unit :=
    actual ← read_packet s;
    raise_if (bool_decide (actual <> expected)) (AssertionError
      (label +:+ ": expected " +:+ hex expected +:+ ", received " +:+ hex actual)).

(** The message of a packet that is not among the remaining ones: [remaining]
    still holds all of them, since [remove] raised. *)
Definition unexpected_packet (label : string) (actual : bytes) (remaining : list bytes)
    : exn :=
    AssertionError (label +:+ ": unexpected " +:+ hex actual +:+ ", remaining "
      +:+ join ", " (hex <$> remaining)).

(** One round of the loop: [remaining.remove(actual)]. *)
Definition take_expected (s : sock) (label : string) (remaining : list bytes)
    : M W (list bytes) :=
    actual ← read_packet s;
    match py_remove actual remaining with
    | Some remaining' => mret remaining'
    | None => raise (unexpected_packet label actual remaining)
    end.

Definition expect_packets_unordered (s : sock) (expected : list bytes) (label : string)
    : M W unit :=
    _ ← for_fold expected expected (fun remaining _ => take_expected s label remaining);
    mret tt.

(** The block that checks for silence: a 50 ms timeout, one [recv(1)] whose
    data fails the scenario, the timeout restored on every exit. *)
Definition is_timeout (e : exn) : bool := bool_decide (e = SocketTimeout).

Definition expect_silence (s : sock) (complaint : bytes -> string) : M W unit :=
    settimeout s 50;;
    finally
      (try_except
         (early ← recv s 1;
          raise_if (bool_decide (early <> [])) (AssertionError (complaint early)))
         is_timeout (fun _ => mret tt))
      (settimeout s (seconds 5)).

(** The block that tolerates a dropped connection but no answer. *)
Definition is_dropped (e : exn) : bool :=
    bool_decide (e = ConnectionResetError \/ e = BrokenPipeError).

Definition expect_no_answer (s : sock) (complaint : bytes -> string) : M W unit :=
    try_except
      (data ← recv s 1;
       raise_if (bool_decide (data <> [])) (AssertionError (complaint data)))
      is_dropped (fun _ => mret tt).

End expect.

(** ** Behaviour on a byte stream *)

Section stream.
  Context {W : Type} `{Platform W}.

Lemma expect_packet_streams s K p expected label w :
    packet p -> streams s K p w ->
    exists w' t,
      expect_packet s expected label w =
        (if decide (p = expected) then Ok tt
         else Raise (AssertionError (label +:+ ": expected " +:+ hex expected
                       +:+ ", received " +:+ hex p)), w', t) /\
      K w'.
Proof.
    intros Hp Hs. destruct (read_packet_streams s K p w Hp Hs) as (w' & t & Hr & Hs').
    exists w'. eexists. split; [|done]. unfold expect_packet, mbind, M_bind.
    rewrite Hr. unfold raise_if. case_decide as Heq.
    - by rewrite bool_decide_eq_false_2 by tauto.
    - by rewrite bool_decide_eq_true_2 by tauto.
Qed.

Lemma take_expected_run s label remaining p w w' t :
    read_packet s w = (Ok p, w', t) ->
    take_expected s label remaining w =
      (match py_remove p remaining with
       | Some k => Ok k
       | None => Raise (unexpected_packet label p remaining)
       end, w', t).
Proof.
    intros Hr. unfold take_expected, mbind, M_bind. rewrite Hr.
    destruct (py_remove p remaining); simpl; by rewrite app_nil_r.
Qed.

(** The loop of [expect_packets_unordered], over the packets [ps] of the
    stream: every one of them is taken out of [remaining] ... *)
Lemma unordered_loop_pass s K ps {A} (l : list A) remaining label w :
    length l = length ps -> Forall packet ps ->
    (exists left, remaining ≡ₚ ps ++ left) ->
    streams s K (concat ps) w ->
    exists left w' t,
      for_fold l remaining (fun remaining _ => take_expected s label remaining) w = (Ok left, w', t) /\
      remaining ≡ₚ ps ++ left /\ K w'.
Proof.
    revert l remaining w. induction ps as [|p ps IH]; intros l remaining w Hl Hps Hrem Hs.
    { destruct l; [|done]. exists remaining, w, []. split_and!; [done|done|by inversion Hs]. }
    destruct l as [|x l]; [done|]. apply Forall_cons in Hps as [Hp Hps].
    destruct Hrem as [left Hleft]. simpl in Hleft.
    destruct (py_remove_perm p remaining _ Hleft) as (remaining' & Hrm & Hperm).
    simpl in Hs. apply streams_app in Hs.
    destruct (read_packet_streams s _ p w Hp Hs) as (w1 & t1 & Hr & Hs1).
    destruct (IH l remaining' w1) as (left' & w2 & t2 & Hrun & Hperm' & Hs2);
      [by injection Hl|done|eauto|done|].
    exists left', w2. eexists. split_and!; [| |done].
    - simpl. unfold mbind, M_bind.
      rewrite (take_expected_run _ _ _ _ _ _ _ Hr), Hrm, Hrun. reflexivity.
    - by rewrite (py_remove_Some p remaining remaining' Hrm), Hperm'.
Qed.

(** ... or the first one that is not there is reported. *)
Lemma unordered_loop_fail s K pre p post {A} (l : list A) remaining rest label w :
    length l = length (pre ++ p :: post) -> Forall packet (pre ++ p :: post) ->
    (exists left, remaining ≡ₚ pre ++ left) -> (forall left, ~ remaining ≡ₚ (pre ++ [p]) ++ left) ->
    serves s K (concat (pre ++ p :: post) ++ rest) w ->
    exists left w' t,
      for_fold l remaining (fun remaining _ => take_expected s label remaining) w = (Raise (unexpected_packet label p left), w', t) /\
      remaining ≡ₚ pre ++ left /\ serves s K (concat post ++ rest) w'.
Proof.
    revert l remaining w. induction pre as [|q pre IH];
      intros l remaining w Hl Hps Hrem Hno Hs;
      (destruct l as [|x l]; [done|]); apply Forall_cons in Hps as [Hp Hps];
      simpl in Hs; rewrite <-(assoc_L (++)) in Hs;
      destruct (read_packet_serves s K _ _ w Hp Hs) as (w1 & t1 & Hr & Hs1).
    - exists remaining, w1. eexists. split_and!; [|done|done].
      simpl. unfold mbind, M_bind. rewrite (take_expected_run _ _ _ _ _ _ _ Hr).
      destruct (py_remove p remaining) as [k|] eqn:Hrm; [|reflexivity].
      destruct (Hno k). by apply (py_remove_Some p remaining k).
    - destruct Hrem as [left Hleft]. simpl in Hleft.
      destruct (py_remove_perm q remaining _ Hleft) as (remaining' & Hrm & Hperm).
      pose proof (py_remove_Some q remaining remaining' Hrm) as Hrem'.
      destruct (IH l remaining' w1) as (left' & w2 & t2 & Hrun & Hperm' & Hs2);
        [by injection Hl|done|eauto| |done|].
      { intros k Hk. apply (Hno k). by rewrite Hrem', Hk. }
      exists left', w2. eexists. split_and!; [| |done].
      + simpl. unfold mbind, M_bind.
        rewrite (take_expected_run _ _ _ _ _ _ _ Hr), Hrm, Hrun. reflexivity.
      + by rewrite Hrem', Hperm'.
Qed.

End stream.

Section silence.
  Context {W : Type} `{Platform W}.

(** The silence check, run. *)
Lemma expect_silence_run `{!PlatformLaws W} s complaint w :
    exists (r : result bytes) w',
      expect_silence s complaint w =
        (match r with
         | inr [] | inl SocketTimeout => Ok tt
         | inr early => Raise (AssertionError (complaint early))
         | inl e => Raise e
         end, w',
         [EvSettimeout s 50 (inr tt); EvRecv s 1 r; EvSettimeout s 5000 (inr tt)]).
Proof.
    destruct (sys_settimeout_ok s 50 w) as [w1 H1]; [done|].
    destruct (sys_recv s 1 w1) as [r w2] eqn:H2.
    destruct (sys_settimeout_ok s 5000 w2) as [w3 H3]; [done|].
    exists r, w3. unfold expect_silence, mbind, M_bind, finally, with_exit, try_except, recv, settimeout, call.
    change (seconds 5) with 5000. rewrite H1. simpl. rewrite H2.
    destruct r as [e|[|b bs]]; simpl; rewrite ?H3; try done.
    unfold is_timeout. case_bool_decide as He; simpl; rewrite H3; [by subst|by destruct e].
Qed.

End silence.

(** Either every packet of [ps] has its own copy in [remaining], or there is a
    first one that has none. *)
Lemma first_unexpected (ps remaining : list bytes) :
  (exists left, remaining ≡ₚ ps ++ left) \/
  (exists pre p post, ps = pre ++ p :: post /\ (exists left, remaining ≡ₚ pre ++ left) /\
     forall left, ~ remaining ≡ₚ (pre ++ [p]) ++ left).
Proof.
  revert remaining. induction ps as [|p ps IH]; intros remaining; [left; by exists remaining|].
  destruct (py_remove p remaining) as [k|] eqn:Hrm.
  - pose proof (py_remove_Some p remaining k Hrm) as Hp.
    destruct (IH k) as [[left Hl]|(pre & q & post & -> & [left Hl] & Hno)].
    + left. exists left. by rewrite Hp, Hl.
    + right. exists (p :: pre), q, post. split_and!; [done|exists left; by rewrite Hp, Hl|].
      intros l Hl'. apply (Hno l). rewrite Hp in Hl'. by apply (Permutation_cons_inv (a:=p)).
  - right. exists [], p, ps. split_and!; [done|by exists remaining|].
    intros l Hl. destruct (py_remove_perm p remaining l Hl) as (k & Hk & _). congruence.
Qed.

(** ** Properties *)

Section properties.
  Context {W : Type} `{Platform W}.

(** C18: [expect_packet] compares the next packet of the stream byte for byte
    with the expected one: equal passes, anything else raises the assertion
    that names both; either way exactly that packet is consumed. *)
Theorem expect_packet_verdict s K p rest expected label w :
    packet p -> serves s K (p ++ rest) w ->
    exists w' t,
      expect_packet s expected label w =
        (if decide (p = expected) then Ok tt
         else Raise (AssertionError (label +:+ ": expected " +:+ hex expected
                       +:+ ", received " +:+ hex p)), w', t) /\
      serves s K rest w'.
Proof. intros Hp Hs%serves_app. by apply expect_packet_streams. Qed.

(** C19: [expect_packets_unordered] accepts a stream of packets exactly when
    they are a permutation of the expected ones, as multisets; it then consumes
    exactly them. *)
Theorem expect_unordered_verdict s K ps rest expected label w :
    length ps = length expected -> Forall packet ps ->
    serves s K (concat ps ++ rest) w ->
    (ps ≡ₚ expected /\
     exists w' t, expect_packets_unordered s expected label w = (Ok tt, w', t) /\
                  serves s K rest w')
    \/
    (~ ps ≡ₚ expected /\
     exists pre p post left w' t,
       ps = pre ++ p :: post /\ expected ≡ₚ pre ++ left /\ p ∉ left /\
       expect_packets_unordered s expected label w =
         (Raise (unexpected_packet label p left), w', t) /\
       serves s K (concat post ++ rest) w').
Proof.
    intros Hl Hps Hs. unfold expect_packets_unordered, mbind, M_bind.
    destruct (first_unexpected ps expected) as [Hrem|(pre & p & post & -> & Hrem & Hno)].
    - apply serves_app in Hs.
      destruct (unordered_loop_pass s (serves s K rest) ps expected expected label w)
        as (left & w' & t & -> & Hp & Hs'); [done..|].
      assert (left = []) as ->.
      { apply length_zero_iff_nil. apply Permutation_length in Hp.
        rewrite length_app in Hp. lia. }
      rewrite app_nil_r in Hp. left. split; [done|]. eauto.
    - right. destruct (unordered_loop_fail s K pre p post expected expected rest label w)
        as (left & w' & t & -> & Hp & Hs'); [done..|]. split.
      { intros Hperm. apply (Hno post). by rewrite <-Hperm, <-(assoc_L (++)). }
      exists pre, p, post, left, w'. eexists. split_and!; [done|done| |done|done].
      intros (k & Hk)%elem_of_Permutation. apply (Hno k).
      by rewrite Hp, Hk, <-(assoc_L (++)).
Qed.

(** C20: the silence check makes exactly three calls, leaves the socket with its
    five-second timeout whatever happens in between, passes on a timeout and on
    an end of stream, and fails on a byte of data. *)
Theorem expect_silence_verdict `{!PlatformLaws W} s complaint w :
    exists (r : result bytes) w',
      expect_silence s complaint w =
        (match r with
         | inr [] | inl SocketTimeout => Ok tt
         | inr early => Raise (AssertionError (complaint early))
         | inl e => Raise e
         end, w',
         [EvSettimeout s 50 (inr tt); EvRecv s 1 r; EvSettimeout s 5000 (inr tt)]).
Proof. apply expect_silence_run. Qed.

End properties.

(** ** What a passing assertion has read *)

Section sound.
  Context {W : Type} `{PlatformLaws W}.

Lemma expect_packet_reads s expected label :
    runs (expect_packet s expected label) (fun o t => forall u, o = Ok u ->
      packet expected /\ reads s expected t).
Proof.
    apply runs_bind. eapply runs_mono; [apply read_packet_reads|].
    intros [p|e|] t Ho; try done. destruct (Ho p eq_refl) as [Hp Hrd].
    unfold raise_if. case_bool_decide as Heq; [by apply runs_raise|].
    subst. apply runs_ret. intros _ _. by rewrite app_nil_r.
Qed.

Lemma unordered_loop_reads s label {A} (l : list A) remaining :
    runs (for_fold l remaining (fun remaining _ => take_expected s label remaining))
      (fun o t => forall left, o = Ok left ->
         exists ps, remaining ≡ₚ ps ++ left /\ length ps = length l /\
           Forall packet ps /\ reads s (concat ps) t).
Proof.
    revert remaining. induction l as [|x l IH]; intros remaining; simpl.
    { apply runs_ret. intros left [= <-]. exists []. split_and!; try done; constructor. }
    apply runs_bind, runs_bind. eapply runs_mono; [apply read_packet_reads|].
    intros [p|e|] t Ho; try done. destruct (Ho p eq_refl) as [Hp Hrd].
    destruct (py_remove p remaining) as [k|] eqn:Hrm; [|by apply runs_raise].
    apply runs_ret. eapply runs_mono; [apply IH|]. intros o t' Ho' left Hleft.
    destruct (Ho' left Hleft) as (ps & Hperm & Hl & Hps & Hrds).
    exists (p :: ps). rewrite app_nil_r.
    split_and!; [|simpl; by f_equal|by constructor|by apply reads_app].
    by rewrite (py_remove_Some p remaining k Hrm), Hperm.
Qed.

Lemma expect_unordered_reads s expected label :
    runs (expect_packets_unordered s expected label) (fun o t => forall u, o = Ok u ->
      exists ps, ps ≡ₚ expected /\ Forall packet ps /\ reads s (concat ps) t).
Proof.
    apply runs_bind. eapply runs_mono; [apply unordered_loop_reads|].
    intros [left|e|] t Ho; try done.
    destruct (Ho left eq_refl) as (ps & Hperm & Hl & Hps & Hrd).
    assert (left = []) as ->.
    { apply length_zero_iff_nil. apply Permutation_length in Hperm.
      rewrite length_app in Hperm. lia. }
    rewrite app_nil_r in Hperm. apply runs_ret. intros _ _. exists ps.
    rewrite app_nil_r. by split_and!.
Qed.

End sound.

(** ** Termination and footprint *)

Section footprint.
  Context {W : Type} `{Platform W}.

Lemma expect_packet_terminates s expected label : terminates (expect_packet s expected label).
Proof. unfold expect_packet. auto with netz. Qed.

Lemma expect_unordered_terminates s expected label :
    terminates (expect_packets_unordered s expected label).
Proof.
    apply terminates_bind; [|auto with netz]. apply terminates_for_fold. intros b x.
    apply terminates_bind; [auto with netz|]. intros p.
    destruct (py_remove p b); auto with netz.
Qed.

Lemma expect_silence_terminates s c : terminates (expect_silence s c).
Proof. unfold expect_silence, settimeout, recv. auto 10 with netz. Qed.

Lemma expect_no_answer_terminates s c : terminates (expect_no_answer s c).
Proof. unfold expect_no_answer, recv. auto 10 with netz. Qed.

Lemma expect_packet_emits s expected label :
    emits (is_recv s) (expect_packet s expected label).
Proof. apply emits_bind; [apply read_packet_emits|auto with netz]. Qed.

Lemma expect_unordered_emits s expected label :
    emits (is_recv s) (expect_packets_unordered s expected label).
Proof.
    apply emits_bind; [|auto with netz]. apply emits_for_fold. intros b x.
    apply emits_bind; [apply read_packet_emits|]. intros p.
    destruct (py_remove p b); auto with netz.
Qed.

Lemma expect_no_answer_emits s c : emits (is_recv s) (expect_no_answer s c).
Proof.
    unfold expect_no_answer, recv. apply emits_try; [|auto with netz].
    apply emits_bind; [apply emits_call; unfold is_recv; eauto|auto with netz].
Qed.

End footprint.

#[export] Hint Resolve expect_packet_terminates expect_unordered_terminates
  expect_silence_terminates expect_no_answer_terminates : netz.

(** ** Witnesses *)

Lemma expect_packet_verdict_witness :
  exists w' t,
    expect_packet 0%nat [lo8 0xD0; lo8 0] "PINGRESP" sample_stream = (Ok tt, w', t) /\
    serves 0%nat (fun w => w = set_inboxes [[Eof]] sample_stream) [lo8 0x20; lo8 2] w'.
Proof.
  apply (expect_packet_verdict 0%nat (fun w => w = set_inboxes [[Eof]] sample_stream)
           (frame (lo8 0xD0) []) [lo8 0x20; lo8 2] [lo8 0xD0; lo8 0] "PINGRESP" sample_stream).
  - by apply frame_packet.
  - exact sample_stream_serves.
Defined.

(** A PUBACK and a PINGRESP in the order opposite to the expected one. *)
Definition swapped_stream : canned :=
  good [[Chunk [lo8 0x40; lo8 2; lo8 0]; Chunk [lo8 3; lo8 0xD0; lo8 0]; Chunk [lo8 9]]].

Definition swapped_packets : list bytes := [frame (lo8 0x40) [lo8 0; lo8 3]; frame (lo8 0xD0) []].

Lemma expect_unordered_verdict_witness :
  swapped_packets ≡ₚ reverse swapped_packets /\
  exists w' t,
    expect_packets_unordered 0%nat (reverse swapped_packets) "either order" swapped_stream
      = (Ok tt, w', t).
Proof.
  destruct (expect_unordered_verdict 0%nat (fun w => w = set_inboxes [[]] swapped_stream)
    swapped_packets [lo8 9] (reverse swapped_packets) "either order" swapped_stream)
    as [[Hp (w' & t & Hr & _)]|[Hp _]].
  - reflexivity.
  - repeat constructor; by apply frame_packet.
  - apply (canned_serves 0%nat [[lo8 0x40; lo8 2; lo8 0]; [lo8 3; lo8 0xD0; lo8 0]; [lo8 9]]
             [] swapped_stream); [done|by repeat constructor].
  - eauto.
  - destruct Hp. symmetry. apply reverse_Permutation.
Defined.

Lemma expect_silence_verdict_witness :
  exists (r : result bytes) w',
    expect_silence 0%nat hex (good [[Fault SocketTimeout]]) =
      (match r with
       | inr [] | inl SocketTimeout => Ok tt
       | inr early => Raise (AssertionError (hex early))
       | inl e => Raise e
       end, w',
       [EvSettimeout 0%nat 50 (inr tt); EvRecv 0%nat 1 r; EvSettimeout 0%nat 5000 (inr tt)]).
Proof. apply (expect_silence_verdict 0%nat hex (good [[Fault SocketTimeout]])). Defined.
