(* ===== verification/Mosquitto.v ===== *)
(** * Mosquitto's packet generators

    The driver imports four Python modules of Mosquitto's test suite at run
    time ([mqtt_packets], [mqtt5_props], [mqtt5_rc], [mqtt5_opts]); they are
    not part of this repository.  Each is a record of the functions and
    constants that the driver uses, and every definition below takes the
    modules as arguments.  A keyword argument that a call leaves out is absent
    from the [kwargs] list. *)

From Stdlib Require Import ZArith Lia.
From stdpp Require Import base list option strings.
From S2P Require Import Prelude PyValues Effects Wire.
Local Open Scope Z_scope.

Inductive pyval : Type :=
  | VNone
  | VInt (z : Z)
  | VBool (b : bool)
  | VStr (s : string)
  | VBytes (b : bytes)
  | VInts (l : list Z).

#[global] Instance pyval_eq_dec : EqDecision pyval.
Proof. solve_decision. Defined.

Coercion VInt : Z >-> pyval.
Coercion VBool : bool >-> pyval.
Coercion VStr : string >-> pyval.

Definition kwargs : Type := list (string * pyval).

Notation "k @= v" := (k%string, (v : pyval)) (at level 69, only parsing) : netz_scope.

(** The value of a keyword, [d] when the call leaves it out. *)
Definition kwarg (k : string) (d : pyval) (kw : kwargs) : pyval :=
  match List.find (fun '(k', _) => bool_decide (k' = k)) kw with
  | Some (_, v) => v
  | None => d
  end.

Record MqttPackets : Type := {
  gen_connect : pyval -> kwargs -> bytes;
  gen_connack : kwargs -> bytes;
  gen_publish : string -> kwargs -> bytes;
  gen_puback : Z -> kwargs -> bytes;
  gen_pubrec : Z -> kwargs -> bytes;
  gen_pubrel : Z -> kwargs -> bytes;
  gen_pubcomp : Z -> kwargs -> bytes;
  gen_subscribe : Z -> string -> Z -> kwargs -> bytes;
  gen_suback : Z -> Z -> kwargs -> bytes;
  gen_unsubscribe : Z -> string -> kwargs -> bytes;
  gen_unsubscribe_multiple : Z -> list string -> kwargs -> bytes;
  gen_unsuback : Z -> kwargs -> bytes;
  gen_pingreq : bytes;
  gen_pingresp : bytes;
  gen_disconnect : kwargs -> bytes;
}.

Record Mqtt5Props : Type := {
  gen_byte_prop : Z -> Z -> bytes;
  gen_uint16_prop : Z -> Z -> bytes;
  gen_uint32_prop : Z -> Z -> bytes;
  gen_varint_prop : Z -> Z -> bytes;
  gen_string_prop : Z -> string -> bytes;
  gen_string_pair_prop : Z -> string -> string -> bytes;
  PAYLOAD_FORMAT_INDICATOR : Z;
  MESSAGE_EXPIRY_INTERVAL : Z;
  CONTENT_TYPE : Z;
  RESPONSE_TOPIC : Z;
  CORRELATION_DATA : Z;
  SUBSCRIPTION_IDENTIFIER : Z;
  SESSION_EXPIRY_INTERVAL : Z;
  ASSIGNED_CLIENT_IDENTIFIER : Z;
  SERVER_KEEP_ALIVE : Z;
  WILL_DELAY_INTERVAL : Z;
  RECEIVE_MAXIMUM : Z;
  TOPIC_ALIAS_MAXIMUM : Z;
  TOPIC_ALIAS : Z;
  MAXIMUM_QOS : Z;
  RETAIN_AVAILABLE : Z;
  USER_PROPERTY : Z;
  MAXIMUM_PACKET_SIZE : Z;
  WILDCARD_SUB_AVAILABLE : Z;
  SUBSCRIPTION_ID_AVAILABLE : Z;
  SHARED_SUB_AVAILABLE : Z;
}.

Record Mqtt5Rc : Type := {
  NO_MATCHING_SUBSCRIBERS : Z;
  SESSION_TAKEN_OVER : Z;
  QOS_NOT_SUPPORTED : Z;
  RETAIN_NOT_SUPPORTED : Z;
  PACKET_TOO_LARGE : Z;
  TOPIC_ALIAS_INVALID : Z;
  RECEIVE_MAXIMUM_EXCEEDED : Z;
  WILDCARD_SUBS_NOT_SUPPORTED : Z;
  SHARED_SUBS_NOT_SUPPORTED : Z;
  SUBSCRIPTION_IDS_NOT_SUPPORTED : Z;
}.

Record Mqtt5Opts : Type := {
  MQTT_SUB_OPT_RETAIN_AS_PUBLISHED : Z;
  MQTT_SUB_OPT_SEND_RETAIN_ALWAYS : Z;
  MQTT_SUB_OPT_SEND_RETAIN_NEW : Z;
  MQTT_SUB_OPT_SEND_RETAIN_NEVER : Z;
}.
