(* ===== verification/WireFormat.v ===== *)
(** * Packet generators that follow the MQTT specification

    A concrete instance of the four generator modules ([Mosquitto]), written
    from the packet layouts of MQTT 3.1.1 and MQTT 5.  The theorems are stated
    for every generator; this instance shows that their hypotheses can hold
    and lets the suite be evaluated. *)

From Stdlib Require Import ZArith Lia.
From stdpp Require Import base list option strings.
From S2P Require Import Prelude PyValues Effects Wire Mosquitto.
Local Open Scope Z_scope.

Definition u16 (n : Z) : bytes := [lo8 (n / 256); lo8 n].
Definition u32 (n : Z) : bytes := [lo8 (n / 2 ^ 24); lo8 (n / 2 ^ 16); lo8 (n / 256); lo8 n].

(** A length-prefixed string, and bytes with their length as a variable-length
    integer. *)
Definition utf8 (s : string) : bytes := u16 (len (bytes_of_str s)) ++ bytes_of_str s.
Definition sized (b : bytes) : bytes := encode_vbi 4 (len b) ++ b.

(** The values of keyword arguments. *)
Definition int_of (d : Z) (k : string) (kw : kwargs) : Z :=
  match kwarg k (VInt d) kw with VInt z => z | VBool b => Z.b2z b | _ => d end.
Definition flag_of (d : bool) (k : string) (kw : kwargs) : bool :=
  match kwarg k (VBool d) kw with VBool b => b | VInt z => bool_decide (z <> 0) | _ => d end.
Definition data_of (k : string) (kw : kwargs) : bytes :=
  match kwarg k VNone kw with VStr s => bytes_of_str s | VBytes b => b | _ => [] end.
Definition given (k : string) (kw : kwargs) : bool := bool_decide (kwarg k VNone kw <> VNone).

(** The property block that MQTT 5 packets have and earlier ones lack. *)
Definition is_v5 (kw : kwargs) : bool := bool_decide (int_of 4 "proto_ver" kw = 5).
Definition props (kw : kwargs) (p : bytes) : bytes := if is_v5 kw then sized p else [].

Definition wire_connect (client_id : pyval) (kw : kwargs) : bytes :=
  let will := given "will_topic" kw in
  let flags := (if flag_of true "clean_session" kw then 2 else 0) + (if will then 4 else 0) in
  let session := if given "session_expiry" kw
                 then lo8 0x11 :: u32 (int_of 0 "session_expiry" kw) else [] in
  frame (lo8 0x10)
    (utf8 "MQTT" ++ [lo8 (int_of 4 "proto_ver" kw); lo8 flags]
     ++ u16 (int_of 60 "keepalive" kw)
     ++ props kw (data_of "properties" kw ++ session)
     ++ utf8 (match client_id with VStr s => s | _ => "" end)
     ++ (if will then
           props kw (data_of "will_properties" kw)
           ++ u16 (len (data_of "will_topic" kw)) ++ data_of "will_topic" kw
           ++ u16 (len (data_of "will_payload" kw)) ++ data_of "will_payload" kw
         else [])).

Definition wire_connack (kw : kwargs) : bytes :=
  frame (lo8 0x20)
    ([lo8 (int_of 0 "flags" kw); lo8 (int_of 0 "rc" kw)] ++ props kw (data_of "properties" kw)).

Definition wire_publish (topic : string) (kw : kwargs) : bytes :=
  let qos := int_of 0 "qos" kw in
  frame (lo8 (0x30 + 8 * Z.b2z (flag_of false "dup" kw) + 2 * qos
              + Z.b2z (flag_of false "retain" kw)))
    (utf8 topic
     ++ (if decide (0 < qos) then u16 (int_of 0 "mid" kw) else [])
     ++ props kw (data_of "properties" kw)
     ++ data_of "payload" kw).

(** PUBACK, PUBREC, PUBREL, PUBCOMP: the reason code is left out when it is 0. *)
Definition wire_ack (fixed : Z) (mid : Z) (kw : kwargs) : bytes :=
  let rc := int_of 0 "reason_code" kw in
  frame (lo8 fixed) (u16 mid ++ if decide (rc = 0) then [] else [lo8 rc]).

Definition wire_subscribe (mid : Z) (filter : string) (options : Z) (kw : kwargs) : bytes :=
  frame (lo8 0x82)
    (u16 mid ++ props kw (data_of "properties" kw) ++ utf8 filter ++ [lo8 options]).

Definition wire_suback (mid qos : Z) (kw : kwargs) : bytes :=
  frame (lo8 0x90) (u16 mid ++ props kw [] ++ [lo8 qos]).

Definition wire_unsubscribe (mid : Z) (filters : list string) (kw : kwargs) : bytes :=
  frame (lo8 0xA2) (u16 mid ++ props kw [] ++ flat_map utf8 filters).

Definition wire_unsuback (mid : Z) (kw : kwargs) : bytes :=
  frame (lo8 0xB0)
    (u16 mid ++ props kw []
     ++ match kwarg "reason_code" (VInts [0]) kw with
        | VInts l => lo8 <$> l
        | VInt z => [lo8 z]
        | _ => []
        end).

Definition wire_disconnect (kw : kwargs) : bytes :=
  frame (lo8 0xE0)
    (if given "properties" kw then
       lo8 (int_of 0 "reason_code" kw) :: props kw (data_of "properties" kw)
     else if given "reason_code" kw then [lo8 (int_of 0 "reason_code" kw)]
     else []).

Definition wire_packets : MqttPackets := {|
  gen_connect := wire_connect;
  gen_connack := wire_connack;
  gen_publish := wire_publish;
  gen_puback := wire_ack 0x40;
  gen_pubrec := wire_ack 0x50;
  gen_pubrel := wire_ack 0x62;
  gen_pubcomp := wire_ack 0x70;
  gen_subscribe := wire_subscribe;
  gen_suback := wire_suback;
  gen_unsubscribe mid filter kw := wire_unsubscribe mid [filter] kw;
  gen_unsubscribe_multiple := wire_unsubscribe;
  gen_unsuback := wire_unsuback;
  gen_pingreq := [lo8 0xC0; lo8 0];
  gen_pingresp := [lo8 0xD0; lo8 0];
  gen_disconnect := wire_disconnect;
|}.

(** Property identifiers, reason codes and option bits of MQTT 5. *)
Definition wire_props : Mqtt5Props := {|
  gen_byte_prop i v := [lo8 i; lo8 v];
  gen_uint16_prop i v := lo8 i :: u16 v;
  gen_uint32_prop i v := lo8 i :: u32 v;
  gen_varint_prop i v := lo8 i :: encode_vbi 4 v;
  gen_string_prop i s := lo8 i :: utf8 s;
  gen_string_pair_prop i k v := lo8 i :: utf8 k ++ utf8 v;
  PAYLOAD_FORMAT_INDICATOR := 1;
  MESSAGE_EXPIRY_INTERVAL := 2;
  CONTENT_TYPE := 3;
  RESPONSE_TOPIC := 8;
  CORRELATION_DATA := 9;
  SUBSCRIPTION_IDENTIFIER := 11;
  SESSION_EXPIRY_INTERVAL := 17;
  ASSIGNED_CLIENT_IDENTIFIER := 18;
  SERVER_KEEP_ALIVE := 19;
  WILL_DELAY_INTERVAL := 24;
  RECEIVE_MAXIMUM := 33;
  TOPIC_ALIAS_MAXIMUM := 34;
  TOPIC_ALIAS := 35;
  MAXIMUM_QOS := 36;
  RETAIN_AVAILABLE := 37;
  USER_PROPERTY := 38;
  MAXIMUM_PACKET_SIZE := 39;
  WILDCARD_SUB_AVAILABLE := 40;
  SUBSCRIPTION_ID_AVAILABLE := 41;
  SHARED_SUB_AVAILABLE := 42;
|}.

Definition wire_rc : Mqtt5Rc := {|
  NO_MATCHING_SUBSCRIBERS := 0x10;
  SESSION_TAKEN_OVER := 0x8E;
  QOS_NOT_SUPPORTED := 0x9B;
  RETAIN_NOT_SUPPORTED := 0x9A;
  PACKET_TOO_LARGE := 0x95;
  TOPIC_ALIAS_INVALID := 0x94;
  RECEIVE_MAXIMUM_EXCEEDED := 0x93;
  WILDCARD_SUBS_NOT_SUPPORTED := 0xA2;
  SHARED_SUBS_NOT_SUPPORTED := 0x9E;
  SUBSCRIPTION_IDS_NOT_SUPPORTED := 0xA1;
|}.

Definition wire_opts : Mqtt5Opts := {|
  MQTT_SUB_OPT_RETAIN_AS_PUBLISHED := 0x08;
  MQTT_SUB_OPT_SEND_RETAIN_ALWAYS := 0x00;
  MQTT_SUB_OPT_SEND_RETAIN_NEW := 0x10;
  MQTT_SUB_OPT_SEND_RETAIN_NEVER := 0x20;
|}.

(** ** What the scenarios rely on

    The layouts of the packets and properties whose bytes a scenario takes
    apart or counts, as MQTT 5 defines them.  A CONNACK has just the given
    properties when [property_helper] is [False], as the driver sets it; by
    default Mosquitto's generator adds some of its own. *)

Class GeneratorLaws (mqtt_packets : MqttPackets) (mqtt5_props : Mqtt5Props) := {
  v5_publish topic kw :
    is_v5 kw = true -> mqtt_packets.(gen_publish) topic kw = wire_publish topic kw;
  v5_connack kw :
    is_v5 kw = true -> kwarg "property_helper" (VBool true) kw = VBool false ->
    mqtt_packets.(gen_connack) kw = wire_connack kw;
  v5_byte_prop i v :
    0 <= i < 2 ^ 8 -> 0 <= v < 2 ^ 8 -> mqtt5_props.(gen_byte_prop) i v = [lo8 i; lo8 v];
  v5_uint16_prop i v :
    0 <= i < 2 ^ 8 -> 0 <= v < 2 ^ 16 -> mqtt5_props.(gen_uint16_prop) i v = lo8 i :: u16 v;
  v5_uint32_prop i v :
    0 <= i < 2 ^ 8 -> 0 <= v < 2 ^ 32 -> mqtt5_props.(gen_uint32_prop) i v = lo8 i :: u32 v;
  v5_identifiers :
    Forall (fun i => 0 <= i < 2 ^ 8)
      [ mqtt5_props.(PAYLOAD_FORMAT_INDICATOR); mqtt5_props.(WILL_DELAY_INTERVAL);
        mqtt5_props.(RECEIVE_MAXIMUM); mqtt5_props.(MAXIMUM_PACKET_SIZE);
        mqtt5_props.(TOPIC_ALIAS_MAXIMUM) ];
}.

#[export] Instance wire_laws : GeneratorLaws wire_packets wire_props.
Proof. split; try done. by repeat constructor. Qed.

Lemma sized_short (b : bytes) : len b < 128 -> sized b = lo8 (len b) :: b.
Proof. intros Hb. unfold sized. simpl. by rewrite decide_True. Qed.

Lemma frame_short h (b : bytes) : len b < 128 -> frame h b = h :: lo8 (len b) :: b.
Proof. intros Hb. unfold frame. simpl. by rewrite decide_True. Qed.
