(* ===== verification/Broker.v ===== *)
(** * The broker process: [free_port] and [NetzBroker]

    One [NetzBroker] launches one finite broker process, hands out
    connections to it and, when its [with] block ends, waits for it to exit. *)

From Stdlib Require Import ZArith Lia.
From stdpp Require Import base list option strings.
From S2P Require Import Prelude PyValues Effects Traces Canned.
Local Open Scope Z_scope.

(** The attributes of the object; [process] is [None] before [__enter__].  A
    [Popen] object is its process handle: the exit status that [wait] stores in
    [returncode] is the value [wait] returns here. *)
Record NetzBroker : Type := {
  executable : string;
  connections : Z;
  ignore_errors : bool;
  extra_args : list string;
  port : Z;
  process : option proc;
}.

Definition set_process (p : proc) (b : NetzBroker) : NetzBroker :=
  {| executable := b.(executable); connections := b.(connections);
     ignore_errors := b.(ignore_errors); extra_args := b.(extra_args);
     port := b.(port); process := Some p |}.

(** The command line of [__enter__]. *)
Definition command (b : NetzBroker) : list string :=
  [ b.(executable);
    "--bind=127.0.0.1:" +:+ str_int b.(port);
    "--connections=" +:+ str_int b.(connections);
    "--max-queued-deliveries=1024";
    "--max-outgoing-inflight=64";
    "--no-restore" ]
  ++ b.(extra_args)
  ++ (if b.(ignore_errors) then ["--ignore-connection-errors"] else []).

Definition start_failure (line : string) : exn :=
  RuntimeError ("netz broker failed to start: " +:+ strip line).
Definition no_exit : exn := RuntimeError "netz broker did not exit after DISCONNECT".
Definition bad_exit (code : Z) (output : string) : exn :=
  RuntimeError ("netz broker exited " +:+ str_int code +:+ ": " +:+ output).

Section broker.
  Context {W : Type} `{Platform W}.

Definition free_port : M W Z :=
    with_socket new_socket (fun probe =>
      bind probe "127.0.0.1" 0;;
      '(_, p) ← getsockname probe;
      mret p).

(** [NetzBroker.__init__]. *)
Definition init (exe : string) (conns : Z) (ignore : bool) (extra : list string)
    : M W NetzBroker :=
    p ← free_port;
    mret {| executable := exe; connections := conns; ignore_errors := ignore;
            extra_args := extra; port := p; process := None |}.

(** [NetzBroker.__enter__]. *)
Definition enter (self : NetzBroker) : M W NetzBroker :=
    p ← popen (command self);
    line ← readline p;
    raise_if (negb (occurs_in "listening" line)) (start_failure line);;
    mret (set_process p self).

(** [NetzBroker.connect]. *)
Definition connect (self : NetzBroker) : M W sock :=
    s ← create_connection "127.0.0.1" self.(port) (seconds 5);
    settimeout s (seconds 5);;
    mret s.

Definition is_expired (e : exn) : bool := bool_decide (e = TimeoutExpired).

(** [NetzBroker.__exit__]; [raised] is [exc_type is not None]. *)
Definition exit (self : NetzBroker) (raised : bool) : M W unit :=
    match self.(process) with
    | None => raise (AssertionError "")
    | Some p =>
        code ← try_except (wait p (seconds 5)) is_expired (fun _ =>
          terminate p;;
          code ← wait p (seconds 5);
          raise_if (negb raised) no_exit;;
          mret code);
        if negb raised && bool_decide (code <> 0) then
          output ← read p;
          raise (bad_exit code output)
        else mret tt
    end.

(** [with NetzBroker(...) as broker: body]. *)
Definition with_broker {A} (exe : string) (conns : Z) (ignore : bool) (extra : list string)
      (body : NetzBroker -> M W A) : M W A :=
    b ← init exe conns ignore extra;
    broker ← enter b;
    with_exit (body broker) (exit broker).

(** [with broker.connect() as sock: body]. *)
Definition with_connection {A} (b : NetzBroker) (body : sock -> M W A) : M W A :=
    with_socket (connect b) body.

End broker.
