(* ===== verification/Connack.v ===== *)
(** * CONNACK: the expected one and the handshakes

    [expected_connack], [connect_client], [connect_v5] and
    [connect_persistent_v5] of the driver. *)

From Stdlib Require Import ZArith Lia.
From stdpp Require Import base list option strings.
From S2P Require Import Prelude PyValues Effects Traces Canned Wire Expect Mosquitto.
Local Open Scope Z_scope.

(** The keyword arguments of [expected_connack], with their defaults. *)
Record connack_kw : Type := {
  session_present : bool;
  maximum_packet_size : Z;
  topic_alias_maximum : Z;
  extra_properties : bytes;
}.

Definition connack_defaults : connack_kw :=
  {| session_present := false; maximum_packet_size := 16 * 1024 * 1024;
     topic_alias_maximum := 16; extra_properties := [] |}.

Definition with_session (b : bool) : connack_kw :=
  {| session_present := b; maximum_packet_size := 16 * 1024 * 1024;
     topic_alias_maximum := 16; extra_properties := [] |}.
Definition with_packet_size (n : Z) : connack_kw :=
  {| session_present := false; maximum_packet_size := n;
     topic_alias_maximum := 16; extra_properties := [] |}.
Definition with_alias_maximum (n : Z) : connack_kw :=
  {| session_present := false; maximum_packet_size := 16 * 1024 * 1024;
     topic_alias_maximum := n; extra_properties := [] |}.
Definition with_extra (b : bytes) : connack_kw :=
  {| session_present := false; maximum_packet_size := 16 * 1024 * 1024;
     topic_alias_maximum := 16; extra_properties := b |}.

Section connack.
  Context (mqtt_packets : MqttPackets) (mqtt5_props : Mqtt5Props).

(** The property bytes, in the order in which the broker emits them. *)
Definition connack_properties (kw : connack_kw) : bytes :=
    mqtt5_props.(gen_uint16_prop) mqtt5_props.(RECEIVE_MAXIMUM) 64
    ++ mqtt5_props.(gen_uint32_prop) mqtt5_props.(MAXIMUM_PACKET_SIZE)
         kw.(maximum_packet_size)
    ++ mqtt5_props.(gen_uint16_prop) mqtt5_props.(TOPIC_ALIAS_MAXIMUM)
         kw.(topic_alias_maximum)
    ++ kw.(extra_properties).

Definition expected_connack (kw : connack_kw) : bytes :=
    mqtt_packets.(gen_connack)
      [ "flags" @= Z.b2z kw.(session_present);
        "rc" @= 0;
        "proto_ver" @= 5;
        "properties" @= VBytes (connack_properties kw);
        "property_helper" @= false ].

End connack.

Section handshake.
  Context {W : Type} `{Platform W}.
  Context (mqtt_packets : MqttPackets).

(** [connack[0] != 0x20 or len(connack) < minimum_len or connack[3] >= 0x80]. *)
Definition bad_connack (connack : bytes) (proto_ver : Z) : result bool :=
    let minimum_len := if decide (proto_ver = 5) then 5 else 4 in
    py_or (test_index connack 0 (fun b => bool_decide (b <> 0x20)))
      (py_or (inr (bool_decide (len connack < minimum_len)))
         (test_index connack 3 (fun b => bool_decide (b >= 0x80)))).

Definition connect_client (s : sock) (client_id : string) (proto_ver : Z) : M W unit :=
    sendall s (mqtt_packets.(gen_connect) client_id ["proto_ver" @= proto_ver]);;
    connack ← read_packet s;
    bad ← lift (bad_connack connack proto_ver);
    raise_if bad (AssertionError ("invalid successful CONNACK: " +:+ hex connack)).

Definition connect_v5 (s : sock) (client_id : string) : M W unit :=
    connect_client s client_id 5.

Definition bad_persistent (connack : bytes) (present : bool) : result bool :=
    py_or (test_index connack 0 (fun b => bool_decide (b <> 0x20)))
      (py_or (inr (bool_decide (len connack < 5)))
        (py_or (test_index connack 2 (fun b => bool_decide (b <> Z.b2z present)))
          (test_index connack 3 (fun b => bool_decide (b <> 0))))).

Definition connect_persistent_v5 (s : sock) (client_id : string) (present : bool)
    : M W unit :=
    sendall s (mqtt_packets.(gen_connect) client_id
      ["clean_session" @= false; "proto_ver" @= 5; "session_expiry" @= 60]);;
    connack ← read_packet s;
    bad ← lift (bad_persistent connack present);
    raise_if bad (AssertionError ("invalid persistent CONNACK (present="
      +:+ str_bool present +:+ "): " +:+ hex connack)).

(** [sock.sendall(mqtt_packets.gen_disconnect(proto_ver=5))], the last line of
    most scenarios. *)
Definition send_disconnect (s : sock) : M W unit :=
    sendall s (mqtt_packets.(gen_disconnect) ["proto_ver" @= 5]).

End handshake.

(** ** The verdicts of the handshakes *)

(** The packets that [connect_client] lets pass, by their bytes: 0x20, the
    fourth byte below [0x80] and, for MQTT 5, at least five bytes.  The fourth
    byte is the reason code when the Remaining Length takes one byte. *)
Definition connack_accepts (proto_ver : Z) (p : bytes) : Prop :=
  match p with
  | h :: _ :: _ :: rc :: rest =>
      b2z h = 0x20 /\ b2z rc < 0x80 /\ (proto_ver = 5 -> rest <> [])
  | _ => False
  end.

#[global] Instance connack_accepts_dec v p : Decision (connack_accepts v p).
Proof. destruct p as [|h [|l [|f [|rc rest]]]]; simpl; solve_decision. Defined.

(** Those that [connect_persistent_v5] lets pass: the third and the fourth byte
    are the flags and the reason code when the Remaining Length takes one byte. *)
Definition persistent_accepts (present : bool) (p : bytes) : Prop :=
  match p with
  | h :: _ :: f :: rc :: _ :: _ => b2z h = 0x20 /\ b2z f = Z.b2z present /\ b2z rc = 0
  | _ => False
  end.

#[global] Instance persistent_accepts_dec b p : Decision (persistent_accepts b p).
Proof. destruct p as [|h [|l [|f [|rc [|n rest]]]]]; simpl; solve_decision. Defined.

Lemma bad_connack_spec p v :
  p <> [] -> bad_connack p v = inr (negb (bool_decide (connack_accepts v p))).
Proof.
  intros Hp. unfold bad_connack. rewrite !test_index_nth by lia.
  destruct p as [|h [|l [|f [|rc [|n rest]]]]]; [done|..]; simpl; by_cases.
Qed.

Lemma bad_persistent_spec p present :
  p <> [] -> bad_persistent p present = inr (negb (bool_decide (persistent_accepts present p))).
Proof.
  intros Hp. unfold bad_persistent. rewrite !test_index_nth by lia.
  destruct p as [|h [|l [|f [|rc [|n rest]]]]]; [done|..]; simpl; by_cases.
Qed.
