(* ===== verification/Handshake.v ===== *)
(** * The verdicts of the handshakes

    Which CONNACKs the handshakes accept, on any stream that delivers a
    packet; the bytes of the CONNACK that the driver expects of netz. *)

From Stdlib Require Import ZArith Lia.
From stdpp Require Import base list option strings.
From S2P Require Import Prelude PyValues Effects Traces Canned Wire Expect Mosquitto.
From S2P Require Import WireFormat Connack.
Local Open Scope Z_scope.

Section verdicts.
  Context {W : Type} `{Platform W} (mqtt_packets : MqttPackets).

Lemma packet_nonempty p : packet p -> p <> [].
Proof. by intros (h & rl & body & -> & _). Qed.

(** A request that is sent, and its answer checked by [test]. *)
Lemma answered s K p rest d (test : bytes -> result bool) (e : bytes -> exn) good w w1 :
    sys_sendall s d w = (inr tt, w1) -> packet p -> serves s K (p ++ rest) w1 ->
    test p = inr (negb good) ->
    exists w' t,
      (sendall s d;; connack ← read_packet s; bad ← lift (test connack);
       raise_if bad (e connack)) w = (if good then Ok tt else Raise (e p), w', t) /\
      serves s K rest w'.
Proof.
    intros Hsend Hp Hs Htest.
    destruct (read_packet_serves s K p rest w1 Hp Hs) as (w' & t & Hr & Hs').
    exists w'. eexists. split; [|done].
    unfold sendall, call, lift, raise_if, raise, mbind, M_bind. rewrite Hsend. simpl.
    rewrite Hr, Htest. by destruct good.
Qed.

(** *** What the checks mean for a CONNACK

    [body] is what follows the Remaining Length: the flags, the reason code
    (return code, for MQTT 3.1.1) and the properties of MQTT 5. *)

Definition connack_passes (proto_ver : Z) (fixed : byte) (body : bytes) : Prop :=
    b2z fixed = 0x20 /\
    match body with
    | flags :: reason_code :: properties =>
        b2z reason_code < 0x80 /\ (proto_ver = 5 -> properties <> [])
    | _ => False
    end.

Definition persistent_passes (present : bool) (fixed : byte) (body : bytes) : Prop :=
    b2z fixed = 0x20 /\
    match body with
    | flags :: reason_code :: properties =>
        b2z flags = Z.b2z present /\ b2z reason_code = 0 /\ properties <> []
    | _ => False
    end.

#[global] Instance connack_passes_dec v fixed body : Decision (connack_passes v fixed body).
Proof. destruct body as [|f [|rc rest]]; simpl; solve_decision. Defined.

#[global] Instance persistent_passes_dec b fixed body :
    Decision (persistent_passes b fixed body).
Proof. destruct body as [|f [|rc rest]]; simpl; solve_decision. Defined.

(** With one byte of Remaining Length the checks look at the fields. *)
Lemma bad_connack_short v fixed body :
    len body < 128 ->
    bad_connack (frame fixed body) v = inr (negb (bool_decide (connack_passes v fixed body))).
Proof.
    intros Hl. rewrite frame_short, bad_connack_spec by done. do 2 f_equal.
    apply bool_decide_ext. unfold connack_passes.
    destruct body as [|f [|rc rest]]; simpl; tauto.
Qed.

Lemma bad_persistent_short present fixed body :
    len body < 128 ->
    bad_persistent (frame fixed body) present =
      inr (negb (bool_decide (persistent_passes present fixed body))).
Proof.
    intros Hl. rewrite frame_short, bad_persistent_spec by done. do 2 f_equal.
    apply bool_decide_ext. unfold persistent_passes.
    destruct body as [|f [|rc [|n rest]]]; simpl; naive_solver.
Qed.

(** C22: The verdict of [connect_client] on a stream whose next packet has a
    body of less than 128 bytes, so that its Remaining Length takes one byte:
    the handshake consumes exactly that packet, returns if it is a CONNACK with
    a reason code below 0x80 (and, for MQTT 5, a property block), and otherwise
    raises an [AssertionError] that shows the packet; no packet, however short,
    makes the check itself fail. *)
Theorem connect_client_verdict s K fixed body rest (client_id : string) (proto_ver : Z) w w1 :
    sys_sendall s (mqtt_packets.(gen_connect) client_id ["proto_ver" @= proto_ver]) w
      = (inr tt, w1) ->
    len body < 128 -> serves s K (frame fixed body ++ rest) w1 ->
    exists w' t,
      connect_client mqtt_packets s client_id proto_ver w =
        (if bool_decide (connack_passes proto_ver fixed body) then Ok tt
         else Raise (AssertionError ("invalid successful CONNACK: " +:+ hex (frame fixed body))),
         w', t) /\
      serves s K rest w'.
Proof.
    intros Hsend Hl Hs. apply (answered s K (frame fixed body) rest _
      (fun p => bad_connack p proto_ver)
      (fun p => AssertionError ("invalid successful CONNACK: " +:+ hex p)) _ w w1);
      [done|apply frame_packet; lia|done|by apply bad_connack_short].
Qed.

(** C23: The verdict of [connect_persistent_v5] on such a stream: it returns
    exactly when the packet is a CONNACK with the expected Session Present flag
    as its flags, reason code 0 and a property block. *)
Theorem connect_persistent_verdict s K fixed body rest (client_id : string) present w w1 :
    sys_sendall s (mqtt_packets.(gen_connect) client_id
        ["clean_session" @= false; "proto_ver" @= 5; "session_expiry" @= 60]) w
      = (inr tt, w1) ->
    len body < 128 -> serves s K (frame fixed body ++ rest) w1 ->
    exists w' t,
      connect_persistent_v5 mqtt_packets s client_id present w =
        (if bool_decide (persistent_passes present fixed body) then Ok tt
         else Raise (AssertionError ("invalid persistent CONNACK (present="
                +:+ str_bool present +:+ "): " +:+ hex (frame fixed body))), w', t) /\
      serves s K rest w'.
Proof.
    intros Hsend Hl Hs. apply (answered s K (frame fixed body) rest _
      (fun p => bad_persistent p present)
      (fun p => AssertionError ("invalid persistent CONNACK (present="
         +:+ str_bool present +:+ "): " +:+ hex p)) _ w w1);
      [done|apply frame_packet; lia|done|by apply bad_persistent_short].
Qed.

(** A Remaining Length of two bytes, the second of which is 1. *)
Lemma frame_long fixed body :
    128 <= len body < 256 ->
    frame fixed body = fixed :: lo8 (len body) :: lo8 1 :: body.
Proof.
    intros Hl. unfold frame. cbn [encode_vbi]. rewrite decide_False by lia.
    assert (len body / 128 = 1) as -> by (symmetry; apply (Z.div_unique _ _ _ (len body - 128)); lia).
    assert (len body mod 128 = len body - 128) as ->
      by (symmetry; apply (Z.mod_unique _ _ 1); lia).
    rewrite decide_True by lia. by rewrite Z.sub_add.
Qed.

(** C31: A CONNACK whose properties make its Remaining Length two bytes long is
    misread: the bytes at the fixed positions are no longer the flags and the
    reason code.  If its body has 128 to 255 bytes and its flags are 0,
    [connect_client] returns whatever the reason code is, a refusal included,
    and [connect_persistent_v5] takes it for the CONNACK of a session that is
    present. *)
Theorem long_connack_misread s K reason_code properties rest (client_id : string) w w1 w2 :
    let p := frame (lo8 0x20) (lo8 0 :: reason_code :: properties) in
    126 <= len properties < 254 ->
    sys_sendall s (mqtt_packets.(gen_connect) client_id ["proto_ver" @= 5]) w = (inr tt, w1) ->
    sys_sendall s (mqtt_packets.(gen_connect) client_id
        ["clean_session" @= false; "proto_ver" @= 5; "session_expiry" @= 60]) w
      = (inr tt, w2) ->
    serves s K (p ++ rest) w1 -> serves s K (p ++ rest) w2 ->
    (exists w' t, connect_client mqtt_packets s client_id 5 w = (Ok tt, w', t)) /\
    (exists w' t, connect_persistent_v5 mqtt_packets s client_id true w = (Ok tt, w', t)).
Proof.
    intros p Hl Hw1 Hw2 Hs1 Hs2. set (body := lo8 0 :: reason_code :: properties) in *.
    assert (128 <= len body < 256) as Hb by (unfold len in *; subst body; simpl; lia).
    assert (packet p) as Hp by (apply frame_packet; lia).
    split.
    - destruct (answered s K p rest _ (fun p => bad_connack p 5)
        (fun p => AssertionError ("invalid successful CONNACK: " +:+ hex p)) true w w1
        Hw1 Hp Hs1) as (w' & t & Hr & _); [|by exists w', t].
      subst p. by rewrite frame_long, bad_connack_spec.
    - destruct (answered s K p rest _ (fun p => bad_persistent p true)
        (fun p => AssertionError ("invalid persistent CONNACK (present="
           +:+ str_bool true +:+ "): " +:+ hex p)) true w w2
        Hw2 Hp Hs2) as (w' & t & Hr & _); [|by exists w', t].
      subst p. by rewrite frame_long, bad_persistent_spec.
Qed.

(** C36: With MQTT 3.1.1 the handshake takes a refusal for a success: the
    broker answers with one of the return codes 1 to 5, all of which refuse
    the connection, and [connect_client] returns. *)
Theorem connect_client_accepts_refusal s K rc rest (client_id : string) w w1 :
    1 <= rc <= 5 ->
    sys_sendall s (mqtt_packets.(gen_connect) client_id ["proto_ver" @= 4]) w = (inr tt, w1) ->
    serves s K ([lo8 0x20; lo8 2; lo8 0; lo8 rc] ++ rest) w1 ->
    exists w' t, connect_client mqtt_packets s client_id 4 w = (Ok tt, w', t).
Proof.
    intros Hrc Hsend Hs.
    assert (packet [lo8 0x20; lo8 2; lo8 0; lo8 rc]) as Hp
      by (by apply (frame_packet (lo8 0x20) [lo8 0; lo8 rc])).
    destruct (answered s K _ rest _ (fun p => bad_connack p 4)
      (fun p => AssertionError ("invalid successful CONNACK: " +:+ hex p)) true w w1
      Hsend Hp Hs) as (w' & t & Hr & _); [|by exists w', t].
    rewrite bad_connack_spec by done. rewrite bool_decide_eq_true_2; [done|].
    simpl. rewrite !b2z_lo8. split_and!; [done| |lia]. rewrite Z.mod_small; lia.
Qed.

End verdicts.

(** ** The expected CONNACK *)

Section expected.
  Context (mqtt_packets : MqttPackets) (mqtt5_props : Mqtt5Props).
  Context `{!GeneratorLaws mqtt_packets mqtt5_props}.

Lemma connack_properties_wire kw :
    0 <= kw.(maximum_packet_size) < 2 ^ 32 -> 0 <= kw.(topic_alias_maximum) < 2 ^ 16 ->
    connack_properties mqtt5_props kw =
      lo8 mqtt5_props.(RECEIVE_MAXIMUM) :: u16 64 ++
      lo8 mqtt5_props.(MAXIMUM_PACKET_SIZE) :: u32 kw.(maximum_packet_size) ++
      lo8 mqtt5_props.(TOPIC_ALIAS_MAXIMUM) :: u16 kw.(topic_alias_maximum) ++
      kw.(extra_properties).
Proof.
    intros Hmax Halias. pose proof v5_identifiers as Hi. rewrite !Forall_cons in Hi.
    destruct Hi as (_ & _ & ? & ? & ? & _). unfold connack_properties.
    by rewrite v5_uint32_prop, (v5_uint16_prop (RECEIVE_MAXIMUM _)),
      (v5_uint16_prop (TOPIC_ALIAS_MAXIMUM _)).
Qed.

Lemma expected_connack_wire kw :
    0 <= kw.(maximum_packet_size) < 2 ^ 32 -> 0 <= kw.(topic_alias_maximum) < 2 ^ 16 ->
    len kw.(extra_properties) < 114 ->
    expected_connack mqtt_packets mqtt5_props kw =
      lo8 0x20 :: lo8 (14 + len kw.(extra_properties)) ::
      lo8 (Z.b2z kw.(session_present)) :: lo8 0 ::
      lo8 (11 + len kw.(extra_properties)) :: connack_properties mqtt5_props kw.
Proof.
    intros Hmax Halias Hx. unfold expected_connack. rewrite v5_connack by done.
    unfold wire_connack. change (is_v5 _) with true.
    assert (len (connack_properties mqtt5_props kw) = 11 + len kw.(extra_properties)) as Hl.
    { rewrite connack_properties_wire by done. unfold u16, u32, len. simpl. lia. }
    unfold props. change (is_v5 _) with true. cbv iota.
    change (data_of "properties" _) with (connack_properties mqtt5_props kw).
    rewrite sized_short by lia. rewrite frame_short by (unfold len in *; simpl; lia).
    rewrite Hl. change (int_of 0 "flags" _) with (Z.b2z kw.(session_present)).
    change (int_of 0 "rc" _) with 0. simpl. do 2 f_equal.
    f_equal. unfold len in *. simpl. lia.
Qed.

(** C33: The CONNACK that the driver expects of netz, byte by byte: the fixed
    header with a one-byte Remaining Length, the Session Present flag, reason
    code 0, and the property block in the order Receive Maximum 64, Maximum
    Packet Size, Topic Alias Maximum, then what the vector adds. *)
Theorem expected_connack_layout kw :
    0 <= kw.(maximum_packet_size) < 2 ^ 32 -> 0 <= kw.(topic_alias_maximum) < 2 ^ 16 ->
    len kw.(extra_properties) < 114 ->
    expected_connack mqtt_packets mqtt5_props kw =
      [ lo8 0x20; lo8 (14 + len kw.(extra_properties));
        lo8 (Z.b2z kw.(session_present)); lo8 0; lo8 (11 + len kw.(extra_properties)) ] ++
      lo8 mqtt5_props.(RECEIVE_MAXIMUM) :: u16 64 ++
      lo8 mqtt5_props.(MAXIMUM_PACKET_SIZE) :: u32 kw.(maximum_packet_size) ++
      lo8 mqtt5_props.(TOPIC_ALIAS_MAXIMUM) :: u16 kw.(topic_alias_maximum) ++
      kw.(extra_properties).
Proof. intros Hmax Halias Hx. by rewrite expected_connack_wire, connack_properties_wire. Qed.

(** C34: The expected CONNACK is a well-formed packet that passes the tests of
    the handshakes: that of [connect_v5] whatever its Session Present flag, and
    that of [connect_persistent_v5] exactly when the flag is the expected one. *)
Theorem expected_connack_accepted kw present :
    0 <= kw.(maximum_packet_size) < 2 ^ 32 -> 0 <= kw.(topic_alias_maximum) < 2 ^ 16 ->
    len kw.(extra_properties) < 114 ->
    let p := expected_connack mqtt_packets mqtt5_props kw in
    packet p /\ bad_connack p 5 = inr false /\
    bad_persistent p present = inr (bool_decide (kw.(session_present) <> present)).
Proof.
    intros Hmax Halias Hx p. subst p. rewrite expected_connack_wire by done.
    pose proof (len_nonneg kw.(extra_properties)) as Hn.
    assert (len (connack_properties mqtt5_props kw) = 11 + len kw.(extra_properties)) as Hl.
    { rewrite connack_properties_wire by done. unfold u16, u32, len. simpl. lia. }
    split_and!.
    - set (body := _ :: lo8 0 :: _).
      assert (len body = 14 + len kw.(extra_properties)) as Hb
        by (subst body; unfold len in *; simpl; lia).
      rewrite <-Hb, <-frame_short by lia. apply frame_packet. lia.
    - rewrite bad_connack_spec by done. rewrite bool_decide_eq_true_2; [done|].
      simpl. rewrite !b2z_lo8. split_and!; [done|done|]. intros _. done.
    - rewrite bad_persistent_spec by done. f_equal. rewrite <-bool_decide_not.
      apply bool_decide_ext. rewrite connack_properties_wire by done. simpl.
      rewrite !b2z_lo8. destruct (session_present kw), present; naive_solver.
Qed.

End expected.

(** ** Instances *)

(** The broker answers a CONNECT with a refusal: return code 5 of MQTT 3.1.1,
    "not authorized". *)
Definition refusal : bytes := [lo8 0x20; lo8 2; lo8 0; lo8 5].
Definition refused : canned := good [[Chunk refusal]].

Lemma refused_serves : serves 0%nat (fun w => w = set_inboxes [[]] refused) (refusal ++ []) refused.
Proof. apply (canned_serves 0%nat [refusal] [] refused); [done|by repeat constructor]. Qed.

Lemma connect_client_verdict_witness :
  exists w' t,
    connect_client wire_packets 0%nat "client" 5 refused =
      (Raise (AssertionError "invalid successful CONNACK: 20020005"), w', t) /\
    serves 0%nat (fun w => w = set_inboxes [[]] refused) [] w'.
Proof.
  apply (connect_client_verdict wire_packets 0%nat (fun w => w = set_inboxes [[]] refused)
           (lo8 0x20) [lo8 0; lo8 5] [] "client" 5 refused refused).
  - reflexivity.
  - reflexivity.
  - exact refused_serves.
Defined.

Lemma connect_persistent_verdict_witness :
  exists w' t,
    connect_persistent_v5 wire_packets 0%nat "client" true refused =
      (Raise (AssertionError "invalid persistent CONNACK (present=True): 20020005"), w', t) /\
    serves 0%nat (fun w => w = set_inboxes [[]] refused) [] w'.
Proof.
  apply (connect_persistent_verdict wire_packets 0%nat (fun w => w = set_inboxes [[]] refused)
           (lo8 0x20) [lo8 0; lo8 5] [] "client" true refused refused).
  - reflexivity.
  - reflexivity.
  - exact refused_serves.
Defined.

(** "Not authorized" (0x87) of MQTT 5 with a Reason String of 130 characters. *)
Definition long_reason : bytes :=
  sized (lo8 0x1F :: u16 130 ++ replicate 130 (lo8 0x78)).
Definition long_refusal : bytes := frame (lo8 0x20) (lo8 0 :: lo8 0x87 :: long_reason).
Definition long_refused : canned := good [[Chunk long_refusal]].

Lemma long_refused_serves :
  serves 0%nat (fun w => w = set_inboxes [[]] long_refused) (long_refusal ++ []) long_refused.
Proof. apply (canned_serves 0%nat [long_refusal] [] long_refused); [done|by repeat constructor]. Qed.

Lemma long_connack_misread_witness :
  (exists w' t, connect_client wire_packets 0%nat "client" 5 long_refused = (Ok tt, w', t)) /\
  (exists w' t, connect_persistent_v5 wire_packets 0%nat "client" true long_refused
     = (Ok tt, w', t)).
Proof.
  apply (long_connack_misread wire_packets 0%nat (fun w => w = set_inboxes [[]] long_refused)
           (lo8 0x87) long_reason [] "client" long_refused long_refused long_refused).
  - vm_compute. split; [discriminate|reflexivity].
  - reflexivity.
  - reflexivity.
  - exact long_refused_serves.
  - exact long_refused_serves.
Defined.

Lemma connect_client_accepts_refusal_witness :
  exists w' t, connect_client wire_packets 0%nat "client" 4 refused = (Ok tt, w', t).
Proof.
  apply (connect_client_accepts_refusal wire_packets 0%nat
           (fun w => w = set_inboxes [[]] refused) 5 [] "client" refused refused).
  - lia.
  - reflexivity.
  - exact refused_serves.
Defined.

Lemma expected_connack_layout_witness :
  hex (expected_connack wire_packets wire_props connack_defaults)
    = "200e00000b2100402701000000220010".
Proof.
  rewrite (expected_connack_layout wire_packets wire_props connack_defaults);
    [reflexivity|done|done|reflexivity].
Defined.

Lemma expected_connack_accepted_witness :
  bad_persistent (expected_connack wire_packets wire_props (with_session true)) true = inr false.
Proof.
  apply (expected_connack_accepted wire_packets wire_props (with_session true) true);
    [done|done|reflexivity].
Defined.
