(* ===== verification/Script.v ===== *)
(** * Scenarios as scripts

    A passing run of a scenario is a fixed dialogue.  [step] describes it one
    exchange at a time, with connections numbered in the order in which the
    broker process accepted them; [spells] relates a script to the system calls
    that perform it; [plays m script] says that every passing run of [m]
    performs the script.  The rules below derive the script of a computation
    from its text. *)

From Stdlib Require Import ZArith Lia.
From stdpp Require Import base list option strings.
From S2P Require Import Prelude PyValues Effects Traces Canned Wire Expect Mosquitto Broker.
From S2P Require Import Connack.
Local Open Scope Z_scope.

Inductive step : Type :=
  | Launch (conns : Z) (ignore : bool) (extra : list string)
  | Open                                    (** a new connection *)
  | Send (i : nat) (data : bytes)
  | Recv (i : nat) (p : bytes)              (** exactly this packet *)
  | RecvOk (i : nat) (good : list bytes -> bytes -> bool)
      (** a packet that passes a test, given those tested so far *)
  | RecvAll (i : nat) (ps : list bytes)     (** these packets, in any order *)
  | Quiet (i : nat)                         (** no byte within 50 ms *)
  | NoAnswer (i : nat)                      (** closed or reset, no byte *)
  | Ended (i : nat)                         (** closed, no byte *)
  | Pause (ms : Z)
  | Close (i : nat)
  | Finish.                                 (** the broker exits with status 0 *)

Abbreviation script := (list step).

(** The broker process in use with its port, its connections, and the packets
    that have been tested since it was launched. *)
Record stage : Type := Stage {
  running : option (Z * proc);
  conns : list sock;
  seen : list bytes;
}.

Definition idle : stage := Stage None [] [].
Definition staged (port : Z) (p : proc) (l : list sock) (sn : list bytes) : stage :=
  Stage (Some (port, p)) l sn.
Definition see (st : stage) (p : bytes) : stage :=
  Stage st.(running) st.(conns) (st.(seen) ++ [p]).

Section spells.
  Context (exe : string).

(** The command line of a broker on [port]. *)
Definition launch_command (port n : Z) (ignore : bool) (extra : list string) : list string :=
    command {| executable := exe; connections := n; ignore_errors := ignore;
               extra_args := extra; Broker.port := port; process := None |}.

(** The system calls of one step. *)
Inductive performs : stage -> step -> trace -> stage -> Prop :=
  | performs_launch n ignore extra probe host port p line :
      occurs_in "listening" line = true ->
      performs idle (Launch n ignore extra)
        [ EvSocket (inr probe); EvBind probe "127.0.0.1" 0 (inr tt);
          EvGetsockname probe (inr (host, port)); EvClose probe (inr tt);
          EvPopen (launch_command port n ignore extra) (inr p);
          EvReadline p (inr line) ]
        (staged port p [] [])
  | performs_open port p l sn s :
      performs (staged port p l sn) Open
        [ EvConnect "127.0.0.1" port 5000 (inr s); EvSettimeout s 5000 (inr tt) ]
        (staged port p (l ++ [s]) sn)
  | performs_send st i s d :
      conns st !! i = Some s ->
      performs st (Send i d) [EvSendall s d (inr tt)] st
  | performs_recv st i s p t :
      conns st !! i = Some s -> reads s p t -> packet p ->
      performs st (Recv i p) t st
  | performs_recv_ok st i s good p t :
      conns st !! i = Some s -> reads s p t -> packet p -> good (seen st) p = true ->
      performs st (RecvOk i good) t (see st p)
  | performs_recv_all st i s ps qs t :
      conns st !! i = Some s -> qs ≡ₚ ps -> Forall packet qs -> reads s (concat qs) t ->
      performs st (RecvAll i ps) t st
  | performs_quiet st i s r :
      conns st !! i = Some s -> r = inl SocketTimeout \/ r = inr [] ->
      performs st (Quiet i)
        [ EvSettimeout s 50 (inr tt); EvRecv s 1 r; EvSettimeout s 5000 (inr tt) ] st
  | performs_no_answer st i s r :
      conns st !! i = Some s ->
      r = inl ConnectionResetError \/ r = inl BrokenPipeError \/ r = inr [] ->
      performs st (NoAnswer i) [EvRecv s 1 r] st
  | performs_ended st i s :
      conns st !! i = Some s -> performs st (Ended i) [EvRecv s 1 (inr [])] st
  | performs_pause st ms :
      performs st (Pause ms) [EvSleep ms (inr tt)] st
  | performs_close st i s :
      conns st !! i = Some s -> performs st (Close i) [EvClose s (inr tt)] st
  | performs_finish port p l sn :
      performs (staged port p l sn) Finish [EvWait p 5000 (inr 0)] idle.

Inductive spells : stage -> script -> trace -> stage -> Prop :=
  | spells_nil st : spells st [] [] st
  | spells_cons st x t1 st1 sc t2 st2 :
      performs st x t1 st1 -> spells st1 sc t2 st2 ->
      spells st (x :: sc) (t1 ++ t2) st2.

Lemma spells_app st sc1 t1 st1 sc2 t2 st2 :
    spells st sc1 t1 st1 -> spells st1 sc2 t2 st2 ->
    spells st (sc1 ++ sc2) (t1 ++ t2) st2.
Proof.
    induction 1 as [|st x s1 st' sc s2 st'' Hx Hsc IH]; intros H2; [done|].
    rewrite <-app_assoc. simpl. econstructor; eauto.
Qed.

Lemma spells_app_inv st sc1 sc2 t st2 :
    spells st (sc1 ++ sc2) t st2 ->
    exists t1 st1 t2, spells st sc1 t1 st1 /\ spells st1 sc2 t2 st2 /\ t = t1 ++ t2.
Proof.
    revert st t. induction sc1 as [|x sc1 IH]; intros st t Hs; simpl in Hs.
    - exists [], st, t. split_and!; [constructor|done|done].
    - inversion Hs as [|? ? s1 st' ? s2 ? Hx Hrest]; subst.
      destruct (IH _ _ Hrest) as (u1 & st1 & u2 & H1 & H2 & ->).
      exists (s1 ++ u1), st1, u2. split_and!; [by econstructor|done|by rewrite app_assoc].
Qed.

End spells.

(** ** Deriving scripts *)

Section plays.
  Context (exe : string) {W : Type} `{PlatformLaws W}.

(** Every passing run of [m] performs [sc] and ends with no broker running. *)
Definition plays {A} (st : stage) (m : M W A) (sc : script) : Prop :=
    runs m (fun o t => forall a, o = Ok a -> spells exe st sc t idle).

Lemma plays_ret {A} (a : A) : plays idle (mret a) [].
Proof. apply runs_ret. constructor. Qed.

Lemma plays_step {A B} st x st1 (m : M W A) (k : A -> M W B) sc :
    runs m (fun o t => forall a, o = Ok a -> performs exe st x t st1) ->
    (forall a, plays st1 (k a) sc) -> plays st (m ≫= k) (x :: sc).
Proof.
    intros Hm Hk. apply runs_bind. eapply runs_mono; [exact Hm|].
    intros [a|e|] t Ht; try done. eapply runs_mono; [apply Hk|].
    intros o t' Ht' b Hb. econstructor; eauto.
Qed.

(** Computations with the same passing runs play the same scripts. *)
Lemma plays_assoc {A B C} st (m : M W A) (k : A -> M W B) (k' : B -> M W C) sc :
    plays st (a ← m; b ← k a; k' b) sc -> plays st ((m ≫= k) ≫= k') sc.
Proof.
    intros Hp w o w' t Hr. apply (Hp w o w' t). rewrite <-Hr.
    unfold mbind, M_bind. destruct (m w) as [[[a|e|] w1] t1]; try done.
    destruct (k a w1) as [[[b|e|] w2] t2]; try done.
    destruct (k' b w2) as [[o3 w3] t3]. by rewrite app_assoc.
Qed.

Lemma plays_regroup {A B C D} st (m : M W A) (k1 : A -> M W B) (k2 : B -> M W C)
      (k3 : C -> M W D) sc :
    plays st (b ← (m ≫= k1); c ← k2 b; k3 c) sc ->
    plays st (c ← (a ← m; k1 a ≫= k2); k3 c) sc.
Proof.
    intros Hp w o w' t Hr. apply (Hp w o w' t). rewrite <-Hr.
    unfold mbind, M_bind. destruct (m w) as [[[a|e|] w1] t1]; try done.
    destruct (k1 a w1) as [[[b|e|] w2] t2]; try done.
    destruct (k2 b w2) as [[[c|e|] w3] t3]; [|by rewrite app_assoc..].
    destruct (k3 c w3) as [[o4 w4] t4]. by rewrite !app_assoc.
Qed.

Lemma plays_ret_bind {A B} st (a : A) (k : A -> M W B) sc :
    plays st (k a) sc -> plays st (mret a ≫= k) sc.
Proof.
    intros Hp. apply runs_bind, runs_ret. eapply runs_mono; [exact Hp|]. eauto.
Qed.

Lemma plays_bind_ret {A} st (m : M W A) sc :
    plays st (a ← m; mret a) sc -> plays st m sc.
Proof.
    intros Hp w o w' t Hr a ->. replace t with (t ++ []) by apply app_nil_r.
    eapply Hp; [|done]. unfold mbind, M_bind. by rewrite Hr.
Qed.

(** The passing runs of a [with] or [finally] block: the body, then the exit. *)
Lemma plays_with_exit {A B} st (m : M W A) f (k : A -> M W B) sc :
    plays st (a ← m; f false;; k a) sc -> plays st (with_exit m f ≫= k) sc.
Proof.
    intros Hp w o w' t Hr b ->. eapply (Hp w (Ok b) w' t); [|done]. revert Hr.
    unfold with_exit, mbind, M_bind. destruct (m w) as [[[a|e|] w1] t1]; try done.
    - destruct (f false w1) as [[[u|e|] w2] t2]; try done.
      destruct (k a w2) as [[o3 w3] t3]. intros [= -> -> <-]. by rewrite app_assoc.
    - by destruct (f true w1) as [[[u|e'|] w2] t2].
Qed.

Lemma plays_lift {A B} st (r : result A) a (k : A -> M W B) sc :
    r = inr a -> plays st (k a) sc -> plays st (lift r ≫= k) sc.
Proof.
    intros -> Hp. apply runs_bind, runs_lift. eapply runs_mono; [exact Hp|]. eauto.
Qed.

(** A check that does not touch the network: a passing run went past it. *)
Lemma plays_raise_if {A} st bad e (k : unit -> M W A) sc :
    plays st (k tt) sc -> plays st (raise_if bad e ≫= k) sc.
Proof. intros Hp. destruct bad; [by apply runs_bind, runs_raise|by apply plays_ret_bind]. Qed.

(** The rounds of a loop. *)
Lemma plays_loop_end {A B} st l (f : A -> M W unit) (k : unit -> M W B) sc :
    l = [] -> plays st (k tt) sc -> plays st (for_each l f ≫= k) sc.
Proof. intros ->. apply plays_ret_bind. Qed.

Lemma plays_loop_round {A B} st l x r (f : A -> M W unit) (k : unit -> M W B) sc :
    l = x :: r -> plays st (f x;; for_each r f ≫= k) sc -> plays st (for_each l f ≫= k) sc.
Proof. intros ->. apply plays_assoc. Qed.

Lemma plays_fold_end {A B C} st l acc (f : B -> A -> M W B) (k : B -> M W C) sc :
    l = [] -> plays st (k acc) sc -> plays st (for_fold l acc f ≫= k) sc.
Proof. intros ->. apply plays_ret_bind. Qed.

Lemma plays_fold_round {A B C} st l acc x r (f : B -> A -> M W B) (k : B -> M W C) sc :
    l = x :: r -> plays st (acc' ← f acc x; for_fold r acc' f ≫= k) sc ->
    plays st (for_fold l acc f ≫= k) sc.
Proof. intros ->. apply plays_assoc. Qed.

(** *** One rule per exchange *)

Section exchanges.
  Context {A : Type} (st : stage) (i : nat) (s : sock) (Hs : conns st !! i = Some s).
  Context (k : unit -> M W A) (sc : script).

Lemma plays_send d :
    plays st (k tt) sc -> plays st (sendall s d ≫= k) (Send i d :: sc).
Proof.
    intros Hk. apply (plays_step _ _ st); [|by intros []].
    apply runs_call. intros w [e|[]] w' _ u; [done|]. intros _. by constructor.
Qed.

Lemma plays_close : plays st (k tt) sc -> plays st (close s ≫= k) (Close i :: sc).
Proof.
    intros Hk. apply (plays_step _ _ st); [|by intros []].
    apply runs_call. intros w [e|[]] w' _ u; [done|]. intros _. by constructor.
Qed.

Lemma plays_expect p label :
    plays st (k tt) sc -> plays st (expect_packet s p label ≫= k) (Recv i p :: sc).
Proof.
    intros Hk. apply (plays_step _ _ st); [|by intros []].
    eapply runs_mono; [apply expect_packet_reads|]. intros o t Ht u Hu.
    destruct (Ht u Hu). by eapply performs_recv.
Qed.

Lemma plays_unordered ps label :
    plays st (k tt) sc ->
    plays st (expect_packets_unordered s ps label ≫= k) (RecvAll i ps :: sc).
Proof.
    intros Hk. apply (plays_step _ _ st); [|by intros []].
    eapply runs_mono; [apply expect_unordered_reads|]. intros o t Ht u Hu.
    destruct (Ht u Hu) as (qs & ? & ? & ?). by eapply performs_recv_all.
Qed.

Lemma plays_silence c :
    plays st (k tt) sc -> plays st (expect_silence s c ≫= k) (Quiet i :: sc).
Proof.
    intros Hk. apply (plays_step _ _ st); [|by intros []].
    apply runs_bind, runs_call. intros w [e|[]] w' _; [done|]. simpl of_result. cbv iota.
    apply runs_with_exit, runs_try, runs_bind, runs_call. intros v r v' _.
    destruct r as [e|early]; simpl.
    - unfold is_timeout. case_bool_decide as He.
      + subst. apply runs_ret, runs_call. intros ? [?|[]] ? _ [] ?; try done.
        eapply performs_quiet; eauto.
      + apply runs_call. by intros ? [?|[]] ? _ [] ?.
    - unfold raise_if. case_bool_decide as He.
      + apply runs_raise. simpl. apply runs_call. by intros ? [?|[]] ? _ [] ?.
      + destruct early; [|done]. apply runs_ret, runs_call. intros ? [?|[]] ? _ [] ?; try done.
        eapply performs_quiet; eauto.
Qed.

Lemma plays_no_answer c :
    plays st (k tt) sc -> plays st (expect_no_answer s c ≫= k) (NoAnswer i :: sc).
Proof.
    intros Hk. apply (plays_step _ _ st); [|by intros []].
    apply runs_try, runs_bind, runs_call. intros v [e|data] v' _; simpl.
    - unfold is_dropped. case_bool_decide as He; [|done].
      apply runs_ret. intros _ _. simpl. eapply performs_no_answer; [exact Hs|].
      destruct He as [->| ->]; auto.
    - unfold raise_if. case_bool_decide as He; [by apply runs_raise|].
      destruct data; [|done]. apply runs_ret. intros _ _. eapply performs_no_answer; eauto.
Qed.

End exchanges.

(** *** Packets that the scenario examines itself

    [guarded P st m sc]: every passing run of [m] has established [P] and
    performs [sc]. *)
Definition guarded {A} (P : Prop) (st : stage) (m : M W A) (sc : script) : Prop :=
    runs m (fun o t => forall a, o = Ok a -> P /\ spells exe st sc t idle).

Lemma guarded_plays {A} (P : Prop) st (m : M W A) sc : P -> plays st m sc -> guarded P st m sc.
Proof. intros HP Hm. eapply runs_mono; [exact Hm|]. intros o t Ht a Ha. split; eauto. Qed.

Lemma guarded_assoc {A B C} P st (m : M W A) (k : A -> M W B) (k' : B -> M W C) sc :
    guarded P st (a ← m; b ← k a; k' b) sc -> guarded P st ((m ≫= k) ≫= k') sc.
Proof.
    intros Hp w o w' t Hr. apply (Hp w o w' t). rewrite <-Hr.
    unfold mbind, M_bind. destruct (m w) as [[[a|e|] w1] t1]; try done.
    destruct (k a w1) as [[[b|e|] w2] t2]; try done.
    destruct (k' b w2) as [[o3 w3] t3]. by rewrite app_assoc.
Qed.

Lemma guarded_ret_bind {A B} P st (a : A) (k : A -> M W B) sc :
    guarded P st (k a) sc -> guarded P st (mret a ≫= k) sc.
Proof.
    intros Hp. apply runs_bind, runs_ret. eapply runs_mono; [exact Hp|]. eauto.
Qed.

Lemma guarded_lift {A B} P st (r : result A) (k : A -> M W B) sc :
    (forall v, r = inr v -> guarded P st (k v) sc) -> guarded P st (lift r ≫= k) sc.
Proof.
    intros Hk. apply runs_bind, runs_lift. destruct r as [e|v]; [done|].
    eapply runs_mono; [by apply (Hk v)|]. eauto.
Qed.

Lemma guarded_raise_if {A} P st bad e (k : unit -> M W A) sc :
    (bad = false -> guarded P st (k tt) sc) -> guarded P st (raise_if bad e ≫= k) sc.
Proof.
    intros Hk. apply runs_bind. destruct bad; [by apply runs_raise|]. apply runs_ret.
    eapply runs_mono; [by apply Hk|]. eauto.
Qed.

Lemma plays_read {A} st i s good (k : bytes -> M W A) sc :
    conns st !! i = Some s ->
    (forall p, guarded (good (seen st) p = true) (see st p) (k p) sc) ->
    plays st (read_packet s ≫= k) (RecvOk i good :: sc).
Proof.
    intros Hs Hk. apply runs_bind. eapply runs_mono; [apply read_packet_reads|].
    intros [p|e'|] t Ht; try done. destruct (Ht p eq_refl) as [Hp Hr].
    eapply runs_mono; [apply (Hk p)|]. intros o t' Ht' a Ha.
    destruct (Ht' a Ha) as [Hg Hsp]. econstructor; [|done]. eapply performs_recv_ok; eauto.
Qed.

(** [data = sock.recv(1); if data: raise ...]. *)
Lemma plays_recv {A} st i s (k : bytes -> M W A) sc :
    conns st !! i = Some s -> (forall d, guarded (d = []) st (k d) sc) ->
    plays st (recv s 1 ≫= k) (Ended i :: sc).
Proof.
    intros Hs Hk. apply runs_bind, runs_call. intros w [e'|d] w' _; [done|].
    simpl of_result. cbv iota. eapply runs_mono; [apply (Hk d)|]. intros o t Ht a Ha.
    destruct (Ht a Ha) as [-> Hsp]. apply (spells_cons _ _ _ [_] st); [by constructor|done].
Qed.

Lemma plays_sleep {A} st ms (k : unit -> M W A) sc :
    plays st (k tt) sc -> plays st (sleep ms ≫= k) (Pause ms :: sc).
Proof.
    intros Hk. apply (plays_step _ _ st); [|by intros []].
    apply runs_call. intros w [e|[]] w' _ u; [done|]. intros _. by constructor.
Qed.

Lemma plays_connect {A} port p l sn b (k : sock -> M W A) sc :
    Broker.port b = port ->
    (forall s, plays (staged port p (l ++ [s]) sn) (k s) sc) ->
    plays (staged port p l sn) (connect b ≫= k) (Open :: sc).
Proof.
    intros <- Hk. apply plays_assoc, runs_bind, runs_call.
    intros w [e|s] w' _; [done|]. simpl of_result. cbv iota.
    apply runs_bind, runs_bind, runs_call. intros v [e|[]] v' _; [done|].
    simpl of_result. cbv iota. apply runs_ret. eapply runs_mono; [apply (Hk s)|].
    intros o t Ht a Ha. simpl. apply (spells_cons _ _ _ [_; _] (staged (Broker.port b) p (l ++ [s]) sn));
      [constructor|by eapply Ht].
Qed.

Lemma plays_with_connection {A B} port p l sn b (body : sock -> M W A) (k : A -> M W B) sc :
    Broker.port b = port ->
    (forall s, plays (staged port p (l ++ [s]) sn) (a ← body s; close s;; k a) sc) ->
    plays (staged port p l sn) (with_connection b body ≫= k) (Open :: sc).
Proof.
    intros Hb Hk. apply plays_assoc, plays_connect; [done|]. intros s.
    apply plays_with_exit, Hk.
Qed.

(** A clean [__exit__]: the process has exited with status 0. *)
Lemma plays_exit {A} port p l sn b (k : unit -> M W A) sc :
    process b = Some p -> plays idle (k tt) sc ->
    plays (staged port p l sn) (exit b false ≫= k) (Finish :: sc).
Proof.
    intros Hp Hk. unfold exit. rewrite Hp. apply (plays_step _ _ idle); [|by intros []].
    apply runs_bind, runs_try, runs_call. intros w [e|code] w' _; simpl.
    - destruct (is_expired e); [|done]. apply runs_bind, runs_call.
      intros v [e'|[]] v' _; simpl; [done|].
      apply runs_bind, runs_call. intros v1 [e'|c] v1' _; simpl; [done|].
      apply runs_bind. by apply runs_raise.
    - case_bool_decide; simpl.
      + apply runs_bind, runs_call. intros v [e|out] v' _; simpl; [done|by apply runs_raise].
      + apply runs_ret. intros _ _. subst. constructor.
Qed.

Lemma free_port_probe :
    runs free_port (fun o t => forall port, o = Ok port -> exists probe host,
      t = [ EvSocket (inr probe); EvBind probe "127.0.0.1" 0 (inr tt);
            EvGetsockname probe (inr (host, port)); EvClose probe (inr tt) ]).
Proof.
    apply runs_bind, runs_call. intros w0 [e|probe] w0' _; [done|]. simpl of_result. cbv iota.
    apply runs_with_exit, runs_bind, runs_call. intros w1 [e|[]] w1' _; simpl of_result; cbv iota.
    { apply runs_call. by intros w [?|[]] w' _. }
    apply runs_bind, runs_call. intros w2 [e|[host port]] w2' _; simpl of_result; cbv iota.
    { apply runs_call. by intros w [?|[]] w' _. }
    apply runs_ret, runs_call. intros w [?|[]] w' _ q [=]; subst. by exists probe, host.
Qed.

Lemma start_launches n ignore extra :
    runs (b ← init exe n ignore extra; enter b) (fun o t => forall b, o = Ok b ->
      exists p, process b = Some p /\
        performs exe idle (Launch n ignore extra) t (staged (Broker.port b) p [] [])).
Proof.
    apply runs_bind, runs_bind. eapply runs_mono; [apply free_port_probe|].
    intros [port|e|] t Ht; try done. destruct (Ht port eq_refl) as (probe & host & ->).
    apply runs_ret. apply runs_bind, runs_call. intros w [e|p] w' _; [done|].
    simpl of_result. cbv iota. apply runs_bind, runs_call. intros v [e|line] v' _; [done|].
    simpl of_result. cbv iota. unfold raise_if.
    destruct (occurs_in "listening" line) eqn:Hl; [|by apply runs_bind, runs_raise].
    apply runs_bind, runs_ret, runs_ret. intros b [= <-]. exists p. split; [done|].
    by constructor.
Qed.

Lemma plays_with_broker {A B} n ignore extra (body : NetzBroker -> M W A) (k : A -> M W B) sc :
    (forall port p b, Broker.port b = port -> process b = Some p ->
       plays (staged port p [] []) (a ← body b; exit b false;; k a) sc) ->
    plays idle (with_broker exe n ignore extra body ≫= k) (Launch n ignore extra :: sc).
Proof.
    intros Hk. apply plays_regroup.
    apply runs_bind. eapply runs_mono; [apply start_launches|]. intros [b|e|] t Ht; try done.
    destruct (Ht b eq_refl) as (p & Hp & Hl). refine (runs_mono _ _ _ _ _).
    - apply (plays_with_exit (staged (Broker.port b) p [] [])), Hk; [done|done].
    - intros o t' Ht' a Ha. econstructor; eauto.
Qed.

(** *** Handshakes *)

Lemma plays_connect_client {A} (mp : MqttPackets) st i s cid v (k : unit -> M W A) sc :
    conns st !! i = Some s -> (forall p, plays (see st p) (k tt) sc) ->
    plays st (connect_client mp s cid v ≫= k)
      (Send i (mp.(gen_connect) cid ["proto_ver" @= v])
       :: RecvOk i (fun _ p => bool_decide (bad_connack p v = inr false)) :: sc).
Proof.
    intros Hs Hk. apply plays_assoc, plays_send; [done|]. apply plays_assoc, plays_read; [done|].
    intros p. apply guarded_assoc, guarded_lift. intros bad Hbad.
    apply guarded_raise_if. intros ->. by apply guarded_plays; [apply bool_decide_eq_true|].
Qed.

Lemma plays_connect_persistent {A} (mp : MqttPackets) st i s cid b (k : unit -> M W A) sc :
    conns st !! i = Some s -> (forall p, plays (see st p) (k tt) sc) ->
    plays st (connect_persistent_v5 mp s cid b ≫= k)
      (Send i (mp.(gen_connect) cid
                 ["clean_session" @= false; "proto_ver" @= 5; "session_expiry" @= 60])
       :: RecvOk i (fun _ p => bool_decide (bad_persistent p b = inr false)) :: sc).
Proof.
    intros Hs Hk. apply plays_assoc, plays_send; [done|]. apply plays_assoc, plays_read; [done|].
    intros p. apply guarded_assoc, guarded_lift. intros bad Hbad.
    apply guarded_raise_if. intros ->. by apply guarded_plays; [apply bool_decide_eq_true|].
Qed.

End plays.

(** Discharge the test of a packet that the scenario examines. *)
Ltac settle_guard :=
  repeat first
    [ apply guarded_assoc
    | apply guarded_lift; intros ? ?
    | apply guarded_raise_if; intros ? ];
  apply guarded_plays;
  [ subst; rewrite ?bool_decide_eq_true, ?bool_decide_eq_false in *;
    first [ congruence
          | by apply dec_stable
          | match goal with
            | H : ?x = inr _ |- _ =>
                change (match x with inr _ => true | inl _ => false end = true); by rewrite H
            end ] | ].

(** The number of a connection. *)
Ltac find_conn :=
  lazymatch goal with
  | |- conns ?st !! ?i = Some ?s =>
      first [ reflexivity
            | unify i 0%nat; reflexivity | unify i 1%nat; reflexivity
            | unify i 2%nat; reflexivity | unify i 3%nat; reflexivity
            | unify i 4%nat; reflexivity ]
  end.

(** The stage after a packet that was tested. *)
Ltac normal_stage :=
  match goal with
  | |- context [see (staged ?port ?p ?l ?sn) ?q] =>
      change (see (staged port p l sn) q) with (staged port p l (sn ++ [q])); cbn [app]
  end.

(** Apply the rule of an exchange. *)
Tactic Notation "exchange" constr(rule) :=
  eapply rule; [first [exact _ | find_conn]..|].

(** One step of the derivation of a script. *)
Ltac play_step :=
  lazymatch goal with
  | |- plays _ idle (mret _) _ => apply plays_ret
  | |- plays _ _ (mret _ ≫= _) _ => apply plays_ret_bind
  | |- plays _ _ ((_ ≫= _) ≫= _) _ => apply plays_assoc
  | |- plays _ _ (with_broker _ _ _ _ _ ≫= _) _ =>
      apply plays_with_broker; intros ? ? ? ? ?
  | |- plays _ _ (with_connection _ _ ≫= _) _ =>
      apply plays_with_connection; [assumption|]; intros ?; cbn [app]
  | |- plays _ _ (connect _ ≫= _) _ => apply plays_connect; [assumption|]; intros ?; cbn [app]
  | |- plays _ _ (with_exit _ _ ≫= _) _ => apply plays_with_exit
  | |- plays _ _ (finally _ _ ≫= _) _ => apply plays_with_exit
  | |- plays _ _ (exit _ _ ≫= _) _ => apply plays_exit; [assumption|]
  | |- plays _ _ (sendall _ _ ≫= _) _ => exchange plays_send
  | |- plays _ _ (send_disconnect _ _ ≫= _) _ => exchange plays_send
  | |- plays _ _ (close _ ≫= _) _ => exchange plays_close
  | |- plays _ _ (expect_packet _ _ _ ≫= _) _ => exchange plays_expect
  | |- plays _ _ (expect_packets_unordered _ _ _ ≫= _) _ =>
      exchange plays_unordered
  | |- plays _ _ (expect_silence _ _ ≫= _) _ => exchange plays_silence
  | |- plays _ _ (expect_no_answer _ _ ≫= _) _ => exchange plays_no_answer
  | |- plays _ _ (sleep _ ≫= _) _ => apply plays_sleep
  | |- plays _ _ (connect_client _ _ _ _ ≫= _) _ =>
      exchange plays_connect_client; intros ?; normal_stage
  | |- plays _ _ (connect_v5 _ _ _ ≫= _) _ =>
      exchange plays_connect_client; intros ?; normal_stage
  | |- plays _ _ (connect_persistent_v5 _ _ _ _ ≫= _) _ =>
      exchange plays_connect_persistent; intros ?; normal_stage
  | |- plays _ _ (read_packet _ ≫= _) _ =>
      exchange plays_read; intros ?; normal_stage; settle_guard
  | |- plays _ _ (recv _ _ ≫= _) _ =>
      exchange plays_recv; intros ?; settle_guard
  | |- plays _ _ (lift _ ≫= _) _ => eapply plays_lift; [reflexivity|]
  | |- plays _ _ (raise_if _ _ ≫= _) _ => apply plays_raise_if
  | |- plays _ _ (for_each _ _ ≫= _) _ =>
      first [ eapply plays_loop_end; [reflexivity|]
            | eapply plays_loop_round; [reflexivity|]; cbv beta iota ]
  | |- plays _ _ (for_fold _ _ _ ≫= _) _ =>
      first [ eapply plays_fold_end; [reflexivity|]
            | eapply plays_fold_round; [reflexivity|]; cbv beta iota ]
  | |- plays _ _ ((match decide ?P with _ => _ end) ≫= _) _ =>
      destruct (decide P); try (exfalso; done)
  | |- plays _ _ ((match py_remove ?x ?l with _ => _ end) ≫= _) _ =>
      let v := eval vm_compute in (py_remove x l) in
      replace (py_remove x l) with v by reflexivity
  | |- plays _ _ (_ ≫= _) _ => progress cbn
  end.

Ltac play := apply plays_bind_ret; repeat play_step.
