(* ===== verification/Conform.v ===== *)
(** * Platforms that follow a script

    [conforms st sc K w]: from the state [w] the platform behaves as the script
    [sc] prescribes (it accepts what is sent, delivers the packets in chunks of
    any size, which may hold the end of one packet and the beginning of the
    next, stays silent, and lets the broker start and exit), and is then in a
    state of [K].  This is the specification of the broker that a
    scenario tests.  [accepts m sc] says that the computation [m] passes on
    every such platform; with [Script.plays] it makes the scripts a two-sided
    account of the scenarios. *)

From Stdlib Require Import ZArith Lia.
From stdpp Require Import base list option strings.
From S2P Require Import Prelude PyValues Effects Traces Canned Wire Expect Mosquitto.
From S2P Require Import Broker Connack Script.
Local Open Scope Z_scope.

Section conforms.
  Context (exe : string) {W : Type} `{Platform W}.

(** A new broker process on a free port. *)
Definition launches n ignore extra (K : Z -> proc -> W -> Prop) (w : W) : Prop :=
    exists probe host port p line w1 w2 w3 w4 w5 w6,
      sys_socket w = (inr probe, w1) /\
      sys_bind probe "127.0.0.1" 0 w1 = (inr tt, w2) /\
      sys_getsockname probe w2 = (inr (host, port), w3) /\
      sys_close probe w3 = (inr tt, w4) /\
      sys_popen (launch_command exe port n ignore extra) w4 = (inr p, w5) /\
      sys_readline p w5 = (inr line, w6) /\
      occurs_in "listening" line = true /\ K port p w6.

Fixpoint conforms (st : stage) (sc : script) (K : stage -> W -> Prop) (w : W) : Prop :=
    match sc with
    | [] => K st w
    | Launch n ignore extra :: sc' =>
        st = idle /\
        launches n ignore extra (fun port p => conforms (staged port p [] []) sc' K) w
    | Open :: sc' =>
        exists port p s w1 w2, running st = Some (port, p) /\
          sys_create_connection "127.0.0.1" port 5000 w = (inr s, w1) /\
          sys_settimeout s 5000 w1 = (inr tt, w2) /\
          conforms (staged port p (conns st ++ [s]) (seen st)) sc' K w2
    | Finish :: sc' =>
        exists port p w1, running st = Some (port, p) /\
          sys_wait p 5000 w = (inr 0, w1) /\ conforms idle sc' K w1
    | Pause ms :: sc' => exists w1, sys_sleep ms w = (inr tt, w1) /\ conforms st sc' K w1
    | Send i d :: sc' => exists s w1, conns st !! i = Some s /\
        sys_sendall s d w = (inr tt, w1) /\ conforms st sc' K w1
    | Close i :: sc' => exists s w1, conns st !! i = Some s /\
        sys_close s w = (inr tt, w1) /\ conforms st sc' K w1
    | Recv i p :: sc' => exists s, conns st !! i = Some s /\
        packet p /\ streams s (conforms st sc' K) p w
    | RecvOk i good :: sc' => exists s p, conns st !! i = Some s /\
        packet p /\ good (seen st) p = true /\ streams s (conforms (see st p) sc' K) p w
    | RecvAll i ps :: sc' => exists s qs, conns st !! i = Some s /\
        qs ≡ₚ ps /\ Forall packet qs /\ streams s (conforms st sc' K) (concat qs) w
    | Quiet i :: sc' => exists s w1 r w2 w3, conns st !! i = Some s /\
        sys_settimeout s 50 w = (inr tt, w1) /\ sys_recv s 1 w1 = (r, w2) /\
        (r = inl SocketTimeout \/ r = inr []) /\
        sys_settimeout s 5000 w2 = (inr tt, w3) /\ conforms st sc' K w3
    | NoAnswer i :: sc' => exists s r w1, conns st !! i = Some s /\
        sys_recv s 1 w = (r, w1) /\
        (r = inl ConnectionResetError \/ r = inl BrokenPipeError \/ r = inr []) /\
        conforms st sc' K w1
    | Ended i :: sc' => exists s w1, conns st !! i = Some s /\
        sys_recv s 1 w = (inr [], w1) /\ conforms st sc' K w1
    end.

Lemma conforms_app st sc1 sc2 K w :
    conforms st (sc1 ++ sc2) K w -> conforms st sc1 (fun st' => conforms st' sc2 K) w.
Proof.
    revert st w. induction sc1 as [|x sc1 IH]; intros st w; [done|].
    destruct x; cbn [app conforms]; unfold launches; intros Hw; decompose record Hw; clear Hw;
      repeat match goal with |- ex _ => eexists | |- _ /\ _ => split end;
      eauto using streams_mono.
Qed.

(** ** Computations that pass on every such platform *)

(** [m] returns, in the final state of the script. *)
Definition accepts {A} (st : stage) (m : M W A) (sc : script) : Prop :=
    forall K w, conforms st sc K w -> exists a w' t, m w = (Ok a, w', t) /\ K idle w'.

Lemma accepts_ret {A} (a : A) : accepts idle (mret a) [].
Proof. intros K w Hw. by eexists _, _, _. Qed.

Lemma accepts_step {A B} (m : M W A) (k : A -> M W B) w a w1 t1 (K : W -> Prop) :
    m w = (Ok a, w1, t1) -> (exists b w' t, k a w1 = (Ok b, w', t) /\ K w') ->
    exists b w' t, (m ≫= k) w = (Ok b, w', t) /\ K w'.
Proof.
    intros Hm (b & w' & t & Hk & HK). exists b, w'. eexists. split; [|done].
    unfold mbind, M_bind. by rewrite Hm, Hk.
Qed.

(** [m'] passes whenever [m] does, with the same final state. *)
Lemma accepts_as {A} st (m m' : M W A) sc :
    (forall w a w' t, m w = (Ok a, w', t) -> exists t', m' w = (Ok a, w', t')) ->
    accepts st m sc -> accepts st m' sc.
Proof.
    intros Hm Ha K w Hw. destruct (Ha K w Hw) as (a & w' & t & Hr & HK).
    destruct (Hm _ _ _ _ Hr) as [t' Hr']. eauto.
Qed.

Lemma accepts_assoc {A B C} st (m : M W A) (k : A -> M W B) (k' : B -> M W C) sc :
    accepts st (a ← m; b ← k a; k' b) sc -> accepts st ((m ≫= k) ≫= k') sc.
Proof.
    apply accepts_as. intros w a w' t.
    unfold mbind, M_bind. destruct (m w) as [[[b|e|] w1] t1]; try done.
    destruct (k b w1) as [[[c|e|] w2] t2]; try done.
    destruct (k' c w2) as [[[d|e|] w3] t3]; try done. intros [= -> -> _]. eauto.
Qed.

Lemma accepts_bind_ret {A} st (m : M W A) sc :
    accepts st (a ← m; mret a) sc -> accepts st m sc.
Proof.
    apply accepts_as. intros w a w' t. unfold mbind, M_bind.
    destruct (m w) as [[[b|e|] w1] t1]; try done. intros [= -> -> _]. eauto.
Qed.

Lemma accepts_ret_bind {A B} st (a : A) (k : A -> M W B) sc :
    accepts st (k a) sc -> accepts st (mret a ≫= k) sc.
Proof. intros Ha K w Hw. by eapply accepts_step; [done|apply Ha]. Qed.

Lemma accepts_with_exit {A B} st (m : M W A) f (k : A -> M W B) sc :
    accepts st (a ← m; f false;; k a) sc -> accepts st (with_exit m f ≫= k) sc.
Proof.
    apply accepts_as. intros w c w' t.
    unfold with_exit, mbind, M_bind. destruct (m w) as [[[a|e|] w1] t1]; try done.
    destruct (f false w1) as [[[u|e|] w2] t2]; try done.
    destruct (k a w2) as [[[d|e|] w3] t3]; try done. intros [= -> -> _]. eauto.
Qed.

Lemma accepts_lift {A B} st (r : result A) a (k : A -> M W B) sc :
    r = inr a -> accepts st (k a) sc -> accepts st (lift r ≫= k) sc.
Proof. intros -> Ha K w Hw. by eapply accepts_step; [done|apply Ha]. Qed.

Lemma accepts_raise_if {A} st bad e (k : unit -> M W A) sc :
    bad = false -> accepts st (k tt) sc -> accepts st (raise_if bad e ≫= k) sc.
Proof. intros -> Ha. by apply accepts_ret_bind. Qed.

Lemma accepts_loop_end {A B} st l (f : A -> M W unit) (k : unit -> M W B) sc :
    l = [] -> accepts st (k tt) sc -> accepts st (for_each l f ≫= k) sc.
Proof. intros ->. apply accepts_ret_bind. Qed.

Lemma accepts_loop_round {A B} st l x r (f : A -> M W unit) (k : unit -> M W B) sc :
    l = x :: r -> accepts st (f x;; for_each r f ≫= k) sc ->
    accepts st (for_each l f ≫= k) sc.
Proof. intros ->. apply accepts_assoc. Qed.

Lemma accepts_fold_end {A B C} st l acc (f : B -> A -> M W B) (k : B -> M W C) sc :
    l = [] -> accepts st (k acc) sc -> accepts st (for_fold l acc f ≫= k) sc.
Proof. intros ->. apply accepts_ret_bind. Qed.

Lemma accepts_fold_round {A B C} st l acc x r (f : B -> A -> M W B) (k : B -> M W C) sc :
    l = x :: r -> accepts st (acc' ← f acc x; for_fold r acc' f ≫= k) sc ->
    accepts st (for_fold l acc f ≫= k) sc.
Proof. intros ->. apply accepts_assoc. Qed.

(** *** Exchanges on a connection *)

Section exchanges.
  Context {A : Type} (st : stage) (i : nat) (s : sock) (k : unit -> M W A) (sc : script).
  Context (Hs : conns st !! i = Some s).

(** The socket that the script means. *)
Ltac same_socket :=
    match goal with H : conns st !! i = Some _ |- _ =>
      rewrite Hs in H; injection H as <- end.

Lemma accepts_send d : accepts st (k tt) sc -> accepts st (sendall s d ≫= k) (Send i d :: sc).
Proof.
    intros Hk K w (s' & w1 & Hs' & Hc & Hw). same_socket.
    eapply accepts_step; [|by apply Hk]. unfold sendall, call. by rewrite Hc.
Qed.

Lemma accepts_close : accepts st (k tt) sc -> accepts st (close s ≫= k) (Close i :: sc).
Proof.
    intros Hk K w (s' & w1 & Hs' & Hc & Hw). same_socket.
    eapply accepts_step; [|by apply Hk]. unfold close, call. by rewrite Hc.
Qed.

Lemma accepts_expect p label :
    accepts st (k tt) sc -> accepts st (expect_packet s p label ≫= k) (Recv i p :: sc).
Proof.
    intros Hk K w (s' & Hs' & Hp & Hw). same_socket.
    destruct (expect_packet_streams s _ p p label w Hp Hw) as (w1 & t & Hr & Hw1).
    rewrite decide_True in Hr by done. eapply accepts_step; [exact Hr|]. by apply Hk.
Qed.

Lemma accepts_unordered ps label :
    accepts st (k tt) sc ->
    accepts st (expect_packets_unordered s ps label ≫= k) (RecvAll i ps :: sc).
Proof.
    intros Hk K w (s' & qs & Hs' & Hperm & Hp & Hw). same_socket.
    destruct (unordered_loop_pass s (conforms st sc K) qs ps ps label w)
      as (l & w1 & t & Hr & _ & Hw1);
      [by rewrite Hperm|done|exists []; by rewrite app_nil_r, Hperm|done|].
    eapply accepts_step; [|by apply Hk, Hw1].
    unfold expect_packets_unordered, mbind, M_bind. by rewrite Hr.
Qed.

Lemma accepts_silence c :
    accepts st (k tt) sc -> accepts st (expect_silence s c ≫= k) (Quiet i :: sc).
Proof.
    intros Hk K w (s' & w1 & r & w2 & w3 & Hs' & H1 & H2 & Hr & H3 & Hw). same_socket.
    eapply accepts_step; [|by apply Hk].
    unfold expect_silence, mbind, M_bind, finally, with_exit, try_except, recv, settimeout, call.
    change (seconds 5) with 5000. rewrite H1. simpl. rewrite H2.
    destruct Hr as [-> | ->]; simpl; by rewrite H3.
Qed.

Lemma accepts_no_answer c :
    accepts st (k tt) sc -> accepts st (expect_no_answer s c ≫= k) (NoAnswer i :: sc).
Proof.
    intros Hk K w (s' & r & w1 & Hs' & H1 & Hr & Hw). same_socket.
    eapply accepts_step; [|by apply Hk].
    unfold expect_no_answer, mbind, M_bind, try_except, recv, call. rewrite H1.
    destruct Hr as [-> |[-> | ->]]; simpl; unfold is_dropped;
      rewrite ?bool_decide_eq_true_2 by auto; done.
Qed.

Lemma accepts_read good (k' : bytes -> M W A) :
    (forall p, good (seen st) p = true -> accepts (see st p) (k' p) sc) ->
    accepts st (read_packet s ≫= k') (RecvOk i good :: sc).
Proof.
    intros Hk K w (s' & p & Hs' & Hp & Hg & Hw). same_socket.
    destruct (read_packet_streams s (conforms (see st p) sc K) p w Hp Hw) as (w1 & t & Hr & Hw1).
    eapply accepts_step; [exact Hr|]. by apply (Hk p Hg).
Qed.

Lemma accepts_recv (k' : bytes -> M W A) :
    accepts st (k' []) sc -> accepts st (recv s 1 ≫= k') (Ended i :: sc).
Proof.
    intros Hk K w (s' & w1 & Hs' & H1 & Hw). same_socket.
    eapply accepts_step; [|by apply Hk]. unfold recv, call. by rewrite H1.
Qed.

End exchanges.

(** *** Handshakes *)

Lemma accepts_connect_client {A} (mp : MqttPackets) st i s cid v (k : unit -> M W A) sc :
    conns st !! i = Some s -> (forall p, accepts (see st p) (k tt) sc) ->
    accepts st (connect_client mp s cid v ≫= k)
      (Send i (mp.(gen_connect) cid ["proto_ver" @= v])
       :: RecvOk i (fun _ p => bool_decide (bad_connack p v = inr false)) :: sc).
Proof.
    intros Hs Hk. apply accepts_assoc, accepts_send; [done|].
    apply accepts_assoc, accepts_read; [done|]. intros p Hp%bool_decide_eq_true.
    apply accepts_assoc. eapply accepts_lift; [exact Hp|]. by apply accepts_raise_if.
Qed.

Lemma accepts_connect_persistent {A} (mp : MqttPackets) st i s cid b (k : unit -> M W A) sc :
    conns st !! i = Some s -> (forall p, accepts (see st p) (k tt) sc) ->
    accepts st (connect_persistent_v5 mp s cid b ≫= k)
      (Send i (mp.(gen_connect) cid
                 ["clean_session" @= false; "proto_ver" @= 5; "session_expiry" @= 60])
       :: RecvOk i (fun _ p => bool_decide (bad_persistent p b = inr false)) :: sc).
Proof.
    intros Hs Hk. apply accepts_assoc, accepts_send; [done|].
    apply accepts_assoc, accepts_read; [done|]. intros p Hp%bool_decide_eq_true.
    apply accepts_assoc. eapply accepts_lift; [exact Hp|]. by apply accepts_raise_if.
Qed.

(** *** Pauses, connections and processes *)

Lemma accepts_sleep {A} st ms (k : unit -> M W A) sc :
    accepts st (k tt) sc -> accepts st (sleep ms ≫= k) (Pause ms :: sc).
Proof.
    intros Hk K w (w1 & H1 & Hw). eapply accepts_step; [|by apply Hk].
    unfold sleep, call. by rewrite H1.
Qed.

Lemma accepts_connect {A} port p l sn b (k : sock -> M W A) sc :
    Broker.port b = port ->
    (forall s, accepts (staged port p (l ++ [s]) sn) (k s) sc) ->
    accepts (staged port p l sn) (connect b ≫= k) (Open :: sc).
Proof.
    intros Hb Hk K w (port' & p' & s & w1 & w2 & [= <- <-] & H1 & H2 & Hw).
    eapply accepts_step; [|by apply (Hk s)].
    unfold connect, create_connection, settimeout, call, mbind, M_bind. rewrite Hb.
    change (seconds 5) with 5000. rewrite H1. simpl. by rewrite H2.
Qed.

Lemma accepts_with_connection {A B} port p l sn b (body : sock -> M W A) (k : A -> M W B) sc :
    Broker.port b = port ->
    (forall s, accepts (staged port p (l ++ [s]) sn) (a ← body s; close s;; k a) sc) ->
    accepts (staged port p l sn) (with_connection b body ≫= k) (Open :: sc).
Proof.
    intros Hb Hk. apply accepts_assoc, accepts_connect; [done|]. intros s.
    apply accepts_with_exit, Hk.
Qed.

Lemma accepts_exit {A} port p l sn b (k : unit -> M W A) sc :
    process b = Some p -> accepts idle (k tt) sc ->
    accepts (staged port p l sn) (exit b false ≫= k) (Finish :: sc).
Proof.
    intros Hp Hk K w (port' & p' & w1 & [= <- <-] & H1 & Hw).
    eapply accepts_step; [|by apply Hk]. unfold exit. rewrite Hp.
    unfold wait, call, try_except, mbind, M_bind. change (seconds 5) with 5000. by rewrite H1.
Qed.

Lemma start_runs n ignore extra K w :
    launches n ignore extra K w ->
    exists port p b w' t, Broker.port b = port /\ process b = Some p /\
      (b ← init exe n ignore extra; enter b) w = (Ok b, w', t) /\ K port p w'.
Proof.
    intros (probe & host & port & p & line & w1 & w2 & w3 & w4 & w5 & w6 &
      H1 & H2 & H3 & H4 & H5 & H6 & Hl & HK).
    set (b := {| executable := exe; connections := n; ignore_errors := ignore;
                 extra_args := extra; Broker.port := port; process := None |}).
    exists port, p, (set_process p b), w6. eexists. split_and!; [done|done| |exact HK].
    unfold init, free_port, with_socket, finally, with_exit, new_socket, bind, getsockname,
      enter, popen, readline, close, call, mbind, M_bind.
    rewrite H1. simpl. rewrite H2. simpl. rewrite H3. simpl. rewrite H4. simpl.
    change (command _) with (launch_command exe port n ignore extra).
    rewrite H5. simpl. rewrite H6. simpl. by rewrite Hl.
Qed.

Lemma accepts_with_broker {A B} n ignore extra (body : NetzBroker -> M W A) (k : A -> M W B) sc :
    (forall port p b, Broker.port b = port -> process b = Some p ->
       accepts (staged port p [] []) (a ← body b; exit b false;; k a) sc) ->
    accepts idle (with_broker exe n ignore extra body ≫= k) (Launch n ignore extra :: sc).
Proof.
    intros Hk K w [_ Hl]. apply start_runs in Hl as (port & p & b & w1 & t & Hb & Hp & Hr & Hw).
    destruct (accepts_with_exit _ _ _ _ _ (Hk port p b Hb Hp) K w1 Hw)
      as (a & w' & t' & Hr' & HK). exists a, w'. revert Hr Hr'.
    unfold with_broker, mbind, M_bind. destruct (init _ _ _ _ w) as [[[b0|e|] v1] u1]; try done.
    destruct (enter b0 v1) as [[[b1|e|] v2] u2]; try done. intros [= -> -> _] Hr'.
    revert Hr'. destruct (with_exit _ _ w1) as [[[c|e|] v3] u3]; try done.
    destruct (k c v3) as [[o v4] u4]. intros [= -> -> _]. eauto.
Qed.

End conforms.

(** ** Deriving acceptance *)

(** The test of the script decides the test of the scenario. *)
Ltac settle_test :=
  repeat first
    [ apply accepts_assoc
    | eapply accepts_lift; [eassumption|]
    | apply accepts_raise_if;
      [ rewrite ?bool_decide_eq_true, ?bool_decide_eq_false in *;
        first [reflexivity | tauto | congruence] | ] ].

(** One step: the scenario and the script advance together. *)
Ltac accept_step :=
  lazymatch goal with
  | |- accepts _ idle (mret _) _ => apply accepts_ret
  | |- accepts _ _ (mret _ ≫= _) _ => apply accepts_ret_bind
  | |- accepts _ _ ((_ ≫= _) ≫= _) _ => apply accepts_assoc
  | |- accepts _ _ (with_broker _ _ _ _ _ ≫= _) _ =>
      apply accepts_with_broker; intros ? ? ? ? ?
  | |- accepts _ _ (with_connection _ _ ≫= _) _ =>
      apply accepts_with_connection; [assumption|]; intros ?; cbn [app]
  | |- accepts _ _ (connect _ ≫= _) _ =>
      apply accepts_connect; [assumption|]; intros ?; cbn [app]
  | |- accepts _ _ (with_exit _ _ ≫= _) _ => apply accepts_with_exit
  | |- accepts _ _ (finally _ _ ≫= _) _ => apply accepts_with_exit
  | |- accepts _ _ (exit _ _ ≫= _) _ => apply accepts_exit; [assumption|]
  | |- accepts _ _ (sendall _ _ ≫= _) _ => exchange accepts_send
  | |- accepts _ _ (send_disconnect _ _ ≫= _) _ => exchange accepts_send
  | |- accepts _ _ (close _ ≫= _) _ => exchange accepts_close
  | |- accepts _ _ (expect_packet _ _ _ ≫= _) _ => exchange accepts_expect
  | |- accepts _ _ (expect_packets_unordered _ _ _ ≫= _) _ => exchange accepts_unordered
  | |- accepts _ _ (expect_silence _ _ ≫= _) _ => exchange accepts_silence
  | |- accepts _ _ (expect_no_answer _ _ ≫= _) _ => exchange accepts_no_answer
  | |- accepts _ _ (sleep _ ≫= _) _ => apply accepts_sleep
  | |- accepts _ _ (connect_client _ _ _ _ ≫= _) _ =>
      exchange accepts_connect_client; intros ?; normal_stage
  | |- accepts _ _ (connect_v5 _ _ _ ≫= _) _ =>
      exchange accepts_connect_client; intros ?; normal_stage
  | |- accepts _ _ (connect_persistent_v5 _ _ _ _ ≫= _) _ =>
      exchange accepts_connect_persistent; intros ?; normal_stage
  | |- accepts _ _ (read_packet _ ≫= _) _ =>
      exchange accepts_read; intros ? ?%bool_decide_eq_true; normal_stage; settle_test
  | |- accepts _ _ (recv _ _ ≫= _) _ => exchange accepts_recv; settle_test
  | |- accepts _ _ (lift _ ≫= _) _ => eapply accepts_lift; [reflexivity|]
  | |- accepts _ _ (for_each _ _ ≫= _) _ =>
      first [ eapply accepts_loop_end; [reflexivity|]
            | eapply accepts_loop_round; [reflexivity|]; cbv beta iota ]
  | |- accepts _ _ (for_fold _ _ _ ≫= _) _ =>
      first [ eapply accepts_fold_end; [reflexivity|]
            | eapply accepts_fold_round; [reflexivity|]; cbv beta iota ]
  | |- accepts _ _ ((match decide ?P with _ => _ end) ≫= _) _ =>
      destruct (decide P); try (exfalso; done)
  | |- accepts _ _ ((match py_remove ?x ?l with _ => _ end) ≫= _) _ =>
      let v := eval vm_compute in (py_remove x l) in
      replace (py_remove x l) with v by reflexivity
  | |- accepts _ _ (_ ≫= _) _ => progress cbn
  end.

Ltac accept := apply accepts_bind_ret; repeat accept_step.
