(* ===== verification/Discipline.v ===== *)
(** * Disciplines that every scenario keeps

    Properties of the building blocks (handshakes, assertions, [with] blocks)
    that compose over any scenario: termination; the socket discipline (every
    call is on a socket that is open, and what is opened is closed); the
    timeout discipline (the short timeout is confined to the silence check);
    the budget of connections of a broker process. *)

From Stdlib Require Import ZArith Lia.
From stdpp Require Import base list option strings gmultiset.
From S2P Require Import Prelude PyValues Effects Traces Canned Wire Expect Mosquitto Broker.
From S2P Require Import Connack.
Local Open Scope Z_scope.

(** The system calls unfold to [call] when a rule is looked up. *)
#[export] Hint Transparent new_socket bind getsockname create_connection settimeout
  sendall recv close popen readline read wait terminate sleep print
  send_disconnect connect_v5 with_connection : netz.

#[export] Hint Extern 4 (terminates (match _ with _ => _ end)) => split_computation : netz.
#[export] Hint Extern 4 (emits _ (match _ with _ => _ end)) => split_computation : netz.
#[export] Hint Extern 4 (keeps _ _ (match _ with _ => _ end)) => split_computation : netz.

(** ** Termination *)

Section termination.
  Context {W : Type} `{Platform W} (mp : MqttPackets).

Lemma connect_client_terminates s cid v : terminates (connect_client mp s cid v).
Proof. unfold connect_client. eauto 10 with netz. Qed.

Lemma connect_persistent_terminates s cid p : terminates (connect_persistent_v5 mp s cid p).
Proof. unfold connect_persistent_v5. eauto 10 with netz. Qed.

Lemma connect_terminates b : terminates (connect b).
Proof. unfold connect. eauto 10 with netz. Qed.

Lemma free_port_terminates : terminates free_port.
Proof. unfold free_port. eauto 10 with netz. Qed.

Lemma exit_terminates b raised : terminates (exit b raised).
Proof. unfold exit. eauto 20 with netz. Qed.

Lemma with_broker_terminates {A} exe n ig extra (body : NetzBroker -> M W A) :
    (forall b, terminates (body b)) -> terminates (with_broker exe n ig extra body).
Proof.
    intros Hb. unfold with_broker, init, enter.
    eauto 20 using free_port_terminates, exit_terminates with netz.
Qed.
End termination.

#[export] Hint Resolve connect_client_terminates connect_persistent_terminates
  connect_terminates with_broker_terminates : netz.

(** ** Footprints of the building blocks *)

Lemma emits_weaken {W A} (P Q : event -> Prop) (m : M W A) :
  emits P m -> (forall e, P e -> Q e) -> emits Q m.
Proof.
  intros Hm HPQ. eapply runs_mono; [exact Hm|]. intros o t Ht. by eapply Forall_impl.
Qed.

(** A predicate that holds of every packet event; of every event on an
    established connection. *)
Definition dialogue (P : event -> Prop) : Prop :=
  (forall s d r, P (EvSendall s d r)) /\ (forall s n r, P (EvRecv s n r)).

Definition conversation (P : event -> Prop) : Prop :=
  dialogue P /\ forall s ms r, P (EvSettimeout s ms r).

Lemma conversation_dialogue P : conversation P -> dialogue P.
Proof. by intros [? _]. Qed.

Section footprint.
  Context {W : Type} `{Platform W} (mp : MqttPackets) (P : event -> Prop).
  Context (HP : dialogue P).

Lemma emits_is_recv {A} s (m : M W A) : emits (is_recv s) m -> emits P m.
Proof.
    intros Hm. eapply emits_weaken; [exact Hm|]. intros e (n & r & ->). apply HP.
Qed.

Lemma emits_read_packet s : emits P (read_packet s).
Proof. apply (emits_is_recv s), read_packet_emits. Qed.

Lemma emits_expect_packet s p label : emits P (expect_packet s p label).
Proof. apply (emits_is_recv s), expect_packet_emits. Qed.

Lemma emits_expect_unordered s ps label : emits P (expect_packets_unordered s ps label).
Proof. apply (emits_is_recv s), expect_unordered_emits. Qed.

Lemma emits_expect_no_answer s c : emits P (expect_no_answer s c).
Proof. apply (emits_is_recv s), expect_no_answer_emits. Qed.

Lemma emits_sendall s d : emits P (sendall s d).
Proof. apply emits_call. apply HP. Qed.

Lemma emits_recv s n : emits P (recv s n).
Proof. apply emits_call. apply HP. Qed.

Lemma emits_expect_silence s c : conversation P -> emits P (expect_silence s c).
Proof.
    intros [_ ?]. unfold expect_silence, settimeout. eauto 10 using emits_recv with netz.
Qed.

Lemma emits_connect_client s cid v : emits P (connect_client mp s cid v).
Proof. unfold connect_client. eauto 10 using emits_sendall, emits_read_packet with netz. Qed.

Lemma emits_connect_persistent s cid p : emits P (connect_persistent_v5 mp s cid p).
Proof.
    unfold connect_persistent_v5. eauto 10 using emits_sendall, emits_read_packet with netz.
Qed.
End footprint.

#[export] Hint Resolve conversation_dialogue emits_read_packet emits_expect_packet emits_expect_unordered
  emits_expect_no_answer emits_sendall emits_recv emits_expect_silence emits_connect_client
  emits_connect_persistent : netz.

(** ** The budget of connections

    The monitor starts a budget when a broker is launched, from the
    [--connections] argument of its command line; every accepted connection
    takes one; the driver waits for the process when nothing is left. *)

Definition arg_value (name : string) (args : list string) : option Z :=
  arg ← List.find (fun a => startswith a name) args;
  Z.of_int <$> DecimalString.NilZero.int_of_string (removeprefix arg name).

Definition budget_step (x : option Z) (e : event) : option (option Z) :=
  match e with
  | EvPopen cmd (inr _) =>
      match x with
      | None => Some <$> arg_value "--connections=" (tail cmd)
      | Some _ => None
      end
  | EvConnect _ _ _ (inr _) =>
      match x with
      | Some n => if decide (0 < n) then Some (Some (n - 1)) else None
      | None => None
      end
  | EvWait _ _ _ =>
      match x with
      | Some n => if decide (n = 0) then Some None else None
      | None => None
      end
  | _ => Some x
  end.

Definition is_connect (e : event) : bool :=
  match e with EvConnect _ _ _ (inr _) => true | _ => false end.

(** A connection that was refused, and the events that are no attempt at one. *)
Definition is_refused (e : event) : bool :=
  match e with EvConnect _ _ _ (inl _) => true | _ => false end.

Definition dialless (e : event) : Prop :=
  match e with EvConnect _ _ _ _ => False | _ => True end.

#[export] Hint Extern 0 (dialless _) => exact I : netz.

Definition is_popen (e : event) : bool :=
  match e with EvPopen _ (inr _) => true | _ => false end.

(** Neither launches a process nor waits for one. *)
Definition in_session (e : event) : Prop :=
  match e with EvPopen _ _ | EvWait _ _ _ => False | _ => True end.

Lemma count_connect_nonneg f t : 0 <= count f t.
Proof. apply len_nonneg. Qed.

Lemma budget_session t n :
  Forall in_session t -> count is_connect t <= n ->
  watch budget_step (Some n) t = Some (Some (n - count is_connect t)).
Proof.
  revert n. induction t as [|e t IH]; intros n Hs Hn; simpl.
  { change (count is_connect []) with 0. by rewrite Z.sub_0_r. }
  apply Forall_cons_1 in Hs as [He Hs].
  change (e :: t) with ([e] ++ t) in Hn |- *. rewrite count_app in *.
  pose proof (count_connect_nonneg is_connect t) as Hc.
  destruct (is_connect e) eqn:Hce.
  - destruct e as [| | |host port ms [|s]| | | | | | | | | | |]; try done.
    change (count is_connect [_]) with 1 in *. simpl. rewrite decide_True by lia.
    rewrite IH by (done || lia). f_equal. f_equal. lia.
  - assert (count is_connect [e] = 0) as Hc0 by (apply count_none; by repeat constructor).
    rewrite Hc0 in *. rewrite Z.add_0_l in *.
    replace (budget_step (Some n) e) with (Some (Some n)); [by apply IH|].
    by destruct e as [| | |host port ms [|s]| | | | | | | | | | |].
Qed.

Lemma command_connections b :
  arg_value "--connections=" (tail (command b)) = Some b.(connections).
Proof.
  unfold arg_value, command. simpl tail. unfold List.find.
  change (startswith ("--bind=127.0.0.1:" +:+ _) "--connections=") with false.
  rewrite startswith_app. cbn [mbind option_bind].
  rewrite removeprefix_app. apply parse_str_int.
Qed.

Section budget.
  Context {W : Type} `{Platform W}.

Lemma costs_connect b : costs is_connect 1 (connect b).
Proof.
    apply runs_bind, runs_call. intros w [e|s] w' _; simpl; [done|].
    apply runs_bind, runs_call. intros v [e|[]] v' _; simpl; [done|].
    by apply runs_ret.
Qed.

Lemma costs_with_connection {A} b (body : sock -> M W A) n :
    (forall s, costs is_connect n (body s)) ->
    costs is_connect (1 + n) (with_connection b body).
Proof. intros Hb. by apply costs_with_socket; [| apply costs_connect|]. Qed.

(** In a passing run of [with_broker] the body has used the whole budget:
    what the command line announced is what was opened. *)
Definition budgeted {A} (m : M W A) : Prop :=
    runs m (fun o t => forall a, o = Ok a -> watch budget_step None t = Some None).

Lemma budgeted_ret {A} (a : A) : budgeted (mret a).
Proof. by apply runs_ret. Qed.

Lemma budgeted_bind {A B} (m : M W A) (k : A -> M W B) :
    budgeted m -> (forall a, budgeted (k a)) -> budgeted (m ≫= k).
Proof.
    intros Hm Hk. apply runs_bind. eapply runs_mono; [exact Hm|].
    intros [a|e|] t Ho; try done. eapply runs_mono; [apply Hk|].
    intros o' t' Ho' b Hb. rewrite watch_app, (Ho a) by done. eauto.
Qed.

Lemma budgeted_for_each {A} (l : list A) (body : A -> M W unit) :
    (forall x, x ∈ l -> budgeted (body x)) -> budgeted (for_each l body).
Proof.
    induction l as [|x l IH]; intros Hb; simpl; [apply budgeted_ret|].
    apply budgeted_bind; [apply Hb, list_elem_of_here|]. intros _. apply IH.
    intros y Hy. by apply Hb, list_elem_of_further.
Qed.

Lemma free_port_untracked x :
    runs free_port (fun o t => forall a, o = Ok a -> watch budget_step x t = Some x).
Proof.
    assert (emits (fun e => forall y, budget_step y e = Some y) free_port) as He.
    { unfold free_port. eauto 20 with netz. }
    eapply runs_mono; [exact He|]. intros o t Ht _ _. induction Ht as [|e t He' _ IH]; [done|].
    simpl. by rewrite He'.
Qed.

Lemma in_session_conversation : conversation in_session.
Proof. done. Qed.

Lemma dialless_conversation : conversation dialless.
Proof. done. Qed.

Lemma not_connect_conversation : conversation (fun e => is_connect e = false).
Proof. done. Qed.

(** A clean [__exit__] waits exactly once. *)
Lemma exit_clean b :
    runs (exit b false) (fun o t => forall u, o = Ok u ->
      exists p ms r, t = [EvWait p ms r]).
Proof.
    unfold exit. destruct (process b) as [p|]; [|by apply runs_raise].
    apply runs_bind, runs_try, runs_call. intros w [e|code] w' _; simpl.
    - destruct (is_expired e); [|done]. apply runs_bind, runs_call.
      intros v [e'|[]] v' _; simpl; [done|].
      apply runs_bind, runs_call. intros v1 [e'|c] v1' _; simpl; [done|].
      apply runs_bind. by apply runs_raise.
    - case_bool_decide; simpl.
      + apply runs_bind, runs_call. intros v [e|out] v' _; simpl; [done|by apply runs_raise].
      + apply runs_ret. simpl. eauto.
Qed.

Lemma budgeted_with_broker {A} exe n ig extra (body : NetzBroker -> M W A) :
    (forall b, costs is_connect n (body b)) -> (forall b, emits in_session (body b)) ->
    budgeted (with_broker exe n ig extra body).
Proof.
    intros Hc Hs. unfold with_broker, init. apply runs_bind, runs_bind.
    eapply runs_mono; [apply free_port_untracked|]. intros [p|e|] t0 H0; try done.
    apply runs_ret, runs_bind. set (b := Build_NetzBroker _ _ _ _ _ _).
    apply runs_bind, runs_call. intros w1 [e|pid] w1' _; simpl; [done|].
    apply runs_bind, runs_call. intros w2 [e|line] w2' _; simpl; [done|].
    unfold raise_if. destruct (negb _); [by apply runs_bind, runs_raise|].
    apply runs_bind, runs_ret, runs_ret. set (b' := set_process pid b).
    apply runs_with_exit. eapply runs_mono; [apply (runs_and _ _ _ (Hc b') (Hs b'))|].
    intros [a|e|] t [Hcost Hsess]; try done; [|by intros w [] w' t' Hr].
    eapply runs_mono; [apply exit_clean|]. intros [u|e|] t' Ht' a' Ha'; try done.
    destruct (Ht' u eq_refl) as (q & ms & r & ->).
    rewrite !app_nil_r, !watch_app, (H0 p) by done. cbn [watch budget_step].
    rewrite command_connections. cbn [fmap option_fmap option_map watch budget_step].
    specialize (Hcost a eq_refl). rewrite app_nil_l, watch_app, budget_session by (first [done|simpl; lia]).
    rewrite Hcost. cbn [watch budget_step]. by rewrite decide_True by (simpl; lia).
Qed.

End budget.

#[export] Hint Resolve in_session_conversation dialless_conversation not_connect_conversation : netz.
#[export] Hint Extern 0 (in_session _) => exact I : netz.
#[export] Hint Extern 0 (_ = false) => reflexivity : netz.
#[export] Hint Transparent connect : netz.

(** Add up the connections of a computation: those that open none have no such
    event, the others are taken apart. *)
Ltac spend :=
  lazymatch goal with
  | |- costs _ _ (connect _) => apply costs_connect
  | |- costs _ _ (with_connection _ _) => apply costs_with_connection; intros; spend
  | |- costs _ _ ?m =>
      tryif (match m with context [@connect] => idtac | context [@with_connection] => idtac end)
      then first
        [ eapply costs_bind; [spend|intros; spend]
        | eapply costs_for_each; intros; spend
        | eapply costs_for_fold; intros; spend ]
      else first
        [ apply costs_emits; solve [eauto 200 with netz] ]
  end.

Ltac balance :=
  intros;
  first
    [ apply budgeted_with_broker;
        [intros; eapply costs_weaken; [spend|reflexivity]|intros; eauto 200 with netz]
    | apply budgeted_for_each; intros; repeat split_computation; balance ].

(** ** Broker processes *)

Section launches.
  Context {W : Type} `{Platform W}.

Lemma not_popen_conversation : conversation (fun e => is_popen e = false).
Proof. done. Qed.

Lemma costs_launch {A} exe n ig extra (body : NetzBroker -> M W A) :
    (forall b, emits (fun e => is_popen e = false) (body b)) ->
    costs is_popen 1 (with_broker exe n ig extra body).
Proof.
    intros Hb. unfold with_broker, init, enter.
    apply (costs_bind is_popen _ _ 0 1).
    { apply costs_emits. unfold free_port. eauto 20 with netz. }
    intros b. apply (costs_bind is_popen _ _ 1 0).
    - apply (costs_bind is_popen _ _ 1 0).
      + apply runs_call. by intros w [e|p] w' _.
      + intros p. apply costs_emits. eauto 20 with netz.
    - intros b'. apply costs_emits. apply emits_with_exit; [done|]. intros raised.
      unfold exit. eauto 20 with netz.
Qed.

End launches.

#[export] Hint Resolve not_popen_conversation : netz.

(** ** The socket discipline

    The monitor's state is the multiset of open sockets: a call on a socket
    that is not open is rejected, and so is closing it. *)

Definition open_step (open : gmultiset sock) (e : event) : option (gmultiset sock) :=
  match e with
  | EvSocket (inr s) | EvConnect _ _ _ (inr s) => Some (open ⊎ {[+ s +]})
  | EvBind s _ _ _ | EvGetsockname s _ | EvSettimeout s _ _
  | EvSendall s _ _ | EvRecv s _ _ => if decide (s ∈ open) then Some open else None
  | EvClose s _ => if decide (s ∈ open) then Some (open ∖ {[+ s +]}) else None
  | _ => Some open
  end.

(** The sockets of [scope] are open. *)
Definition in_scope (scope : list sock) (open : gmultiset sock) : Prop :=
  Forall (fun s => s ∈ open) scope.

Abbreviation tidy scope m := (keeps open_step (in_scope scope) m).

Section tidy.
  Context {W : Type} `{Platform W} (mp : MqttPackets) (scope : list sock).

Lemma keeps_emits {X A} (step : X -> event -> option X) I P (m : M W A) :
    emits P m -> (forall x e, I x -> P e -> step x e = Some x) -> keeps step I m.
Proof.
    intros Hm Hs x Hx. eapply runs_mono; [exact Hm|]. intros o t Ht _.
    induction Ht as [|e t He _ IH]; simpl; [done|]. by rewrite (Hs x e Hx He).
Qed.

Lemma in_scope_elem s open : s ∈ scope -> in_scope scope open -> s ∈ open.
Proof.
    unfold in_scope. rewrite list.Forall_forall. intros Hs Ho. by apply Ho.
Qed.

(** Every event of [m] is on a socket in scope, or on none. *)
Definition on_scope (e : event) : Prop :=
    match e with
    | EvSocket _ | EvConnect _ _ _ _ | EvClose _ _ => False
    | EvBind s _ _ _ | EvGetsockname s _ | EvSettimeout s _ _
    | EvSendall s _ _ | EvRecv s _ _ => s ∈ scope
    | _ => True
    end.

Lemma tidy_emits {A} (m : M W A) : emits on_scope m -> tidy scope m.
Proof.
    intros Hm. eapply keeps_emits; [exact Hm|]. intros open e Ho He.
    destruct e; simpl in *; try done;
      rewrite decide_True by (by eapply in_scope_elem); done.
Qed.

Lemma on_scope_recv {A} s (m : M W A) :
    s ∈ scope -> emits (is_recv s) m -> emits on_scope m.
Proof.
    intros Hs Hm. eapply emits_weaken; [exact Hm|]. by intros e (n & r & ->).
Qed.

Lemma on_scope_sendall s d : s ∈ scope -> emits on_scope (sendall s d).
Proof. intros. by apply emits_call. Qed.

Lemma on_scope_read_packet s : s ∈ scope -> emits on_scope (read_packet s).
Proof. intros. by eapply on_scope_recv, read_packet_emits. Qed.

Lemma on_scope_recv_call s n : s ∈ scope -> emits on_scope (recv s n).
Proof. intros. by apply emits_call. Qed.

Lemma on_scope_expect s p label : s ∈ scope -> emits on_scope (expect_packet s p label).
Proof. intros. by eapply on_scope_recv, expect_packet_emits. Qed.

Lemma on_scope_unordered s ps label :
    s ∈ scope -> emits on_scope (expect_packets_unordered s ps label).
Proof. intros. by eapply on_scope_recv, expect_unordered_emits. Qed.

Lemma on_scope_no_answer s c : s ∈ scope -> emits on_scope (expect_no_answer s c).
Proof. intros. by eapply on_scope_recv, expect_no_answer_emits. Qed.

Lemma on_scope_settimeout s ms : s ∈ scope -> emits on_scope (settimeout s ms).
Proof. intros. by apply emits_call. Qed.

Lemma on_scope_silence s c : s ∈ scope -> emits on_scope (expect_silence s c).
Proof.
    intros. unfold expect_silence.
    eauto 10 using on_scope_settimeout, on_scope_recv_call with netz.
Qed.

Lemma on_scope_connect_client s cid v :
    s ∈ scope -> emits on_scope (connect_client mp s cid v).
Proof.
    intros. unfold connect_client.
    eauto 10 using on_scope_sendall, on_scope_read_packet with netz.
Qed.

Lemma on_scope_connect_persistent s cid p :
    s ∈ scope -> emits on_scope (connect_persistent_v5 mp s cid p).
Proof.
    intros. unfold connect_persistent_v5.
    eauto 10 using on_scope_sendall, on_scope_read_packet with netz.
Qed.

End tidy.

Section tidy_blocks.
  Context {W : Type} `{PlatformLaws W} (scope : list sock).

(** Closing what a block has opened restores the multiset. *)
Lemma tidy_with_socket {A} (opened : M W sock) (body : sock -> M W A) :
    (forall open, in_scope scope open -> runs opened (fun o t => o <> Diverge ->
       watch open_step open t =
         Some (match o with Ok s => open ⊎ {[+ s +]} | _ => open end))) ->
    (forall s, tidy (s :: scope) (body s)) ->
    tidy scope (with_socket opened body).
Proof.
    intros Hopen Hbody open Hsc. apply runs_bind.
    eapply runs_mono; [by apply Hopen|]. intros [s|e|] t Ho; simpl; [|by intros _; apply Ho|done].
    apply runs_with_exit. eapply runs_mono; [apply (Hbody s (open ⊎ {[+ s +]}))|].
    { constructor; [multiset_solver|]. eapply list.Forall_impl; [exact Hsc|].
      simpl. intros s' Hs'. multiset_solver. }
    assert (Hclose : forall r, watch open_step (open ⊎ {[+ s +]}) [EvClose s r] = Some open).
    { intros r. simpl. rewrite decide_True by multiset_solver. f_equal. multiset_solver. }
    intros [a|e|] t1 Ht1; try done; apply runs_call; intros w [e'|[]] w' _ _;
      rewrite watch_app, Ho by done; rewrite watch_app, Ht1 by done; apply Hclose.
Qed.

Lemma tidy_with_connection {A} b (body : sock -> M W A) :
    (forall s, tidy (s :: scope) (body s)) -> tidy scope (with_connection b body).
Proof.
    apply tidy_with_socket. intros open _. unfold connect.
    apply runs_bind, runs_call. intros w [e|s] w' _; simpl; [done|].
    apply runs_bind, runs_call. intros v r v' Hr.
    destruct (sys_settimeout_ok s (seconds 5) v) as [v2 Hv2]; [done|].
    rewrite Hr in Hv2. injection Hv2 as -> ->. simpl. apply runs_ret. intros _.
    simpl. by rewrite decide_True by multiset_solver.
Qed.

Lemma tidy_free_port : tidy scope free_port.
Proof.
    apply tidy_with_socket.
    - intros open _. apply runs_call. by intros w [e|s] w' _ _.
    - intros s. apply tidy_emits.
      apply emits_bind; [apply emits_call; intros; apply list_elem_of_here|]. intros _.
      apply emits_bind; [apply emits_call; intros; apply list_elem_of_here|].
      intros [? p]. apply emits_ret.
Qed.

Lemma on_scope_process e : match e with
    | EvPopen _ _ | EvReadline _ _ | EvRead _ _ | EvWait _ _ _ | EvTerminate _ _
    | EvSleep _ _ => True | _ => False end -> on_scope scope e.
Proof. by destruct e. Qed.

Lemma tidy_with_broker {A} exe n ig extra (body : NetzBroker -> M W A) :
    (forall b, tidy scope (body b)) -> tidy scope (with_broker exe n ig extra body).
Proof.
    intros Hb. unfold with_broker, init, enter.
    apply keeps_bind; [apply keeps_bind; [apply tidy_free_port|eauto with netz]|].
    intros b. apply keeps_bind.
    - apply tidy_emits. eauto 20 using on_scope_process with netz.
    - intros b'. apply keeps_with_exit; [done|]. intros raised. apply tidy_emits.
      unfold exit. eauto 20 using on_scope_process with netz.
Qed.

End tidy_blocks.

#[export] Hint Resolve tidy_emits | 10 : netz.
#[export] Hint Resolve on_scope_sendall on_scope_read_packet on_scope_recv_call
  on_scope_expect on_scope_unordered on_scope_no_answer on_scope_settimeout
  on_scope_silence on_scope_connect_client on_scope_connect_persistent
  tidy_with_connection tidy_with_broker : netz.
#[export] Hint Resolve list_elem_of_here list_elem_of_further : netz.
#[export] Hint Extern 0 (on_scope _ _) => exact I : netz.

(** A computation that may leave sockets open when it raises: the monitor
    accepts every run, sockets are only added, and none is left over when the
    run passes. *)
Definition watched {W A} (scope : list sock) (m : M W A) : Prop :=
  forall open, in_scope scope open -> runs m (fun o t => o <> Diverge ->
    exists open', watch open_step open t = Some open' /\ open ⊆ open' /\
      forall a, o = Ok a -> open' = open).

Section watched.
  Context {W : Type} `{PlatformLaws W} (scope : list sock).

Lemma watched_of_tidy {A} (m : M W A) : tidy scope m -> watched scope m.
Proof.
    intros Hm open Ho. eapply runs_mono; [by apply Hm|]. intros o t Ht Hd.
    exists open. split_and!; [by apply Ht|done|done].
Qed.

Lemma watched_bind {A B} (m : M W A) (k : A -> M W B) :
    watched scope m -> (forall a, watched scope (k a)) -> watched scope (m ≫= k).
Proof.
    intros Hm Hk open Ho. apply runs_bind. eapply runs_mono; [by apply Hm|].
    intros [a|e|] t Ht; [|intros _; destruct Ht as (o' & ? & ? & _); [done|by exists o']|done].
    destruct Ht as (open1 & Hw & _ & Heq); [done|]. rewrite (Heq a eq_refl) in Hw.
    eapply runs_mono; [by apply (Hk a open)|]. intros o t' Ht' Hd.
    rewrite watch_app, Hw. by apply Ht'.
Qed.

Lemma watched_for_each {A} (l : list A) (body : A -> M W unit) :
    (forall x, x ∈ l -> watched scope (body x)) -> watched scope (for_each l body).
Proof.
    induction l as [|x l IH]; intros Hb; simpl.
    { apply watched_of_tidy, keeps_ret. }
    apply watched_bind; [apply Hb, list_elem_of_here|]. intros _. apply IH.
    intros y Hy. by apply Hb, list_elem_of_further.
Qed.

Lemma in_scope_mono open open' : open ⊆ open' -> in_scope scope open -> in_scope scope open'.
Proof.
    intros Hsub Ho. eapply list.Forall_impl; [exact Ho|]. simpl.
    intros s Hs. multiset_solver.
Qed.

Lemma watched_with_exit {A} (m : M W A) f :
    watched scope m -> (forall b, tidy scope (f b)) -> watched scope (with_exit m f).
Proof.
    intros Hm Hf open Ho. apply runs_with_exit. eapply runs_mono; [by apply Hm|].
    intros [a|e|] t Ht; try done; (destruct Ht as (open1 & Hw & Hsub & Heq); [done|]);
      (eapply runs_mono; [apply Hf, (in_scope_mono open); done|]);
      intros [u|e'|] t' Ht' Hd; try done; exists open1;
      (split_and!; [rewrite watch_app, Hw; by apply Ht'|done|]); intros a' Ha'; try done.
    by apply (Heq a').
Qed.

Lemma watched_with_broker {A} exe n ig extra (body : NetzBroker -> M W A) :
    (forall b, watched scope (body b)) -> watched scope (with_broker exe n ig extra body).
Proof.
    intros Hb. unfold with_broker, init, enter.
    apply watched_bind; [apply watched_of_tidy, keeps_bind;
      [apply tidy_free_port|eauto with netz]|].
    intros b. apply watched_bind.
    - apply watched_of_tidy, tidy_emits. eauto 20 with netz.
    - intros b'. apply watched_with_exit; [done|]. intros raised. apply tidy_emits.
      unfold exit. eauto 20 with netz.
Qed.

End watched.

(** ** The timeout discipline

    The monitor's state is the socket whose timeout is the short one, with
    whether it has been read from since; [None] when every timeout is five
    seconds. *)

Definition timeout_step (x : option (sock * bool)) (e : event)
    : option (option (sock * bool)) :=
  match x, e with
  | None, EvSettimeout s ms _ =>
      if decide (ms = 50) then Some (Some (s, false))
      else if decide (ms = 5000) then Some None else None
  | None, EvConnect _ _ ms _ => if decide (ms = 5000) then Some None else None
  | None, _ => Some None
  | Some (s, false), EvRecv s' n _ => if decide (s' = s /\ n = 1) then Some (Some (s, true)) else None
  | Some (s, true), EvSettimeout s' ms _ => if decide (s' = s /\ ms = 5000) then Some None else None
  | Some _, _ => None
  end.

Abbreviation patient m := (keeps timeout_step (fun x => x = None) m).

(** Neither shortens a timeout nor connects with another one. *)
Definition steady (e : event) : Prop :=
  match e with
  | EvSettimeout _ ms _ | EvConnect _ _ ms _ => ms = 5000
  | _ => True
  end.

#[export] Hint Extern 0 (steady _) => exact I : netz.
#[export] Hint Extern 0 (steady _) => reflexivity : netz.

Section patient.
  Context {W : Type} `{PlatformLaws W}.

Lemma steady_dialogue : dialogue steady.
Proof. done. Qed.

Lemma patient_emits {A} (m : M W A) : emits steady m -> patient m.
Proof.
    intros Hm. eapply keeps_emits; [exact Hm|]. intros x e -> He.
    destruct e; simpl in *; try done; by subst.
Qed.

Lemma patient_silence s c : patient (expect_silence s c).
Proof.
    intros x -> w o w' t Hr _. destruct (expect_silence_run s c w) as (r & v & Hv).
    rewrite Hr in Hv. injection Hv as _ _ ->. simpl.
    rewrite !decide_True by done. simpl. by rewrite decide_True by done.
Qed.

Lemma patient_with_connection {A} b (body : sock -> M W A) :
    (forall s, patient (body s)) -> patient (with_connection b body).
Proof.
    intros Hb. apply keeps_bind; [|intros s; apply keeps_finally; [done|]];
      apply patient_emits; [unfold connect|]; eauto 10 with netz.
Qed.

Lemma patient_with_broker {A} exe n ig extra (body : NetzBroker -> M W A) :
    (forall b, patient (body b)) -> patient (with_broker exe n ig extra body).
Proof.
    intros Hb. unfold with_broker, init, enter. apply keeps_bind; [|intros b; apply keeps_bind;
      [|intros b'; apply keeps_with_exit; [done|intros raised]]];
      apply patient_emits; [unfold free_port| |unfold exit]; eauto 20 with netz.
Qed.

End patient.

#[export] Hint Resolve patient_emits | 10 : netz.
#[export] Hint Resolve steady_dialogue patient_silence patient_with_connection
  patient_with_broker : netz.

(** ** The final message *)

Definition is_print (e : event) : bool :=
  match e with EvPrint _ _ => true | _ => false end.

Section silent.
  Context {W : Type} `{Platform W}.

Lemma not_print_conversation : conversation (fun e => is_print e = false).
Proof. done. Qed.

Lemma emits_with_broker {A} exe n ig extra (body : NetzBroker -> M W A) :
    (forall b, emits (fun e => is_print e = false) (body b)) ->
    emits (fun e => is_print e = false) (with_broker exe n ig extra body).
Proof.
    intros Hb. unfold with_broker, init, enter. apply emits_bind; [|intros b; apply emits_bind;
      [|intros b'; apply emits_with_exit; [done|intros raised]]];
      [unfold free_port| |unfold exit]; eauto 20 with netz.
Qed.

End silent.

#[export] Hint Resolve not_print_conversation emits_with_broker : netz.
