(* ===== verification/Lifecycle.v ===== *)
(** * The life of a broker process

    What [NetzBroker] guarantees: the verdict of a [with] block from the body
    and the exit of the process; a launch that fails; no two live brokers at
    the same time. *)

From Stdlib Require Import ZArith Lia.
From stdpp Require Import base list option strings gmultiset.
From S2P Require Import Prelude PyValues Effects Traces Canned Wire Expect Mosquitto Broker.
From S2P Require Import Connack Discipline.
Local Open Scope Z_scope.

(** ** The verdict of a [with NetzBroker(...)] block *)

Section verdict.
  Context {W : Type} `{Platform W} {A : Type}.

(** [start] is what happens before the body: [__init__], then [__enter__]. *)
Definition start (exe : string) (n : Z) (ignore : bool) (extra : list string) : M W NetzBroker :=
    b ← init exe n ignore extra; enter b.

(** A body that returned or raised, when the broker had to be terminated. *)
Definition judge_stuck (o : outcome A) : outcome A :=
    match o with Ok _ => Raise no_exit | _ => o end.

(** How a block ends: [closes p o t o'] says that after a body that ended in
    [o] the calls [t] on the process [p] make the block end in [o']. *)
Inductive closes (p : proc) : outcome A -> trace -> outcome A -> Prop :=
    | closes_clean o :
        closes p o [EvWait p 5000 (inr 0)] o
    | closes_raised e code :
        closes p (Raise e) [EvWait p 5000 (inr code)] (Raise e)
    | closes_bad a code out : code <> 0 ->
        closes p (Ok a) [EvWait p 5000 (inr code); EvRead p (inr out)] (Raise (bad_exit code out))
    | closes_unread a code e : code <> 0 ->
        closes p (Ok a) [EvWait p 5000 (inr code); EvRead p (inl e)] (Raise e)
    | closes_stuck o code :
        closes p o [ EvWait p 5000 (inl TimeoutExpired); EvTerminate p (inr tt);
                     EvWait p 5000 (inr code) ] (judge_stuck o)
    | closes_unwaited o e : e <> TimeoutExpired ->
        closes p o [EvWait p 5000 (inl e)] (Raise e)
    | closes_unterminated o e :
        closes p o [EvWait p 5000 (inl TimeoutExpired); EvTerminate p (inl e)] (Raise e)
    | closes_unreaped o e :
        closes p o [ EvWait p 5000 (inl TimeoutExpired); EvTerminate p (inr tt);
                     EvWait p 5000 (inl e) ] (Raise e).

Lemma with_broker_unfold exe n ignore extra (body : NetzBroker -> M W A) w b w1 t1 o w2 t2 :
    start exe n ignore extra w = (Ok b, w1, t1) -> body b w1 = (o, w2, t2) -> o <> Diverge ->
    with_broker exe n ignore extra body w =
      let raised := match o with Raise _ => true | _ => false end in
      match exit b raised w2 with
      | (Ok _, w3, t3) => (o, w3, t1 ++ t2 ++ t3)
      | (Raise e, w3, t3) => (Raise e, w3, t1 ++ t2 ++ t3)
      | (Diverge, w3, t3) => (Diverge, w3, t1 ++ t2 ++ t3)
      end.
Proof.
    unfold start, with_broker, with_exit, mbind, M_bind. intros Hs Hb Ho.
    destruct (init exe n ignore extra w) as [[[b0|e|] v] s]; try done.
    destruct (enter b0 v) as [[[b1|e|] v'] s']; try done.
    injection Hs as -> -> <-. rewrite Hb.
    by destruct o as [a|e|]; [| |done];
      destruct (exit _ _ w2) as [[[u|e'|] w3] t3]; rewrite <-!app_assoc.
Qed.

Lemma is_expired_inv e : is_expired e = true -> e = TimeoutExpired.
Proof. by destruct e. Qed.

(** [__exit__], by the calls that it made. *)
Lemma exit_closes b p (o : outcome A) :
    process b = Some p -> o <> Diverge ->
    runs (exit b (match o with Raise _ => true | _ => false end)) (fun r t =>
      closes p o t (match r with Ok _ => o | Raise e => Raise e | Diverge => Diverge end)).
Proof.
    intros Hp Ho. unfold exit. rewrite Hp. change (seconds 5) with 5000.
    apply runs_bind, runs_try, runs_call. intros w [e|code] w' _; simpl.
    - destruct (is_expired e) eqn:He; simpl;
        [apply is_expired_inv in He as -> |
         apply closes_unwaited; by intros ->].
      apply runs_bind, runs_call. intros v [e'|[]] v' _; simpl; [constructor|].
      apply runs_bind, runs_call. intros v1 [e'|c] v1' _; simpl; [constructor|].
      unfold raise_if. pose proof (closes_stuck p o c) as Hc.
      destruct o as [a|e|]; simpl in *; [|apply runs_bind, runs_ret, runs_ret, runs_ret|done];
        [by apply runs_bind, runs_raise|done].
    - destruct o as [a|e|]; simpl; [|apply runs_ret; constructor|done].
      case_bool_decide as Hc.
      + apply runs_bind, runs_call. intros v [e|out] v' _; simpl; [|apply runs_raise];
          by constructor.
      + apply runs_ret. assert (code = 0) as -> by lia. constructor.
Qed.

Lemma exit_stuck b p raised w w1 w2 code w3 :
    process b = Some p -> sys_wait p 5000 w = (inl TimeoutExpired, w1) ->
    sys_terminate p w1 = (inr tt, w2) -> sys_wait p 5000 w2 = (inr code, w3) ->
    exit b raised w =
      (if raised then Ok tt else Raise no_exit, w3,
       [ EvWait p 5000 (inl TimeoutExpired); EvTerminate p (inr tt);
         EvWait p 5000 (inr code) ]).
Proof.
    intros Hp Hw Ht Hw2. unfold exit. rewrite Hp. change (seconds 5) with 5000.
    unfold try_except, wait, terminate, call, mbind, M_bind. simpl. rewrite Hw. simpl.
    rewrite Ht. simpl. rewrite Hw2. simpl. by destruct raised.
Qed.

(** C24: The verdict of a [with NetzBroker(...)] block, in every case.  Once the
    body has returned or raised, the block makes one of the sequences of calls
    of [closes], and nothing else: it ends as its body did if the process exits
    with status 0 within five seconds, or with any status if the body raised;
    it raises the status and the output of the broker if the body returned and
    the status is not 0; a process that does not exit is terminated and waited
    for again, and fails a body that returned.  An exception of the body is
    replaced only when a [wait] or the [terminate] fails itself. *)
Theorem with_broker_verdict exe n ignore extra (body : NetzBroker -> M W A)
      w b p w1 t1 o w2 t2 :
    start exe n ignore extra w = (Ok b, w1, t1) -> process b = Some p ->
    body b w1 = (o, w2, t2) -> o <> Diverge ->
    exists o' w3 t3,
      with_broker exe n ignore extra body w = (o', w3, t1 ++ t2 ++ t3) /\ closes p o t3 o'.
Proof.
    intros Hs Hp Hb Ho. rewrite (with_broker_unfold _ _ _ _ _ _ _ _ _ _ _ _ Hs Hb Ho).
    cbv zeta. destruct (exit b _ w2) as [[r w3] t3] eqn:Hr.
    apply (exit_closes b p o Hp Ho) in Hr. destruct r; eauto.
Qed.

(** C25: A broker that does not exit within five seconds is terminated and
    waited for again; the block fails even if its body returned, and an
    exception of the body is passed on unchanged. *)
Theorem with_broker_stuck exe n ignore extra (body : NetzBroker -> M W A)
      w b p w1 t1 o w2 t2 w3 w4 code w5 :
    start exe n ignore extra w = (Ok b, w1, t1) -> process b = Some p ->
    body b w1 = (o, w2, t2) -> o <> Diverge ->
    sys_wait p 5000 w2 = (inl TimeoutExpired, w3) -> sys_terminate p w3 = (inr tt, w4) ->
    sys_wait p 5000 w4 = (inr code, w5) ->
    with_broker exe n ignore extra body w =
      (judge_stuck o, w5,
       t1 ++ t2 ++ [ EvWait p 5000 (inl TimeoutExpired); EvTerminate p (inr tt);
                     EvWait p 5000 (inr code) ]).
Proof.
    intros Hs Hp Hb Ho Hw Ht Hw2.
    rewrite (with_broker_unfold _ _ _ _ _ _ _ _ _ _ _ _ Hs Hb Ho). cbv zeta.
    rewrite (exit_stuck b p _ w2 w3 w4 code w5 Hp Hw Ht Hw2).
    by destruct o.
Qed.

(** C37: A broker whose first line does not announce that it listens: the block
    raises that line and the body does not run; [__exit__] is never called, so
    that nothing waits for the process or terminates it. *)
Theorem failed_start_unreaped exe n ignore extra (body : NetzBroker -> M W A)
      w b w1 t1 p w2 line w3 :
    init exe n ignore extra w = (Ok b, w1, t1) ->
    sys_popen (command b) w1 = (inr p, w2) -> sys_readline p w2 = (inr line, w3) ->
    occurs_in "listening" line = false ->
    with_broker exe n ignore extra body w =
      (Raise (start_failure line), w3,
       t1 ++ [EvPopen (command b) (inr p); EvReadline p (inr line)]).
Proof.
    intros Hi Hp Hl Hno. unfold with_broker, enter, mbind, M_bind. rewrite Hi.
    unfold popen, readline, call. rewrite Hp. simpl. rewrite Hl. simpl. by rewrite Hno.
Qed.

End verdict.

(** ** One broker at a time

    The monitor's state is the broker that has reported that it listens and
    has not been waited for: no other one may be launched, and only it may be
    waited for or terminated. *)

Definition process_step (x : option proc) (e : event) : option (option proc) :=
  match e, x with
  | EvPopen _ (inr _), None => Some None
  | EvPopen _ (inr _), Some _ => None
  | EvReadline p (inr line), None => Some (if occurs_in "listening" line then Some p else None)
  | EvReadline _ (inr _), Some _ => None
  | EvWait p _ r, Some q =>
      if decide (p = q) then Some (match r with inr _ => None | inl _ => x end) else None
  | EvWait _ _ _, None => None
  | EvTerminate p _, Some q => if decide (p = q) then Some x else None
  | EvTerminate _ _, None => None
  | _, _ => Some x
  end.

(** The last call of the run was the second [wait] for [p], or its
    [terminate], and failed; or the first [wait] failed in another way than
    with a timeout. *)
Definition abandoned (p : proc) (t : trace) : Prop :=
  exists t0 e, t = t0 ++ [EvWait p 5000 (inl e)] \/ t = t0 ++ [EvTerminate p (inl e)].

Lemma abandoned_app p t t' : abandoned p t' -> abandoned p (t ++ t').
Proof.
  intros (t0 & e & He). exists (t ++ t0), e. rewrite <-!(assoc_L (++)).
  destruct He as [-> | ->]; auto.
Qed.

(** Events that have nothing to do with processes. *)
Definition processless (e : event) : Prop :=
  match e with
  | EvPopen _ _ | EvReadline _ _ | EvRead _ _ | EvWait _ _ _ | EvTerminate _ _ => False
  | _ => True
  end.

#[export] Hint Extern 0 (processless _) => exact I : netz.

Lemma processless_watch x t : Forall processless t -> watch process_step x t = Some x.
Proof.
  induction 1 as [|e t He _ IH]; [done|]. simpl.
  by replace (process_step x e) with (Some x) by (by destruct e, x).
Qed.

Section orderly.
  Context {W : Type} `{Platform W}.

(** The verdict of the monitor: a passing run leaves no broker, and one that
    is left was given up on. *)
Definition settles {A} (x : option proc) (o : outcome A) (t : trace) : Prop :=
    exists y, watch process_step x t = Some y /\ (forall a, o = Ok a -> y = None) /\
      (o <> Diverge -> forall p, y = Some p -> abandoned p t).

Definition orderly {A} (m : M W A) : Prop := runs m (settles None).

Lemma settles_none {A} x (o : outcome A) t :
    watch process_step x t = Some None -> settles x o t.
Proof. intros Hw. by exists None. Qed.

Lemma settles_app {A} x y (o : outcome A) t t' :
    watch process_step x t = Some y -> settles y o t' -> settles x o (t ++ t').
Proof.
    intros Hw (z & Hz & Hok & Hab). exists z. rewrite watch_app, Hw.
    split_and!; [done|done|]. intros Ho q Hq. by apply abandoned_app, Hab.
Qed.

Lemma orderly_bind {A B} (m : M W A) (k : A -> M W B) :
    orderly m -> (forall a, orderly (k a)) -> orderly (m ≫= k).
Proof.
    intros Hm Hk. apply runs_bind. eapply runs_mono; [exact Hm|].
    intros [a|e|] t (x & Hx & Hok & Hab);
      [|exists x; split_and!; try done; intros _; by apply Hab..].
    rewrite (Hok a) in Hx by done. eapply runs_mono; [apply Hk|].
    intros o t' Hs. by eapply settles_app.
Qed.

Lemma orderly_processless {A} (m : M W A) : emits processless m -> orderly m.
Proof.
    intros Hm. eapply runs_mono; [exact Hm|]. intros o t Ht.
    by apply settles_none, processless_watch.
Qed.

Lemma orderly_for_each {A} (l : list A) (body : A -> M W unit) :
    (forall x, orderly (body x)) -> orderly (for_each l body).
Proof.
    intros Hb. induction l as [|x l IH]; simpl; [by apply orderly_processless, emits_ret|].
    by apply orderly_bind.
Qed.

(** Follow the monitor on a trace that is written out. *)
Ltac settled :=
    eexists; simpl; repeat (rewrite decide_True by done; simpl);
    split_and!; [reflexivity|done|]; intros _ ? [= <-]; unfold abandoned;
    first [ by eexists [], _; auto | by eexists [_; _], _; auto
          | by eexists [_], _; auto ].

(** [__exit__] waits for its own process. *)
Lemma exit_waits b p raised :
    process b = Some p -> runs (exit b raised) (settles (Some p)).
Proof.
    intros Hp. unfold exit. rewrite Hp.
    apply runs_bind, runs_try, runs_call. intros w [e|code] w' _; simpl.
    - destruct (is_expired e); simpl; [|settled].
      apply runs_bind, runs_call. intros v [e'|[]] v' _; simpl; [settled|].
      apply runs_bind, runs_call. intros v1 [e'|c] v1' _; simpl; [settled|].
      unfold raise_if. destruct raised; simpl.
      + apply runs_bind, runs_ret, runs_ret, runs_ret. settled.
      + apply runs_bind, runs_raise. settled.
    - destruct (negb raised && _).
      + apply runs_bind, runs_call. intros v [e|out] v' _; simpl; [|apply runs_raise]; settled.
      + apply runs_ret. settled.
Qed.

Lemma orderly_with_broker {A} exe n ig extra (body : NetzBroker -> M W A) :
    (forall b, emits processless (body b)) -> orderly (with_broker exe n ig extra body).
Proof.
    intros Hb. apply orderly_bind.
    { apply orderly_processless. unfold init, free_port. eauto 20 with netz. }
    intros b0. apply runs_bind, runs_bind, runs_call. intros w [e|p] w' _; simpl;
      [by apply settles_none|].
    apply runs_bind, runs_call. intros v [e|line] v' _; simpl; [by apply settles_none|].
    unfold raise_if. destruct (occurs_in "listening" line) eqn:Hl; cbn [negb];
      [|apply runs_bind, runs_raise, settles_none; simpl; by rewrite Hl].
    apply runs_bind, runs_ret, runs_ret. cbn [app]. apply runs_with_exit.
    eapply runs_mono; [apply Hb|].
    intros o t Ht. apply (processless_watch (Some p)) in Ht.
    assert (Hexit : forall raised, runs (exit (set_process p b0) raised) (fun o' t' =>
      settles (Some p) o' (t ++ t'))).
    { intros raised. eapply runs_mono; [by apply (exit_waits _ p)|].
      intros o' t' Hs. by eapply settles_app. }
    assert (Hw : watch process_step None
      [EvPopen (command b0) (inr p); EvReadline p (inr line)] = Some (Some p))
      by (simpl; by rewrite Hl).
    destruct o as [a|e|].
    - eapply runs_mono; [apply Hexit|].
      intros [u|e'|] t' (x & Hx & Hok & Hab); apply (settles_app _ _ _ [_; _] _ Hw);
        exists x; split_and!; try done; [intros a' _; by apply (Hok u)|..]; intros _; by apply Hab.
    - eapply runs_mono; [apply Hexit|].
      intros [u|e'|] t' (x & Hx & Hok & Hab); apply (settles_app _ _ _ [_; _] _ Hw);
        exists x; split_and!; try done; intros _; by apply Hab.
    - apply (settles_app _ _ _ [_; _] _ Hw). by exists (Some p).
Qed.

Lemma processless_conversation : conversation processless.
Proof. done. Qed.

End orderly.

(** ** Calls without a timeout

    [readline] and [read] on the output of the broker are the calls that
    nothing bounds in time.  The monitor follows the last event: a [readline]
    must directly follow the launch of its process, a [read] must directly
    follow a [wait] that reported another status than 0, and nothing may come
    after it; every [wait] has its five seconds. *)

Inductive lull : Type :=
  | Busy
  | Fresh (p : proc)
  | Gone (p : proc)
  | Over.

Definition blocking_step (x : lull) (e : event) : option lull :=
  match e, x with
  | _, Over => None
  | EvPopen _ (inr p), _ => Some (Fresh p)
  | EvReadline p _, Fresh q => if decide (p = q) then Some Busy else None
  | EvReadline _ _, _ => None
  | EvWait p ms r, _ =>
      if decide (ms = 5000) then
        Some (match r with inr code => if decide (code = 0) then Busy else Gone p | _ => Busy end)
      else None
  | EvRead p _, Gone q => if decide (p = q) then Some Over else None
  | EvRead _ _, _ => None
  | _, _ => Some Busy
  end.

Section prompt.
  Context {W : Type} `{Platform W}.

(** The monitor accepts the run; after a run that returned it goes on. *)
Definition prompt {A} (m : M W A) : Prop :=
    runs m (fun o t => forall x, x <> Over ->
      exists y, watch blocking_step x t = Some y /\ (forall a, o = Ok a -> y <> Over)).

Lemma processless_blocking x t : x <> Over -> Forall processless t ->
    exists y, watch blocking_step x t = Some y /\ y <> Over.
Proof.
    intros Hx Ht. revert x Hx. induction Ht as [|e t He _ IH]; intros x Hx; [by exists x|].
    simpl. replace (blocking_step x e) with (Some Busy) by (by destruct e, x). by apply IH.
Qed.

Lemma prompt_bind {A B} (m : M W A) (k : A -> M W B) :
    prompt m -> (forall a, prompt (k a)) -> prompt (m ≫= k).
Proof.
    intros Hm Hk. apply runs_bind. eapply runs_mono; [exact Hm|].
    intros [a|e|] t Ht; simpl.
    - eapply runs_mono; [apply Hk|]. intros o t' Ht' x Hx.
      destruct (Ht x Hx) as (y & Hy & Ho). destruct (Ht' y (Ho a eq_refl)) as (z & Hz & Ho').
      exists z. by rewrite watch_app, Hy.
    - intros x Hx. destruct (Ht x Hx) as (y & Hy & _). by exists y.
    - intros x Hx. destruct (Ht x Hx) as (y & Hy & _). by exists y.
Qed.

Lemma prompt_processless {A} (m : M W A) : emits processless m -> prompt m.
Proof.
    intros Hm. eapply runs_mono; [exact Hm|]. intros o t Ht x Hx.
    destruct (processless_blocking x t Hx Ht) as (y & Hy & ?). by exists y.
Qed.

Lemma prompt_for_each {A} (l : list A) (body : A -> M W unit) :
    (forall x, prompt (body x)) -> prompt (for_each l body).
Proof.
    intros Hb. induction l as [|x l IH]; simpl; [by apply prompt_processless, emits_ret|].
    by apply prompt_bind.
Qed.

(** Follow the monitor on a trace that is written out. *)
Ltac prompted :=
    intros [] ?; simpl; try done; repeat (case_decide; simpl; try done); by eexists.

Lemma prompt_exit b raised : prompt (exit b raised).
Proof.
    unfold exit. destruct (process b) as [p|]; [|by apply prompt_processless, emits_raise].
    apply runs_bind, runs_try, runs_call. intros w [e|code] w' _; simpl.
    - destruct (is_expired e); simpl; [|prompted].
      apply runs_bind, runs_call. intros v [e'|[]] v' _; simpl; [prompted|].
      apply runs_bind, runs_call. intros v1 [e'|c] v1' _; simpl; [prompted|].
      unfold raise_if. destruct raised; simpl.
      + apply runs_bind, runs_ret, runs_ret, runs_ret. prompted.
      + apply runs_bind, runs_raise. prompted.
    - destruct (negb raised && _) eqn:Hc.
      + apply andb_prop in Hc as [_ Hc%bool_decide_eq_true].
        apply runs_bind, runs_call. intros v [e|out] v' _; simpl; [|apply runs_raise]; prompted.
      + apply runs_ret. prompted.
Qed.

Lemma prompt_with_broker {A} exe n ig extra (body : NetzBroker -> M W A) :
    (forall b, emits processless (body b)) -> prompt (with_broker exe n ig extra body).
Proof.
    intros Hb. apply prompt_bind.
    { apply prompt_processless. unfold init, free_port. eauto 20 with netz. }
    intros b0. apply prompt_bind.
    - apply runs_bind, runs_call. intros w [e|p] w' _; simpl; [prompted|].
      apply runs_bind, runs_call. intros v [e|line] v' _; simpl;
        [|unfold raise_if; destruct (negb _);
          [apply runs_bind, runs_raise|apply runs_bind, runs_ret, runs_ret]]; prompted.
    - intros b. apply runs_with_exit. eapply runs_mono; [apply Hb|].
      intros o t Ht. destruct o as [a|e|].
      + eapply runs_mono; [apply prompt_exit|]. intros [u|e'|] t' Ht' x Hx;
          destruct (processless_blocking x t Hx Ht) as (y & Hy & Hy');
          destruct (Ht' y Hy') as (z & Hz & Ho); exists z; rewrite watch_app, Hy;
          split; try done; intros _ _; by apply (Ho u).
      + eapply runs_mono; [apply prompt_exit|]. intros [u|e'|] t' Ht' x Hx;
          destruct (processless_blocking x t Hx Ht) as (y & Hy & Hy');
          destruct (Ht' y Hy') as (z & Hz & Ho); exists z; by rewrite watch_app, Hy.
      + intros x Hx. destruct (processless_blocking x t Hx Ht) as (y & Hy & _). by exists y.
Qed.

End prompt.

#[export] Hint Resolve processless_conversation : netz.

(** ** Instances *)

(** A broker that exits with status 3; one that does not exit; one that cannot
    start. *)
Definition exits_3 : canned := Canned [] 0 1000 0 "listening" (inr 3).
Definition hangs : canned := Canned [] 0 1000 0 "listening" (inl TimeoutExpired).
Definition mute : canned := Canned [] 0 1000 0 "error: address in use" (inr 1).

Definition failing_body : NetzBroker -> M canned unit := fun _ => raise (AssertionError "body").
Definition passing_body : NetzBroker -> M canned unit := fun _ => mret tt.

Definition sample_broker (p : option proc) : NetzBroker :=
  {| executable := "netz"; connections := 1; ignore_errors := false; extra_args := [];
     port := 18830; process := p |}.

Abbreviation started w := (start "netz" 1 false [] w).

(** Status 3 is reported after a body that returned and not after one that
    raised; a second [wait] that fails replaces the exception of the body. *)
Lemma with_broker_verdict_witness :
  exists o' w3 t3,
    with_broker "netz" 1 false [] passing_body exits_3 = (o', w3, (started exits_3).2 ++ [] ++ t3) /\
    closes 0 (Ok tt) t3 o'.
Proof.
  apply (with_broker_verdict "netz" 1 false [] passing_body exits_3
           (sample_broker (Some 0%nat)) 0 (started exits_3).1.2 (started exits_3).2
           (Ok tt) (started exits_3).1.2 []);
    [reflexivity|reflexivity|reflexivity|discriminate].
Defined.

Example with_broker_reports :
  (with_broker "netz" 1 false [] passing_body exits_3).1.1 = Raise (bad_exit 3 "") /\
  (with_broker "netz" 1 false [] failing_body exits_3).1.1 = Raise (AssertionError "body").
Proof. split; reflexivity. Qed.

Lemma with_broker_stuck_witness :
  (with_broker "netz" 1 false [] passing_body hangs).1.1 = Raise no_exit.
Proof.
  rewrite (with_broker_stuck "netz" 1 false [] passing_body hangs
             (sample_broker (Some 0%nat)) 0 (started hangs).1.2 (started hangs).2
             (Ok tt) (started hangs).1.2 [] (started hangs).1.2
             (sys_terminate 0%nat (started hangs).1.2).2 (-15)
             (sys_terminate 0%nat (started hangs).1.2).2);
    [reflexivity|reflexivity|reflexivity|reflexivity|discriminate
    |reflexivity|reflexivity|reflexivity].
Defined.

Lemma failed_start_unreaped_witness :
  (with_broker "netz" 1 false [] passing_body mute).1.1
    = Raise (RuntimeError "netz broker failed to start: error: address in use").
Proof.
  rewrite (failed_start_unreaped "netz" 1 false [] passing_body mute
             (sample_broker None) mute (init "netz" 1 false [] mute).2 0 (started mute).1.2
             "error: address in use" (started mute).1.2); reflexivity.
Defined.
