(* ===== verification/Capabilities.v ===== *)
(** * Scenarios: routing answers and advertised capabilities

    Publish acknowledgements without subscribers, Subscription Identifiers,
    hostile first packets, and the DISCONNECT that a broker owes a client that
    ignores an advertised limit. *)

From Stdlib Require Import ZArith Lia.
From stdpp Require Import base list option strings.
From S2P Require Import Prelude PyValues Effects Traces Canned Wire Expect Mosquitto Broker.
From S2P Require Import Connack.
Local Open Scope Z_scope.

(** ** The tables of the scenarios *)

Definition no_subs_topics : list string :=
  [ "03B/no/subs/pub"; "03B/no/subs/pub/qos1"; "03B/no/subs/pub/qos1/test" ].

Definition subid_subscriptions : list (Z * string * option Z) :=
  [ (1, "02/subpub/subid/id1", Some 1);
    (2, "02/subpub/subid/+/id2", Some 14);
    (3, "02/subpub/subid/noid", None);
    (4, "02/subpub/subid/id1", None);
    (5, "02/subpub/subid/+/id2", Some 19);
    (6, "02/subpub/subid/noid", Some 21) ].

Definition subid_publishes : list (string * string * option Z) :=
  [ ("02/subpub/subid/test/id2", "message2", Some 19);
    ("02/subpub/subid/noid", "message3", Some 21);
    ("02/subpub/subid/id1", "message1", None) ].

Definition hostile_types : list Z := range 2 16.

(** [bytes([packet_type << 4, 0x80, 0x80, 0x80, 0x74])]. *)
Definition hostile_packet (packet_type : Z) : result bytes :=
  py_bytes [Z.shiftl packet_type 4; 0x80; 0x80; 0x80; 0x74].

Section scenarios.
  Context {W : Type} `{Platform W}.
  Context (exe : string) (mqtt_packets : MqttPackets).

Definition no_matching_subscribers (mqtt5_rc : Mqtt5Rc) : M W unit :=
    with_broker exe 1 false [] (fun broker =>
      with_connection broker (fun sock =>
        connect_v5 mqtt_packets sock "03-pub-qos1-no-subs";;
        mid ← for_fold no_subs_topics 1 (fun mid topic =>
          let packet := mqtt_packets.(gen_publish) topic
            ["qos" @= 1; "mid" @= mid; "payload" @= "message"; "proto_ver" @= 5] in
          sendall sock packet;;
          expect_packet sock
            (mqtt_packets.(gen_puback) mid
               ["proto_ver" @= 5; "reason_code" @= mqtt5_rc.(NO_MATCHING_SUBSCRIBERS)])
            ("no-match PUBACK " +:+ str_int mid);;
          mret (mid + 1));
        last_topic ← lift (py_index no_subs_topics (-1));
        let retained := mqtt_packets.(gen_publish) last_topic
          ["qos" @= 1; "mid" @= VInt mid; "payload" @= "message"; "proto_ver" @= 5;
           "retain" @= true] in
        sendall sock retained;;
        expect_packet sock
          (mqtt_packets.(gen_puback) mid
             ["proto_ver" @= 5; "reason_code" @= mqtt5_rc.(NO_MATCHING_SUBSCRIBERS)])
          "retained no-match PUBACK";;
        send_disconnect mqtt_packets sock)).

(** [gen_varint_prop(SUBSCRIPTION_IDENTIFIER, identifier)] unless it is [None]. *)
Definition subid_props (mqtt5_props : Mqtt5Props) (identifier : option Z) : bytes :=
    match identifier with
    | Some i => mqtt5_props.(gen_varint_prop) mqtt5_props.(SUBSCRIPTION_IDENTIFIER) i
    | None => []
    end.

Definition subscription_identifiers (mqtt5_props : Mqtt5Props) : M W unit :=
    with_broker exe 1 false [] (fun broker =>
      with_connection broker (fun sock =>
        connect_v5 mqtt_packets sock "02-subpub-subid";;
        for_each subid_subscriptions (fun '(mid, topic, identifier) =>
          let props := subid_props mqtt5_props identifier in
          sendall sock (mqtt_packets.(gen_subscribe) mid topic 0
            ["proto_ver" @= 5; "properties" @= VBytes props]);;
          expect_packet sock (mqtt_packets.(gen_suback) mid 0 ["proto_ver" @= 5])
            ("SUBACK " +:+ str_int mid));;
        for_each subid_publishes (fun '(topic, payload, identifier) =>
          sendall sock (mqtt_packets.(gen_publish) topic
            ["qos" @= 0; "payload" @= payload; "proto_ver" @= 5]);;
          let props := subid_props mqtt5_props identifier in
          expect_packet sock
            (mqtt_packets.(gen_publish) topic
               ["qos" @= 0; "payload" @= payload; "proto_ver" @= 5;
                "properties" @= VBytes props])
            ("forwarded PUBLISH " +:+ topic));;
        send_disconnect mqtt_packets sock)).

Definition multi_subid_table (mqtt5_opts : Mqtt5Opts) : list (Z * string * Z * Z) :=
    [ (1, "multi/subid/value", 3, 0);
      (2, "multi/subid/+", 9, Z.lor 1 mqtt5_opts.(MQTT_SUB_OPT_RETAIN_AS_PUBLISHED)) ].

Definition multiple_subscription_identifiers
      (mqtt5_props : Mqtt5Props) (mqtt5_opts : Mqtt5Opts) : M W unit :=
    let topic := "multi/subid/value" in
    let subid i := mqtt5_props.(gen_varint_prop) mqtt5_props.(SUBSCRIPTION_IDENTIFIER) i in
    with_broker exe 1 false [] (fun broker =>
      with_connection broker (fun sock =>
        connect_v5 mqtt_packets sock "multi-subscription-id";;
        for_each (multi_subid_table mqtt5_opts)
          (fun '(mid, topic_filter, identifier, options) =>
            sendall sock (mqtt_packets.(gen_subscribe) mid topic_filter options
              ["proto_ver" @= 5; "properties" @= VBytes (subid identifier)]);;
            expect_packet sock
              (mqtt_packets.(gen_suback) mid (Z.land options 0x03) ["proto_ver" @= 5])
              ("multi-subid SUBACK " +:+ str_int mid));;
        sendall sock (mqtt_packets.(gen_publish) topic
          ["qos" @= 1; "mid" @= 10; "payload" @= "both"; "retain" @= true;
           "proto_ver" @= 5]);;
        expect_packet sock (mqtt_packets.(gen_puback) 10 ["proto_ver" @= 5])
          "multi-subid publisher PUBACK";;
        let properties := subid 3 ++ subid 9 in
        expect_packet sock
          (mqtt_packets.(gen_publish) topic
             ["qos" @= 1; "mid" @= 1; "payload" @= "both"; "retain" @= true;
              "proto_ver" @= 5; "properties" @= VBytes properties])
          "multi-subid forwarded PUBLISH";;
        sendall sock (mqtt_packets.(gen_puback) 1 ["proto_ver" @= 5]);;
        send_disconnect mqtt_packets sock)).

Definition hostile_initial_packets : M W unit :=
    with_broker exe (len hostile_types + 1) true [] (fun broker =>
      for_each hostile_types (fun packet_type =>
        with_connection broker (fun sock =>
          raw ← lift (hostile_packet packet_type);
          sendall sock raw;;
          expect_no_answer sock (fun data =>
            "initial packet type " +:+ str_int packet_type +:+ " received " +:+ hex data)));;
      with_connection broker (fun sock =>
        connect_v5 mqtt_packets sock "after-hostile-initial";;
        send_disconnect mqtt_packets sock)).

(** The two cases of [publish_capability_disconnects]: extra arguments, the
    offending PUBLISH, the advertised property, the reason code, the label. *)
Definition publish_cases (mqtt5_props : Mqtt5Props) (mqtt5_rc : Mqtt5Rc)
    : list (list string * bytes * bytes * Z * string) :=
    [ (["--maximum-qos=1"],
       mqtt_packets.(gen_publish) "test/topic" ["qos" @= 2; "mid" @= 1; "proto_ver" @= 5],
       mqtt5_props.(gen_byte_prop) mqtt5_props.(MAXIMUM_QOS) 1,
       mqtt5_rc.(QOS_NOT_SUPPORTED),
       "qos above Maximum QoS");
      (["--no-retain"],
       mqtt_packets.(gen_publish) "test/topic"
         ["qos" @= 0; "retain" @= true; "payload" @= "a"; "proto_ver" @= 5],
       mqtt5_props.(gen_byte_prop) mqtt5_props.(RETAIN_AVAILABLE) 0,
       mqtt5_rc.(RETAIN_NOT_SUPPORTED),
       "retain unavailable") ].

Definition publish_capability_disconnects (mqtt5_props : Mqtt5Props) (mqtt5_rc : Mqtt5Rc)
    : M W unit :=
    for_each (publish_cases mqtt5_props mqtt5_rc)
      (fun '(args, publish, advertised_property, reason, label) =>
        with_broker exe 1 false args (fun broker =>
          with_connection broker (fun sock =>
            sendall sock (mqtt_packets.(gen_connect) "publish-capability" ["proto_ver" @= 5]);;
            let expected := expected_connack mqtt_packets mqtt5_props
                              (with_extra advertised_property) in
            expect_packet sock expected (label +:+ " CONNACK");;
            sendall sock publish;;
            expect_packet sock
              (mqtt_packets.(gen_disconnect) ["reason_code" @= VInt reason; "proto_ver" @= 5])
              (label +:+ " DISCONNECT")))).

(** The PUBLISH of [maximum_packet_size_disconnect]. *)
Definition broker_size_publish (payload : string) : bytes :=
    mqtt_packets.(gen_publish) "12/max/packet/size/broker/test/topic"
      ["qos" @= 0; "payload" @= payload; "proto_ver" @= 5].

Definition maximum_packet_size_disconnect (mqtt5_props : Mqtt5Props) (mqtt5_rc : Mqtt5Rc)
    : M W unit :=
    with_broker exe 1 false ["--max-packet-size=50"] (fun broker =>
      with_connection broker (fun sock =>
        sendall sock (mqtt_packets.(gen_connect) "12-max-packet-broker" ["proto_ver" @= 5]);;
        expect_packet sock
          (expected_connack mqtt_packets mqtt5_props (with_packet_size 50))
          "maximum packet size CONNACK";;
        sendall sock (broker_size_publish "012345678");;
        sendall sock mqtt_packets.(gen_pingreq);;
        expect_packet sock mqtt_packets.(gen_pingresp)
          "maximum packet size boundary PINGRESP";;
        sendall sock (broker_size_publish "0123456789");;
        expect_packet sock
          (mqtt_packets.(gen_disconnect)
             ["reason_code" @= mqtt5_rc.(PACKET_TOO_LARGE); "proto_ver" @= 5])
          "maximum packet size DISCONNECT")).

Definition topic_alias_disconnect (mqtt5_props : Mqtt5Props) (mqtt5_rc : Mqtt5Rc)
    : M W unit :=
    with_broker exe 1 false ["--topic-alias-maximum=1"] (fun broker =>
      with_connection broker (fun sock =>
        sendall sock (mqtt_packets.(gen_connect) "topic-alias-invalid" ["proto_ver" @= 5]);;
        expect_packet sock
          (expected_connack mqtt_packets mqtt5_props (with_alias_maximum 1))
          "topic alias limit CONNACK";;
        let properties := mqtt5_props.(gen_uint16_prop) mqtt5_props.(TOPIC_ALIAS) 2 in
        sendall sock (mqtt_packets.(gen_publish) "alias/too-large"
          ["qos" @= 0; "payload" @= "blocked"; "proto_ver" @= 5;
           "properties" @= VBytes properties]);;
        expect_packet sock
          (mqtt_packets.(gen_disconnect)
             ["reason_code" @= mqtt5_rc.(TOPIC_ALIAS_INVALID); "proto_ver" @= 5])
          "topic alias invalid DISCONNECT")).

Definition receive_maximum_disconnect (mqtt5_rc : Mqtt5Rc) : M W unit :=
    with_broker exe 1 false ["--max-outgoing-inflight=1"] (fun broker =>
      with_connection broker (fun sock =>
        connect_v5 mqtt_packets sock "receive-maximum-exceeded";;
        sendall sock (mqtt_packets.(gen_publish) "receive/maximum/one"
          ["qos" @= 2; "mid" @= 1; "proto_ver" @= 5]);;
        sendall sock (mqtt_packets.(gen_publish) "receive/maximum/two"
          ["qos" @= 2; "mid" @= 2; "proto_ver" @= 5]);;
        expect_packet sock (mqtt_packets.(gen_pubrec) 1 ["proto_ver" @= 5])
          "receive maximum first PUBREC";;
        expect_packet sock
          (mqtt_packets.(gen_disconnect)
             ["reason_code" @= mqtt5_rc.(RECEIVE_MAXIMUM_EXCEEDED); "proto_ver" @= 5])
          "receive maximum DISCONNECT")).

(** The three cases of [subscription_capability_disconnects]: extra arguments,
    the filter, the SUBSCRIBE properties, the advertised property's identifier,
    the reason code, the label. *)
Definition subscription_cases (mqtt5_props : Mqtt5Props) (mqtt5_rc : Mqtt5Rc)
    : list (list string * string * bytes * Z * Z * string) :=
    [ (["--no-wildcard-subscriptions"], "wildcard/+", [],
       mqtt5_props.(WILDCARD_SUB_AVAILABLE), mqtt5_rc.(WILDCARD_SUBS_NOT_SUPPORTED),
       "wildcard subscription unavailable");
      (["--no-shared-subscriptions"], "$share/workers/shared/topic", [],
       mqtt5_props.(SHARED_SUB_AVAILABLE), mqtt5_rc.(SHARED_SUBS_NOT_SUPPORTED),
       "shared subscription unavailable");
      (["--no-subscription-identifiers"], "identifier/topic",
       mqtt5_props.(gen_varint_prop) mqtt5_props.(SUBSCRIPTION_IDENTIFIER) 7,
       mqtt5_props.(SUBSCRIPTION_ID_AVAILABLE), mqtt5_rc.(SUBSCRIPTION_IDS_NOT_SUPPORTED),
       "subscription identifier unavailable") ].

Definition subscription_capability_disconnects
      (mqtt5_props : Mqtt5Props) (mqtt5_rc : Mqtt5Rc) : M W unit :=
    for_each (subscription_cases mqtt5_props mqtt5_rc)
      (fun '(args, topic, subscribe_props, advertised_id, reason, label) =>
        with_broker exe 1 true args (fun broker =>
          with_connection broker (fun sock =>
            sendall sock
              (mqtt_packets.(gen_connect) "subscription-capability" ["proto_ver" @= 5]);;
            expect_packet sock
              (expected_connack mqtt_packets mqtt5_props
                 (with_extra (mqtt5_props.(gen_byte_prop) advertised_id 0)))
              (label +:+ " CONNACK");;
            sendall sock (mqtt_packets.(gen_subscribe) 1 topic 0
              ["proto_ver" @= 5; "properties" @= VBytes subscribe_props]);;
            expect_packet sock
              (mqtt_packets.(gen_disconnect) ["reason_code" @= VInt reason; "proto_ver" @= 5])
              (label +:+ " DISCONNECT")))).

Definition reject_publish_subscription_identifier (mqtt5_props : Mqtt5Props) : M W unit :=
    let illegal :=
      mqtt5_props.(gen_varint_prop) mqtt5_props.(SUBSCRIPTION_IDENTIFIER) 7 in
    with_broker exe 2 true [] (fun broker =>
      with_connection broker (fun bad =>
        connect_v5 mqtt_packets bad "illegal-publish-subid";;
        sendall bad (mqtt_packets.(gen_publish) "illegal/subid"
          ["qos" @= 0; "payload" @= "bad"; "proto_ver" @= 5;
           "properties" @= VBytes illegal]);;
        expect_no_answer bad (fun response =>
          "illegal Subscription Identifier got response: " +:+ hex response));;
      with_connection broker (fun healthy =>
        connect_v5 mqtt_packets healthy "after-illegal-subid";;
        sendall healthy mqtt_packets.(gen_pingreq);;
        expect_packet healthy mqtt_packets.(gen_pingresp)
          "healthy PINGRESP after illegal Subscription Identifier";;
        send_disconnect mqtt_packets healthy)).

Definition unsubscribe_reason_codes : M W unit :=
    let topic := "unsubscribe/reason/existing" in
    with_broker exe 2 false [] (fun broker =>
      with_connection broker (fun subscriber =>
      with_connection broker (fun publisher =>
        connect_v5 mqtt_packets subscriber "unsubscribe-reasons";;
        sendall subscriber (mqtt_packets.(gen_subscribe) 1 topic 0 ["proto_ver" @= 5]);;
        expect_packet subscriber (mqtt_packets.(gen_suback) 1 0 ["proto_ver" @= 5])
          "unsubscribe reason SUBACK";;
        sendall subscriber (mqtt_packets.(gen_unsubscribe_multiple) 2
          [topic; "unsubscribe/reason/missing"] ["proto_ver" @= 5]);;
        expect_packet subscriber
          (mqtt_packets.(gen_unsuback) 2
             ["reason_code" @= VInts [0x00; 0x11]; "proto_ver" @= 5])
          "multi-filter UNSUBACK reasons";;
        connect_v5 mqtt_packets publisher "unsubscribe-publisher";;
        sendall publisher (mqtt_packets.(gen_publish) topic
          ["qos" @= 0; "payload" @= "not-routed"; "proto_ver" @= 5]);;
        sendall subscriber mqtt_packets.(gen_pingreq);;
        expect_packet subscriber mqtt_packets.(gen_pingresp) "PINGRESP after unsubscribe";;
        send_disconnect mqtt_packets publisher;;
        send_disconnect mqtt_packets subscriber))).

End scenarios.
