(* ===== verification/Qos.v ===== *)
(** * Scenarios: QoS 1 and QoS 2 delivery

    The QoS 2 handshake and its release at PUBREL, flow control by Receive
    Maximum and Maximum Packet Size, duplicates, repeated PUBREL, deliveries
    across protocol versions and shared subscriptions. *)

From Stdlib Require Import ZArith Lia.
From stdpp Require Import base list option strings.
From S2P Require Import Prelude PyValues Effects Traces Canned Wire Expect Mosquitto Broker.
From S2P Require Import Connack.
Local Open Scope Z_scope.

(** ** The tables of [shared_subscription_rotation] *)

Definition shared_filters : list (Z * string) :=
  [ (0, "02A/#");
    (1, "$share/one/02A/share/test");
    (2, "$share/one/02A/share/test");
    (2, "$share/two/02A/share/test");
    (3, "$share/two/02A/share/test");
    (4, "$share/one/02A/share/test") ].

Definition expected_receivers : list (list Z) := [[0; 1; 2]; [0; 2; 3]; [0; 2; 4]].

Section scenarios.
  Context {W : Type} `{Platform W}.
  Context (exe : string) (mqtt_packets : MqttPackets).

(** The check of a CONNACK in three scenarios of this file and one of
    [Forwarding]:
    [connack[0] != 0x20 or connack[3] != 0]. *)
Definition bad_plain_connack (connack : bytes) : result bool :=
    py_or (test_index connack 0 (fun b => bool_decide (b <> 0x20)))
      (test_index connack 3 (fun b => bool_decide (b <> 0))).

Definition qos2_routes_at_pubrel : M W unit :=
    let topic := "pub/qos2/reuse" in
    with_broker exe 2 false [] (fun broker =>
      with_connection broker (fun subscriber =>
      with_connection broker (fun publisher =>
        connect_v5 mqtt_packets subscriber "sub-qos2-test";;
        sendall subscriber (mqtt_packets.(gen_subscribe) 1 topic 2 ["proto_ver" @= 5]);;
        expect_packet subscriber (mqtt_packets.(gen_suback) 1 2 ["proto_ver" @= 5])
          "QoS2 SUBACK";;
        connect_v5 mqtt_packets publisher "pub-qos2-test";;

        let incoming_mid := 312 in
        sendall publisher (mqtt_packets.(gen_publish) topic
          ["qos" @= 2; "mid" @= incoming_mid; "payload" @= "message"; "proto_ver" @= 5]);;
        expect_packet publisher (mqtt_packets.(gen_pubrec) incoming_mid ["proto_ver" @= 5])
          "publisher PUBREC";;
        expect_silence subscriber (fun early =>
          "QoS2 PUBLISH routed before PUBREL: " +:+ hex early);;

        sendall publisher (mqtt_packets.(gen_pubrel) incoming_mid ["proto_ver" @= 5]);;
        expect_packet publisher (mqtt_packets.(gen_pubcomp) incoming_mid ["proto_ver" @= 5])
          "publisher PUBCOMP";;

        let outgoing_mid := 1 in
        expect_packet subscriber
          (mqtt_packets.(gen_publish) topic
             ["qos" @= 2; "mid" @= outgoing_mid; "payload" @= "message"; "proto_ver" @= 5])
          "downstream QoS2 PUBLISH";;
        sendall subscriber (mqtt_packets.(gen_pubrec) outgoing_mid ["proto_ver" @= 5]);;
        expect_packet subscriber (mqtt_packets.(gen_pubrel) outgoing_mid ["proto_ver" @= 5])
          "downstream PUBREL";;
        sendall subscriber (mqtt_packets.(gen_pubcomp) outgoing_mid ["proto_ver" @= 5]);;
        send_disconnect mqtt_packets publisher;;
        send_disconnect mqtt_packets subscriber))).

Definition mixed_version_qos1 : M W unit :=
    let topic := "mixed/version/qos1" in
    with_broker exe 2 false [] (fun broker =>
      with_connection broker (fun subscriber =>
      with_connection broker (fun publisher =>
        connect_client mqtt_packets subscriber "mixed-v3-sub" 4;;
        sendall subscriber (mqtt_packets.(gen_subscribe) 1 topic 1 ["proto_ver" @= 4]);;
        expect_packet subscriber (mqtt_packets.(gen_suback) 1 1 ["proto_ver" @= 4])
          "MQTT 3.1.1 SUBACK";;
        connect_v5 mqtt_packets publisher "mixed-v5-pub";;
        sendall publisher (mqtt_packets.(gen_publish) topic
          ["qos" @= 1; "mid" @= 77; "payload" @= "cross-version"; "proto_ver" @= 5]);;
        expect_packet publisher (mqtt_packets.(gen_puback) 77 ["proto_ver" @= 5])
          "MQTT 5 publisher PUBACK";;
        expect_packet subscriber
          (mqtt_packets.(gen_publish) topic
             ["qos" @= 1; "mid" @= 1; "payload" @= "cross-version"; "proto_ver" @= 4])
          "MQTT 3.1.1 forwarded PUBLISH";;
        sendall subscriber (mqtt_packets.(gen_puback) 1 ["proto_ver" @= 4]);;
        send_disconnect mqtt_packets publisher;;
        sendall subscriber (mqtt_packets.(gen_disconnect) ["proto_ver" @= 4])))).

Definition qos2_receive_maximum_one (mqtt5_props : Mqtt5Props) : M W unit :=
    let topic := "subpub/qos2/receive/maximum1" in
    let receive_one := mqtt5_props.(gen_uint16_prop) mqtt5_props.(RECEIVE_MAXIMUM) 1 in
    with_broker exe 2 false [] (fun broker =>
      with_connection broker (fun subscriber =>
      with_connection broker (fun publisher =>
        sendall subscriber (mqtt_packets.(gen_connect) "subpub-qos2-receive-max1"
          ["proto_ver" @= 5; "properties" @= VBytes receive_one]);;
        connack ← read_packet subscriber;
        bad ← lift (bad_plain_connack connack);
        raise_if bad (AssertionError ("invalid Receive Maximum CONNACK: " +:+ hex connack));;
        sendall subscriber (mqtt_packets.(gen_subscribe) 1 topic 2 ["proto_ver" @= 5]);;
        expect_packet subscriber (mqtt_packets.(gen_suback) 1 2 ["proto_ver" @= 5])
          "Receive Maximum SUBACK";;
        connect_v5 mqtt_packets publisher "subpub-qos2-recv-max1-helper";;
        for_each [1; 2] (fun mid =>
          sendall publisher (mqtt_packets.(gen_publish) topic
            ["qos" @= 2; "mid" @= VInt mid; "payload" @= ("message" +:+ str_int mid);
             "proto_ver" @= 5]);;
          expect_packet publisher (mqtt_packets.(gen_pubrec) mid ["proto_ver" @= 5])
            ("Receive Maximum publisher PUBREC " +:+ str_int mid);;
          sendall publisher (mqtt_packets.(gen_pubrel) mid ["proto_ver" @= 5]);;
          expect_packet publisher (mqtt_packets.(gen_pubcomp) mid ["proto_ver" @= 5])
            ("Receive Maximum publisher PUBCOMP " +:+ str_int mid));;

        for_each [1; 2] (fun mid =>
          expect_packet subscriber
            (mqtt_packets.(gen_publish) topic
               ["qos" @= 2; "mid" @= VInt mid; "payload" @= ("message" +:+ str_int mid);
                "proto_ver" @= 5])
            ("Receive Maximum downstream PUBLISH " +:+ str_int mid);;
          (if decide (mid = 1) then
             expect_silence subscriber (fun early =>
               "Receive Maximum leaked second PUBLISH: " +:+ hex early)
           else mret tt);;
          sendall subscriber (mqtt_packets.(gen_pubrec) mid ["proto_ver" @= 5]);;
          expect_packet subscriber (mqtt_packets.(gen_pubrel) mid ["proto_ver" @= 5])
            ("Receive Maximum downstream PUBREL " +:+ str_int mid);;
          sendall subscriber (mqtt_packets.(gen_pubcomp) mid ["proto_ver" @= 5]));;
        send_disconnect mqtt_packets publisher;;
        send_disconnect mqtt_packets subscriber))).

(** The packets of [maximum_packet_size_qos1]. *)
Definition qos1_size_topic : string := "12/max/publish/qos1/test/topic".

Definition oversized_qos1 (mqtt5_props : Mqtt5Props) : list bytes :=
    [ mqtt_packets.(gen_publish) qos1_size_topic
        ["mid" @= 1; "qos" @= 1; "payload" @= "1234"; "proto_ver" @= 5];
      mqtt_packets.(gen_publish) qos1_size_topic
        ["mid" @= 2; "qos" @= 1; "payload" @= "56"; "proto_ver" @= 5;
         "properties" @= VBytes
           (mqtt5_props.(gen_byte_prop) mqtt5_props.(PAYLOAD_FORMAT_INDICATOR) 1)] ].

Definition fitting_qos1 : bytes :=
    mqtt_packets.(gen_publish) qos1_size_topic
      ["mid" @= 3; "qos" @= 1; "payload" @= "789"; "proto_ver" @= 5].

Definition maximum_packet_size_qos1 (mqtt5_props : Mqtt5Props) : M W unit :=
    let maximum := mqtt5_props.(gen_uint32_prop) mqtt5_props.(MAXIMUM_PACKET_SIZE) 40 in
    with_broker exe 1 false [] (fun broker =>
      with_connection broker (fun sock =>
        sendall sock (mqtt_packets.(gen_connect) "12-max-publish-qos1"
          ["proto_ver" @= 5; "properties" @= VBytes maximum]);;
        connack ← read_packet sock;
        bad ← lift (bad_plain_connack connack);
        raise_if bad (AssertionError ("invalid max-packet CONNACK: " +:+ hex connack));;
        sendall sock (mqtt_packets.(gen_subscribe) 1 qos1_size_topic 1 ["proto_ver" @= 5]);;
        expect_packet sock (mqtt_packets.(gen_suback) 1 1 ["proto_ver" @= 5])
          "maximum packet SUBACK";;
        for_each (enumerate 1 (oversized_qos1 mqtt5_props)) (fun '(mid, packet) =>
          sendall sock packet;;
          expect_packet sock (mqtt_packets.(gen_puback) mid ["proto_ver" @= 5])
            ("maximum packet PUBACK " +:+ str_int mid);;
          sendall sock mqtt_packets.(gen_pingreq);;
          expect_packet sock mqtt_packets.(gen_pingresp)
            ("maximum packet PINGRESP " +:+ str_int mid));;
        sendall sock fitting_qos1;;
        expect_packets_unordered sock
          [mqtt_packets.(gen_puback) 3 ["proto_ver" @= 5]; fitting_qos1]
          "maximum packet fitting publish/PUBACK";;
        sendall sock (mqtt_packets.(gen_puback) 3 ["proto_ver" @= 5]);;
        send_disconnect mqtt_packets sock)).

(** The packets of [maximum_packet_size_qos2]. *)
Definition qos2_size_topic : string := "12/max/publish/qos2/test/topic".

Definition qos2_size_publish (mid : Z) (payload : string) : bytes :=
    mqtt_packets.(gen_publish) qos2_size_topic
      ["mid" @= VInt mid; "qos" @= 2; "payload" @= payload; "proto_ver" @= 5].

Definition maximum_packet_size_qos2 (mqtt5_props : Mqtt5Props) : M W unit :=
    let maximum := mqtt5_props.(gen_uint32_prop) mqtt5_props.(MAXIMUM_PACKET_SIZE) 40 in
    with_broker exe 1 false [] (fun broker =>
      with_connection broker (fun sock =>
        sendall sock (mqtt_packets.(gen_connect) "12-max-publish-qos2"
          ["proto_ver" @= 5; "properties" @= VBytes maximum]);;
        connack ← read_packet sock;
        bad ← lift (bad_plain_connack connack);
        raise_if bad (AssertionError ("invalid max-packet QoS2 CONNACK: " +:+ hex connack));;
        sendall sock (mqtt_packets.(gen_subscribe) 1 qos2_size_topic 2 ["proto_ver" @= 5]);;
        expect_packet sock (mqtt_packets.(gen_suback) 1 2 ["proto_ver" @= 5])
          "maximum packet QoS2 SUBACK";;

        for_each [(1, "1234"); (2, "789")] (fun '(mid, payload) =>
          let publish := qos2_size_publish mid payload in
          sendall sock publish;;
          expect_packet sock (mqtt_packets.(gen_pubrec) mid ["proto_ver" @= 5])
            ("maximum packet QoS2 publisher PUBREC " +:+ str_int mid);;
          sendall sock (mqtt_packets.(gen_pubrel) mid ["proto_ver" @= 5]);;
          if decide (mid = 1) then
            expect_packet sock (mqtt_packets.(gen_pubcomp) mid ["proto_ver" @= 5])
              "maximum packet QoS2 oversized PUBCOMP";;
            sendall sock mqtt_packets.(gen_pingreq);;
            expect_packet sock mqtt_packets.(gen_pingresp) "maximum packet QoS2 PINGRESP"
          else
            expect_packets_unordered sock
              [mqtt_packets.(gen_pubcomp) mid ["proto_ver" @= 5]; publish]
              "maximum packet QoS2 fitting release";;
            sendall sock (mqtt_packets.(gen_pubrec) mid ["proto_ver" @= 5]);;
            expect_packet sock (mqtt_packets.(gen_pubrel) mid ["proto_ver" @= 5])
              "maximum packet QoS2 downstream PUBREL";;
            sendall sock (mqtt_packets.(gen_pubcomp) mid ["proto_ver" @= 5]));;
        send_disconnect mqtt_packets sock)).

(** [[broker.connect() for _ in range(n)]]. *)
Definition connect_many (b : NetzBroker) (n : Z) : M W (list sock) :=
    for_fold (range 0 n) [] (fun socks _ => s ← connect b; mret (socks ++ [s])).

(** The body of the [try] block of [shared_subscription_rotation]. *)
Definition shared_rotation_body (sockets : list sock) : M W unit :=
    let topic := "02A/share/test" in
    for_each (enumerate 1 sockets) (fun '(index, sock) =>
      connect_v5 mqtt_packets sock ("02-shared-client" +:+ str_int index));;
    for_each shared_filters (fun '(socket_index, topic_filter) =>
      sock ← lift (py_index sockets socket_index);
      sendall sock (mqtt_packets.(gen_subscribe) 1 topic_filter 0 ["proto_ver" @= 5]);;
      expect_packet sock (mqtt_packets.(gen_suback) 1 0 ["proto_ver" @= 5])
        ("shared SUBACK " +:+ str_int socket_index +:+ "/" +:+ topic_filter));;
    for_each (enumerate 1 expected_receivers) (fun '(message_index, receivers) =>
      let packet := mqtt_packets.(gen_publish) topic
        ["qos" @= 0; "payload" @= ("message" +:+ str_int message_index); "proto_ver" @= 5] in
      first ← lift (py_index sockets 0);
      sendall first packet;;
      for_each receivers (fun receiver =>
        sock ← lift (py_index sockets receiver);
        expect_packet sock packet
          ("shared publish " +:+ str_int message_index +:+ "/" +:+ str_int receiver)));;
    for_each sockets (fun sock => send_disconnect mqtt_packets sock).

Definition shared_subscription_rotation : M W unit :=
    with_broker exe 5 false [] (fun broker =>
      sockets ← connect_many broker 5;
      finally (shared_rotation_body sockets)
        (for_each sockets (fun sock => close sock))).

Definition qos2_duplicate_publish : M W unit :=
    let topic := "03/c2b/qos2/duplicate/test" in
    with_broker exe 2 false [] (fun broker =>
      with_connection broker (fun subscriber =>
      with_connection broker (fun publisher =>
        connect_v5 mqtt_packets subscriber "qos2-dup-subscriber";;
        sendall subscriber (mqtt_packets.(gen_subscribe) 1 topic 2 ["proto_ver" @= 5]);;
        expect_packet subscriber (mqtt_packets.(gen_suback) 1 2 ["proto_ver" @= 5])
          "QoS2 DUP SUBACK";;
        connect_v5 mqtt_packets publisher "qos2-dup-publisher";;
        for_each [false; true] (fun dup =>
          sendall publisher (mqtt_packets.(gen_publish) topic
            ["qos" @= 2; "mid" @= 7; "payload" @= "original"; "dup" @= VBool dup;
             "proto_ver" @= 5]);;
          expect_packet publisher (mqtt_packets.(gen_pubrec) 7 ["proto_ver" @= 5])
            ("QoS2 DUP PUBREC " +:+ str_bool dup);;
          expect_silence subscriber (fun early =>
            "QoS2 DUP routed before PUBREL: " +:+ hex early));;

        sendall publisher (mqtt_packets.(gen_pubrel) 7 ["proto_ver" @= 5]);;
        expect_packet publisher (mqtt_packets.(gen_pubcomp) 7 ["proto_ver" @= 5])
          "QoS2 DUP publisher PUBCOMP";;
        expect_packet subscriber
          (mqtt_packets.(gen_publish) topic
             ["qos" @= 2; "mid" @= 1; "payload" @= "original"; "proto_ver" @= 5])
          "QoS2 DUP downstream PUBLISH";;
        sendall subscriber (mqtt_packets.(gen_pubrec) 1 ["proto_ver" @= 5]);;
        expect_packet subscriber (mqtt_packets.(gen_pubrel) 1 ["proto_ver" @= 5])
          "QoS2 DUP downstream PUBREL";;
        sendall subscriber (mqtt_packets.(gen_pubcomp) 1 ["proto_ver" @= 5]);;
        send_disconnect mqtt_packets publisher;;
        send_disconnect mqtt_packets subscriber))).

Definition qos2_repeated_pubrel : M W unit :=
    let topic := "qos2/repeated/pubrel" in
    with_broker exe 2 false [] (fun broker =>
      with_connection broker (fun subscriber =>
      with_connection broker (fun publisher =>
        connect_v5 mqtt_packets subscriber "repeat-rel-sub";;
        sendall subscriber (mqtt_packets.(gen_subscribe) 1 topic 2 ["proto_ver" @= 5]);;
        expect_packet subscriber (mqtt_packets.(gen_suback) 1 2 ["proto_ver" @= 5])
          "repeat PUBREL SUBACK";;
        connect_v5 mqtt_packets publisher "repeat-rel-pub";;
        sendall publisher (mqtt_packets.(gen_publish) topic
          ["qos" @= 2; "mid" @= 9; "payload" @= "once"; "proto_ver" @= 5]);;
        expect_packet publisher (mqtt_packets.(gen_pubrec) 9 ["proto_ver" @= 5])
          "repeat PUBREL PUBREC";;
        sendall publisher (mqtt_packets.(gen_pubrel) 9 ["proto_ver" @= 5]);;
        expect_packet publisher (mqtt_packets.(gen_pubcomp) 9 ["proto_ver" @= 5])
          "repeat PUBREL first PUBCOMP";;
        expect_packet subscriber
          (mqtt_packets.(gen_publish) topic
             ["qos" @= 2; "mid" @= 1; "payload" @= "once"; "proto_ver" @= 5])
          "repeat PUBREL downstream PUBLISH";;
        sendall subscriber (mqtt_packets.(gen_pubrec) 1 ["proto_ver" @= 5]);;
        expect_packet subscriber (mqtt_packets.(gen_pubrel) 1 ["proto_ver" @= 5])
          "repeat PUBREL downstream PUBREL";;
        sendall subscriber (mqtt_packets.(gen_pubcomp) 1 ["proto_ver" @= 5]);;

        for_each [9; 77] (fun mid =>
          sendall publisher (mqtt_packets.(gen_pubrel) mid ["proto_ver" @= 5]);;
          expect_packet publisher (mqtt_packets.(gen_pubcomp) mid ["proto_ver" @= 5])
            ("idempotent PUBCOMP " +:+ str_int mid));;
        expect_silence subscriber (fun duplicate =>
          "repeated PUBREL duplicated delivery: " +:+ hex duplicate);;
        send_disconnect mqtt_packets publisher;;
        send_disconnect mqtt_packets subscriber))).

End scenarios.

(** ** The plain check of a CONNACK *)

(** C39: The four scenarios that check a CONNACK this way look at its fourth
    byte without looking at its length: on a CONNACK that is too short they
    fail with an [IndexError] and not with the message that shows the packet.
    Every other packet gets a verdict, and it is accepted exactly when it is a
    CONNACK whose fourth byte is 0. *)
Theorem plain_connack_verdict h tl :
  bad_plain_connack (h :: tl) =
    if decide (b2z h = 0x20) then
      match tl with
      | _ :: _ :: rc :: _ => inr (bool_decide (b2z rc <> 0))
      | _ => inl IndexError
      end
    else inr true.
Proof.
  unfold bad_plain_connack. rewrite !test_index_nth by lia. simpl.
  case_bool_decide; case_decide; try done. simpl.
  by destruct tl as [|l [|f [|rc tl]]].
Qed.
