(* ===== verification/Retained.v ===== *)
(** * Scenarios: retained messages

    Replay on subscribe under the three Retain Handling options, expiry,
    replacement, removal and the properties that travel with a retained
    message. *)

From Stdlib Require Import ZArith Lia.
From stdpp Require Import base list option strings.
From S2P Require Import Prelude PyValues Effects Traces Canned Wire Expect Mosquitto Broker.
From S2P Require Import Connack.
Local Open Scope Z_scope.

(** The three topics of [retained_subscription_handling]. *)
Definition topic_always : string := "02/subpub/send-retain/always".
Definition topic_new : string := "02/subpub/send-retain/new".
Definition topic_never : string := "02/subpub/send-retain/never".

(** The topics of [retained_multilevel_clear], and those that it clears. *)
Definition multilevel_topics : list string := ["1"; "1/2/3/4"; "1/2/3/4/5/6/7"].
Definition cleared_topics : list string := ["1/2/3/4"; "1/2/3/4/5/6/7"].

Section scenarios.
  Context {W : Type} `{Platform W}.
  Context (exe : string) (mqtt_packets : MqttPackets).

(** Packet identifier, topic, option, and whether each of the two SUBSCRIBEs
    is followed by the retained message. *)
Definition retain_cases (mqtt5_opts : Mqtt5Opts) : list (Z * string * Z * bool * bool) :=
    [ (532, topic_never, mqtt5_opts.(MQTT_SUB_OPT_SEND_RETAIN_NEVER), false, false);
      (531, topic_new, mqtt5_opts.(MQTT_SUB_OPT_SEND_RETAIN_NEW), true, false);
      (530, topic_always, mqtt5_opts.(MQTT_SUB_OPT_SEND_RETAIN_ALWAYS), true, true) ].

Definition retained_subscription_handling (mqtt5_opts : Mqtt5Opts) : M W unit :=
    with_broker exe 1 false [] (fun broker =>
      with_connection broker (fun sock =>
        connect_v5 mqtt_packets sock "02-subpub-qos0-send-retain";;
        for_each [topic_always; topic_new; topic_never] (fun topic =>
          sendall sock (mqtt_packets.(gen_publish) topic
            ["qos" @= 0; "retain" @= true; "payload" @= "message"; "proto_ver" @= 5]));;
        for_each (retain_cases mqtt5_opts)
          (fun '(mid, topic, option, first_delivery, second_delivery) =>
            for_each (enumerate 1 [first_delivery; second_delivery])
              (fun '(attempt, expect_delivery) =>
                let tag := str_int mid +:+ "/" +:+ str_int attempt in
                sendall sock (mqtt_packets.(gen_subscribe) mid topic option ["proto_ver" @= 5]);;
                expect_packet sock (mqtt_packets.(gen_suback) mid 0 ["proto_ver" @= 5])
                  ("retain handling SUBACK " +:+ tag);;
                if (expect_delivery : bool) then
                  expect_packet sock
                    (mqtt_packets.(gen_publish) topic
                       ["qos" @= 0; "retain" @= true; "payload" @= "message";
                        "proto_ver" @= 5])
                    ("retained delivery " +:+ tag)
                else
                  expect_silence sock (fun unexpected =>
                    "retain handling " +:+ tag +:+ " received " +:+ hex unexpected)));;
        send_disconnect mqtt_packets sock)).

(** The two replays that [retained_message_expiry] accepts at once. *)
Definition expiry_variants (mqtt5_props : Mqtt5Props) : list bytes :=
    (fun remaining =>
       mqtt_packets.(gen_publish) "subpub/expired"
         ["qos" @= 0; "retain" @= true; "payload" @= "message1"; "proto_ver" @= 5;
          "properties" @= VBytes (mqtt5_props.(gen_uint32_prop)
            mqtt5_props.(MESSAGE_EXPIRY_INTERVAL) remaining)]) <$> [2; 1].

Definition retained_message_expiry (mqtt5_props : Mqtt5Props) (mqtt5_rc : Mqtt5Rc)
    : M W unit :=
    let expired_topic := "subpub/expired" in
    let kept_topic := "subpub/kept" in
    let expiry_two :=
      mqtt5_props.(gen_uint32_prop) mqtt5_props.(MESSAGE_EXPIRY_INTERVAL) 2 in
    let no_match := mqtt5_rc.(NO_MATCHING_SUBSCRIBERS) in
    let kept_replay := mqtt_packets.(gen_publish) kept_topic
      ["qos" @= 0; "retain" @= true; "payload" @= "message2"; "proto_ver" @= 5] in
    with_broker exe 3 false [] (fun broker =>
      with_connection broker (fun publisher =>
        connect_v5 mqtt_packets publisher "expiry-helper";;
        sendall publisher (mqtt_packets.(gen_publish) expired_topic
          ["qos" @= 1; "mid" @= 1; "retain" @= true; "payload" @= "message1";
           "proto_ver" @= 5; "properties" @= VBytes expiry_two]);;
        expect_packet publisher
          (mqtt_packets.(gen_puback) 1 ["proto_ver" @= 5; "reason_code" @= VInt no_match])
          "expiring retained PUBACK";;
        sendall publisher (mqtt_packets.(gen_publish) kept_topic
          ["qos" @= 1; "mid" @= 2; "retain" @= true; "payload" @= "message2";
           "proto_ver" @= 5]);;
        expect_packet publisher
          (mqtt_packets.(gen_puback) 2 ["proto_ver" @= 5; "reason_code" @= VInt no_match])
          "kept retained PUBACK";;
        send_disconnect mqtt_packets publisher);;

      with_connection broker (fun immediate =>
        connect_v5 mqtt_packets immediate "expiry-immediate";;
        sendall immediate (mqtt_packets.(gen_subscribe) 1 expired_topic 0 ["proto_ver" @= 5]);;
        expect_packet immediate (mqtt_packets.(gen_suback) 1 0 ["proto_ver" @= 5])
          "immediate expiry SUBACK";;
        actual ← read_packet immediate;
        raise_if (bool_decide (actual ∉ expiry_variants mqtt5_props))
          (AssertionError ("immediate retained expiry mismatch: " +:+ hex actual));;
        sendall immediate (mqtt_packets.(gen_subscribe) 2 kept_topic 0 ["proto_ver" @= 5]);;
        expect_packet immediate (mqtt_packets.(gen_suback) 2 0 ["proto_ver" @= 5])
          "immediate kept SUBACK";;
        expect_packet immediate kept_replay "immediate kept replay";;
        send_disconnect mqtt_packets immediate);;

      sleep (seconds 3);;
      with_connection broker (fun expired =>
        connect_v5 mqtt_packets expired "expiry-late";;
        sendall expired (mqtt_packets.(gen_subscribe) 1 expired_topic 0 ["proto_ver" @= 5]);;
        expect_packet expired (mqtt_packets.(gen_suback) 1 0 ["proto_ver" @= 5])
          "late expiry SUBACK";;
        sendall expired (mqtt_packets.(gen_subscribe) 2 kept_topic 0 ["proto_ver" @= 5]);;
        expect_packet expired (mqtt_packets.(gen_suback) 2 0 ["proto_ver" @= 5])
          "late kept SUBACK";;
        expect_packet expired kept_replay "late kept replay";;
        send_disconnect mqtt_packets expired)).

Definition retained_repeated_lifecycle : M W unit :=
    let topic := "retain/qos0/repeated" in
    let retained := mqtt_packets.(gen_publish) topic
      ["qos" @= 0; "payload" @= "retained message"; "retain" @= true; "proto_ver" @= 5] in
    with_broker exe 1 false [] (fun broker =>
      with_connection broker (fun sock =>
        connect_v5 mqtt_packets sock "retain-qos0-rep-test";;
        sendall sock retained;;
        for_each [1; 2] (fun attempt =>
          sendall sock (mqtt_packets.(gen_subscribe) 16 topic 0 ["proto_ver" @= 5]);;
          expect_packet sock (mqtt_packets.(gen_suback) 16 0 ["proto_ver" @= 5])
            ("retained repeated SUBACK " +:+ str_int attempt);;
          expect_packet sock retained ("retained repeated replay " +:+ str_int attempt);;
          if decide (attempt = 1) then
            sendall sock (mqtt_packets.(gen_unsubscribe) 13 topic ["proto_ver" @= 5]);;
            expect_packet sock (mqtt_packets.(gen_unsuback) 13 ["proto_ver" @= 5])
              "retained repeated UNSUBACK"
          else mret tt);;

        sendall sock (mqtt_packets.(gen_unsubscribe) 14 topic ["proto_ver" @= 5]);;
        expect_packet sock (mqtt_packets.(gen_unsuback) 14 ["proto_ver" @= 5])
          "retained clear UNSUBACK";;
        sendall sock (mqtt_packets.(gen_publish) topic
          ["qos" @= 0; "payload" @= VNone; "retain" @= true; "proto_ver" @= 5]);;
        sendall sock (mqtt_packets.(gen_subscribe) 17 topic 0 ["proto_ver" @= 5]);;
        expect_packet sock (mqtt_packets.(gen_suback) 17 0 ["proto_ver" @= 5])
          "retained clear SUBACK";;
        sendall sock mqtt_packets.(gen_pingreq);;
        expect_packet sock mqtt_packets.(gen_pingresp) "retained clear PINGRESP";;
        send_disconnect mqtt_packets sock)).

(** The local function [replay] of [retained_multilevel_clear]. *)
Definition replay (sock : sock) (mid : Z) (expected_topics : list string) : M W unit :=
    sendall sock (mqtt_packets.(gen_subscribe) mid "#" 0 ["proto_ver" @= 5]);;
    expect_packet sock (mqtt_packets.(gen_suback) mid 0 ["proto_ver" @= 5])
      ("multilevel retained SUBACK " +:+ str_int mid);;
    expect_packets_unordered sock
      ((fun topic => mqtt_packets.(gen_publish) topic
          ["qos" @= 0; "payload" @= "retained message"; "retain" @= true; "proto_ver" @= 5])
         <$> expected_topics)
      ("multilevel retained replay " +:+ str_int mid);;
    sendall sock (mqtt_packets.(gen_unsubscribe) mid "#" ["proto_ver" @= 5]);;
    expect_packet sock (mqtt_packets.(gen_unsuback) mid ["proto_ver" @= 5])
      ("multilevel retained UNSUBACK " +:+ str_int mid).

Definition retained_multilevel_clear : M W unit :=
    with_broker exe 1 false [] (fun broker =>
      with_connection broker (fun sock =>
        connect_v5 mqtt_packets sock "retain-clear-test";;
        for_each (enumerate 1 multilevel_topics) (fun '(mid, topic) =>
          sendall sock (mqtt_packets.(gen_publish) topic
            ["qos" @= 1; "mid" @= VInt mid; "payload" @= "retained message";
             "retain" @= true; "proto_ver" @= 5]);;
          expect_packet sock
            (mqtt_packets.(gen_puback) mid ["proto_ver" @= 5; "reason_code" @= 0x10])
            ("multilevel retained set " +:+ topic));;
        replay sock 10 multilevel_topics;;
        _ ← for_fold (enumerate 20 cleared_topics) multilevel_topics
              (fun remaining '(mid, topic) =>
          sendall sock (mqtt_packets.(gen_publish) topic
            ["qos" @= 1; "mid" @= VInt mid; "payload" @= VNone; "retain" @= true;
             "proto_ver" @= 5]);;
          expect_packet sock
            (mqtt_packets.(gen_puback) mid ["proto_ver" @= 5; "reason_code" @= 0x10])
            ("multilevel retained clear " +:+ topic);;
          match py_remove topic remaining with
          | None => raise ValueError
          | Some remaining => replay sock (mid + 20) remaining;; mret remaining
          end);
        send_disconnect mqtt_packets sock)).

Definition retain_as_published_live (mqtt5_opts : Mqtt5Opts) : M W unit :=
    let topic := "retain/as/published/live" in
    with_broker exe 3 false [] (fun broker =>
      with_connection broker (fun cleared =>
      with_connection broker (fun preserved =>
      with_connection broker (fun publisher =>
        connect_v5 mqtt_packets cleared "rap-clear";;
        connect_v5 mqtt_packets preserved "rap-preserve";;
        for_each [ (cleared, 0, "clear");
                   (preserved, mqtt5_opts.(MQTT_SUB_OPT_RETAIN_AS_PUBLISHED), "preserve") ]
          (fun '(sock, options, label) =>
            sendall sock (mqtt_packets.(gen_subscribe) 1 topic options ["proto_ver" @= 5]);;
            expect_packet sock (mqtt_packets.(gen_suback) 1 0 ["proto_ver" @= 5])
              ("RAP " +:+ label +:+ " SUBACK"));;
        connect_v5 mqtt_packets publisher "rap-publisher";;
        sendall publisher (mqtt_packets.(gen_publish) topic
          ["qos" @= 1; "mid" @= 1; "payload" @= "retained-live"; "retain" @= true;
           "proto_ver" @= 5]);;
        expect_packet publisher (mqtt_packets.(gen_puback) 1 ["proto_ver" @= 5])
          "RAP publisher PUBACK";;
        expect_packet cleared
          (mqtt_packets.(gen_publish) topic
             ["qos" @= 0; "payload" @= "retained-live"; "retain" @= false; "proto_ver" @= 5])
          "RAP cleared PUBLISH";;
        expect_packet preserved
          (mqtt_packets.(gen_publish) topic
             ["qos" @= 0; "payload" @= "retained-live"; "retain" @= true; "proto_ver" @= 5])
          "RAP preserved PUBLISH";;
        send_disconnect mqtt_packets publisher;;
        send_disconnect mqtt_packets cleared;;
        send_disconnect mqtt_packets preserved)))).

Definition retained_replacement (mqtt5_props : Mqtt5Props) : M W unit :=
    let topic := "retained/replacement" in
    let version v := mqtt5_props.(gen_string_pair_prop)
                       mqtt5_props.(USER_PROPERTY) "version" v in
    let old_property := version "old" in
    let new_property := version "new" in
    with_broker exe 2 false [] (fun broker =>
      with_connection broker (fun publisher =>
      with_connection broker (fun subscriber =>
        connect_v5 mqtt_packets publisher "retained-replace-pub";;
        for_each [ (1, "old-value", old_property); (2, "new-value", new_property) ]
          (fun '(mid, payload, properties) =>
            sendall publisher (mqtt_packets.(gen_publish) topic
              ["qos" @= 1; "mid" @= VInt mid; "payload" @= payload; "retain" @= true;
               "proto_ver" @= 5; "properties" @= VBytes properties]);;
            expect_packet publisher
              (mqtt_packets.(gen_puback) mid ["proto_ver" @= 5; "reason_code" @= 0x10])
              ("retained replacement PUBACK " +:+ str_int mid));;
        connect_v5 mqtt_packets subscriber "retained-replace-sub";;
        sendall subscriber (mqtt_packets.(gen_subscribe) 1 topic 0 ["proto_ver" @= 5]);;
        expect_packet subscriber (mqtt_packets.(gen_suback) 1 0 ["proto_ver" @= 5])
          "retained replacement SUBACK";;
        expect_packet subscriber
          (mqtt_packets.(gen_publish) topic
             ["qos" @= 0; "payload" @= "new-value"; "retain" @= true; "proto_ver" @= 5;
              "properties" @= VBytes new_property])
          "retained replacement latest PUBLISH";;
        sendall subscriber mqtt_packets.(gen_pingreq);;
        expect_packet subscriber mqtt_packets.(gen_pingresp)
          "retained replacement single replay";;
        send_disconnect mqtt_packets publisher;;
        send_disconnect mqtt_packets subscriber))).

Definition bundle_properties (mqtt5_props : Mqtt5Props) : bytes :=
    mqtt5_props.(gen_byte_prop) mqtt5_props.(PAYLOAD_FORMAT_INDICATOR) 1
    ++ mqtt5_props.(gen_string_prop) mqtt5_props.(CONTENT_TYPE) "plain/text"
    ++ mqtt5_props.(gen_string_prop) mqtt5_props.(RESPONSE_TOPIC) "response/property/bundle"
    ++ mqtt5_props.(gen_string_prop) mqtt5_props.(CORRELATION_DATA) "2357289375902345"
    ++ mqtt5_props.(gen_string_pair_prop) mqtt5_props.(USER_PROPERTY) "name" "value".

Definition retained_publish_property_bundle (mqtt5_props : Mqtt5Props) : M W unit :=
    let topic := "retained/property/bundle" in
    let properties := bundle_properties mqtt5_props in
    with_broker exe 1 false [] (fun broker =>
      with_connection broker (fun sock =>
        connect_v5 mqtt_packets sock "retained-property-bundle";;
        sendall sock (mqtt_packets.(gen_publish) topic
          ["qos" @= 1; "mid" @= 1; "payload" @= "message"; "retain" @= true;
           "proto_ver" @= 5; "properties" @= VBytes properties]);;
        expect_packet sock
          (mqtt_packets.(gen_puback) 1 ["proto_ver" @= 5; "reason_code" @= 0x10])
          "property bundle PUBACK";;
        sendall sock (mqtt_packets.(gen_subscribe) 2 topic 0 ["proto_ver" @= 5]);;
        expect_packet sock (mqtt_packets.(gen_suback) 2 0 ["proto_ver" @= 5])
          "property bundle SUBACK";;
        expect_packet sock
          (mqtt_packets.(gen_publish) topic
             ["qos" @= 0; "payload" @= "message"; "retain" @= true; "proto_ver" @= 5;
              "properties" @= VBytes properties])
          "property bundle retained PUBLISH";;
        send_disconnect mqtt_packets sock)).

Definition retained_tombstone_properties (mqtt5_props : Mqtt5Props) : M W unit :=
    let topic := "retained/tombstone/properties" in
    let state v := mqtt5_props.(gen_string_pair_prop)
                     mqtt5_props.(USER_PROPERTY) "state" v in
    let old_property := state "old" in
    let tombstone_property := state "deleted" in
    let new_property := state "new" in
    with_broker exe 1 false [] (fun broker =>
      with_connection broker (fun sock =>
        connect_v5 mqtt_packets sock "retained-tombstone";;
        for_each [ (1, VStr "old", old_property); (2, VNone, tombstone_property) ]
          (fun '(mid, payload, properties) =>
            sendall sock (mqtt_packets.(gen_publish) topic
              ["qos" @= 1; "mid" @= VInt mid; "payload" @= payload; "retain" @= true;
               "proto_ver" @= 5; "properties" @= VBytes properties]);;
            expect_packet sock
              (mqtt_packets.(gen_puback) mid ["proto_ver" @= 5; "reason_code" @= 0x10])
              ("tombstone PUBACK " +:+ str_int mid));;
        sendall sock (mqtt_packets.(gen_subscribe) 3 topic 0 ["proto_ver" @= 5]);;
        expect_packet sock (mqtt_packets.(gen_suback) 3 0 ["proto_ver" @= 5])
          "tombstone empty SUBACK";;
        sendall sock mqtt_packets.(gen_pingreq);;
        expect_packet sock mqtt_packets.(gen_pingresp) "tombstone empty replay";;
        sendall sock (mqtt_packets.(gen_publish) topic
          ["qos" @= 1; "mid" @= 4; "payload" @= "new"; "retain" @= true;
           "proto_ver" @= 5; "properties" @= VBytes new_property]);;
        expect_packets_unordered sock
          [ mqtt_packets.(gen_puback) 4 ["proto_ver" @= 5];
            mqtt_packets.(gen_publish) topic
              ["qos" @= 0; "payload" @= "new"; "retain" @= false; "proto_ver" @= 5;
               "properties" @= VBytes new_property] ]
          "tombstone new live publish";;
        send_disconnect mqtt_packets sock)).

End scenarios.
