(* ===== verification/Sessions.v ===== *)
(** * Scenarios: identities and sessions

    Server-assigned client identifiers, the server's Keep Alive, take-over of
    a session by a second connection, session expiry, and subscriptions that
    survive a reconnect. *)

From Stdlib Require Import ZArith Lia Ascii.
From stdpp Require Import base list option strings.
From S2P Require Import Prelude PyValues Effects Traces Canned Wire Expect Mosquitto Broker.
From S2P Require Import Connack.
Local Open Scope Z_scope.

(** ** The check of an assigned identifier *)

Definition is_lower_hex (c : ascii) : bool :=
  bool_decide (c ∈ chars "0123456789abcdef").

Definition bad_identifier (client_id : string) : bool :=
  let parts := split (removeprefix client_id "netz-") "-"%char in
  negb (startswith client_id "netz-")
  || bool_decide ((fun part => Z.of_nat (String.length part)) <$> parts <> [8; 4; 4; 4; 12])
  || existsb (fun part => existsb (fun c => negb (is_lower_hex c)) (chars part)) parts.

Section assigned.
  Context (mqtt5_props : Mqtt5Props).

(** One round of the loop of [assigned_client_identifier] on its CONNACK:
    [base_properties] are those of [expected_connack]; the result is the
    identifier. *)
Definition check_assigned (index : Z) (connack base_properties : bytes) : result string :=
    let client := "assigned client " +:+ str_int index in
    let! bad := py_or (test_index connack 0 (fun b => bool_decide (b <> 0x20)))
                  (inr (bool_decide (py_slice connack 2 4 <> [Byte.x00; Byte.x00])
                        || bool_decide (len connack < 5))) in
    let! _ := check bad (AssertionError (client +:+ " invalid CONNACK: " +:+ hex connack)) in
    let! property_length := py_index connack 4 in
    let property_length := b2z property_length in
    let! _ := check (bool_decide (5 + property_length <> len connack))
      (AssertionError (client +:+ " malformed property length: " +:+ hex connack)) in
    let properties := py_slice connack 5 (5 + property_length) in
    let! missing := py_or (inr (bool_decide (len properties < 3)))
      (test_index properties 0
         (fun b => bool_decide (b <> mqtt5_props.(ASSIGNED_CLIENT_IDENTIFIER)))) in
    let! _ := check missing
      (AssertionError (client +:+ " missing property: " +:+ hex connack)) in
    let value_len := int_from_bytes_big (py_slice properties 1 3) in
    let value := py_slice properties 3 (3 + value_len) in
    let! _ := check (bool_decide (len value <> value_len))
      (AssertionError (client +:+ " malformed property: " +:+ hex connack)) in
    let! client_id := decode_ascii value in
    let! _ := check (bad_identifier client_id)
      (AssertionError (client +:+ " invalid identifier: " +:+ repr client_id)) in
    let! _ := check (bool_decide (py_from properties (3 + value_len) <> base_properties))
      (AssertionError (client +:+ " invalid capabilities: " +:+ hex connack)) in
    inr client_id.
End assigned.

Section scenarios.
  Context {W : Type} `{Platform W}.
  Context (exe : string) (mqtt_packets : MqttPackets) (mqtt5_props : Mqtt5Props).

Definition assigned_client_identifier : M W unit :=
    with_broker exe 2 false [] (fun broker =>
      with_connection broker (fun first =>
      with_connection broker (fun second =>
        assigned_ids ← for_fold (enumerate 1 [first; second]) []
          (fun assigned_ids '(index, sock) =>
            sendall sock (mqtt_packets.(gen_connect) VNone
              ["clean_session" @= true; "proto_ver" @= 5]);;
            connack ← read_packet sock;
            client_id ← lift (check_assigned mqtt5_props index connack
              (py_from (expected_connack mqtt_packets mqtt5_props connack_defaults) 5));
            mret (assigned_ids ++ [client_id]));
        id0 ← lift (py_index assigned_ids 0);
        id1 ← lift (py_index assigned_ids 1);
        raise_if (bool_decide (id0 = id1))
          (AssertionError "anonymous clients received duplicate identifiers");;
        sendall first mqtt_packets.(gen_pingreq);;
        expect_packet first mqtt_packets.(gen_pingresp) "first anonymous client remains live";;
        send_disconnect mqtt_packets first;;
        send_disconnect mqtt_packets second))).

Definition server_keep_alive : M W unit :=
    let override_seconds := 60 in
    with_broker exe 1 false ["--server-keep-alive=" +:+ str_int override_seconds]
      (fun broker =>
        with_connection broker (fun sock =>
          sendall sock (mqtt_packets.(gen_connect) "server-keep-alive"
            ["proto_ver" @= 5; "keepalive" @= VInt (override_seconds + 1)]);;
          let expected := expected_connack mqtt_packets mqtt5_props
            (with_extra (mqtt5_props.(gen_uint16_prop)
               mqtt5_props.(SERVER_KEEP_ALIVE) override_seconds)) in
          expect_packet sock expected "Server Keep Alive CONNACK";;
          sendall sock mqtt_packets.(gen_pingreq);;
          expect_packet sock mqtt_packets.(gen_pingresp) "PINGRESP after Server Keep Alive";;
          send_disconnect mqtt_packets sock)).

Definition duplicate_client_takeover (mqtt5_rc : Mqtt5Rc) : M W unit :=
    let client_id := "take-over" in
    let connect_packet := mqtt_packets.(gen_connect) client_id ["proto_ver" @= 5] in
    let connack_packet := expected_connack mqtt_packets mqtt5_props connack_defaults in
    with_broker exe 2 false [] (fun broker =>
      with_connection broker (fun first =>
      with_connection broker (fun replacement =>
        sendall first connect_packet;;
        expect_packet first connack_packet "initial takeover CONNACK";;
        sendall replacement connect_packet;;
        expect_packet replacement connack_packet "replacement takeover CONNACK";;
        expect_packet first
          (mqtt_packets.(gen_disconnect)
             ["reason_code" @= mqtt5_rc.(SESSION_TAKEN_OVER); "proto_ver" @= 5])
          "displaced client DISCONNECT";;
        sendall replacement mqtt_packets.(gen_pingreq);;
        expect_packet replacement mqtt_packets.(gen_pingresp) "replacement PINGRESP";;
        send_disconnect mqtt_packets replacement))).

(** The local functions of [disconnect_session_expiry]. *)
Definition expiry_connect (sock : sock) (present : bool) (label : string) : M W unit :=
    sendall sock (mqtt_packets.(gen_connect) "session-expiry"
      ["clean_session" @= false; "proto_ver" @= 5; "session_expiry" @= 1]);;
    expect_packet sock
      (expected_connack mqtt_packets mqtt5_props (with_session present)) label.

Definition expiry_disconnect (sock : sock) (properties : bytes) : M W unit :=
    sendall sock (mqtt_packets.(gen_disconnect)
      ["proto_ver" @= 5; "properties" @= VBytes properties]);;
    data ← recv sock 1;
    raise_if (bool_decide (data <> [])) (AssertionError "broker sent data after DISCONNECT").

Definition disconnect_session_expiry : M W unit :=
    let expiry n := mqtt5_props.(gen_uint32_prop) mqtt5_props.(SESSION_EXPIRY_INTERVAL) n in
    let expiry_three := expiry 3 in
    let expiry_zero := expiry 0 in
    with_broker exe 4 false [] (fun broker =>
      with_connection broker (fun first =>
        expiry_connect first false "initial Session Expiry CONNACK";;
        expiry_disconnect first expiry_three);;

      sleep (seconds 2);;
      with_connection broker (fun extended =>
        expiry_connect extended true "extended Session Expiry CONNACK";;
        expiry_disconnect extended expiry_three);;

      sleep (seconds 4);;
      with_connection broker (fun expired =>
        expiry_connect expired false "expired Session CONNACK";;
        expiry_disconnect expired expiry_zero);;

      with_connection broker (fun removed =>
        expiry_connect removed false "zero Session Expiry CONNACK";;
        send_disconnect mqtt_packets removed)).

Definition persistent_no_local : M W unit :=
    let client_id := "persistent-subscription-test" in
    let topic := "subpub/nolocal" in
    with_broker exe 2 false [] (fun broker =>
      with_connection broker (fun first =>
        connect_persistent_v5 mqtt_packets first client_id false;;
        sendall first (mqtt_packets.(gen_subscribe) 1 topic 5 ["proto_ver" @= 5]);;
        expect_packet first (mqtt_packets.(gen_suback) 1 1 ["proto_ver" @= 5])
          "persistent no-local SUBACK";;
        send_disconnect mqtt_packets first);;

      with_connection broker (fun resumed =>
        connect_persistent_v5 mqtt_packets resumed client_id true;;
        sendall resumed (mqtt_packets.(gen_publish) topic
          ["qos" @= 1; "mid" @= 1; "payload" @= "message"; "proto_ver" @= 5]);;
        expect_packet resumed (mqtt_packets.(gen_puback) 1 ["proto_ver" @= 5])
          "persistent no-local PUBACK";;
        expect_silence resumed (fun local =>
          "restored no-local subscription forwarded self publish: " +:+ hex local);;

        sendall resumed (mqtt_packets.(gen_subscribe) 2 topic 1 ["proto_ver" @= 5]);;
        expect_packet resumed (mqtt_packets.(gen_suback) 2 1 ["proto_ver" @= 5])
          "local replacement SUBACK";;
        sendall resumed (mqtt_packets.(gen_publish) topic
          ["qos" @= 1; "mid" @= 3; "payload" @= "message"; "proto_ver" @= 5]);;
        expect_packets_unordered resumed
          [ mqtt_packets.(gen_puback) 3 ["proto_ver" @= 5];
            mqtt_packets.(gen_publish) topic
              ["qos" @= 1; "mid" @= 1; "payload" @= "message"; "proto_ver" @= 5] ]
          "local replacement publish/PUBACK";;
        sendall resumed (mqtt_packets.(gen_puback) 1 ["proto_ver" @= 5]);;
        send_disconnect mqtt_packets resumed)).

End scenarios.
