(* ===== verification/Identity.v ===== *)
(** * The check of assigned client identifiers

    [assigned_client_identifier] accepts a CONNACK exactly when it is the
    expected one with, in front of the capabilities, one Assigned Client
    Identifier of the form that netz generates. *)

From Stdlib Require Import ZArith Lia Ascii.
From stdpp Require Import base list option strings.
From S2P Require Import Prelude PyValues Effects Traces Canned Wire Expect Mosquitto.
From S2P Require Import WireFormat Connack Handshake Broker Sessions.
Local Open Scope Z_scope.

(** ** Splitting at a separator *)

Fixpoint rejoin (sep : ascii) (ws : list (list ascii)) : list ascii :=
  match ws with
  | [] => []
  | [w] => w
  | w :: ws' => w ++ sep :: rejoin sep ws'
  end.

Lemma split_chars_nonempty sep cs : split_chars sep cs <> [].
Proof. destruct cs; simpl; [done|]. case_decide; [done|]. by case_match. Qed.

Lemma rejoin_split sep cs : rejoin sep (split_chars sep cs) = cs.
Proof.
  induction cs as [|c cs IH]; simpl; [done|].
  pose proof (split_chars_nonempty sep cs) as Hne.
  destruct (split_chars sep cs) as [|w ws]; [done|].
  case_decide as Hc; [by rewrite Hc, <-IH|]. rewrite <-IH. by destruct ws.
Qed.

Lemma split_rejoin sep ws :
  ws <> [] -> Forall (fun w => sep ∉ w) ws -> split_chars sep (rejoin sep ws) = ws.
Proof.
  intros Hne Hws. induction Hws as [|w ws Hw Hws IH]; [done|].
  assert (Hone : forall w, sep ∉ w -> split_chars sep w = [w]).
  { clear. induction w as [|c w IH]; intros Hw; simpl; [done|].
    apply not_elem_of_cons in Hw as [Hc Hw]. rewrite decide_False by congruence.
    by rewrite IH. }
  assert (Hcat : forall rest w, sep ∉ w ->
    split_chars sep (w ++ sep :: rest) = w :: split_chars sep rest).
  { clear. intros rest. induction w as [|c w IH]; intros Hw; simpl; [by rewrite decide_True|].
    apply not_elem_of_cons in Hw as [Hc Hw]. rewrite decide_False by congruence.
    by rewrite IH. }
  destruct ws as [|w' ws]; [by apply Hone|].
  change (rejoin sep (w :: w' :: ws)) with (w ++ sep :: rejoin sep (w' :: ws)).
  rewrite Hcat by done. by rewrite IH.
Qed.

(** ** The identifiers of netz *)

(** The digits 0 to 9 and the letters a to f, by their ASCII codes. *)
Definition lower_hex (c : ascii) : Prop :=
  (48 <= N_of_ascii c <= 57 \/ 97 <= N_of_ascii c <= 102)%N.

(** [n] lower-case hexadecimal digits. *)
Definition hex_group (n : nat) (w : list ascii) : Prop :=
  length w = n /\ Forall lower_hex w.

(** ["netz-"] followed by groups of 8, 4, 4, 4 and 12 digits. *)
Definition netz_identifier (id : string) : Prop :=
  exists ws, Forall2 hex_group [8; 4; 4; 4; 12]%nat ws /\
    id = "netz-" +:+ of_chars (rejoin "-"%char ws).

#[global] Instance lower_hex_dec c : Decision (lower_hex c).
Proof. unfold lower_hex. apply _. Defined.

(** The character test of the driver accepts exactly these. *)
Lemma is_lower_hex_spec c : is_lower_hex c = true <-> lower_hex c.
Proof.
  transitivity (bool_decide (lower_hex c) = true); [|apply bool_decide_eq_true].
  replace (is_lower_hex c) with (bool_decide (lower_hex c)); [done|].
  by destruct c as [[][][][][][][][]]; vm_compute.
Qed.

Lemma hyphen_not_hex w : Forall lower_hex w -> "-"%char ∉ w.
Proof.
  rewrite list.Forall_forall. intros Hw Hin.
  destruct (Hw _ Hin) as [[Hl Hu]|[Hl Hu]]; by vm_compute in Hl.
Qed.

Lemma startswith_split s p : startswith s p = true -> s = p +:+ removeprefix s p.
Proof.
  intros Hs. unfold removeprefix. rewrite Hs. unfold startswith in Hs. revert s Hs.
  induction p as [|c p IH]; intros s Hs; simpl.
  { symmetry. apply of_chars_chars. }
  destruct s as [|c' s]; [done|]. simpl in Hs. destruct (ascii_dec c c') as [->|]; [|done].
  change (String c' s = String c' (p +:+ of_chars (drop (String.length p) (chars s)))).
  f_equal. by apply IH.
Qed.

Lemma length_of_chars cs : String.length (of_chars cs) = length cs.
Proof. by rewrite <-length_chars, chars_of_chars. Qed.

Lemma hex_group_lengths ns ws :
  Forall2 hex_group ns ws -> Z.of_nat ∘ length <$> ws = Z.of_nat <$> ns.
Proof.
  induction 1 as [|n w ns ws [Hw _] _ IH]; [done|]. rewrite !fmap_cons, IH.
  simpl. by rewrite Hw.
Qed.

Lemma hex_group_digits ns ws :
  Forall2 hex_group ns ws -> Forall (Forall lower_hex) ws.
Proof. induction 1 as [|n w ns ws [_ Hw] _ IH]; by constructor. Qed.

(** The parts that the driver looks at are the pieces between the hyphens. *)
Lemma identifier_parts id :
  split id "-"%char = of_chars <$> split_chars "-"%char (chars id).
Proof. done. Qed.

Lemma bad_identifier_spec id : bad_identifier id = false <-> netz_identifier id.
Proof.
  unfold bad_identifier. rewrite !orb_false_iff, negb_false_iff, bool_decide_eq_false.
  rewrite identifier_parts. set (ws := split_chars _ _).
  assert (Hlens : forall ws : list (list ascii),
    (fun part => Z.of_nat (String.length part)) <$> (of_chars <$> ws) = Z.of_nat ∘ length <$> ws).
  { intros k. rewrite <-list_fmap_compose. apply list_fmap_ext. intros i w _. simpl.
    by rewrite length_of_chars. }
  assert (Hdigits : forall ws, existsb (fun part =>
      existsb (fun c => negb (is_lower_hex c)) (chars part)) (of_chars <$> ws) = false <->
    Forall (Forall lower_hex) ws).
  { intros k. induction k as [|w k IH]; [by split|]. simpl.
    rewrite orb_false_iff, IH, Forall_cons, chars_of_chars. f_equiv.
    induction w as [|c w IHw]; [by split|]. simpl.
    by rewrite orb_false_iff, IHw, Forall_cons, negb_false_iff, is_lower_hex_spec. }
  rewrite Hlens, Hdigits. split.
  - intros [[Hpre Hlen] Hhex]. exists ws. split.
    + apply dec_stable in Hlen. clear Hpre. destruct ws as [|a [|b [|c [|d [|e [|f ws]]]]]];
        try discriminate Hlen. injection Hlen as Ha Hb Hc Hd He.
      apply Forall_cons in Hhex as [? Hhex]. apply Forall_cons in Hhex as [? Hhex].
      apply Forall_cons in Hhex as [? Hhex]. apply Forall_cons in Hhex as [? Hhex].
      apply Forall_cons in Hhex as [? Hhex].
      repeat constructor; simpl; try done; lia.
    + rewrite (startswith_split id "netz-") at 1 by done. f_equal.
      subst ws. by rewrite rejoin_split, of_chars_chars.
  - intros (ks & Hks & ->). subst ws.
    pose proof (hex_group_digits _ _ Hks) as Hhex.
    rewrite removeprefix_app, chars_of_chars, split_rejoin.
    + split_and!; [apply startswith_app| |done]. intros Hneq. apply Hneq.
      exact (hex_group_lengths _ _ Hks).
    + intros ->. by inversion Hks.
    + eapply list.Forall_impl; [exact Hhex|]. apply hyphen_not_hex.
Qed.

(** ** ASCII *)

Lemma bytes_of_decoded value id : decode_ascii value = inr id -> bytes_of_str id = value.
Proof.
  unfold decode_ascii. case_decide; [|done]. intros [= <-]. unfold bytes_of_str.
  rewrite chars_of_chars, <-list_fmap_compose. rewrite <-list_fmap_id.
  apply list_fmap_ext. intros i b _. by destruct b.
Qed.

Lemma decode_bytes_of id :
  Forall (fun c => (N_of_ascii c < 128)%N) (chars id) -> decode_ascii (bytes_of_str id) = inr id.
Proof.
  intros Hid. unfold decode_ascii. rewrite decide_True.
  - f_equal. unfold bytes_of_str. rewrite <-list_fmap_compose.
    rewrite <-(of_chars_chars id) at 2. f_equal. rewrite <-list_fmap_id.
    apply list_fmap_ext. intros i c _. by destruct c as [[][][][][][][][]].
  - unfold bytes_of_str. apply Forall_fmap. eapply list.Forall_impl; [exact Hid|].
    intros c Hc. cbv beta in *. unfold compose, byte_of_ascii. rewrite b2z_lo8.
    rewrite Z.mod_small; lia.
Qed.

Lemma netz_identifier_ascii id :
  netz_identifier id -> Forall (fun c => (N_of_ascii c < 128)%N) (chars id).
Proof.
  intros (ws & Hws & ->). rewrite chars_app, chars_of_chars. apply Forall_app.
  split; [by repeat constructor|]. apply hex_group_digits in Hws.
  assert (Hhex : forall w, Forall lower_hex w -> Forall (fun c => (N_of_ascii c < 128)%N) w).
  { intros w Hw. eapply list.Forall_impl; [exact Hw|]. unfold lower_hex. lia. }
  induction Hws as [|w ws Hw Hws IH]; simpl; [done|]. destruct ws as [|w' ws]; [by apply Hhex|].
  apply Forall_app. split; [by apply Hhex|]. by constructor.
Qed.

Lemma len_bytes_of_str id : len (bytes_of_str id) = Z.of_nat (String.length id).
Proof. unfold len, bytes_of_str. by rewrite length_fmap, length_chars. Qed.

Lemma netz_identifier_length id : netz_identifier id -> len (bytes_of_str id) = 41.
Proof.
  intros (ws & Hws & ->). rewrite len_bytes_of_str, <-length_chars, chars_app, length_app.
  rewrite chars_of_chars.
  inversion Hws as [|? a ? ? [Ha _] Hb]; subst. inversion Hb as [|? b ? ? [Hb' _] Hc]; subst.
  inversion Hc as [|? c ? ? [Hc' _] Hd]; subst. inversion Hd as [|? d ? ? [Hd' _] He]; subst.
  inversion He as [|? e ? ? [He' _] Hf]; subst. inversion Hf; subst.
  simpl. rewrite !length_app. simpl. rewrite !length_app. simpl. rewrite !length_app. simpl.
  rewrite !length_app. simpl. lia.
Qed.

(** ** The check *)

Lemma check_ok b e : check b e = inr tt <-> b = false.
Proof. by destruct b. Qed.

Lemma rbind_inr {A B} (r : result A) (k : A -> result B) b :
  rbind r k = inr b <-> exists a, r = inr a /\ k a = inr b.
Proof. destruct r as [e|a]; simpl; naive_solver. Qed.

Lemma rbind_check {B} c e (k : result B) b :
  rbind (check c e) (fun _ => k) = inr b <-> c = false /\ k = inr b.
Proof. destruct c; simpl; naive_solver. Qed.

Lemma py_or_inr a b : py_or (inr a) (inr b) = inr (a || b).
Proof. by destruct a. Qed.

Lemma u16_of b1 b2 : u16 (b2z b1 * 256 + b2z b2) = [b1; b2].
Proof.
  pose proof (b2z_range b1). pose proof (b2z_range b2). unfold u16.
  rewrite Z.div_add_l, (Z.div_small (b2z b2)), Z.add_0_r by lia.
  rewrite lo8_b2z. do 2 f_equal. apply b2z_inj. rewrite b2z_lo8.
  rewrite Z.add_comm, Z.mod_add by lia. by apply Z.mod_small.
Qed.

Section check.
  Context (mqtt5_props : Mqtt5Props).

(** The check on a CONNACK whose length is taken apart. *)
Lemma check_assigned_run index h l f1 f2 pl tag b1 b2 rest base id :
    let connack := h :: l :: f1 :: f2 :: pl :: tag :: b1 :: b2 :: rest in
    let n := b2z b1 * 256 + b2z b2 in
    check_assigned mqtt5_props index connack base = inr id <->
      b2z h = 0x20 /\ f1 = Byte.x00 /\ f2 = Byte.x00 /\ 5 + b2z pl = len connack /\
      b2z tag = mqtt5_props.(ASSIGNED_CLIENT_IDENTIFIER) /\
      len (take (Z.to_nat n) rest) = n /\ decode_ascii (take (Z.to_nat n) rest) = inr id /\
      bad_identifier id = false /\ drop (Z.to_nat n) rest = base.
Proof.
    intros connack n.
    assert (Hn : 0 <= n < 65536) by (pose proof (b2z_range b1); pose proof (b2z_range b2); lia).
    pose proof (b2z_range pl) as Hpl.
    assert (Hprops : 5 + b2z pl = len connack ->
      py_slice connack 5 (5 + b2z pl) = tag :: b1 :: b2 :: rest).
    { intros Hl. unfold py_slice. subst connack. simpl drop. unfold len in Hl.
      apply take_ge. simpl in *. lia. }
    assert (Hvalue : py_slice (tag :: b1 :: b2 :: rest) 3 (3 + n) = take (Z.to_nat n) rest).
    { unfold py_slice. simpl drop. f_equal. lia. }
    assert (Hrest : py_from (tag :: b1 :: b2 :: rest) (3 + n) = drop (Z.to_nat n) rest).
    { unfold py_from. by replace (Z.to_nat (3 + n)) with (3 + Z.to_nat n)%nat by lia. }
    unfold check_assigned. cbv zeta. rewrite (test_index_nth connack) by lia.
    change (connack !! Z.to_nat 0) with (Some h). cbv beta iota.
    rewrite py_or_inr. cbn [rbind]. rewrite rbind_check.
    change (py_index connack 4) with (inr (A:=exn) pl). cbn [rbind]. rewrite rbind_check.
    rewrite !orb_false_iff, !bool_decide_eq_false, !dec_neq_stable.
    change (py_slice connack 2 4) with [f1; f2].
    destruct (decide (5 + b2z pl = len connack)) as [Hl|Hl];
      [|split; [by intros (_ & ? & _)|by intros (_ & _ & _ & ? & _)]].
    rewrite Hprops by done. rewrite test_index_nth by lia.
    change ((tag :: b1 :: b2 :: rest) !! Z.to_nat 0) with (Some tag). cbv beta iota.
    rewrite py_or_inr. cbn [rbind]. rewrite rbind_check, orb_false_iff, !bool_decide_eq_false.
    change (int_from_bytes_big (py_slice (tag :: b1 :: b2 :: rest) 1 3))
      with ((0 * 256 + b2z b1) * 256 + b2z b2).
    replace ((0 * 256 + b2z b1) * 256 + b2z b2) with n by lia.
    rewrite rbind_check, Hvalue, Hrest, bool_decide_eq_false, rbind_inr.
    setoid_rewrite rbind_check. setoid_rewrite rbind_check.
    setoid_rewrite bool_decide_eq_false.
    unfold len in *. simpl length in *. rewrite !dec_neq_stable.
    split; [|intros (Hh & -> & -> & _ & Htag & Hlen & Hdec & Hid & <-);
      split_and!; try done; try lia; exists id; naive_solver].
    intros ((Hh & Hf & _) & _ & (_ & Htag) & Hlen & i & Hdec & Hid & Hbase & [= <-]).
    apply dec_stable in Hbase. by simplify_eq.
Qed.
(** A shorter packet never passes. *)
Lemma check_assigned_long index connack base id :
    check_assigned mqtt5_props index connack base = inr id -> 8 <= len connack.
Proof.
    unfold check_assigned. cbv zeta. rewrite (test_index_nth connack) by lia. intros Hc.
    apply rbind_inr in Hc as (bad & Hbad & Hc). apply rbind_check in Hc as [-> Hc].
    assert (5 <= len connack) as H5.
    { destruct (connack !! Z.to_nat 0); [|done]. rewrite py_or_inr in Hbad.
      injection Hbad as Hbad. apply orb_false_iff in Hbad as [_ Hbad].
      apply orb_false_iff in Hbad as [_ Hbad]. apply bool_decide_eq_false in Hbad. lia. }
    apply rbind_inr in Hc as (pl & _ & Hc). apply rbind_check in Hc as [Hpl Hc].
    apply bool_decide_eq_false, dec_stable in Hpl.
    apply rbind_inr in Hc as (missing & Hm & Hc). apply rbind_check in Hc as [-> _].
    destruct (bool_decide (len (py_slice connack 5 (5 + b2z pl)) < 3)) eqn:Hlen; [done|].
    apply bool_decide_eq_false in Hlen. revert Hlen. unfold py_slice, len in *.
    rewrite length_take, length_drop. lia.
Qed.

(** C21: The check of an assigned identifier is sound and complete.  A packet
    passes, with the identifier [id], exactly when [id] is ["netz-"] and a
    UUID in lower-case hexadecimal (the ASCII codes of 0 to 9 and a to f), and
    the packet consists of 0x20, one byte that the check does not look at, two
    zero bytes (flags and reason code, when the Remaining Length has one byte),
    a property length that covers the rest, one Assigned Client Identifier with
    [id], and then exactly the capabilities of [expected_connack]. *)
Theorem check_assigned_exact index connack base id :
    check_assigned mqtt5_props index connack base = inr id <->
      netz_identifier id /\
      exists remaining property_length tag,
        connack = [lo8 0x20; remaining; Byte.x00; Byte.x00; property_length; tag]
                  ++ u16 41 ++ bytes_of_str id ++ base /\
        b2z property_length = 3 + 41 + len base /\
        b2z tag = mqtt5_props.(ASSIGNED_CLIENT_IDENTIFIER).
Proof.
    split.
    - intros Hc. pose proof (check_assigned_long _ _ _ _ Hc) as Hlong.
      destruct connack as [|h [|l [|f1 [|f2 [|pl [|tag [|b1 [|b2 rest]]]]]]]];
        try (unfold len in Hlong; simpl in Hlong; lia).
      apply check_assigned_run in Hc as (Hh & -> & -> & Hpl & Htag & Hlen & Hdec & Hid & Hbase).
      apply bad_identifier_spec in Hid. split; [done|].
      apply bytes_of_decoded in Hdec as Hbytes.
      assert (b2z b1 * 256 + b2z b2 = 41) as Hn
        by (by rewrite <-Hlen, <-Hbytes, netz_identifier_length).
      exists l, pl, tag. split_and!; [|rewrite Hn in *|done].
      + rewrite <-Hn, u16_of, Hbytes, <-Hbase.
        assert (h = lo8 0x20) as -> by (apply b2z_inj; by rewrite b2z_lo8).
        simpl. by rewrite take_drop.
      + subst base. unfold len in *. rewrite length_take in Hlen. rewrite length_drop.
        cbn [length] in Hpl. lia.
    - intros (Hid & l & pl & tag & -> & Hpl & Htag).
      pose proof (netz_identifier_length id Hid) as Hlen.
      change (check_assigned mqtt5_props index
        (lo8 0x20 :: l :: Byte.x00 :: Byte.x00 :: pl :: tag :: lo8 0 :: lo8 41 ::
         bytes_of_str id ++ base) base = inr id).
      apply check_assigned_run. change (Z.to_nat (b2z (lo8 0) * 256 + b2z (lo8 41))) with 41%nat.
      assert (length (bytes_of_str id) = 41%nat) as Hl by (unfold len in Hlen; lia).
      rewrite take_app_length', drop_app_length' by done.
      split_and!; try done.
      + rewrite Hpl. unfold len. simpl. rewrite length_app. lia.
      + by apply decode_bytes_of, netz_identifier_ascii.
      + by apply bad_identifier_spec.
Qed.
End check.

(** A CONNACK with an identifier that netz could have generated. *)
Definition sample_id : string := "netz-0123abcd-4567-89ef-0123-456789abcdef".

Definition sample_base : bytes :=
  py_from (expected_connack wire_packets wire_props connack_defaults) 5.

Definition sample_connack : bytes :=
  [lo8 0x20; lo8 58; Byte.x00; Byte.x00; lo8 55; lo8 18] ++ u16 41
    ++ bytes_of_str sample_id ++ sample_base.

Example sample_connack_passes :
  check_assigned wire_props 1 sample_connack sample_base = inr sample_id.
Proof. vm_compute. reflexivity. Qed.

Example upper_case_fails :
  bad_identifier "netz-0123ABCD-4567-89ef-0123-456789abcdef" = true.
Proof. vm_compute. reflexivity. Qed.
