(* ===== verification/Forwarding.v ===== *)
(** * Scenarios: what travels with a forwarded message

    Topic aliases in both directions, request/response properties and the
    properties of a Will. *)

From Stdlib Require Import ZArith Lia.
From stdpp Require Import base list option strings.
From S2P Require Import Prelude PyValues Effects Traces Canned Wire Expect Mosquitto Broker.
From S2P Require Import Connack Qos.
Local Open Scope Z_scope.

Section scenarios.
  Context {W : Type} `{Platform W}.
  Context (exe : string) (mqtt_packets : MqttPackets) (mqtt5_props : Mqtt5Props).

Definition incoming_topic_alias : M W unit :=
    let topic := "02/subpub/topic-alias/alias" in
    let alias_property := mqtt5_props.(gen_uint16_prop) mqtt5_props.(TOPIC_ALIAS) 3 in
    with_broker exe 2 false [] (fun broker =>
      with_connection broker (fun publisher =>
      with_connection broker (fun subscriber =>
        connect_v5 mqtt_packets publisher "02-subpub-qos0-topic-alias";;
        connect_v5 mqtt_packets subscriber "02-subpub-qos0-topic-alias-helper";;
        sendall publisher (mqtt_packets.(gen_publish) topic
          ["qos" @= 0; "payload" @= "message"; "proto_ver" @= 5;
           "properties" @= VBytes alias_property]);;
        sendall subscriber (mqtt_packets.(gen_subscribe) 1 topic 0 ["proto_ver" @= 5]);;
        expect_packet subscriber (mqtt_packets.(gen_suback) 1 0 ["proto_ver" @= 5])
          "topic alias SUBACK";;
        sendall publisher (mqtt_packets.(gen_publish) ""
          ["qos" @= 0; "payload" @= "message"; "proto_ver" @= 5;
           "properties" @= VBytes alias_property]);;
        expect_packet subscriber
          (mqtt_packets.(gen_publish) topic
             ["qos" @= 0; "payload" @= "message"; "proto_ver" @= 5])
          "resolved topic alias PUBLISH";;
        send_disconnect mqtt_packets publisher;;
        send_disconnect mqtt_packets subscriber))).

Definition outgoing_topic_alias : M W unit :=
    let topic := "02/b2c/topic/alias/1" in
    let maximum_property :=
      mqtt5_props.(gen_uint16_prop) mqtt5_props.(TOPIC_ALIAS_MAXIMUM) 2 in
    let alias_property := mqtt5_props.(gen_uint16_prop) mqtt5_props.(TOPIC_ALIAS) 1 in
    with_broker exe 2 false [] (fun broker =>
      with_connection broker (fun subscriber =>
      with_connection broker (fun publisher =>
        sendall subscriber (mqtt_packets.(gen_connect) "02-b2c-topic-alias"
          ["proto_ver" @= 5; "properties" @= VBytes maximum_property]);;
        connack ← read_packet subscriber;
        bad ← lift (bad_plain_connack connack);
        raise_if bad (AssertionError ("invalid alias CONNACK: " +:+ hex connack));;
        connect_v5 mqtt_packets publisher "02-b2c-topic-alias-helper";;
        sendall subscriber (mqtt_packets.(gen_subscribe) 1 topic 0 ["proto_ver" @= 5]);;
        expect_packet subscriber (mqtt_packets.(gen_suback) 1 0 ["proto_ver" @= 5])
          "outgoing topic alias SUBACK";;
        sendall publisher (mqtt_packets.(gen_publish) topic
          ["qos" @= 0; "payload" @= "first"; "proto_ver" @= 5]);;
        expect_packet subscriber
          (mqtt_packets.(gen_publish) topic
             ["qos" @= 0; "payload" @= "first"; "proto_ver" @= 5;
              "properties" @= VBytes alias_property])
          "outgoing topic alias establish";;
        sendall publisher (mqtt_packets.(gen_publish) topic
          ["qos" @= 0; "payload" @= "second"; "proto_ver" @= 5]);;
        expect_packet subscriber
          (mqtt_packets.(gen_publish) ""
             ["qos" @= 0; "payload" @= "second"; "proto_ver" @= 5;
              "properties" @= VBytes alias_property])
          "outgoing topic alias reuse";;
        send_disconnect mqtt_packets publisher;;
        send_disconnect mqtt_packets subscriber))).

Definition request_response_properties : M W unit :=
    let normal_topic := "normal/topic" in
    let response_topic := "response/topic" in
    let properties :=
      mqtt5_props.(gen_string_prop) mqtt5_props.(RESPONSE_TOPIC) response_topic
      ++ mqtt5_props.(gen_string_prop) mqtt5_props.(CORRELATION_DATA)
           "45vyvynq30q3vt4 nuy893b4v3" in
    with_broker exe 2 false [] (fun broker =>
      with_connection broker (fun responder =>
      with_connection broker (fun requester =>
        connect_v5 mqtt_packets responder "response-client";;
        connect_v5 mqtt_packets requester "request-client";;
        sendall responder (mqtt_packets.(gen_subscribe) 1 normal_topic 0 ["proto_ver" @= 5]);;
        expect_packet responder (mqtt_packets.(gen_suback) 1 0 ["proto_ver" @= 5])
          "request responder SUBACK";;
        sendall requester (mqtt_packets.(gen_subscribe) 1 response_topic 0 ["proto_ver" @= 5]);;
        expect_packet requester (mqtt_packets.(gen_suback) 1 0 ["proto_ver" @= 5])
          "response requester SUBACK";;
        let request := mqtt_packets.(gen_publish) normal_topic
          ["qos" @= 0; "payload" @= "2"; "proto_ver" @= 5;
           "properties" @= VBytes properties] in
        sendall requester request;;
        expect_packet responder request "request property forwarding";;
        let response := mqtt_packets.(gen_publish) response_topic
          ["qos" @= 0; "payload" @= "22"; "proto_ver" @= 5] in
        sendall responder response;;
        expect_packet requester response "response topic delivery";;
        send_disconnect mqtt_packets responder;;
        send_disconnect mqtt_packets requester))).

(** The Will's properties; the broker forwards all but the first five bytes. *)
Definition will_properties : bytes :=
    mqtt5_props.(gen_uint32_prop) mqtt5_props.(WILL_DELAY_INTERVAL) 0
    ++ mqtt5_props.(gen_string_pair_prop) mqtt5_props.(USER_PROPERTY) "key1" "value1"
    ++ mqtt5_props.(gen_string_prop) mqtt5_props.(RESPONSE_TOPIC) "response/topic"
    ++ mqtt5_props.(gen_string_prop) mqtt5_props.(CORRELATION_DATA) "correlation-data"
    ++ mqtt5_props.(gen_byte_prop) mqtt5_props.(PAYLOAD_FORMAT_INDICATOR) 1
    ++ mqtt5_props.(gen_string_prop) mqtt5_props.(CONTENT_TYPE) "text/plain"
    ++ mqtt5_props.(gen_string_pair_prop) mqtt5_props.(USER_PROPERTY) "key2" "value2".

Definition forwarded_properties : bytes := py_from will_properties 5.

Definition disconnect_with_will_properties : M W unit :=
    let topic := "will/properties" in
    with_broker exe 2 false [] (fun broker =>
      with_connection broker (fun subscriber =>
      with_connection broker (fun source =>
        connect_v5 mqtt_packets subscriber "will-property-subscriber";;
        sendall subscriber (mqtt_packets.(gen_subscribe) 1 topic 0 ["proto_ver" @= 5]);;
        expect_packet subscriber (mqtt_packets.(gen_suback) 1 0 ["proto_ver" @= 5])
          "Will property SUBACK";;
        sendall source (mqtt_packets.(gen_connect) "will-property-source"
          ["proto_ver" @= 5; "will_topic" @= topic;
           "will_payload" @= VBytes (bytes_of_str "will payload");
           "will_properties" @= VBytes will_properties]);;
        connack ← read_packet source;
        bad ← lift (py_or (test_index connack 0 (fun b => bool_decide (b <> 0x20)))
                      (inr (bool_decide (py_slice connack 2 4 <> [Byte.x00; Byte.x00]))));
        raise_if bad (AssertionError ("Will source invalid CONNACK: " +:+ hex connack));;

        sendall source (mqtt_packets.(gen_disconnect) ["reason_code" @= 4; "proto_ver" @= 5]);;
        expect_packet subscriber
          (mqtt_packets.(gen_publish) topic
             ["qos" @= 0; "payload" @= "will payload"; "proto_ver" @= 5;
              "properties" @= VBytes forwarded_properties])
          "DISCONNECT 0x04 Will property forwarding";;
        send_disconnect mqtt_packets subscriber))).

End scenarios.
