(* ===== verification/Oracle.v ===== *)
(** * What the tables of the scenarios mean

    The scenarios carry their expected answers as tables.  This file has
    reference definitions of the MQTT rules behind them (topic filters,
    subscription identifiers, Retain Handling, shared subscriptions);
    [Dialogues] states by them what a passing run has shown.  It also has the
    sizes of the packets that probe a limit, and the hostile packets. *)

From Stdlib Require Import ZArith Lia Ascii.
From stdpp Require Import base list option strings.
From S2P Require Import Prelude PyValues Effects Traces Canned Wire Expect Mosquitto.
From S2P Require Import WireFormat Broker Connack Capabilities Qos Retained Sessions.
From S2P Require Import Forwarding.
Local Open Scope Z_scope.

(** ** Topic filters *)

Fixpoint levels_match (filter topic : list string) : bool :=
  match filter, topic with
  | [], [] => true
  | f :: filter', _ =>
      if decide (f = "#" /\ filter' = []) then true
      else match topic with
           | [] => false
           | l :: topic' => (bool_decide (f = "+") || bool_decide (f = l))
                            && levels_match filter' topic'
           end
  | [], _ :: _ => false
  end.

Definition topic_matches (filter topic : string) : bool :=
  levels_match (split filter "/"%char) (split topic "/"%char).

(** ** Subscription identifiers

    A SUBSCRIBE replaces the subscription with the same filter; a message
    carries the identifiers of the subscriptions that match its topic. *)

Definition add_subscription (subs : list (string * option Z)) (filter : string)
    (identifier : option Z) : list (string * option Z) :=
  List.filter (fun '(f, _) => negb (bool_decide (f = filter))) subs ++ [(filter, identifier)].

Definition identifiers_for (subs : list (string * option Z)) (topic : string)
    : list (option Z) :=
  snd <$> List.filter (fun '(f, _) => topic_matches f topic) subs.

Definition subscriptions_after (l : list (Z * string * option Z)) : list (string * option Z) :=
  fold_left (fun subs '(_, filter, identifier) => add_subscription subs filter identifier) l [].

(** ** Retain Handling *)

Inductive retain_handling : Type := RetainAlways | RetainNew | RetainNever.

(** The bits of the options byte, and whether a SUBSCRIBE is answered with the
    retained message, by whether the subscription exists already. *)
Definition handling_bits (opts : Mqtt5Opts) (h : retain_handling) : Z :=
  match h with
  | RetainAlways => opts.(MQTT_SUB_OPT_SEND_RETAIN_ALWAYS)
  | RetainNew => opts.(MQTT_SUB_OPT_SEND_RETAIN_NEW)
  | RetainNever => opts.(MQTT_SUB_OPT_SEND_RETAIN_NEVER)
  end.

Definition replays (h : retain_handling) (subscribed : bool) : bool :=
  match h with RetainAlways => true | RetainNew => negb subscribed | RetainNever => false end.

(** ** Shared subscriptions *)

(** The group of a ["$share/<group>/<filter>"] filter, and the filter. *)
Definition share_group (filter : string) : option string * string :=
  match split filter "/"%char with
  | "$share" :: group :: rest => (Some group, join "/" rest)
  | _ => (None, filter)
  end.

(** The members of a group, in the order in which they subscribed. *)
Definition members (subs : list (Z * string)) (group : option string) (topic : string)
    : list Z :=
  fst <$> List.filter (fun '(_, filter) =>
    bool_decide ((share_group filter).1 = group) &&
    topic_matches (share_group filter).2 topic) subs.

Definition groups (subs : list (Z * string)) : list string :=
  remove_dups (omap (fun '(_, filter) => (share_group filter).1) subs).

(** The receivers of message number [n]: every ordinary subscriber, and of each
    group the member whose turn it is. *)
Definition receivers_of (subs : list (Z * string)) (topic : string) (n : nat) : list Z :=
  members subs None topic ++
  omap (fun group => let m := members subs (Some group) topic in m !! (n `mod` length m)%nat)
    (groups subs).

(** The receivers that [shared_subscription_rotation] expects of its three
    messages are those of a broker that sends each message to every ordinary
    subscriber and, in each group on its own, to the next member in the order
    of subscription. *)
Lemma shared_rotation_expected :
  Forall2 (fun receivers n => receivers ≡ₚ receivers_of shared_filters "02A/share/test" n)
    expected_receivers [0; 1; 2]%nat.
Proof. repeat constructor; vm_compute; try reflexivity; solve_Permutation. Qed.

(** ** Sizes *)

Section sizes.
  Context (mqtt_packets : MqttPackets) (mqtt5_props : Mqtt5Props).
  Context `{!GeneratorLaws mqtt_packets mqtt5_props}.

(** The messages that probe a packet size limit sit on both sides of it,
    one byte apart.  [maximum_packet_size_disconnect] sends a PUBLISH of
    exactly the 50 bytes that the broker was told to accept and then one of
    51; the messages that [maximum_packet_size_qos1] and
    [maximum_packet_size_qos2] expect to be withheld from a client with a
    Maximum Packet Size of 40 have 41 bytes (one of them because of a
    property), those that they expect to be delivered have 40. *)
Theorem packet_sizes :
    len (broker_size_publish mqtt_packets "012345678") = 50 /\
    len (broker_size_publish mqtt_packets "0123456789") = 51 /\
    Forall (fun p => len p = 41) (oversized_qos1 mqtt_packets mqtt5_props) /\
    len (fitting_qos1 mqtt_packets) = 40 /\
    len (qos2_size_publish mqtt_packets 1 "1234") = 41 /\
    len (qos2_size_publish mqtt_packets 2 "789") = 40.
Proof.
    unfold broker_size_publish, oversized_qos1, fitting_qos1, qos2_size_publish.
    pose proof v5_identifiers as Hi. apply Forall_cons in Hi as [? _].
    rewrite !v5_publish by done. rewrite v5_byte_prop by done.
    split_and!; try (vm_compute; reflexivity). repeat constructor; vm_compute; reflexivity.
Qed.

(** The properties that [disconnect_with_will_properties] expects on the
    forwarded Will are all those of the Will in their order, without the Will
    Delay Interval, which only concerns the broker. *)
Theorem forwarded_will :
    will_properties mqtt5_props =
      mqtt5_props.(gen_uint32_prop) mqtt5_props.(WILL_DELAY_INTERVAL) 0
      ++ forwarded_properties mqtt5_props /\
    forwarded_properties mqtt5_props =
      mqtt5_props.(gen_string_pair_prop) mqtt5_props.(USER_PROPERTY) "key1" "value1"
      ++ mqtt5_props.(gen_string_prop) mqtt5_props.(RESPONSE_TOPIC) "response/topic"
      ++ mqtt5_props.(gen_string_prop) mqtt5_props.(CORRELATION_DATA) "correlation-data"
      ++ mqtt5_props.(gen_byte_prop) mqtt5_props.(PAYLOAD_FORMAT_INDICATOR) 1
      ++ mqtt5_props.(gen_string_prop) mqtt5_props.(CONTENT_TYPE) "text/plain"
      ++ mqtt5_props.(gen_string_pair_prop) mqtt5_props.(USER_PROPERTY) "key2" "value2".
Proof.
    pose proof v5_identifiers as Hi. rewrite !Forall_cons in Hi. destruct Hi as (_ & ? & _).
    unfold forwarded_properties, will_properties. rewrite v5_uint32_prop by done.
    by split; change (py_from (?a :: u32 0 ++ ?l) 5) with l.
Qed.

End sizes.

Lemma packet_sizes_witness :
  len (broker_size_publish wire_packets "012345678") = 50 /\
  len (qos2_size_publish wire_packets 2 "789") = 40.
Proof.
  destruct (packet_sizes wire_packets wire_props) as (H50 & _ & _ & _ & _ & H40).
  exact (conj H50 H40).
Defined.

Lemma forwarded_will_witness :
  will_properties wire_props =
    gen_uint32_prop wire_props (WILL_DELAY_INTERVAL wire_props) 0
    ++ forwarded_properties wire_props.
Proof. apply (forwarded_will wire_packets wire_props). Defined.

(** ** Hostile packets *)

Lemma hostile_types_range t : t ∈ hostile_types <-> 2 <= t <= 15.
Proof.
  split.
  - intros Ht. assert (Forall (fun t => 2 <= t <= 15) hostile_types) as Hall.
    { repeat constructor; lia. }
    rewrite list.Forall_forall in Hall. by apply Hall.
  - intros Ht. assert (t = 2 \/ t = 3 \/ t = 4 \/ t = 5 \/ t = 6 \/ t = 7 \/ t = 8 \/ t = 9 \/
      t = 10 \/ t = 11 \/ t = 12 \/ t = 13 \/ t = 14 \/ t = 15) as Hcases by lia.
    repeat destruct Hcases as [->|Hcases]; subst;
      by apply (bool_decide_eq_true_1 (_ ∈ hostile_types)).
Qed.

(** C32: The hostile first packets cover every packet type but CONNECT and the
    reserved type 0; [bytes] never raises on them, and the four bytes after
    the type are a well-formed Remaining Length of 243269632, more than the 16
    MiB that the driver knows netz to accept, of which not one byte follows. *)
Theorem hostile_packets t :
  t ∈ hostile_types <->
    (2 <= t <= 15 /\ exists header length_field,
       hostile_packet t = inr (header :: length_field) /\
       b2z header = 16 * t /\ vbi length_field 243269632 /\
       maximum_packet_size connack_defaults < 243269632).
Proof.
  rewrite hostile_types_range. split; [|by intros [? _]]. intros Ht. split; [done|].
  destruct (byte_of_Z_is_Some (16 * t)) as [header Hh]; [lia|].
  exists header, [lo8 0x80; lo8 0x80; lo8 0x80; lo8 0x74].
  split_and!; [|by apply b2z_byte_of_Z|..].
  - unfold hostile_packet. replace (Z.shiftl t 4) with (16 * t)
      by (rewrite Z.shiftl_mul_pow2; lia).
    cbn [py_bytes]. by rewrite Hh.
  - change 243269632 with (b2z (lo8 0x80) - 128 + 128 * (b2z (lo8 0x80) - 128 + 128 *
      (b2z (lo8 0x80) - 128 + 128 * b2z (lo8 0x74)))). by repeat constructor.
  - done.
Qed.
