(* ===== verification/Main.v ===== *)
(** * The suite: [main] *)

From Stdlib Require Import ZArith Lia.
From stdpp Require Import base list option strings gmultiset.
From S2P Require Import Prelude PyValues Effects Traces Canned Wire Expect Mosquitto Broker.
From S2P Require Import Connack Capabilities Qos Retained Sessions Forwarding Discipline.
From S2P Require Import Lifecycle.
Local Open Scope Z_scope.

Section main.
  Context {W : Type} `{Platform W}.
  Context (exe : string) (mqtt_packets : MqttPackets) (mqtt5_props : Mqtt5Props)
    (mqtt5_rc : Mqtt5Rc) (mqtt5_opts : Mqtt5Opts).

(** The calls of [main], in order, by the name of the function. *)
Definition scenarios : list (string * M W unit) :=
    [ ("no_matching_subscribers", no_matching_subscribers exe mqtt_packets mqtt5_rc);
      ("subscription_identifiers", subscription_identifiers exe mqtt_packets mqtt5_props);
      ("multiple_subscription_identifiers",
       multiple_subscription_identifiers exe mqtt_packets mqtt5_props mqtt5_opts);
      ("hostile_initial_packets", hostile_initial_packets exe mqtt_packets);
      ("publish_capability_disconnects",
       publish_capability_disconnects exe mqtt_packets mqtt5_props mqtt5_rc);
      ("maximum_packet_size_disconnect",
       maximum_packet_size_disconnect exe mqtt_packets mqtt5_props mqtt5_rc);
      ("topic_alias_disconnect",
       topic_alias_disconnect exe mqtt_packets mqtt5_props mqtt5_rc);
      ("receive_maximum_disconnect", receive_maximum_disconnect exe mqtt_packets mqtt5_rc);
      ("subscription_capability_disconnects",
       subscription_capability_disconnects exe mqtt_packets mqtt5_props mqtt5_rc);
      ("qos2_routes_at_pubrel", qos2_routes_at_pubrel exe mqtt_packets);
      ("mixed_version_qos1", mixed_version_qos1 exe mqtt_packets);
      ("persistent_no_local", persistent_no_local exe mqtt_packets);
      ("retained_subscription_handling",
       retained_subscription_handling exe mqtt_packets mqtt5_opts);
      ("incoming_topic_alias", incoming_topic_alias exe mqtt_packets mqtt5_props);
      ("outgoing_topic_alias", outgoing_topic_alias exe mqtt_packets mqtt5_props);
      ("request_response_properties",
       request_response_properties exe mqtt_packets mqtt5_props);
      ("disconnect_with_will_properties",
       disconnect_with_will_properties exe mqtt_packets mqtt5_props);
      ("retained_message_expiry",
       retained_message_expiry exe mqtt_packets mqtt5_props mqtt5_rc);
      ("qos2_receive_maximum_one", qos2_receive_maximum_one exe mqtt_packets mqtt5_props);
      ("maximum_packet_size_qos1", maximum_packet_size_qos1 exe mqtt_packets mqtt5_props);
      ("maximum_packet_size_qos2", maximum_packet_size_qos2 exe mqtt_packets mqtt5_props);
      ("retained_repeated_lifecycle", retained_repeated_lifecycle exe mqtt_packets);
      ("retained_multilevel_clear", retained_multilevel_clear exe mqtt_packets);
      ("shared_subscription_rotation", shared_subscription_rotation exe mqtt_packets);
      ("qos2_duplicate_publish", qos2_duplicate_publish exe mqtt_packets);
      ("qos2_repeated_pubrel", qos2_repeated_pubrel exe mqtt_packets);
      ("reject_publish_subscription_identifier",
       reject_publish_subscription_identifier exe mqtt_packets mqtt5_props);
      ("unsubscribe_reason_codes", unsubscribe_reason_codes exe mqtt_packets);
      ("retain_as_published_live", retain_as_published_live exe mqtt_packets mqtt5_opts);
      ("retained_replacement", retained_replacement exe mqtt_packets mqtt5_props);
      ("retained_publish_property_bundle",
       retained_publish_property_bundle exe mqtt_packets mqtt5_props);
      ("retained_tombstone_properties",
       retained_tombstone_properties exe mqtt_packets mqtt5_props);
      ("assigned_client_identifier",
       assigned_client_identifier exe mqtt_packets mqtt5_props);
      ("server_keep_alive", server_keep_alive exe mqtt_packets mqtt5_props);
      ("duplicate_client_takeover",
       duplicate_client_takeover exe mqtt_packets mqtt5_props mqtt5_rc);
      ("disconnect_session_expiry",
       disconnect_session_expiry exe mqtt_packets mqtt5_props) ].

Definition passed_line : string :=
    "Mosquitto-derived MQTT wire vectors passed: 39 scenarios".

(** [main], after the arguments are parsed and the modules imported. *)
Definition main : M W unit :=
    for_each scenarios (fun '(_, scenario) => scenario);;
    print passed_line.

End main.

(** The scenarios, opened up to their building blocks. *)
Ltac open_scenario :=
  cbv beta iota zeta delta [
    no_matching_subscribers subscription_identifiers multiple_subscription_identifiers
    hostile_initial_packets publish_capability_disconnects maximum_packet_size_disconnect
    topic_alias_disconnect receive_maximum_disconnect subscription_capability_disconnects
    qos2_routes_at_pubrel mixed_version_qos1 persistent_no_local
    retained_subscription_handling incoming_topic_alias outgoing_topic_alias
    request_response_properties disconnect_with_will_properties retained_message_expiry
    qos2_receive_maximum_one maximum_packet_size_qos1 maximum_packet_size_qos2
    retained_repeated_lifecycle retained_multilevel_clear replay
    shared_subscription_rotation connect_many shared_rotation_body
    qos2_duplicate_publish qos2_repeated_pubrel reject_publish_subscription_identifier
    unsubscribe_reason_codes retain_as_published_live retained_replacement
    retained_publish_property_bundle retained_tombstone_properties
    assigned_client_identifier server_keep_alive duplicate_client_takeover
    disconnect_session_expiry expiry_connect expiry_disconnect ];
  cbn [enumerate].

(** Prove a property of every scenario of the suite. *)
Ltac each_scenario tac :=
  unfold scenarios; repeat apply Forall_cons_2; [..|apply Forall_nil_2];
  open_scenario; tac.

Section termination.
  Context {W : Type} `{Platform W}.
  Context (exe : string) (mqtt_packets : MqttPackets) (mqtt5_props : Mqtt5Props)
    (mqtt5_rc : Mqtt5Rc) (mqtt5_opts : Mqtt5Opts).

Abbreviation suite :=
    (scenarios (W:=W) exe mqtt_packets mqtt5_props mqtt5_rc mqtt5_opts).

Lemma scenarios_terminate : Forall (fun '(_, m) => terminates m) suite.
Proof. each_scenario ltac:(eauto 200 with netz). Qed.

Lemma scenarios_budgeted : Forall (fun '(_, m) => budgeted m) suite.
Proof. each_scenario ltac:(balance). Qed.

Lemma scenarios_launch :
    Forall2 (fun '(_, m) n => costs is_popen n m) suite
      [1; 1; 1; 1; 2; 1; 1; 1; 3; 1; 1; 1; 1; 1; 1; 1; 1; 1;
       1; 1; 1; 1; 1; 1; 1; 1; 1; 1; 1; 1; 1; 1; 1; 1; 1; 1].
Proof.
    unfold scenarios. repeat apply Forall2_cons_2; [..|apply Forall2_nil_2]; open_scenario;
      first [ apply costs_launch; intros; eauto 200 with netz
            | eapply costs_weaken; [eapply costs_for_each; intros; repeat split_computation;
                apply costs_launch; intros; eauto 200 with netz|reflexivity] ].
Qed.

Lemma scenarios_silent :
    Forall (fun '(_, m) => emits (fun e => is_print e = false) m) suite.
Proof. each_scenario ltac:(eauto 200 with netz). Qed.

(** Each scenario is a sequence of broker processes, one after the other. *)
Lemma scenarios_orderly : Forall (fun '(_, m) => orderly m) suite.
Proof.
    each_scenario ltac:(try (apply orderly_for_each; intros; repeat split_computation);
      apply orderly_with_broker; intros; eauto 200 with netz).
Qed.

Lemma scenarios_prompt : Forall (fun '(_, m) => prompt m) suite.
Proof.
    each_scenario ltac:(try (apply prompt_for_each; intros; repeat split_computation);
      apply prompt_with_broker; intros; eauto 200 with netz).
Qed.

End termination.

(** ** Sockets of [shared_subscription_rotation]

    Its five connections are opened before the [try] block. *)

Section shared.
  Context {W : Type} `{PlatformLaws W} (exe : string) (mqtt_packets : MqttPackets).

Lemma keeps_index {X A B} (step : X -> event -> option X) I (l : list A) i (k : A -> M W B) :
    (forall x, x ∈ l -> keeps step I (k x)) ->
    keeps step I (x ← lift (py_index l i); k x).
Proof.
    intros Hk x Hx. apply runs_bind, runs_lift. unfold py_index.
    case_decide; [done|]. destruct (l !! _) as [y|] eqn:Hy; [|done].
    eapply runs_mono; [by apply (Hk y); [by eapply list_elem_of_lookup_2|]|]. done.
Qed.

Lemma shared_body_tidy sockets : tidy sockets (shared_rotation_body mqtt_packets sockets).
Proof.
    unfold shared_rotation_body. cbv zeta. apply keeps_bind; [|intros _; apply keeps_bind;
      [|intros _; apply keeps_bind; [|intros _]]].
    - apply keeps_for_each_in. intros [i s] Hs%elem_of_enumerate. eauto 10 with netz.
    - apply keeps_for_each. intros [i f]. apply keeps_index. eauto 10 with netz.
    - apply keeps_for_each. intros [i receivers]. apply keeps_index. intros first Hf.
      apply keeps_bind; [eauto 10 with netz|]. intros _.
      apply keeps_for_each. intros r. apply keeps_index. eauto 10 with netz.
    - apply keeps_for_each_in. eauto 10 with netz.
Qed.

(** The sockets of a list, on top of those that were open. *)
Abbreviation plus open sockets := (open ⊎ list_to_set_disj sockets : gmultiset sock).

Lemma size_of_list (l : list sock) : size (list_to_set_disj l : gmultiset sock) = length l.
Proof.
    induction l as [|s l IH]; simpl; [done|].
    by rewrite gmultiset_size_disj_union, gmultiset_size_singleton, IH.
Qed.

Lemma connect_many_opens {A} b (l : list A) socks open :
    runs (for_fold l socks (fun socks _ => s ← connect b; mret (socks ++ [s])))
      (fun o t => exists new, watch open_step (plus open socks) t = Some (plus open new) /\
         len new = len socks + count is_connect t /\
         forall a, o = Ok a -> a = new /\ Forall (fun e => is_refused e = false) t).
Proof.
    revert socks. induction l as [|x l IH]; intros socks; simpl.
    { apply runs_ret. exists socks. split_and!; [done| |by intros a [= ->]].
      change (count is_connect []) with 0. lia. }
    apply runs_bind, runs_bind. unfold connect.
    apply runs_bind, runs_call. intros w [e|s] w' _; simpl.
    { exists socks. split_and!; [done| |done]. change (count is_connect [_]) with 0. lia. }
    apply runs_bind, runs_call. intros v r v' Hr.
    destruct (sys_settimeout_ok s (seconds 5) v) as [v2 Hv2]; [done|].
    rewrite Hr in Hv2. injection Hv2 as -> ->. simpl. apply runs_ret, runs_ret.
    eapply runs_mono; [apply (IH (socks ++ [s]))|]. intros o t (new & Hw & Hcount & Ho).
    exists new. split_and!.
    - simpl. rewrite decide_True by multiset_solver. simpl. rewrite <-Hw. f_equal.
      rewrite list_to_set_disj_app. simpl. multiset_solver.
    - rewrite len_app in Hcount. change (len [s]) with 1 in Hcount.
      unfold count in *. simpl. unfold len in *. simpl. lia.
    - intros a Ha. destruct (Ho a Ha) as [-> Ht]. split; [done|]. by repeat constructor.
Qed.

Lemma close_all_closes sockets open :
    runs (for_each sockets (fun s => close s)) (fun o t =>
      exists open', watch open_step (plus open sockets) t = Some open' /\ open ⊆ open' /\
        forall u, o = Ok u -> open' = open).
Proof.
    induction sockets as [|s sockets IH]; simpl.
    { apply runs_ret. exists open. split_and!; try done. simpl. f_equal. multiset_solver. }
    assert (Hclose : forall r, watch open_step (plus open (s :: sockets)) [EvClose s r]
                               = Some (plus open sockets)).
    { intros r. simpl. rewrite decide_True by multiset_solver. f_equal. multiset_solver. }
    apply runs_bind, runs_call. intros w [e|[]] w' _; simpl of_result; cbv iota.
    - exists (plus open sockets). split_and!; [apply Hclose|multiset_solver|done].
    - eapply runs_mono; [apply IH|]. intros o t (open' & Hw & Hsub & Ho).
      exists open'. split_and!; [|done|done]. by rewrite watch_app, Hclose.
Qed.

Lemma shared_watched : watched [] (shared_subscription_rotation exe mqtt_packets).
Proof.
    apply watched_with_broker. intros b open _. apply runs_bind.
    eapply runs_mono; [apply (connect_many_opens b (range 0 5) [] open)|].
    intros o t (new & Hw & _ & Ho). simpl in Hw.
    rewrite (right_id_L ∅ (⊎)) in Hw.
    destruct o as [socks|e|]; [|intros _; exists (plus open new);
      split_and!; [done|multiset_solver|done]|done].
    destruct (Ho socks eq_refl) as [-> _]. clear Ho.
    apply runs_with_exit. eapply runs_mono;
      [apply (shared_body_tidy new (plus open new))|].
    { apply list.Forall_forall. intros s Hs. apply elem_of_list_to_set_disj in Hs. multiset_solver. }
    intros [a|e|] t1 Ht1; try done; (eapply runs_mono; [apply (close_all_closes new open)|]);
      intros o' t' (open' & Hw' & Hsub & Ho');
      assert (Hall : watch open_step open (t ++ t1 ++ t') = Some open')
        by (rewrite watch_app, Hw, watch_app, Ht1 by done; done);
      destruct o' as [[]|e'|]; intros Hd; try done; exists open'; split_and!; try done.
    intros _ _. by apply (Ho' tt).
Qed.

(** *** A refused connection

    Computations after which, if a connection was refused, every connection
    that was made is still open. *)

Definition leaks {A} (m : M W A) : Prop :=
    forall open, runs m (fun o t => o <> Diverge -> Exists (fun e => is_refused e = true) t ->
      exists new, watch open_step open t = Some (open ⊎ new) /\
        Z.of_nat (size new) = count is_connect t).

(** Those that make no connection and leave the sockets alone. *)
Definition still {A} (m : M W A) : Prop := emits dialless m /\ tidy [] m.

Lemma dialless_count t : Forall dialless t -> count is_connect t = 0.
Proof.
    intros Ht. apply count_none. eapply list.Forall_impl; [exact Ht|]. by intros [].
Qed.

Lemma dialless_unrefused t : Forall dialless t -> ~ Exists (fun e => is_refused e = true) t.
Proof.
    intros Ht Hr. apply Exists_exists in Hr as (e & Hin%list_elem_of_In & He).
    rewrite list.Forall_forall in Ht. specialize (Ht _ Hin). by destruct e.
Qed.

Lemma leaks_bind {A B} (m : M W A) (k : A -> M W B) :
    still m -> (forall a, leaks (k a)) -> leaks (m ≫= k).
Proof.
    intros [He Ht] Hk open. apply runs_bind.
    eapply runs_mono; [apply runs_and; [exact He|apply (Ht open), Forall_nil_2]|].
    intros [a|e|] t [Hd Hw]; [|by intros _ Hr%dialless_unrefused|done].
    eapply runs_mono; [apply (Hk a open)|]. intros o t' Hl Ho [Hr|Hr]%Exists_app;
      [by apply dialless_unrefused in Hr|].
    destruct (Hl Ho Hr) as (new & Hw' & Hn). exists new.
    by rewrite watch_app, Hw, count_app, (dialless_count t Hd).
Qed.

Lemma leaks_with_exit {A} (m : M W A) f :
    leaks m -> (forall raised, still (f raised)) -> leaks (with_exit m f).
Proof.
    intros Hm Hf open. apply runs_with_exit. eapply runs_mono; [apply (Hm open)|].
    assert (Hafter : forall raised (o : outcome A) t, o <> Diverge ->
      (Exists (fun e => is_refused e = true) t -> exists new,
         watch open_step open t = Some (open ⊎ new) /\ Z.of_nat (size new) = count is_connect t) ->
      runs (f raised) (fun o' t' => o' <> Diverge ->
        Exists (fun e => is_refused e = true) (t ++ t') -> exists new,
         watch open_step open (t ++ t') = Some (open ⊎ new) /\
         Z.of_nat (size new) = count is_connect (t ++ t'))).
    { intros raised o t Ho Hl. destruct (Hf raised) as [He Ht].
      intros w o' w' t' Hr Ho' Hex. pose proof (He _ _ _ _ Hr) as Hd.
      apply Exists_app in Hex as [Hex|Hex]; [|by apply dialless_unrefused in Hex].
      destruct (Hl Hex) as (new & Hw & Hn). exists new.
      rewrite watch_app, Hw, count_app, (dialless_count t' Hd), Z.add_0_r. split; [|done].
      by apply (Ht (open ⊎ new) (Forall_nil_2 _) _ _ _ _ Hr). }
    intros [a|e|] t Hl; [| |done].
    - eapply runs_mono; [apply (Hafter false (Ok a) t); [done|auto]|].
      intros [u|e|] t' Hq Ho; auto.
    - eapply runs_mono; [apply (Hafter true (Raise e) t); [done|auto]|].
      intros [u|e'|] t' Hq Ho; auto; by apply Hq.
Qed.

Lemma leaks_with_broker {A} n ig extra (body : NetzBroker -> M W A) :
    (forall b, leaks (body b)) -> leaks (with_broker exe n ig extra body).
Proof.
    intros Hb. apply leaks_bind.
    { unfold init. split; [unfold free_port; eauto 20 with netz|].
      apply keeps_bind; [apply tidy_free_port|eauto with netz]. }
    intros b0. apply leaks_bind.
    { unfold enter. split; [|apply tidy_emits]; eauto 20 with netz. }
    intros b. apply leaks_with_exit; [done|]. intros raised.
    unfold exit. split; [|apply tidy_emits]; eauto 20 with netz.
Qed.

Lemma shared_terminates : terminates (shared_subscription_rotation (W:=W) exe mqtt_packets).
Proof. open_scenario. eauto 200 with netz. Qed.

(** [shared_subscription_rotation] connects before it enters its [try] block. *)
Lemma shared_leaks : leaks (shared_subscription_rotation exe mqtt_packets).
Proof.
    apply leaks_with_broker. intros b open. apply runs_bind.
    eapply runs_mono; [apply (connect_many_opens b (range 0 5) [] open)|].
    intros o t (new & Hw & Hcount & Ho). simpl in Hw. rewrite (right_id_L ∅ (⊎)) in Hw.
    destruct o as [socks|e|]; [|intros _ _; exists (list_to_set_disj new); split; [done|]|done].
    - destruct (Ho socks eq_refl) as [_ Hok].
      assert (emits dialless (finally (shared_rotation_body mqtt_packets socks)
        (for_each socks (fun sock => close sock)))) as Hd.
      { unfold shared_rotation_body. eauto 200 with netz. }
      eapply runs_mono; [exact Hd|]. intros o t' Ht' _ [Hr|Hr]%Exists_app; exfalso;
        [|by apply dialless_unrefused in Hr].
      apply Exists_exists in Hr as (e & Hin%list_elem_of_In & He). rewrite list.Forall_forall in Hok.
      specialize (Hok _ Hin). congruence.
    - rewrite size_of_list. unfold len in Hcount. simpl in Hcount. lia.
Qed.

End shared.


Section sockets.
  Context {W : Type} `{PlatformLaws W}.
  Context (exe : string) (mqtt_packets : MqttPackets) (mqtt5_props : Mqtt5Props)
    (mqtt5_rc : Mqtt5Rc) (mqtt5_opts : Mqtt5Opts).

Abbreviation suite :=
    (scenarios (W:=W) exe mqtt_packets mqtt5_props mqtt5_rc mqtt5_opts).

Lemma scenarios_patient : Forall (fun '(_, m) => patient m) suite.
Proof. each_scenario ltac:(eauto 200 with netz). Qed.

Lemma scenarios_tidy :
    Forall (fun '(name, m) => name <> "shared_subscription_rotation" -> tidy [] m) suite.
Proof.
    unfold scenarios; repeat apply Forall_cons_2; [..|apply Forall_nil_2];
      try (by intros []); intros _; open_scenario; eauto 200 with netz.
Qed.

Lemma scenarios_watched : Forall (fun '(_, m) => watched [] m) suite.
Proof.
    pose proof scenarios_tidy as Ht. unfold scenarios in *.
    repeat (apply Forall_cons_1 in Ht as [? Ht]).
    repeat apply Forall_cons_2; [..|apply Forall_nil_2];
      first [apply shared_watched | apply watched_of_tidy; auto].
Qed.

End sockets.
