(* ===== verification/Exceptions.v ===== *)
(** * The exceptions that can escape

    [blames E m]: an exception that escapes from [m] is one of [E] or was
    raised by a system call of the run.  The driver's own indexing, slicing,
    decoding and list operations are the interesting part: each must be shown
    to stay in range, or its exception is one that the scenario can end with. *)

From Stdlib Require Import ZArith Lia.
From stdpp Require Import base list option strings.
From S2P Require Import Prelude PyValues Effects Traces Canned Wire Expect Mosquitto Broker.
From S2P Require Import Connack Handshake Discipline Capabilities Qos Retained Sessions Identity.
From S2P Require Import Forwarding Main WireFormat.
Local Open Scope Z_scope.

(** The exception that a system call raised. *)
Definition event_error (ev : event) : option exn :=
  let err {A} (r : result A) := match r with inl e => Some e | inr _ => None end in
  match ev with
  | EvSocket r => err r | EvBind _ _ _ r => err r | EvGetsockname _ r => err r
  | EvConnect _ _ _ r => err r | EvSettimeout _ _ r => err r | EvSendall _ _ r => err r
  | EvRecv _ _ r => err r | EvClose _ r => err r | EvPopen _ r => err r
  | EvReadline _ r => err r | EvRead _ r => err r | EvWait _ _ r => err r
  | EvTerminate _ r => err r | EvSleep _ r => err r | EvPrint _ r => err r
  end.

Definition failed (e : exn) (t : trace) : Prop := Exists (fun ev => event_error ev = Some e) t.

Definition blames {W A} (E : exn -> Prop) (m : M W A) : Prop :=
  runs m (fun o t => forall e, o = Raise e -> E e \/ failed e t).

Section blames.
  Context {W : Type} (E : exn -> Prop).

Lemma failed_app_l e t1 t2 : failed e t1 -> failed e (t1 ++ t2).
Proof. intros. apply Exists_app. by left. Qed.

Lemma failed_app_r e t1 t2 : failed e t2 -> failed e (t1 ++ t2).
Proof. intros. apply Exists_app. by right. Qed.

Lemma blames_weaken {A} (F : exn -> Prop) (m : M W A) :
    blames F m -> (forall e, F e -> E e) -> blames E m.
Proof.
    intros Hm HF. eapply runs_mono; [exact Hm|]. intros o t Ho e He. destruct (Ho e He); auto.
Qed.

Lemma blames_ret {A} (a : A) : blames (W:=W) E (mret a).
Proof. by apply runs_ret. Qed.

Lemma blames_raise {A} e : E e -> blames (W:=W) (A:=A) E (raise e).
Proof. intros He. apply runs_raise. intros ? [= <-]. by left. Qed.

Lemma blames_lift {A} (r : result A) :
    (forall e, r = inl e -> E e) -> blames (W:=W) E (lift r).
Proof. intros Hr. apply runs_lift. destruct r; simpl; [|done]. intros ? [= <-]. auto. Qed.

Lemma blames_out_of_fuel {A} : blames (W:=W) (A:=A) E out_of_fuel.
Proof. by intros w o w' t [= <- <- <-]. Qed.

(** A rule for a computation whose result is known to satisfy [P]. *)
Lemma blames_bind_with {A B} (P : A -> Prop) (m : M W A) (k : A -> M W B) :
    blames E m -> runs m (fun o _ => forall a, o = Ok a -> P a) ->
    (forall a, P a -> blames E (k a)) -> blames E (m ≫= k).
Proof.
    intros Hm HP Hk. apply runs_bind. eapply runs_mono; [exact (runs_and _ _ _ Hm HP)|].
    intros [a|e|] t [Ho Ha]; [|by intros e' [= <-]; auto|done].
    eapply runs_mono; [by apply Hk, Ha|]. intros o t' Ho' e He.
    destruct (Ho' e He); auto using failed_app_r.
Qed.

Lemma blames_bind {A B} (m : M W A) (k : A -> M W B) :
    blames E m -> (forall a, blames E (k a)) -> blames E (m ≫= k).
Proof.
    intros Hm Hk. apply (blames_bind_with (fun _ => True)); [done| |auto].
    by intros w o w' t _.
Qed.

Lemma blames_try {A} (m : M W A) handled h :
    blames E m -> (forall e, blames E (h e)) -> blames E (try_except m handled h).
Proof.
    intros Hm Hh. apply runs_try. eapply runs_mono; [exact Hm|].
    intros [a|e|] t Ho; try done. destruct (handled e); [|done].
    eapply runs_mono; [apply Hh|]. intros o t' Ho' e' He.
    destruct (Ho' e' He); auto using failed_app_r.
Qed.

Lemma blames_with_exit {A} (m : M W A) f :
    blames E m -> (forall b, blames E (f b)) -> blames E (with_exit m f).
Proof.
    intros Hm Hf. apply runs_with_exit. eapply runs_mono; [exact Hm|].
    intros [a|e|] t Ho; try done; (eapply runs_mono; [apply Hf|]);
      intros [u|e'|] t' Ho' e1 He1; try done; simplify_eq.
    - destruct (Ho' e1 eq_refl); auto using failed_app_r.
    - destruct (Ho e1 eq_refl); auto using failed_app_l.
    - destruct (Ho' e1 eq_refl); auto using failed_app_r.
Qed.

Lemma blames_finally {A} (m : M W A) f :
    blames E m -> blames E f -> blames E (finally m f).
Proof. intros. by apply blames_with_exit. Qed.

Lemma blames_for_each_in {A} (l : list A) (body : A -> M W unit) :
    (forall x, x ∈ l -> blames E (body x)) -> blames E (for_each l body).
Proof.
    induction l as [|y l IH]; intros Hb; simpl; [apply blames_ret|].
    apply blames_bind; [apply Hb, list_elem_of_here|].
    intros _. apply IH. intros x Hx. by apply Hb, list_elem_of_further.
Qed.

Lemma blames_for_each {A} (l : list A) (body : A -> M W unit) :
    (forall x, blames E (body x)) -> blames E (for_each l body).
Proof. intros Hb. apply blames_for_each_in. auto. Qed.

Lemma blames_for_fold {A B} (l : list A) (body : B -> A -> M W B) acc :
    (forall b x, blames E (body b x)) -> blames E (for_fold l acc body).
Proof.
    intros Hb. revert acc. induction l; intros acc; simpl; [apply blames_ret|].
    apply blames_bind; auto.
Qed.

Lemma blames_raise_if b e : E e -> blames (W:=W) E (raise_if b e).
Proof. intros He. destruct b; [by apply blames_raise|apply blames_ret]. Qed.

Lemma blames_call {A} (f : W -> result A * W) ev :
    (forall e, event_error (ev (inl e)) = Some e) -> blames E (call f ev).
Proof.
    intros Hev. apply runs_call. intros w [e|a] w' _ e' [= <-].
    right. apply Exists_cons. left. apply Hev.
Qed.

Lemma blames_with_socket `{Platform W} {A} opened (body : sock -> M W A) :
    blames E opened -> (forall s, blames E (body s)) -> blames E (with_socket opened body).
Proof.
    intros Ho Hb. apply blames_bind; [done|]. intros s.
    apply blames_finally; [done|by apply blames_call].
Qed.

End blames.

#[export] Hint Resolve blames_ret blames_raise blames_out_of_fuel blames_bind blames_try
  blames_with_exit blames_finally blames_for_each blames_for_fold blames_raise_if blames_call
  blames_with_socket : netz.
#[export] Hint Extern 4 (blames _ (match _ with _ => _ end)) => split_computation : netz.
#[export] Hint Extern 1 (event_error _ = Some _) => reflexivity : netz.

(** ** What a scenario may end with *)

(** The suite's own verdicts: a failed assertion, a broker that does not start
    or stop. *)
Definition verdict (e : exn) : Prop :=
  match e with AssertionError _ | RuntimeError _ => True | _ => False end.

Definition allowed (others : list exn) (e : exn) : Prop := verdict e \/ e ∈ others.

Hint Extern 1 (allowed _ _) => (left; exact I) : netz.

Section blocks.
  Context {W : Type} `{PlatformLaws W} (mp : MqttPackets) (others : list exn).
  Abbreviation safe := (blames (allowed others)).

(** [recv_exact] and [read_packet]: the byte that is read is there. *)
Lemma recv_exact_blames s count : safe (recv_exact s count).
Proof.
    unfold recv_exact. generalize (@nil byte) as acc.
    induction (Z.to_nat count) as [|fuel IH]; intros acc; simpl; case_decide;
      eauto 10 with netz.
Qed.

Lemma length_loop_blames fuel s rb mul n : safe (length_loop fuel s rb mul n).
Proof.
    revert rb mul n. induction fuel as [|fuel IH]; intros rb mul n; simpl; [auto with netz|].
    apply (blames_bind_with _ (fun one => len one = 1)); [apply recv_exact_blames| |].
    { eapply runs_mono; [by apply recv_exact_reads|]. intros o t Ho a Ha. by apply Ho. }
    intros [|b [|]] Hl; [done| |unfold len in Hl; simpl in Hl; lia].
    apply blames_bind; [by apply blames_lift|]. intros b'. cbv zeta.
    repeat case_decide; auto with netz.
Qed.

Lemma read_packet_blames s : safe (read_packet s).
Proof.
    apply blames_bind; [apply recv_exact_blames|]. intros fixed.
    apply blames_bind; [apply length_loop_blames|]. intros [rb n].
    apply blames_bind; [apply recv_exact_blames|auto with netz].
Qed.

(** The packet that was read, examined: it is not empty. *)
Lemma examine_blames {A} s (k : bytes -> M W A) :
    (forall p, packet p -> safe (k p)) -> safe (read_packet s ≫= k).
Proof.
    intros Hk. apply (blames_bind_with _ packet); [apply read_packet_blames| |done].
    eapply runs_mono; [apply read_packet_reads|]. intros o t Ho a Ha. by apply Ho.
Qed.
Lemma expect_packet_blames s p label : safe (expect_packet s p label).
Proof. apply blames_bind; [apply read_packet_blames|auto with netz]. Qed.

Lemma expect_unordered_blames s ps label : safe (expect_packets_unordered s ps label).
Proof.
    apply blames_bind; [|auto with netz]. apply blames_for_fold. intros b x.
    apply blames_bind; [apply read_packet_blames|auto with netz].
Qed.

Lemma expect_silence_blames s c : safe (expect_silence s c).
Proof. unfold expect_silence. eauto 20 with netz. Qed.

Lemma expect_no_answer_blames s c : safe (expect_no_answer s c).
Proof. unfold expect_no_answer. eauto 20 with netz. Qed.

(** A test of the CONNACK that never raises by itself. *)
Lemma total_test_blames p (test : bytes -> result bool) b :
    test p = inr b -> blames (W:=W) (allowed others) (lift (test p)).
Proof. intros Ht. apply blames_lift. by rewrite Ht. Qed.

Lemma connect_client_blames s cid v : safe (connect_client mp s cid v).
Proof.
    unfold connect_client. apply blames_bind; [eauto with netz|]. intros _. apply examine_blames. intros p Hp.
    apply blames_bind; [|auto with netz].
    eapply (total_test_blames p (fun p => bad_connack p v)).
    by apply bad_connack_spec, packet_nonempty.
Qed.

Lemma connect_persistent_blames s cid b : safe (connect_persistent_v5 mp s cid b).
Proof.
    unfold connect_persistent_v5. apply blames_bind; [eauto with netz|]. intros _. apply examine_blames. intros p Hp.
    apply blames_bind; [|auto with netz].
    eapply (total_test_blames p (fun p => bad_persistent p b)).
    by apply bad_persistent_spec, packet_nonempty.
Qed.

Lemma connect_blames b : safe (connect b).
Proof. unfold connect. eauto 10 with netz. Qed.

(** [__exit__] asserts that the process was started: it was. *)
Lemma with_broker_blames {A} exe n ig extra (body : NetzBroker -> M W A) :
    (forall b, safe (body b)) -> safe (with_broker exe n ig extra body).
Proof.
    intros Hb. unfold with_broker, init, enter. apply blames_bind.
    { unfold free_port. eauto 20 with netz. }
    intros b. apply blames_bind; [eauto 20 with netz|]. intros b'.
    apply blames_with_exit; [done|]. intros raised. unfold exit. eauto 20 with netz.
Qed.

(** The checks that the scenarios write out. *)
Lemma plain_connack_blames p :
    IndexError ∈ others -> blames (W:=W) (allowed others) (lift (bad_plain_connack p)).
Proof.
    intros Hi. apply blames_lift. intros e. unfold bad_plain_connack.
    rewrite !test_index_nth by lia. destruct (p !! Z.to_nat 0), (p !! Z.to_nat 3); simpl;
      try destruct (bool_decide _); simpl; intros [= <-]; by right.
Qed.

Lemma will_connack_blames p f c :
    packet p -> blames (W:=W) (allowed others) (lift (py_or (test_index p 0 f) (inr c))).
Proof.
    intros (h & rl & body & -> & _). apply blames_lift. intros e. simpl. by destruct (f _).
Qed.
End blocks.

#[export] Hint Resolve expect_packet_blames expect_unordered_blames expect_silence_blames
  expect_no_answer_blames connect_client_blames connect_persistent_blames connect_blames
  with_broker_blames plain_connack_blames will_connack_blames read_packet_blames : netz.
#[export] Hint Resolve examine_blames | 0 : netz.
#[local] Hint Extern 1 (allowed _ _) => (left; exact I) : netz.
#[local] Hint Extern 1 (_ ∈ _) => (by apply list_elem_of_here) : netz.
#[local] Hint Extern 1 (blames _ (lift (py_index no_subs_topics _))) =>
  (apply blames_lift; discriminate) : netz.

Section scenarios.
  Context {W : Type} `{PlatformLaws W}.
  Context (exe : string) (mqtt_packets : MqttPackets) (mqtt5_props : Mqtt5Props)
    (mqtt5_rc : Mqtt5Rc) (mqtt5_opts : Mqtt5Opts).

(** The exceptions of Python that a scenario can end with, by its name. *)
Definition unguarded (name : string) : list exn :=
    if decide (name ∈ ["outgoing_topic_alias"; "qos2_receive_maximum_one";
                       "maximum_packet_size_qos1"; "maximum_packet_size_qos2"])
    then [IndexError]
    else if decide (name = "assigned_client_identifier") then [UnicodeDecodeError]
    else [].

Abbreviation safe := (blames (W:=W) (allowed [])).

(** Every type of [hostile_types] makes a header byte in range. *)
Lemma hostile_packet_ok x : x ∈ hostile_types -> exists raw, hostile_packet x = inr raw.
Proof.
    intros Hx. eapply (list.Forall_forall (fun x => exists raw, hostile_packet x = inr raw));
      [|exact Hx]. repeat (apply Forall_cons; split; [by eexists|]). by apply Forall_nil.
Qed.

Lemma hostile_blames : safe (hostile_initial_packets exe mqtt_packets).
Proof.
    apply with_broker_blames. intros b. apply blames_bind; [|eauto 20 with netz].
    apply blames_for_each_in. intros x [raw Hx]%hostile_packet_ok.
    apply blames_with_socket; [eauto with netz|]. intros s.
    apply blames_bind; [apply blames_lift; by rewrite Hx|eauto 20 with netz].
Qed.

(** A loop that appends one value a round. *)
Lemma append_length {A B} (l : list A) (acc : list B) (body : list B -> A -> M W (list B)) :
    (forall acc x, runs (body acc x) (fun o _ =>
       forall a, o = Ok a -> length a = S (length acc))) ->
    runs (for_fold l acc body) (fun o _ =>
       forall a, o = Ok a -> length a = (length acc + length l)%nat).
Proof.
    intros Hb. revert acc. induction l as [|x l IH]; intros acc; simpl.
    { apply runs_ret. intros a [= <-]. lia. }
    apply runs_bind. eapply runs_mono; [apply Hb|]. intros [acc'|e|] t Ho; try done.
    eapply runs_mono; [apply IH|]. intros o t' Ho' a Ha.
    rewrite (Ho' a Ha), (Ho acc' eq_refl). lia.
Qed.

Lemma index_blames {A B} E (l : list A) i (k : A -> M W B) :
    0 <= i < len l -> (forall x, blames E (k x)) -> blames E (x ← lift (py_index l i); k x).
Proof.
    intros Hi Hk. destruct (py_index_ok l i Hi) as [x Hx]. apply blames_bind; [|done].
    apply blames_lift. by rewrite Hx.
Qed.

(** The five sockets of the shared subscriptions are there when they are
    indexed. *)
Lemma shared_indices i f : (i, f) ∈ shared_filters -> 0 <= i < 5.
Proof.
    intros Hi. eapply (list.Forall_forall (fun '(i, _) => 0 <= i < 5)) in Hi; [exact Hi|].
    repeat constructor; lia.
Qed.

Lemma receiver_indices receivers r : receivers ∈ expected_receivers -> r ∈ receivers -> 0 <= r < 5.
Proof.
    intros Hi Hr. eapply (list.Forall_forall (Forall (fun r => 0 <= r < 5))) in Hi.
    - by eapply (list.Forall_forall (fun r => 0 <= r < 5)).
    - repeat constructor; lia.
Qed.

Lemma shared_blames : safe (shared_subscription_rotation exe mqtt_packets).
Proof.
    apply with_broker_blames. intros b.
    apply (blames_bind_with _ (fun socks => len socks = 5)).
    { unfold connect_many. eauto 20 with netz. }
    { eapply runs_mono; [apply append_length|].
      - intros acc x. apply runs_bind. intros w [s|e|] w' t _; try done. apply runs_ret.
        intros a [= <-]. rewrite length_app. simpl. lia.
      - intros o t Ho a Ha. unfold len. by rewrite (Ho a Ha). }
    intros socks Hl. apply blames_finally; [|eauto with netz]. unfold shared_rotation_body.
    cbv zeta. apply blames_bind; [eauto 20 with netz|]. intros _. apply blames_bind.
    { apply blames_for_each_in. intros [i f] Hi%shared_indices.
      apply index_blames; [lia|eauto with netz]. }
    intros _. apply blames_bind; [|eauto 20 with netz].
    apply blames_for_each_in. intros [mi receivers] Hi%elem_of_enumerate.
    apply index_blames; [lia|]. intros first. apply blames_bind; [eauto with netz|]. intros _.
    apply blames_for_each_in. intros r Hr. pose proof (receiver_indices _ _ Hi Hr).
    apply index_blames; [lia|eauto with netz].
Qed.

(** [list.remove] finds every topic that is cleared. *)
Fixpoint removable (l : list (Z * string)) (remaining : list string) : Prop :=
    match l with
    | [] => True
    | (_, topic) :: l' =>
        match py_remove topic remaining with
        | Some remaining' => removable l' remaining'
        | None => False
        end
    end.

Lemma remove_blames l remaining (body : list string -> Z * string -> M W (list string)) :
    (forall remaining mid topic r, py_remove topic remaining = Some r ->
       safe (body remaining (mid, topic)) /\
       runs (body remaining (mid, topic)) (fun o _ => forall a, o = Ok a -> a = r)) ->
    removable l remaining -> safe (for_fold l remaining body).
Proof.
    intros Hb. revert remaining.
    induction l as [|[i topic] l IH]; intros remaining Hl; simpl in *; [apply blames_ret|].
    destruct (py_remove topic remaining) as [r|] eqn:Hr; [|done].
    destruct (Hb remaining i topic r Hr) as [Hs Ho].
    apply (blames_bind_with _ (fun r' => r' = r)); [done|done|by intros ? ->; apply IH].
Qed.

Lemma multilevel_blames : safe (retained_multilevel_clear exe mqtt_packets).
Proof.
    apply with_broker_blames. intros b. apply blames_with_socket; [eauto with netz|]. intros s.
    apply blames_bind; [eauto with netz|]. intros _.
    apply blames_bind; [eauto 20 with netz|]. intros _.
    apply blames_bind; [unfold replay; eauto 20 with netz|]. intros _.
    apply blames_bind; [|eauto with netz]. apply remove_blames; [|by vm_compute].
    intros remaining mid topic r ->. unfold replay. split; [eauto 20 with netz|].
    apply runs_bind. intros w1 [[]|e|] w1' t1 _; try done.
    apply runs_bind. intros w2 [[]|e|] w2' t2 _; try done.
    apply runs_bind. intros w3 [[]|e|] w3' t3 _; try done.
    apply runs_ret. by intros ? [= <-].
Qed.

(** The check of an assigned identifier: every index is in range; only the
    decoding of the identifier can raise by itself. *)
Lemma rbind_inl {A B} (r : result A) (k : A -> result B) e :
    rbind r k = inl e -> r = inl e \/ exists a, r = inr a /\ k a = inl e.
Proof. destruct r; simpl; intros Hr; [injection Hr as ->; by left|right; eauto]. Qed.

Lemma check_step {B} bad e (k : unit -> result B) e' :
    rbind (check bad e) k = inl e' -> e' = e \/ (bad = false /\ k tt = inl e').
Proof. destruct bad; simpl; [|by right]. intros [= <-]. by left. Qed.

Lemma check_assigned_errors index connack base e :
    connack <> [] -> check_assigned mqtt5_props index connack base = inl e ->
    allowed [UnicodeDecodeError] e.
Proof.
    intros Hne. unfold check_assigned, test_index.
    destruct (py_index_ok connack 0) as [h ->].
    { destruct connack; [done|]. unfold len. simpl. lia. }
    intros [Hc|(bad & Hbad & Hc)]%rbind_inl; [by destruct (bool_decide _) in Hc|].
    apply check_step in Hc as [->|[-> Hc]]; [by left|].
    assert (5 <= len connack) as Hlen.
    { unfold py_or in Hbad. destruct (bool_decide (b2z h <> _)); [done|].
      injection Hbad as Hbad. apply orb_false_iff in Hbad as [_ Hbad].
      apply bool_decide_eq_false in Hbad. lia. }
    destruct (py_index_ok connack 4) as [pl Hpl]; [lia|]. rewrite Hpl in Hc. cbn [rbind] in Hc.
    apply check_step in Hc as [->|[Hl Hc]]; [by left|].
    set (properties := py_slice connack 5 _) in Hc.
    apply rbind_inl in Hc as [Hc|(missing & Hmiss & Hc)].
    { exfalso. unfold py_or in Hc. case_bool_decide as Hp; [done|].
      destruct (py_index_ok properties 0) as [x Hx]; [lia|]. by rewrite Hx in Hc. }
    apply check_step in Hc as [->|[_ Hc]]; [by left|].
    apply check_step in Hc as [->|[_ Hc]]; [by left|].
    apply rbind_inl in Hc as [Hc|(id & _ & Hc)].
    { right. revert Hc. unfold decode_ascii. destruct (decide (Forall _ _)); [done|]. intros [= <-].
      apply list_elem_of_here. }
    apply check_step in Hc as [->|[_ Hc]]; [by left|].
    by apply check_step in Hc as [->|[_ Hc]]; [left|].
Qed.

Lemma assigned_blames :
    blames (allowed [UnicodeDecodeError]) (assigned_client_identifier (W:=W) exe mqtt_packets mqtt5_props).
Proof.
    apply with_broker_blames. intros b. apply blames_with_socket; [eauto with netz|]. intros s1.
    apply blames_with_socket; [eauto with netz|]. intros s2.
    apply (blames_bind_with _ (fun ids => len ids = 2)).
    - apply blames_for_fold. intros ids [index s]. apply blames_bind; [eauto with netz|].
      intros _. apply examine_blames. intros p Hp. apply blames_bind; [|eauto with netz].
      apply blames_lift. intros e. by apply check_assigned_errors, packet_nonempty.
    - eapply runs_mono; [apply append_length|].
      + intros ids [index s]. apply runs_bind. intros w1 [[]|e|] w1' t1 _; try done.
        apply runs_bind. intros w2 [p|e|] w2' t2 _; try done.
        apply runs_bind. intros w3 [id|e|] w3' t3 _; try done.
        apply runs_ret. intros a [= <-]. rewrite length_app. simpl. lia.
      + intros o t Ho a Ha. unfold len. by rewrite (Ho a Ha).
    - intros ids Hl. apply index_blames; [lia|]. intros id0. apply index_blames; [lia|].
      intros id1. eauto 20 with netz.
Qed.

Lemma scenarios_blame :
    Forall (fun '(name, m) => blames (allowed (unguarded name)) m)
      (scenarios (W:=W) exe mqtt_packets mqtt5_props mqtt5_rc mqtt5_opts).
Proof.
    unfold scenarios; repeat apply Forall_cons_2; [..|apply Forall_nil_2];
      match goal with |- blames (allowed ?l) _ =>
        let v := eval vm_compute in l in change l with v end;
      first [ exact hostile_blames | exact shared_blames | exact multilevel_blames
            | exact assigned_blames | open_scenario; solve [eauto 200 with netz] ].
Qed.

(** C11: What can go wrong with a scenario.  An exception that escapes from it is
    a failed assertion, the failure of a broker to start or stop, or one that a
    system call of the run raised: no index, key, slice, conversion or
    [list.remove] of the driver fails, whatever the broker sends.  The
    exceptions are the four scenarios that index a CONNACK without a check of
    its length, and the identifier that is decoded as ASCII. *)
Theorem scenario_exceptions name m (w : W) e w' t :
    (name, m) ∈ scenarios exe mqtt_packets mqtt5_props mqtt5_rc mqtt5_opts ->
    m w = (Raise e, w', t) ->
    verdict e \/ failed e t \/
    (e = IndexError /\ name ∈ ["outgoing_topic_alias"; "qos2_receive_maximum_one";
                               "maximum_packet_size_qos1"; "maximum_packet_size_qos2"]) \/
    (e = UnicodeDecodeError /\ name = "assigned_client_identifier").
Proof.
    intros Hin Hr. pose proof scenarios_blame as Hall. rewrite list.Forall_forall in Hall.
    specialize (Hall _ Hin _ _ _ _ Hr e eq_refl) as [[Hv|Ho]|Hf]; auto.
    right; right. unfold unguarded in Ho. case_decide as Hn.
    - apply list_elem_of_singleton in Ho as ->. auto.
    - case_decide; [|by apply not_elem_of_nil in Ho].
      apply list_elem_of_singleton in Ho as ->. auto.
Qed.

End scenarios.

(** ** Instances *)

(** A CONNACK whose assigned identifier is not ASCII. *)
Definition latin_connack : bytes :=
  wire_connack [ "proto_ver" @= 5; "properties" @= VBytes
    (lo8 (ASSIGNED_CLIENT_IDENTIFIER wire_props) :: u16 1 ++ [lo8 0xE9]) ].
Definition latin_stream : canned := good [[Chunk latin_connack]].
Abbreviation latin_run :=
  (assigned_client_identifier (W:=canned) "netz-mqtt-broker" wire_packets wire_props latin_stream).

(** The decoding error takes the place of the assertion that shows the
    packet. *)
Lemma latin_identifier_escapes : latin_run.1.1 = Raise UnicodeDecodeError.
Proof. vm_compute. reflexivity. Qed.

Lemma scenario_exceptions_witness :
  verdict UnicodeDecodeError \/ failed UnicodeDecodeError latin_run.2 \/
  (UnicodeDecodeError = IndexError /\
     "assigned_client_identifier" ∈ ["outgoing_topic_alias"; "qos2_receive_maximum_one";
        "maximum_packet_size_qos1"; "maximum_packet_size_qos2"]) \/
  (UnicodeDecodeError = UnicodeDecodeError /\
     "assigned_client_identifier" = "assigned_client_identifier").
Proof.
  apply (scenario_exceptions "netz-mqtt-broker" wire_packets wire_props wire_rc wire_opts
    "assigned_client_identifier"
    (assigned_client_identifier "netz-mqtt-broker" wire_packets wire_props)
    latin_stream UnicodeDecodeError latin_run.1.2 latin_run.2).
  - unfold scenarios. do 32 apply list_elem_of_further. apply list_elem_of_here.
  - pose proof latin_identifier_escapes as He. revert He. generalize latin_run.
    intros [[o w] t]. simpl. by intros ->.
Defined.
