(* ===== verification/Honest.v ===== *)
(** * Traces tell the truth

    [happened w t w']: from the state [w] the platform answers the calls of [t]
    with the results that [t] records and ends in [w'].  Every computation of
    the driver is [honest]: its trace is what happened, nothing is left out and
    nothing is made up.  With it, what a trace shows is a fact about the
    platform. *)

From Stdlib Require Import ZArith Lia.
From stdpp Require Import base list option strings.
From S2P Require Import Prelude PyValues Effects Traces Canned Wire Expect Mosquitto Broker.
From S2P Require Import Connack Discipline Capabilities Qos Retained Sessions Forwarding Main.
Local Open Scope Z_scope.

Section honest.
  Context {W : Type} `{Platform W}.

Definition occurs (w : W) (ev : event) (w' : W) : Prop :=
    match ev with
    | EvSocket r => sys_socket w = (r, w')
    | EvBind s host port r => sys_bind s host port w = (r, w')
    | EvGetsockname s r => sys_getsockname s w = (r, w')
    | EvConnect host port timeout r => sys_create_connection host port timeout w = (r, w')
    | EvSettimeout s ms r => sys_settimeout s ms w = (r, w')
    | EvSendall s d r => sys_sendall s d w = (r, w')
    | EvRecv s n r => sys_recv s n w = (r, w')
    | EvClose s r => sys_close s w = (r, w')
    | EvPopen cmd r => sys_popen cmd w = (r, w')
    | EvReadline p r => sys_readline p w = (r, w')
    | EvRead p r => sys_read p w = (r, w')
    | EvWait p timeout r => sys_wait p timeout w = (r, w')
    | EvTerminate p r => sys_terminate p w = (r, w')
    | EvSleep ms r => sys_sleep ms w = (r, w')
    | EvPrint line r => sys_print line w = (r, w')
    end.

Fixpoint happened (w : W) (t : trace) (w' : W) : Prop :=
    match t with
    | [] => w = w'
    | ev :: t' => exists w1, occurs w ev w1 /\ happened w1 t' w'
    end.

Lemma happened_app w t1 t2 w' :
    happened w (t1 ++ t2) w' <-> exists w1, happened w t1 w1 /\ happened w1 t2 w'.
Proof.
    revert w. induction t1 as [|ev t1 IH]; intros w; simpl.
    - split; [by exists w|]. by intros (w1 & -> & ?).
    - split.
      + intros (w1 & Ho & (w2 & H1 & H2)%IH). eauto.
      + intros (w2 & (w1 & Ho & H1) & H2). exists w1. split; [done|]. apply IH. eauto.
Qed.

Definition honest {A} (m : M W A) : Prop :=
    forall w o w' t, m w = (o, w', t) -> happened w t w'.

Lemma honest_ret {A} (a : A) : honest (mret a).
Proof. by intros w o w' t [= <- <- <-]. Qed.

Lemma honest_raise {A} e : honest (A:=A) (raise e).
Proof. by intros w o w' t [= <- <- <-]. Qed.

Lemma honest_lift {A} (r : result A) : honest (lift r).
Proof. by intros w o w' t [= <- <- <-]. Qed.

Lemma honest_out_of_fuel {A} : honest (A:=A) out_of_fuel.
Proof. by intros w o w' t [= <- <- <-]. Qed.

Lemma honest_bind {A B} (m : M W A) (k : A -> M W B) :
    honest m -> (forall a, honest (k a)) -> honest (m ≫= k).
Proof.
    intros Hm Hk w o w' t. unfold mbind, M_bind.
    destruct (m w) as [[[a|e|] w1] t1] eqn:E; apply Hm in E; [|by intros [= <- <- <-]..].
    destruct (k a w1) as [[o2 w2] t2] eqn:E2. intros [= <- <- <-].
    apply happened_app. exists w1. split; [done|]. by eapply Hk.
Qed.

Lemma honest_try {A} (m : M W A) handled h :
    honest m -> (forall e, honest (h e)) -> honest (try_except m handled h).
Proof.
    intros Hm Hh w o w' t. unfold try_except.
    destruct (m w) as [[[a|e|] w1] t1] eqn:E; apply Hm in E; [by intros [= <- <- <-]| |
      by intros [= <- <- <-]].
    destruct (handled e); [|by intros [= <- <- <-]].
    destruct (h e w1) as [[o2 w2] t2] eqn:E2. intros [= <- <- <-].
    apply happened_app. exists w1. split; [done|]. by eapply Hh.
Qed.

Lemma honest_with_exit {A} (m : M W A) f :
    honest m -> (forall b, honest (f b)) -> honest (with_exit m f).
Proof.
    intros Hm Hf w o w' t. unfold with_exit.
    destruct (m w) as [[[a|e|] w1] t1] eqn:E; apply Hm in E; [..|by intros [= <- <- <-]];
      [destruct (f false w1) as [[[u|e'|] w2] t2] eqn:E2
      |destruct (f true w1) as [[[u|e'|] w2] t2] eqn:E2];
      intros [= <- <- <-]; apply happened_app; exists w1; (split; [done|]); by eapply Hf.
Qed.

Lemma honest_finally {A} (m : M W A) f : honest m -> honest f -> honest (finally m f).
Proof. intros. by apply honest_with_exit. Qed.

Lemma honest_for_each {A} (l : list A) (body : A -> M W unit) :
    (forall x, honest (body x)) -> honest (for_each l body).
Proof.
    intros Hb. induction l; simpl; [apply honest_ret|]. by apply honest_bind.
Qed.

Lemma honest_for_fold {A B} (l : list A) (body : B -> A -> M W B) acc :
    (forall b x, honest (body b x)) -> honest (for_fold l acc body).
Proof.
    intros Hb. revert acc. induction l; intros acc; simpl; [apply honest_ret|].
    apply honest_bind; auto.
Qed.

Lemma honest_raise_if b e : honest (raise_if b e).
Proof. destruct b; [apply honest_raise|apply honest_ret]. Qed.

Lemma honest_call {A} (f : W -> result A * W) ev :
    (forall w r w', f w = (r, w') -> occurs w (ev r) w') -> honest (call f ev).
Proof.
    intros Hf w o w' t. unfold call. destruct (f w) as [r w1] eqn:E. intros [= <- <- <-].
    exists w1. split; [auto|done].
Qed.

Lemma honest_with_socket {A} opened (body : sock -> M W A) :
    honest opened -> (forall s, honest (body s)) -> honest (with_socket opened body).
Proof.
    intros Ho Hb. apply honest_bind; [done|]. intros s.
    apply honest_finally; [done|]. by apply honest_call.
Qed.

End honest.

#[export] Hint Resolve honest_ret honest_raise honest_lift honest_out_of_fuel honest_bind
  honest_try honest_with_exit honest_finally honest_for_each honest_for_fold honest_raise_if
  honest_call honest_with_socket : netz.
#[export] Hint Extern 1 (occurs _ _ _) => assumption : netz.
#[export] Hint Extern 4 (honest (match _ with _ => _ end)) => split_computation : netz.

(** ** The building blocks *)

Section blocks.
  Context {W : Type} `{Platform W} (mp : MqttPackets).

Lemma recv_exact_honest s count : honest (recv_exact s count).
Proof.
    unfold recv_exact. generalize (@nil byte) as acc.
    induction (Z.to_nat count) as [|fuel IH]; intros acc; simpl; case_decide;
      eauto 10 with netz.
Qed.

Lemma length_loop_honest fuel s rb mul n : honest (length_loop fuel s rb mul n).
Proof.
    revert rb mul n. induction fuel as [|fuel IH]; intros rb mul n; simpl; [auto with netz|].
    apply honest_bind; [apply recv_exact_honest|]. intros one.
    apply honest_bind; [auto with netz|]. intros b. cbv zeta.
    repeat case_decide; auto with netz.
Qed.

Lemma read_packet_honest s : honest (read_packet s).
Proof.
    apply honest_bind; [apply recv_exact_honest|]. intros fixed.
    apply honest_bind; [apply length_loop_honest|]. intros [rb n].
    apply honest_bind; [apply recv_exact_honest|auto with netz].
Qed.

Hint Resolve read_packet_honest : netz.

Lemma expect_packet_honest s p label : honest (expect_packet s p label).
Proof. unfold expect_packet. eauto with netz. Qed.

Lemma expect_unordered_honest s ps label : honest (expect_packets_unordered s ps label).
Proof. unfold expect_packets_unordered, take_expected. eauto 10 with netz. Qed.

Lemma expect_silence_honest s c : honest (expect_silence s c).
Proof. unfold expect_silence. eauto 20 with netz. Qed.

Lemma expect_no_answer_honest s c : honest (expect_no_answer s c).
Proof. unfold expect_no_answer. eauto 20 with netz. Qed.

Lemma connect_client_honest s cid v : honest (connect_client mp s cid v).
Proof. unfold connect_client. eauto 10 with netz. Qed.

Lemma connect_persistent_honest s cid b : honest (connect_persistent_v5 mp s cid b).
Proof. unfold connect_persistent_v5. eauto 10 with netz. Qed.

Lemma connect_honest b : honest (connect b).
Proof. unfold connect. eauto 10 with netz. Qed.

Lemma with_broker_honest {A} exe n ig extra (body : NetzBroker -> M W A) :
    (forall b, honest (body b)) -> honest (with_broker exe n ig extra body).
Proof.
    intros Hb. unfold with_broker, init, enter. apply honest_bind.
    { unfold free_port. eauto 20 with netz. }
    intros b. apply honest_bind; [eauto 20 with netz|]. intros b'.
    apply honest_with_exit; [done|]. intros raised. unfold exit. eauto 20 with netz.
Qed.

End blocks.

#[export] Hint Resolve read_packet_honest expect_packet_honest expect_unordered_honest
  expect_silence_honest expect_no_answer_honest connect_client_honest
  connect_persistent_honest connect_honest with_broker_honest : netz.

Section suite.
  Context {W : Type} `{Platform W}.
  Context (exe : string) (mqtt_packets : MqttPackets) (mqtt5_props : Mqtt5Props)
    (mqtt5_rc : Mqtt5Rc) (mqtt5_opts : Mqtt5Opts).

Lemma scenarios_honest :
    Forall (fun '(_, m) => honest m)
      (scenarios (W:=W) exe mqtt_packets mqtt5_props mqtt5_rc mqtt5_opts).
Proof. each_scenario ltac:(eauto 200 with netz). Qed.

Lemma main_honest : honest (main (W:=W) exe mqtt_packets mqtt5_props mqtt5_rc mqtt5_opts).
Proof.
    apply honest_bind; [|intros _; by apply honest_call].
    induction scenarios_honest as [|[name m] l Hm _ IH]; [apply honest_ret|by apply honest_bind].
Qed.

End suite.
