(* ===== verification/Scripts.v ===== *)
(** * The scripts of the scenarios

    For each scenario of the suite, the dialogue that its passing runs perform
    ([Script]), and the proof that they do.  Connections are numbered in the
    order in which they are opened. *)

From Stdlib Require Import ZArith Lia.
From stdpp Require Import base list option strings.
From S2P Require Import Prelude PyValues Effects Traces Canned Wire Expect Mosquitto Broker.
From S2P Require Import Connack Script Capabilities Qos Retained Sessions Forwarding Main.
Local Open Scope Z_scope.

(** Frames: one connection; two nested ones. *)
Definition solo (extra : list string) (body : script) : script :=
  Launch 1 false extra :: Open :: body ++ [Close 0; Finish].

Definition duo (body : script) : script :=
  Launch 2 false [] :: Open :: Open :: body ++ [Close 1; Close 0; Finish].

Definition connack_ok (v : Z) (p : bytes) : bool := bool_decide (bad_connack p v = inr false).
Definition persistent_ok (present : bool) (p : bytes) : bool :=
  bool_decide (bad_persistent p present = inr false).
Definition plain_ok (p : bytes) : bool := bool_decide (bad_plain_connack p = inr false).

Section scripts.
  Context (mqtt_packets : MqttPackets) (mqtt5_props : Mqtt5Props)
    (mqtt5_rc : Mqtt5Rc) (mqtt5_opts : Mqtt5Opts).

Abbreviation v5 := ("proto_ver" @= 5).
Abbreviation publish := (gen_publish mqtt_packets).
Abbreviation subscribe := (gen_subscribe mqtt_packets).
Abbreviation suback mid q := (gen_suback mqtt_packets mid q [v5]).
Abbreviation puback mid := (gen_puback mqtt_packets mid [v5]).
Abbreviation pubrec mid := (gen_pubrec mqtt_packets mid [v5]).
Abbreviation pubrel mid := (gen_pubrel mqtt_packets mid [v5]).
Abbreviation pubcomp mid := (gen_pubcomp mqtt_packets mid [v5]).
Abbreviation connack := (expected_connack mqtt_packets mqtt5_props).
Abbreviation subid_prop i :=
    (gen_varint_prop mqtt5_props (SUBSCRIPTION_IDENTIFIER mqtt5_props) i).

(** Exchanges that recur. *)
Definition hello (i : nat) (client_id : string) : script :=
    [ Send i (gen_connect mqtt_packets client_id [v5]); RecvOk i (fun _ => connack_ok 5) ].
Definition bye (i : nat) : script := [Send i (gen_disconnect mqtt_packets [v5])].
Definition ping (i : nat) : script :=
    [ Send i (gen_pingreq mqtt_packets); Recv i (gen_pingresp mqtt_packets) ].
Definition subs (i : nat) (mid : Z) (filter : string) (options granted : Z) : script :=
    [ Send i (subscribe mid filter options [v5]); Recv i (suback mid granted) ].
Definition disconnect_with (i : nat) (reason : Z) : step :=
    Recv i (gen_disconnect mqtt_packets ["reason_code" @= VInt reason; v5]).
(** An acknowledgement "no matching subscribers". *)
Definition unmatched (i : nat) (mid rc : Z) : step :=
    Recv i (gen_puback mqtt_packets mid [v5; "reason_code" @= VInt rc]).

(** ** Capabilities *)

Definition no_matching_subscribers_script : script :=
    solo [] (
      hello 0 "03-pub-qos1-no-subs" ++
      flat_map (fun '(mid, topic) =>
        [ Send 0 (publish topic
            ["qos" @= 1; "mid" @= VInt mid; "payload" @= "message"; v5]);
          unmatched 0 mid mqtt5_rc.(NO_MATCHING_SUBSCRIBERS) ]) (enumerate 1 no_subs_topics) ++
      [ Send 0 (publish "03B/no/subs/pub/qos1/test"
          ["qos" @= 1; "mid" @= 4; "payload" @= "message"; v5; "retain" @= true]);
        unmatched 0 4 mqtt5_rc.(NO_MATCHING_SUBSCRIBERS) ] ++
      bye 0).

Definition subscription_identifiers_script : script :=
    solo [] (
      hello 0 "02-subpub-subid" ++
      flat_map (fun '(mid, topic, identifier) =>
        [ Send 0 (subscribe mid topic 0
            [v5; "properties" @= VBytes (subid_props mqtt5_props identifier)]);
          Recv 0 (suback mid 0) ]) subid_subscriptions ++
      flat_map (fun '(topic, payload, identifier) =>
        [ Send 0 (publish topic ["qos" @= 0; "payload" @= VStr payload; v5]);
          Recv 0 (publish topic ["qos" @= 0; "payload" @= VStr payload; v5;
            "properties" @= VBytes (subid_props mqtt5_props identifier)]) ])
        subid_publishes ++
      bye 0).

Definition multiple_subscription_identifiers_script : script :=
    solo [] (
      hello 0 "multi-subscription-id" ++
      flat_map (fun '(mid, topic_filter, identifier, options) =>
        [ Send 0 (subscribe mid topic_filter options
            [v5; "properties" @= VBytes (subid_prop identifier)]);
          Recv 0 (suback mid (Z.land options 0x03)) ]) (multi_subid_table mqtt5_opts) ++
      [ Send 0 (publish "multi/subid/value"
          ["qos" @= 1; "mid" @= 10; "payload" @= "both"; "retain" @= true; v5]);
        Recv 0 (puback 10);
        Recv 0 (publish "multi/subid/value"
          ["qos" @= 1; "mid" @= 1; "payload" @= "both"; "retain" @= true; v5;
           "properties" @= VBytes (subid_prop 3 ++ subid_prop 9)]);
        Send 0 (puback 1) ] ++
      bye 0).

(** The first bytes of a hostile client. *)
Definition hostile_bytes (packet_type : Z) : bytes :=
    match hostile_packet packet_type with inr raw => raw | inl _ => [] end.

Definition hostile_initial_packets_script : script :=
    Launch 15 true [] ::
    flat_map (fun '(i, packet_type) =>
      [ Open; Send i (hostile_bytes packet_type); NoAnswer i; Close i ])
      (zip (seq 0 14) hostile_types) ++
    [Open] ++ hello 14 "after-hostile-initial" ++ bye 14 ++ [Close 14; Finish].

Definition publish_capability_disconnects_script : script :=
    flat_map (fun '(args, packet, advertised, reason, label) =>
      solo args
        [ Send 0 (gen_connect mqtt_packets "publish-capability" [v5]);
          Recv 0 (connack (with_extra advertised));
          Send 0 packet;
          disconnect_with 0 reason ])
      (publish_cases mqtt_packets mqtt5_props mqtt5_rc).

Definition maximum_packet_size_disconnect_script : script :=
    solo ["--max-packet-size=50"] (
      [ Send 0 (gen_connect mqtt_packets "12-max-packet-broker" [v5]);
        Recv 0 (connack (with_packet_size 50));
        Send 0 (broker_size_publish mqtt_packets "012345678") ] ++
      ping 0 ++
      [ Send 0 (broker_size_publish mqtt_packets "0123456789");
        disconnect_with 0 mqtt5_rc.(PACKET_TOO_LARGE) ]).

Definition topic_alias_disconnect_script : script :=
    solo ["--topic-alias-maximum=1"]
      [ Send 0 (gen_connect mqtt_packets "topic-alias-invalid" [v5]);
        Recv 0 (connack (with_alias_maximum 1));
        Send 0 (publish "alias/too-large" ["qos" @= 0; "payload" @= "blocked"; v5;
          "properties" @= VBytes (mqtt5_props.(gen_uint16_prop) mqtt5_props.(TOPIC_ALIAS) 2)]);
        disconnect_with 0 mqtt5_rc.(TOPIC_ALIAS_INVALID) ].

Definition receive_maximum_disconnect_script : script :=
    solo ["--max-outgoing-inflight=1"] (
      hello 0 "receive-maximum-exceeded" ++
      [ Send 0 (publish "receive/maximum/one" ["qos" @= 2; "mid" @= 1; v5]);
        Send 0 (publish "receive/maximum/two" ["qos" @= 2; "mid" @= 2; v5]);
        Recv 0 (pubrec 1);
        disconnect_with 0 mqtt5_rc.(RECEIVE_MAXIMUM_EXCEEDED) ]).

Definition subscription_capability_disconnects_script : script :=
    flat_map (fun '(args, topic, subscribe_props, advertised_id, reason, label) =>
      [ Launch 1 true args; Open;
        Send 0 (gen_connect mqtt_packets "subscription-capability" [v5]);
        Recv 0 (connack (with_extra (mqtt5_props.(gen_byte_prop) advertised_id 0)));
        Send 0 (subscribe 1 topic 0 [v5; "properties" @= VBytes subscribe_props]);
        disconnect_with 0 reason;
        Close 0; Finish ])
      (subscription_cases mqtt5_props mqtt5_rc).

Definition reject_publish_subscription_identifier_script : script :=
    [ Launch 2 true []; Open ] ++
    hello 0 "illegal-publish-subid" ++
    [ Send 0 (publish "illegal/subid" ["qos" @= 0; "payload" @= "bad"; v5;
        "properties" @= VBytes (subid_prop 7)]);
      NoAnswer 0; Close 0; Open ] ++
    hello 1 "after-illegal-subid" ++ ping 1 ++ bye 1 ++ [Close 1; Finish].

Definition unsubscribe_reason_codes_script : script :=
    let topic := "unsubscribe/reason/existing" in
    duo (
      hello 0 "unsubscribe-reasons" ++ subs 0 1 topic 0 0 ++
      [ Send 0 (gen_unsubscribe_multiple mqtt_packets 2
          [topic; "unsubscribe/reason/missing"] [v5]);
        Recv 0 (gen_unsuback mqtt_packets 2 ["reason_code" @= VInts [0x00; 0x11]; v5]) ] ++
      hello 1 "unsubscribe-publisher" ++
      [ Send 1 (publish topic ["qos" @= 0; "payload" @= "not-routed"; v5]) ] ++
      ping 0 ++ bye 1 ++ bye 0).

(** ** QoS 1 and QoS 2 *)

Definition qos2_routes_at_pubrel_script : script :=
    let topic := "pub/qos2/reuse" in
    duo (
      hello 0 "sub-qos2-test" ++ subs 0 1 topic 2 2 ++ hello 1 "pub-qos2-test" ++
      [ Send 1 (publish topic ["qos" @= 2; "mid" @= 312; "payload" @= "message"; v5]);
        Recv 1 (pubrec 312);
        Quiet 0;
        Send 1 (pubrel 312);
        Recv 1 (pubcomp 312);
        Recv 0 (publish topic ["qos" @= 2; "mid" @= 1; "payload" @= "message"; v5]);
        Send 0 (pubrec 1);
        Recv 0 (pubrel 1);
        Send 0 (pubcomp 1) ] ++
      bye 1 ++ bye 0).

Definition mixed_version_qos1_script : script :=
    let topic := "mixed/version/qos1" in
    let v4 := "proto_ver" @= 4 in
    duo (
      [ Send 0 (gen_connect mqtt_packets "mixed-v3-sub" [v4]);
        RecvOk 0 (fun _ => connack_ok 4);
        Send 0 (subscribe 1 topic 1 [v4]);
        Recv 0 (gen_suback mqtt_packets 1 1 [v4]) ] ++
      hello 1 "mixed-v5-pub" ++
      [ Send 1 (publish topic ["qos" @= 1; "mid" @= 77; "payload" @= "cross-version"; v5]);
        Recv 1 (puback 77);
        Recv 0 (publish topic ["qos" @= 1; "mid" @= 1; "payload" @= "cross-version"; v4]);
        Send 0 (gen_puback mqtt_packets 1 [v4]) ] ++
      bye 1 ++ [Send 0 (gen_disconnect mqtt_packets [v4])]).

(** The publisher's half of a QoS 2 delivery. *)
Definition release (i : nat) (mid : Z) : script :=
    [ Send i (pubrel mid); Recv i (pubcomp mid) ].

Definition qos2_receive_maximum_one_script : script :=
    let topic := "subpub/qos2/receive/maximum1" in
    let message (mid : Z) : bytes := publish topic
      ["qos" @= 2; "mid" @= VInt mid; "payload" @= ("message" +:+ str_int mid); v5] in
    let receive_one := mqtt5_props.(gen_uint16_prop) mqtt5_props.(RECEIVE_MAXIMUM) 1 in
    duo (
      [ Send 0 (gen_connect mqtt_packets "subpub-qos2-receive-max1"
          [v5; "properties" @= VBytes receive_one]);
        RecvOk 0 (fun _ => plain_ok) ] ++
      subs 0 1 topic 2 2 ++
      hello 1 "subpub-qos2-recv-max1-helper" ++
      flat_map (fun mid => [Send 1 (message mid); Recv 1 (pubrec mid)] ++ release 1 mid)
        [1; 2] ++
      [ Recv 0 (message 1); Quiet 0;
        Send 0 (pubrec 1); Recv 0 (pubrel 1); Send 0 (pubcomp 1);
        Recv 0 (message 2);
        Send 0 (pubrec 2); Recv 0 (pubrel 2); Send 0 (pubcomp 2) ] ++
      bye 1 ++ bye 0).

Definition maximum_packet_size_qos1_script : script :=
    let maximum := mqtt5_props.(gen_uint32_prop) mqtt5_props.(MAXIMUM_PACKET_SIZE) 40 in
    solo [] (
      [ Send 0 (gen_connect mqtt_packets "12-max-publish-qos1"
          [v5; "properties" @= VBytes maximum]);
        RecvOk 0 (fun _ => plain_ok) ] ++
      subs 0 1 qos1_size_topic 1 1 ++
      flat_map (fun '(mid, packet) => [Send 0 packet; Recv 0 (puback mid)] ++ ping 0)
        (enumerate 1 (oversized_qos1 mqtt_packets mqtt5_props)) ++
      [ Send 0 (fitting_qos1 mqtt_packets);
        RecvAll 0 [puback 3; fitting_qos1 mqtt_packets];
        Send 0 (puback 3) ] ++
      bye 0).

Definition maximum_packet_size_qos2_script : script :=
    let maximum := mqtt5_props.(gen_uint32_prop) mqtt5_props.(MAXIMUM_PACKET_SIZE) 40 in
    solo [] (
      [ Send 0 (gen_connect mqtt_packets "12-max-publish-qos2"
          [v5; "properties" @= VBytes maximum]);
        RecvOk 0 (fun _ => plain_ok) ] ++
      subs 0 1 qos2_size_topic 2 2 ++
      [ Send 0 (qos2_size_publish mqtt_packets 1 "1234"); Recv 0 (pubrec 1) ] ++
      release 0 1 ++ ping 0 ++
      [ Send 0 (qos2_size_publish mqtt_packets 2 "789"); Recv 0 (pubrec 2);
        Send 0 (pubrel 2);
        RecvAll 0 [pubcomp 2; qos2_size_publish mqtt_packets 2 "789"];
        Send 0 (pubrec 2); Recv 0 (pubrel 2); Send 0 (pubcomp 2) ] ++
      bye 0).

Definition shared_subscription_rotation_script : script :=
    Launch 5 false [] :: repeat Open 5 ++
    flat_map (fun '(i, index) => hello i ("02-shared-client" +:+ str_int index))
      (zip (seq 0 5) (range 1 6)) ++
    flat_map (fun '(i, topic_filter) => subs (Z.to_nat i) 1 topic_filter 0 0) shared_filters ++
    flat_map (fun '(message_index, receivers) =>
      let packet := publish "02A/share/test"
        ["qos" @= 0; "payload" @= ("message" +:+ str_int message_index); v5] in
      Send 0 packet :: ((fun i => Recv (Z.to_nat i) packet) <$> receivers))
      (enumerate 1 expected_receivers) ++
    flat_map bye (seq 0 5) ++ (Close <$> seq 0 5) ++ [Finish].

Definition qos2_duplicate_publish_script : script :=
    let topic := "03/c2b/qos2/duplicate/test" in
    duo (
      hello 0 "qos2-dup-subscriber" ++ subs 0 1 topic 2 2 ++ hello 1 "qos2-dup-publisher" ++
      flat_map (fun dup =>
        [ Send 1 (publish topic ["qos" @= 2; "mid" @= 7; "payload" @= "original";
            "dup" @= VBool dup; v5]);
          Recv 1 (pubrec 7);
          Quiet 0 ]) [false; true] ++
      release 1 7 ++
      [ Recv 0 (publish topic ["qos" @= 2; "mid" @= 1; "payload" @= "original"; v5]);
        Send 0 (pubrec 1); Recv 0 (pubrel 1); Send 0 (pubcomp 1) ] ++
      bye 1 ++ bye 0).

Definition qos2_repeated_pubrel_script : script :=
    let topic := "qos2/repeated/pubrel" in
    duo (
      hello 0 "repeat-rel-sub" ++ subs 0 1 topic 2 2 ++ hello 1 "repeat-rel-pub" ++
      [ Send 1 (publish topic ["qos" @= 2; "mid" @= 9; "payload" @= "once"; v5]);
        Recv 1 (pubrec 9) ] ++
      release 1 9 ++
      [ Recv 0 (publish topic ["qos" @= 2; "mid" @= 1; "payload" @= "once"; v5]);
        Send 0 (pubrec 1); Recv 0 (pubrel 1); Send 0 (pubcomp 1) ] ++
      release 1 9 ++ release 1 77 ++
      [Quiet 0] ++
      bye 1 ++ bye 0).

(** ** Retained messages *)

Definition retained_subscription_handling_script : script :=
    let message topic := publish topic
      ["qos" @= 0; "retain" @= true; "payload" @= "message"; v5] in
    solo [] (
      hello 0 "02-subpub-qos0-send-retain" ++
      ((fun topic => Send 0 (message topic)) <$> [topic_always; topic_new; topic_never]) ++
      flat_map (fun '(mid, topic, options, first_delivery, second_delivery) =>
        flat_map (fun delivered : bool =>
          subs 0 mid topic options 0 ++
          [if delivered then Recv 0 (message topic) else Quiet 0])
          [first_delivery; second_delivery])
        (retain_cases mqtt5_opts) ++
      bye 0).

Definition retained_message_expiry_script : script :=
    let no_match := mqtt5_rc.(NO_MATCHING_SUBSCRIBERS) in
    let expiry_two :=
      mqtt5_props.(gen_uint32_prop) mqtt5_props.(MESSAGE_EXPIRY_INTERVAL) 2 in
    let kept_replay := publish "subpub/kept"
      ["qos" @= 0; "retain" @= true; "payload" @= "message2"; v5] in
    [ Launch 3 false []; Open ] ++
    hello 0 "expiry-helper" ++
    [ Send 0 (publish "subpub/expired" ["qos" @= 1; "mid" @= 1; "retain" @= true;
        "payload" @= "message1"; v5; "properties" @= VBytes expiry_two]);
      unmatched 0 1 no_match;
      Send 0 (publish "subpub/kept" ["qos" @= 1; "mid" @= 2; "retain" @= true;
        "payload" @= "message2"; v5]);
      unmatched 0 2 no_match ] ++
    bye 0 ++ [Close 0; Open] ++
    hello 1 "expiry-immediate" ++ subs 1 1 "subpub/expired" 0 0 ++
    [ RecvOk 1 (fun _ p => bool_decide (p ∈ expiry_variants mqtt_packets mqtt5_props)) ] ++
    subs 1 2 "subpub/kept" 0 0 ++ [Recv 1 kept_replay] ++
    bye 1 ++ [Close 1; Pause 3000; Open] ++
    hello 2 "expiry-late" ++ subs 2 1 "subpub/expired" 0 0 ++
    subs 2 2 "subpub/kept" 0 0 ++ [Recv 2 kept_replay] ++
    bye 2 ++ [Close 2; Finish].

Definition unsubs (i : nat) (mid : Z) (filter : string) : script :=
    [ Send i (gen_unsubscribe mqtt_packets mid filter [v5]);
      Recv i (gen_unsuback mqtt_packets mid [v5]) ].

Definition retained_repeated_lifecycle_script : script :=
    let topic := "retain/qos0/repeated" in
    let retained := publish topic
      ["qos" @= 0; "payload" @= "retained message"; "retain" @= true; v5] in
    solo [] (
      hello 0 "retain-qos0-rep-test" ++ [Send 0 retained] ++
      subs 0 16 topic 0 0 ++ [Recv 0 retained] ++ unsubs 0 13 topic ++
      subs 0 16 topic 0 0 ++ [Recv 0 retained] ++ unsubs 0 14 topic ++
      [ Send 0 (publish topic ["qos" @= 0; "payload" @= VNone; "retain" @= true; v5]) ] ++
      subs 0 17 topic 0 0 ++ ping 0 ++ bye 0).

Definition replay_script (mid : Z) (topics : list string) : script :=
    subs 0 mid "#" 0 0 ++
    [ RecvAll 0 ((fun topic => publish topic
        ["qos" @= 0; "payload" @= "retained message"; "retain" @= true; v5]) <$> topics) ] ++
    unsubs 0 mid "#".

Definition retained_multilevel_clear_script : script :=
    let set mid topic payload :=
      [ Send 0 (publish topic ["qos" @= 1; "mid" @= VInt mid; "payload" @= payload;
          "retain" @= true; v5]);
        unmatched 0 mid 0x10 ] in
    solo [] (
      hello 0 "retain-clear-test" ++
      flat_map (fun '(mid, topic) => set mid topic (VStr "retained message"))
        (enumerate 1 multilevel_topics) ++
      replay_script 10 ["1"; "1/2/3/4"; "1/2/3/4/5/6/7"] ++
      set 20 "1/2/3/4" VNone ++ replay_script 40 ["1"; "1/2/3/4/5/6/7"] ++
      set 21 "1/2/3/4/5/6/7" VNone ++ replay_script 41 ["1"] ++
      bye 0).

Definition retain_as_published_live_script : script :=
    let topic := "retain/as/published/live" in
    let live (retain : bool) := publish topic
      ["qos" @= 0; "payload" @= "retained-live"; "retain" @= VBool retain; v5] in
    [ Launch 3 false []; Open; Open; Open ] ++
    hello 0 "rap-clear" ++ hello 1 "rap-preserve" ++
    subs 0 1 topic 0 0 ++
    subs 1 1 topic mqtt5_opts.(MQTT_SUB_OPT_RETAIN_AS_PUBLISHED) 0 ++
    hello 2 "rap-publisher" ++
    [ Send 2 (publish topic ["qos" @= 1; "mid" @= 1; "payload" @= "retained-live";
        "retain" @= true; v5]);
      Recv 2 (puback 1);
      Recv 0 (live false);
      Recv 1 (live true) ] ++
    bye 2 ++ bye 0 ++ bye 1 ++ [Close 2; Close 1; Close 0; Finish].

(** A User Property. *)
Definition user (key value : string) : bytes :=
    mqtt5_props.(gen_string_pair_prop) mqtt5_props.(USER_PROPERTY) key value.

Definition retained_replacement_script : script :=
    let topic := "retained/replacement" in
    duo (
      hello 0 "retained-replace-pub" ++
      flat_map (fun '(mid, payload, version) =>
        [ Send 0 (publish topic ["qos" @= 1; "mid" @= VInt mid; "payload" @= VStr payload;
            "retain" @= true; v5; "properties" @= VBytes (user "version" version)]);
          unmatched 0 mid 0x10 ]) [(1, "old-value", "old"); (2, "new-value", "new")] ++
      hello 1 "retained-replace-sub" ++ subs 1 1 topic 0 0 ++
      [ Recv 1 (publish topic ["qos" @= 0; "payload" @= "new-value"; "retain" @= true; v5;
          "properties" @= VBytes (user "version" "new")]) ] ++
      ping 1 ++ bye 0 ++ bye 1).

Definition retained_publish_property_bundle_script : script :=
    let topic := "retained/property/bundle" in
    let properties := bundle_properties mqtt5_props in
    solo [] (
      hello 0 "retained-property-bundle" ++
      [ Send 0 (publish topic ["qos" @= 1; "mid" @= 1; "payload" @= "message";
          "retain" @= true; v5; "properties" @= VBytes properties]);
        unmatched 0 1 0x10 ] ++
      subs 0 2 topic 0 0 ++
      [ Recv 0 (publish topic ["qos" @= 0; "payload" @= "message"; "retain" @= true; v5;
          "properties" @= VBytes properties]) ] ++
      bye 0).

Definition retained_tombstone_properties_script : script :=
    let topic := "retained/tombstone/properties" in
    let set mid payload state := Send 0 (publish topic
      ["qos" @= 1; "mid" @= VInt mid; "payload" @= payload; "retain" @= true; v5;
       "properties" @= VBytes (user "state" state)]) in
    solo [] (
      hello 0 "retained-tombstone" ++
      [ set 1 (VStr "old") "old"; unmatched 0 1 0x10;
        set 2 VNone "deleted"; unmatched 0 2 0x10 ] ++
      subs 0 3 topic 0 0 ++ ping 0 ++
      [ set 4 (VStr "new") "new";
        RecvAll 0 [ puback 4;
          publish topic ["qos" @= 0; "payload" @= "new"; "retain" @= false; v5;
            "properties" @= VBytes (user "state" "new")] ] ] ++
      bye 0).

(** ** Sessions *)

(** The identifier that a CONNACK assigns, if it passes the check. *)
Definition assigned_id (index : Z) (p : bytes) : result string :=
    check_assigned mqtt5_props index p (py_from (connack connack_defaults) 5).

(** The second identifier has to differ from the first. *)
Definition assigned_ok (index : Z) (earlier : list bytes) (p : bytes) : bool :=
    match assigned_id index p with
    | inr id => forallb (fun q => bool_decide (assigned_id 1 q <> inr id)) earlier
    | inl _ => false
    end.

Definition assigned_client_identifier_script : script :=
    let anonymous (i : nat) (index : Z) :=
      [ Send i (gen_connect mqtt_packets VNone ["clean_session" @= true; v5]);
        RecvOk i (assigned_ok index) ] in
    duo (anonymous 0%nat 1 ++ anonymous 1%nat 2 ++ ping 0 ++ bye 0 ++ bye 1).

Definition server_keep_alive_script : script :=
    solo ["--server-keep-alive=60"] (
      [ Send 0 (gen_connect mqtt_packets "server-keep-alive" [v5; "keepalive" @= 61]);
        Recv 0 (connack (with_extra
          (mqtt5_props.(gen_uint16_prop) mqtt5_props.(SERVER_KEEP_ALIVE) 60))) ] ++
      ping 0 ++ bye 0).

Definition duplicate_client_takeover_script : script :=
    let connect_packet := gen_connect mqtt_packets "take-over" [v5] in
    duo (
      [ Send 0 connect_packet; Recv 0 (connack connack_defaults);
        Send 1 connect_packet; Recv 1 (connack connack_defaults);
        disconnect_with 0 mqtt5_rc.(SESSION_TAKEN_OVER) ] ++
      ping 1 ++ bye 1).

Definition disconnect_session_expiry_script : script :=
    let visit (i : nat) (present : bool) :=
      [ Open;
        Send i (gen_connect mqtt_packets "session-expiry"
          ["clean_session" @= false; v5; "session_expiry" @= 1]);
        Recv i (connack (with_session present)) ] in
    let leave (i : nat) (n : Z) :=
      [ Send i (gen_disconnect mqtt_packets [v5; "properties" @= VBytes
          (mqtt5_props.(gen_uint32_prop) mqtt5_props.(SESSION_EXPIRY_INTERVAL) n)]);
        Ended i; Close i ] in
    [Launch 4 false []] ++
    visit 0%nat false ++ leave 0%nat 3 ++ [Pause 2000] ++
    visit 1%nat true ++ leave 1%nat 3 ++ [Pause 4000] ++
    visit 2%nat false ++ leave 2%nat 0 ++
    visit 3%nat false ++ bye 3 ++ [Close 3; Finish].

Definition persistent_no_local_script : script :=
    let client_id := "persistent-subscription-test" in
    let topic := "subpub/nolocal" in
    let resume (i : nat) (present : bool) :=
      [ Open;
        Send i (gen_connect mqtt_packets client_id
          ["clean_session" @= false; v5; "session_expiry" @= 60]);
        RecvOk i (fun _ => persistent_ok present) ] in
    [Launch 2 false []] ++
    resume 0%nat false ++ subs 0 1 topic 5 1 ++ bye 0 ++ [Close 0] ++
    resume 1%nat true ++
    [ Send 1 (publish topic ["qos" @= 1; "mid" @= 1; "payload" @= "message"; v5]);
      Recv 1 (puback 1); Quiet 1 ] ++
    subs 1 2 topic 1 1 ++
    [ Send 1 (publish topic ["qos" @= 1; "mid" @= 3; "payload" @= "message"; v5]);
      RecvAll 1 [ puback 3;
        publish topic ["qos" @= 1; "mid" @= 1; "payload" @= "message"; v5] ];
      Send 1 (puback 1) ] ++
    bye 1 ++ [Close 1; Finish].

(** ** Forwarding *)

Definition incoming_topic_alias_script : script :=
    let topic := "02/subpub/topic-alias/alias" in
    let alias := mqtt5_props.(gen_uint16_prop) mqtt5_props.(TOPIC_ALIAS) 3 in
    duo (
      hello 0 "02-subpub-qos0-topic-alias" ++ hello 1 "02-subpub-qos0-topic-alias-helper" ++
      [ Send 0 (publish topic ["qos" @= 0; "payload" @= "message"; v5;
          "properties" @= VBytes alias]) ] ++
      subs 1 1 topic 0 0 ++
      [ Send 0 (publish "" ["qos" @= 0; "payload" @= "message"; v5;
          "properties" @= VBytes alias]);
        Recv 1 (publish topic ["qos" @= 0; "payload" @= "message"; v5]) ] ++
      bye 0 ++ bye 1).

Definition outgoing_topic_alias_script : script :=
    let topic := "02/b2c/topic/alias/1" in
    let alias := mqtt5_props.(gen_uint16_prop) mqtt5_props.(TOPIC_ALIAS) 1 in
    let maximum := mqtt5_props.(gen_uint16_prop) mqtt5_props.(TOPIC_ALIAS_MAXIMUM) 2 in
    duo (
      [ Send 0 (gen_connect mqtt_packets "02-b2c-topic-alias"
          [v5; "properties" @= VBytes maximum]);
        RecvOk 0 (fun _ => plain_ok) ] ++
      hello 1 "02-b2c-topic-alias-helper" ++ subs 0 1 topic 0 0 ++
      [ Send 1 (publish topic ["qos" @= 0; "payload" @= "first"; v5]);
        Recv 0 (publish topic ["qos" @= 0; "payload" @= "first"; v5;
          "properties" @= VBytes alias]);
        Send 1 (publish topic ["qos" @= 0; "payload" @= "second"; v5]);
        Recv 0 (publish "" ["qos" @= 0; "payload" @= "second"; v5;
          "properties" @= VBytes alias]) ] ++
      bye 1 ++ bye 0).

Definition request_response_properties_script : script :=
    let properties :=
      mqtt5_props.(gen_string_prop) mqtt5_props.(RESPONSE_TOPIC) "response/topic"
      ++ mqtt5_props.(gen_string_prop) mqtt5_props.(CORRELATION_DATA)
           "45vyvynq30q3vt4 nuy893b4v3" in
    let request := publish "normal/topic"
      ["qos" @= 0; "payload" @= "2"; v5; "properties" @= VBytes properties] in
    let response := publish "response/topic" ["qos" @= 0; "payload" @= "22"; v5] in
    duo (
      hello 0 "response-client" ++ hello 1 "request-client" ++
      subs 0 1 "normal/topic" 0 0 ++ subs 1 1 "response/topic" 0 0 ++
      [ Send 1 request; Recv 0 request; Send 0 response; Recv 1 response ] ++
      bye 0 ++ bye 1).

Definition disconnect_with_will_properties_script : script :=
    let topic := "will/properties" in
    duo (
      hello 0 "will-property-subscriber" ++ subs 0 1 topic 0 0 ++
      [ Send 1 (gen_connect mqtt_packets "will-property-source"
          [v5; "will_topic" @= topic;
           "will_payload" @= VBytes (bytes_of_str "will payload");
           "will_properties" @= VBytes (will_properties mqtt5_props)]);
        RecvOk 1 (fun _ p => bool_decide (
          py_or (test_index p 0 (fun b => bool_decide (b <> 0x20)))
            (inr (bool_decide (py_slice p 2 4 <> [Byte.x00; Byte.x00]))) = inr false));
        Send 1 (gen_disconnect mqtt_packets ["reason_code" @= 4; v5]);
        Recv 0 (publish topic ["qos" @= 0; "payload" @= "will payload"; v5;
          "properties" @= VBytes (forwarded_properties mqtt5_props)]) ] ++
      bye 0).

(** ** The suite *)

Definition scripts : list script :=
    [ no_matching_subscribers_script;
      subscription_identifiers_script;
      multiple_subscription_identifiers_script;
      hostile_initial_packets_script;
      publish_capability_disconnects_script;
      maximum_packet_size_disconnect_script;
      topic_alias_disconnect_script;
      receive_maximum_disconnect_script;
      subscription_capability_disconnects_script;
      qos2_routes_at_pubrel_script;
      mixed_version_qos1_script;
      persistent_no_local_script;
      retained_subscription_handling_script;
      incoming_topic_alias_script;
      outgoing_topic_alias_script;
      request_response_properties_script;
      disconnect_with_will_properties_script;
      retained_message_expiry_script;
      qos2_receive_maximum_one_script;
      maximum_packet_size_qos1_script;
      maximum_packet_size_qos2_script;
      retained_repeated_lifecycle_script;
      retained_multilevel_clear_script;
      shared_subscription_rotation_script;
      qos2_duplicate_publish_script;
      qos2_repeated_pubrel_script;
      reject_publish_subscription_identifier_script;
      unsubscribe_reason_codes_script;
      retain_as_published_live_script;
      retained_replacement_script;
      retained_publish_property_bundle_script;
      retained_tombstone_properties_script;
      assigned_client_identifier_script;
      server_keep_alive_script;
      duplicate_client_takeover_script;
      disconnect_session_expiry_script ].

(** The dialogue of the whole suite. *)
Definition suite_script : script := concat scripts.

End scripts.

(** Write a script out as a list of steps. *)
Ltac open_script :=
  cbv beta iota zeta delta [
    no_matching_subscribers_script subscription_identifiers_script
    multiple_subscription_identifiers_script hostile_initial_packets_script
    publish_capability_disconnects_script maximum_packet_size_disconnect_script
    topic_alias_disconnect_script receive_maximum_disconnect_script
    subscription_capability_disconnects_script qos2_routes_at_pubrel_script
    mixed_version_qos1_script persistent_no_local_script
    retained_subscription_handling_script incoming_topic_alias_script
    outgoing_topic_alias_script request_response_properties_script
    disconnect_with_will_properties_script retained_message_expiry_script
    qos2_receive_maximum_one_script maximum_packet_size_qos1_script
    maximum_packet_size_qos2_script retained_repeated_lifecycle_script
    retained_multilevel_clear_script shared_subscription_rotation_script
    qos2_duplicate_publish_script qos2_repeated_pubrel_script
    reject_publish_subscription_identifier_script unsubscribe_reason_codes_script
    retain_as_published_live_script retained_replacement_script
    retained_publish_property_bundle_script retained_tombstone_properties_script
    assigned_client_identifier_script server_keep_alive_script
    duplicate_client_takeover_script disconnect_session_expiry_script
    connack_ok persistent_ok plain_ok solo duo hello bye ping subs unsubs release replay_script disconnect_with unmatched ];
  cbn [app flat_map seq zip repeat fmap list_fmap].

Section plays.
  Context {W : Type} `{PlatformLaws W}.
  Context (exe : string) (mqtt_packets : MqttPackets) (mqtt5_props : Mqtt5Props)
    (mqtt5_rc : Mqtt5Rc) (mqtt5_opts : Mqtt5Opts).

(** The scenario whose second packet is compared with its first. *)
Lemma assigned_plays :
    plays (W:=W) exe idle (assigned_client_identifier exe mqtt_packets mqtt5_props)
      (assigned_client_identifier_script mqtt_packets mqtt5_props).
Proof.
    open_scenario. open_script. play.
    eapply plays_read; [exact _|find_conn|]. intros p1. normal_stage.
    apply guarded_assoc, guarded_lift. intros v1 Hv1. apply guarded_ret_bind, guarded_ret_bind.
    apply guarded_assoc, guarded_lift. intros id0 Hid0.
    apply guarded_assoc, guarded_lift. intros id1 Hid1.
    change (inr (A:=exn) v = inr id0) in Hid0.
    change (inr (A:=exn) v1 = inr id1) in Hid1. simplify_eq.
    apply guarded_assoc, guarded_raise_if. intros Hne%bool_decide_eq_false.
    apply guarded_plays; [|repeat play_step].
    unfold assigned_ok, assigned_id. change (1 + 1) with 2 in Hv1. rewrite Hv1. simpl.
    rewrite bool_decide_eq_true_2 by congruence. done.
Qed.

(** Each scenario plays its script. *)
Lemma scenarios_play :
    Forall2 (fun '(_, m) sc => plays exe idle m sc)
      (scenarios (W:=W) exe mqtt_packets mqtt5_props mqtt5_rc mqtt5_opts)
      (scripts mqtt_packets mqtt5_props mqtt5_rc mqtt5_opts).
Proof.
    unfold scenarios, scripts. repeat apply Forall2_cons_2; [..|apply Forall2_nil_2];
      first [exact assigned_plays | open_scenario; open_script; solve [play]].
Qed.

Lemma spells_suite l scs (w w' : W) t :
    Forall2 (fun '((_, m) : string * M W unit) sc => plays exe idle m sc) l scs ->
    for_each l (fun '(_, m) => m) w = (Ok tt, w', t) ->
    spells exe idle (concat scs) t idle.
Proof.
    intros Hl. revert w t. induction Hl as [|[name m] sc l scs Hm _ IH]; intros w t; simpl.
    { intros [= _ <-]. constructor. }
    unfold mbind, M_bind. destruct (m w) as [[[[]|e|] w1] t1] eqn:Hr; try done.
    destruct (for_each l _ w1) as [[[[]|e|] w2] t2] eqn:Hrest; try done.
    intros [= <- <-]. eapply spells_app; [by eapply Hm|by eapply IH].
Qed.

End plays.
