(* ===== verification/Transcript.v ===== *)
(** * A passing run

    The scripts determine what a broker has to send on each connection.
    [transcript] computes these byte streams, and on the canned platform that
    serves them the whole suite passes: the theorems about passing runs are
    not vacuous, and the scenarios do not contradict each other. *)

From Stdlib Require Import ZArith Lia.
From stdpp Require Import base list option strings.
From S2P Require Import Prelude PyValues Effects Traces Canned Wire Expect Mosquitto.
From S2P Require Import WireFormat Broker Connack Script Capabilities Qos Retained Sessions.
From S2P Require Import Forwarding Main Scripts.
Local Open Scope Z_scope.

(** What the connection sends in one step; [candidates] are the packets to
    choose from where the scenario accepts several, [sn] those chosen so far. *)
Definition choose (candidates : nat -> list bytes) (sn : list bytes) (x : step) : list bytes :=
  match x with
  | RecvOk i good => [default [] (List.find (good sn) (candidates i))]
  | _ => []
  end.

Definition answer (chosen : list bytes) (x : step) : option (nat * inbox_item) :=
  match x with
  | Recv i p => Some (i, Chunk p)
  | RecvOk i _ => Some (i, Chunk (concat chosen))
  | RecvAll i ps => Some (i, Chunk (concat (reverse ps)))
  | Quiet i => Some (i, Fault SocketTimeout)
  | NoAnswer i => Some (i, Fault ConnectionResetError)
  | Ended i => Some (i, Eof)
  | _ => None
  end.

(** The streams of all connections, in the order in which they are opened;
    [l] are those of the running broker. *)
Fixpoint transcript (candidates : nat -> list bytes) (sn : list bytes)
    (l : list (list inbox_item)) (sc : script) : list (list inbox_item) :=
  match sc with
  | [] => l
  | Launch _ _ _ :: sc' => l ++ transcript candidates [] [] sc'
  | Open :: sc' => transcript candidates sn (l ++ [[]]) sc'
  | x :: sc' =>
      let chosen := choose candidates sn x in
      let l' := match answer chosen x with
                | Some (i, item) => alter (fun box => box ++ [item]) i l
                | None => l
                end in
      transcript candidates (sn ++ chosen) l' sc'
  end.

(** A CONNACK with an assigned identifier, one per connection. *)
Definition assigned_connack (i : nat) : bytes :=
  let id := "netz-0123abcd-4567-89ef-0123-00000000000" +:+ str_int (Z.of_nat i) in
  wire_connack [ "proto_ver" @= 5; "properties" @= VBytes
    (gen_string_prop wire_props (ASSIGNED_CLIENT_IDENTIFIER wire_props) id
     ++ connack_properties wire_props connack_defaults) ].

Definition candidates (i : nat) : list bytes :=
  [ expected_connack wire_packets wire_props connack_defaults;
    expected_connack wire_packets wire_props (with_session true);
    assigned_connack i ] ++
  expiry_variants wire_packets wire_props.

Definition wire_script : script := suite_script wire_packets wire_props wire_rc wire_opts.

(** The platform on which every connection gets its stream. *)
Definition conforming : canned := good (transcript candidates [] [] wire_script).

(** The same bytes, in the fewest chunks: packets that follow each other on a
    connection arrive in one buffer. *)
Fixpoint coalesce (box : list inbox_item) : list inbox_item :=
  match box with
  | [] => []
  | item :: box' =>
      match item, coalesce box' with
      | Chunk c, Chunk d :: box'' => Chunk (c ++ d) :: box''
      | _, box'' => item :: box''
      end
  end.

Definition coalesced : canned :=
  good (coalesce <$> transcript candidates [] [] wire_script).

Abbreviation wire_main :=
  (main (W:=canned) "netz-mqtt-broker" wire_packets wire_props wire_rc wire_opts).

Lemma conforming_passes : (wire_main conforming).1.1 = Ok tt.
Proof. vm_compute. reflexivity. Qed.

Lemma conforming_run : wire_main conforming =
  (Ok tt, (wire_main conforming).1.2, (wire_main conforming).2).
Proof.
  pose proof conforming_passes as Hp. revert Hp.
  generalize (wire_main conforming). intros [[o w] t]. simpl. by intros ->.
Qed.
