(* ===== verification/Acceptance.v ===== *)
(** * Brokers that the suite accepts

    Every scenario passes on a platform that follows its script, and so does
    the suite: with the scripts of [Scripts] the driver raises no false alarm.
    The platform of [Transcript] is such a platform. *)

From Stdlib Require Import ZArith Lia.
From stdpp Require Import base list option strings.
From S2P Require Import Prelude PyValues Effects Traces Canned Wire Expect Mosquitto Broker.
From S2P Require Import Connack WireFormat Script Conform Capabilities Qos Retained Sessions.
From S2P Require Import Forwarding Main Scripts Transcript.
Local Open Scope Z_scope.

Section accepts.
  Context {W : Type} `{Platform W}.
  Context (exe : string) (mqtt_packets : MqttPackets) (mqtt5_props : Mqtt5Props)
    (mqtt5_rc : Mqtt5Rc) (mqtt5_opts : Mqtt5Opts).

Lemma assigned_ok_id index earlier p :
    assigned_ok mqtt_packets mqtt5_props index earlier p = true ->
    exists id, assigned_id mqtt_packets mqtt5_props index p = inr id /\
      Forall (fun q => assigned_id mqtt_packets mqtt5_props 1 q <> inr id) earlier.
Proof.
    unfold assigned_ok. destruct (assigned_id _ _ index p) as [e|id]; [done|].
    intros Hall. exists id. split; [done|]. apply Forall_forall. intros q Hq.
    rewrite forallb_forall in Hall. apply list_elem_of_In in Hq.
    by eapply bool_decide_eq_true, Hall.
Qed.

Lemma assigned_accepts :
    accepts (W:=W) exe idle (assigned_client_identifier exe mqtt_packets mqtt5_props)
      (assigned_client_identifier_script mqtt_packets mqtt5_props).
Proof.
    open_scenario. open_script. accept.
    exchange accepts_read. intros p0 (id0 & Hid0 & _)%assigned_ok_id. normal_stage.
    apply accepts_assoc. eapply accepts_lift; [exact Hid0|]. repeat accept_step.
    exchange accepts_read. intros p1 (id1 & Hid1 & Hne)%assigned_ok_id. normal_stage.
    apply accepts_assoc. eapply accepts_lift; [exact Hid1|]. repeat accept_step.
    apply accepts_raise_if; [|repeat accept_step].
    apply bool_decide_eq_false. apply Forall_cons in Hne as [Hne _]. congruence.
Qed.

(** Each scenario passes on the platforms that follow its script. *)
Lemma scenarios_accept :
    Forall2 (fun '(_, m) sc => accepts exe idle m sc)
      (scenarios (W:=W) exe mqtt_packets mqtt5_props mqtt5_rc mqtt5_opts)
      (scripts mqtt_packets mqtt5_props mqtt5_rc mqtt5_opts).
Proof.
    unfold scenarios, scripts. repeat apply Forall2_cons_2; [..|apply Forall2_nil_2];
      first [exact assigned_accepts | open_scenario; open_script; solve [accept]].
Qed.

Lemma suite_accepts l scs :
    Forall2 (fun '((_, m) : string * M W unit) sc => accepts exe idle m sc) l scs ->
    accepts exe idle (for_each l (fun '(_, m) => m)) (concat scs).
Proof.
    induction 1 as [|[name m] sc l scs Hm _ IH]; [apply accepts_ret|]. intros K w Hw.
    simpl in Hw. apply conforms_app, Hm in Hw as (u & w1 & t & Hr & Hw).
    eapply accepts_step; [exact Hr|]. by apply IH.
Qed.

(** C2: The suite accepts every conforming broker.  On a platform that follows
    [suite_script] (it launches the brokers, takes what is sent, answers with
    the packets of the script in chunks of any size, a packet in many chunks or
    many packets in one, is silent where the script says so, and ends every
    broker with status 0) and can print, [main] returns: no scenario raises a
    false alarm, whichever of the acceptable packets the broker chooses and in
    whichever order unordered ones arrive. *)
Theorem main_accepts w :
    conforms exe idle (suite_script mqtt_packets mqtt5_props mqtt5_rc mqtt5_opts)
      (fun _ w1 => exists w2, sys_print passed_line w1 = (inr tt, w2)) w ->
    exists w' t, main exe mqtt_packets mqtt5_props mqtt5_rc mqtt5_opts w = (Ok tt, w', t).
Proof.
    intros Hw. apply (suite_accepts _ _ scenarios_accept) in Hw as ([] & w1 & t & Hr & w2 & Hp).
    eexists _, _. unfold main, mbind, M_bind. rewrite Hr. unfold print, call. by rewrite Hp.
Qed.

End accepts.

(** ** The platform of the transcript conforms *)

(** [p] is a whole packet: [read_packet] reads it from a socket. *)
Definition is_packet (p : bytes) : bool :=
  match read_packet 0%nat (good [[Chunk p]]) with
  | (Ok q, _, _) => bool_decide (q = p)
  | _ => false
  end.

Lemma is_packet_spec p : is_packet p = true -> packet p.
Proof.
  unfold is_packet. destruct (read_packet _ _) as [[[q|e|] w] t] eqn:Hr; try done.
  intros ->%bool_decide_eq_true. by apply (read_packet_reads 0%nat _ _ _ _ Hr p).
Qed.

(** The next [k] bytes of a connection, where one chunk holds them. *)
Definition next_bytes (k : nat) (s : sock) (w : canned) : option (bytes * canned) :=
  match inboxes w !! s with
  | Some (Chunk c :: tail) =>
      let got := take k c in
      let left := drop k c in
      if decide (length got = k /\ got <> []) then
        Some (got, set_inboxes (<[s := if decide (left = []) then tail else Chunk left :: tail]>
                                  (inboxes w)) w)
      else None
  | _ => None
  end.

(** The next packet of a connection. *)
Definition next_packet (s : sock) (w : canned) : option (bytes * canned) :=
  match read_packet s w with
  | (Ok p, _, _) => next_bytes (length p) s w
  | _ => None
  end.

Lemma next_bytes_streams k s w p w' (K : canned -> Prop) :
  next_bytes k s w = Some (p, w') -> K w' -> streams s K p w.
Proof.
  unfold next_bytes. destruct (inboxes w !! s) as [[|[c| |e] tail]|] eqn:Hs; try done.
  case_decide as Hc; [|done]. intros [= <- <-] HK.
  eapply canned_streams; [by rewrite take_drop|tauto|done].
Qed.

Lemma next_packet_streams s w p w' (K : canned -> Prop) :
  next_packet s w = Some (p, w') -> K w' -> streams s K p w.
Proof.
  unfold next_packet. destruct (read_packet s w) as [[[q|e|] w1] t]; try done.
  apply next_bytes_streams.
Qed.

(** Whether the canned platform follows a script, by running it. *)
Fixpoint follows (st : stage) (sc : script) (w : canned) : bool :=
  match sc with
  | [] => true
  | Launch _ _ _ :: sc' =>
      match running st, conns st, seen st with
      | None, [], [] =>
          occurs_in "listening" w.(log_line) &&
          let '(r, w') := sys_popen [] w in
          match r with inr p => follows (staged 18830 p [] []) sc' w' | _ => false end
      | _, _, _ => false
      end
  | Open :: sc' =>
      match running st, canned_connect w with
      | Some (port, p), (inr s, w') => follows (staged port p (conns st ++ [s]) (seen st)) sc' w'
      | _, _ => false
      end
  | Finish :: sc' =>
      match running st, w.(exit_status) with
      | Some _, inr 0 => follows idle sc' w
      | _, _ => false
      end
  | Pause _ :: sc' => follows st sc' w
  | Send i _ :: sc' | Close i :: sc' =>
      match conns st !! i with Some _ => follows st sc' w | None => false end
  | Recv i p :: sc' =>
      match conns st !! i ≫= (fun s => next_bytes (length p) s w) with
      | Some (q, w') => bool_decide (q = p) && is_packet p && follows st sc' w'
      | None => false
      end
  | RecvOk i good :: sc' =>
      match conns st !! i ≫= (fun s => next_packet s w) with
      | Some (p, w') => is_packet p && good (seen st) p && follows (see st p) sc' w'
      | None => false
      end
  | RecvAll i ps :: sc' =>
      match conns st !! i ≫= (fun s => next_bytes (length (concat ps)) s w) with
      | Some (q, w') =>
          bool_decide (q = concat (reverse ps)) && forallb is_packet ps && follows st sc' w'
      | None => false
      end
  | Quiet i :: sc' =>
      match conns st !! i with
      | Some s =>
          match canned_recv s 1 w with
          | (inl SocketTimeout, w') | (inr [], w') => follows st sc' w'
          | _ => false
          end
      | None => false
      end
  | NoAnswer i :: sc' =>
      match conns st !! i with
      | Some s =>
          match canned_recv s 1 w with
          | (inl ConnectionResetError, w') | (inr [], w') => follows st sc' w'
          | _ => false
          end
      | None => false
      end
  | Ended i :: sc' =>
      match conns st !! i with
      | Some s => match canned_recv s 1 w with (inr [], w') => follows st sc' w' | _ => false end
      | None => false
      end
  end.

(** Case analysis on what the checker looked at. *)
Ltac inspect :=
  repeat match goal with
    | H : (_ && _) = true |- _ => apply andb_prop in H as [? ?]
    | H : bool_decide _ = true |- _ => apply bool_decide_eq_true in H
    | H : (_ ≫= _) = Some _ |- _ => apply bind_Some in H as (? & ? & ?)
    | H : match ?x with _ => _ end = true |- _ => destruct x eqn:?; try done
    end.

(** The remaining goals hold by what was found there. *)
Ltac witness_step :=
  repeat match goal with |- ex _ => eexists | |- _ /\ _ => split end;
  eauto using is_packet_spec, next_bytes_streams, next_packet_streams.

Lemma follows_conforms exe st sc w (K : stage -> canned -> Prop) :
  (forall st w, K st w) -> follows st sc w = true -> conforms exe st sc K w.
Proof.
  intros HK. revert st w. induction sc as [|x sc IH]; intros st w; [by intros _; apply HK|].
  destruct x; cbn [follows conforms]; intros Hf; inspect; subst; try (solve [witness_step]).
  - destruct st; simpl in *; subst. split; [done|]. injection Heqp as <- <-.
    unfold launches. by witness_step.
  - exists x, (reverse ps). split_and!; [done|by rewrite reverse_Permutation| |].
    + rewrite reverse_Permutation. apply Forall_forall. intros q Hq%list_elem_of_In.
      apply is_packet_spec. by eapply forallb_forall.
    + by eapply next_bytes_streams; [|apply IH].
  - destruct p as [port p]. exists port, p, w. split_and!; [done| |by apply IH].
    unfold sys_wait. simpl. congruence.
Qed.

(** Packets that arrive together are no obstacle: the platform that delivers
    them in one chunk conforms. *)
Lemma coalesced_follows : follows idle wire_script coalesced = true.
Proof. vm_compute. reflexivity. Qed.

Lemma main_accepts_witness : exists w' t, wire_main coalesced = (Ok tt, w', t).
Proof.
  apply (main_accepts "netz-mqtt-broker" wire_packets wire_props wire_rc wire_opts coalesced).
  apply follows_conforms; [|exact coalesced_follows]. intros st w. by exists w.
Defined.
