(* ===== verification/Dialogues.v ===== *)
(** * What a passing scenario has observed

    Consequences of the scripts, stated on the system calls of a run. *)

From Stdlib Require Import ZArith Lia.
From stdpp Require Import base list option strings.
From S2P Require Import Prelude PyValues Effects Traces Canned Wire Expect Mosquitto.
From S2P Require Import WireFormat Broker Connack Script Capabilities Qos Retained Sessions.
From S2P Require Import Forwarding Oracle Main Scripts Transcript.
Local Open Scope Z_scope.

(** Take a spelled script apart into its exchanges. *)
Ltac unspell :=
  repeat match goal with
    | H : spells _ _ (_ :: _) _ _ |- _ => inversion H; subst; clear H
    | H : spells _ _ [] _ _ |- _ => inversion H; subst; clear H
    | H : performs _ _ _ _ _ |- _ => inversion H; subst; clear H
    | H1 : conns ?st !! ?i = Some _, H2 : conns ?st !! ?i = Some _ |- _ =>
        rewrite H1 in H2; injection H2 as H2; subst
    end.

Section dialogues.
  Context {W : Type} `{PlatformLaws W}.
  Context (exe : string) (mqtt_packets : MqttPackets) (mqtt5_props : Mqtt5Props)
    (mqtt5_rc : Mqtt5Rc) (mqtt5_opts : Mqtt5Opts).

(** The part of a passing run that a part of the script describes. *)
Lemma plays_segment m pre mid post (w w' : W) t :
    plays exe idle m (pre ++ mid ++ post) -> m w = (Ok tt, w', t) ->
    exists t1 st t2 st' t3, spells exe st mid t2 st' /\ t = t1 ++ t2 ++ t3.
Proof.
    intros Hp Hr. specialize (Hp _ _ _ _ Hr tt eq_refl).
    apply spells_app_inv in Hp as (t1 & st & t23 & _ & Hp & ->).
    apply spells_app_inv in Hp as (t2 & st' & t3 & Hp & _ & ->). eauto 10.
Qed.

Lemma plays_suffix m pre mid (w w' : W) t :
    plays exe idle m (pre ++ mid) -> m w = (Ok tt, w', t) ->
    exists t1 st t2, spells exe st mid t2 idle /\ t = t1 ++ t2.
Proof.
    intros Hp Hr. specialize (Hp _ _ _ _ Hr tt eq_refl).
    apply spells_app_inv in Hp as (t1 & st & t2 & _ & Hp & ->). eauto 10.
Qed.

(** Two parts, one after the other. *)
Lemma plays_parts m pre mid1 mid2 post (w w' : W) t :
    plays exe idle m (pre ++ mid1 ++ mid2 ++ post) -> m w = (Ok tt, w', t) ->
    exists t1 st t2 st1 t3 st2 t4,
      t = t1 ++ t2 ++ t3 ++ t4 /\ spells exe st mid1 t2 st1 /\ spells exe st1 mid2 t3 st2.
Proof.
    intros Hp Hr. specialize (Hp _ _ _ _ Hr tt eq_refl).
    apply spells_app_inv in Hp as (t1 & st & t' & _ & Hp & ->).
    apply spells_app_inv in Hp as (t2 & st1 & t'' & H1 & Hp & ->).
    apply spells_app_inv in Hp as (t3 & st2 & t4 & H2 & _ & ->). eauto 15.
Qed.

Abbreviation v5 := ("proto_ver" @= 5).

(** The 50 ms in which a socket has nothing to read. *)
Definition silence (s : sock) (r : result bytes) : trace :=
    [EvSettimeout s 50 (inr tt); EvRecv s 1 r; EvSettimeout s 5000 (inr tt)].

Definition silent (s : sock) (t : trace) : Prop :=
    exists r, (r = inl SocketTimeout \/ r = inr []) /\ t = silence s r.

(** C26: QoS 2 messages are routed at PUBREL.  In a passing run of
    [qos2_routes_at_pubrel] the publisher has sent its PUBLISH and read the
    PUBREC, nothing has reached the subscriber, and it is only after the
    PUBREL has been sent, and the PUBCOMP read, that the subscriber has read
    the message, byte for byte, with nothing in front of it. *)
Theorem qos2_routed_at_pubrel w w' t :
    qos2_routes_at_pubrel (W:=W) exe mqtt_packets w = (Ok tt, w', t) ->
    exists subscriber publisher before received quiet completed delivered after,
      t = before ++
          [EvSendall publisher (mqtt_packets.(gen_publish) "pub/qos2/reuse"
             ["qos" @= 2; "mid" @= 312; "payload" @= "message"; v5]) (inr tt)] ++
          received ++ quiet ++
          [EvSendall publisher (mqtt_packets.(gen_pubrel) 312 [v5]) (inr tt)] ++
          completed ++ delivered ++ after /\
      reads publisher (mqtt_packets.(gen_pubrec) 312 [v5]) received /\
      silent subscriber quiet /\
      reads publisher (mqtt_packets.(gen_pubcomp) 312 [v5]) completed /\
      reads subscriber (mqtt_packets.(gen_publish) "pub/qos2/reuse"
        ["qos" @= 2; "mid" @= 1; "payload" @= "message"; v5]) delivered.
Proof.
    intros Hr. set (sc := qos2_routes_at_pubrel_script mqtt_packets).
    destruct (plays_segment (qos2_routes_at_pubrel exe mqtt_packets) (take 9 sc) (take 6 (drop 9 sc)) (drop 15 sc) w w' t)
      as (t1 & st & t2 & st' & t3 & Hs & ->); [|exact Hr|].
    { change (take 9 sc ++ take 6 (drop 9 sc) ++ drop 15 sc) with sc.
      subst sc. open_script. open_scenario. play. }
    cbn in Hs. unspell.
    match goal with
    | H1 : reads ?p (gen_pubrec _ 312 _) ?a, H2 : reads ?p (gen_pubcomp _ 312 _) ?b,
      H3 : reads ?s (gen_publish _ _ _) ?c, H4 : ?r = inl SocketTimeout \/ _ |- _ =>
        exists s, p, t1, a, (silence s r), b, c, t3;
          split_and!; [|exact H1|by exists r|exact H2|exact H3]
    end.
    by rewrite app_nil_r, <-!app_assoc.
Qed.

(** C27: A QoS 2 PUBLISH that is repeated before its PUBREL is read once.  In a
    passing run of [qos2_duplicate_publish] the PUBLISH and its repetition with
    DUP are both answered with PUBREC while nothing reaches the subscriber
    within 50 ms of each; after the PUBREL the subscriber reads the message
    once, and then the PUBREL of that message, so that no second copy came in
    between.  These are its last reads: after its PUBCOMP the scenario does not
    listen again. *)
Theorem qos2_duplicate_read_once w w' t :
    qos2_duplicate_publish (W:=W) exe mqtt_packets w = (Ok tt, w', t) ->
    let publish dup := mqtt_packets.(gen_publish) "03/c2b/qos2/duplicate/test"
      ["qos" @= 2; "mid" @= 7; "payload" @= "original"; "dup" @= VBool dup; v5] in
    exists subscriber publisher p before rec1 quiet1 rec2 quiet2 completed delivered released,
      t = before ++
          [EvSendall publisher (publish false) (inr tt)] ++ rec1 ++ quiet1 ++
          [EvSendall publisher (publish true) (inr tt)] ++ rec2 ++ quiet2 ++
          [EvSendall publisher (mqtt_packets.(gen_pubrel) 7 [v5]) (inr tt)] ++
          completed ++ delivered ++
          [EvSendall subscriber (mqtt_packets.(gen_pubrec) 1 [v5]) (inr tt)] ++ released ++
          [ EvSendall subscriber (mqtt_packets.(gen_pubcomp) 1 [v5]) (inr tt);
            EvSendall publisher (mqtt_packets.(gen_disconnect) [v5]) (inr tt);
            EvSendall subscriber (mqtt_packets.(gen_disconnect) [v5]) (inr tt);
            EvClose publisher (inr tt); EvClose subscriber (inr tt);
            EvWait p 5000 (inr 0) ] /\
      reads publisher (mqtt_packets.(gen_pubrec) 7 [v5]) rec1 /\ silent subscriber quiet1 /\
      reads publisher (mqtt_packets.(gen_pubrec) 7 [v5]) rec2 /\ silent subscriber quiet2 /\
      reads publisher (mqtt_packets.(gen_pubcomp) 7 [v5]) completed /\
      reads subscriber (mqtt_packets.(gen_publish) "03/c2b/qos2/duplicate/test"
        ["qos" @= 2; "mid" @= 1; "payload" @= "original"; v5]) delivered /\
      reads subscriber (mqtt_packets.(gen_pubrel) 1 [v5]) released.
Proof.
    intros Hr publish. set (sc := qos2_duplicate_publish_script mqtt_packets).
    destruct (plays_suffix (qos2_duplicate_publish exe mqtt_packets)
      (take 9 sc) (drop 9 sc) w w' t) as (t1 & st & t2 & Hs & ->); [|exact Hr|].
    { change (take 9 sc ++ drop 9 sc) with sc. subst sc. open_script. open_scenario. play. }
    cbn in Hs. unspell.
    lazymatch type of Hr with
    | _ = (_, _, ?before ++ [EvSendall ?pub _ _] ++ ?a ++ [EvSettimeout ?sub _ _; EvRecv _ _ ?r1; _]
             ++ [_] ++ ?b ++ [_; EvRecv _ _ ?r2; _] ++ [_] ++ ?c ++ ?d ++ [_] ++ ?e
             ++ [_] ++ [_] ++ [_] ++ [_] ++ [_] ++ [EvWait ?p _ _] ++ []) =>
        exists sub, pub, p, before, a, (silence sub r1), b, (silence sub r2), c, d, e
    end.
    split_and!; try done;
      match goal with H : ?r = _ \/ _ |- silent _ (silence _ ?r) => by exists r end.
Qed.

(** *** The MQTT rules behind the expected answers *)

(** The messages that [shared_subscription_rotation] publishes, and one of its
    rounds: connection 0 publishes, and the receivers read the message. *)
Definition rotation_round (n : nat) (receivers : list Z) : script :=
    let message := mqtt_packets.(gen_publish) "02A/share/test"
      ["qos" @= 0; "payload" @= ("message" +:+ str_int (Z.of_nat n + 1)); v5] in
    Send 0 message :: ((fun i => Recv (Z.to_nat i) message) <$> receivers).

(** C28: Shared subscriptions rotate.  In a passing run of
    [shared_subscription_rotation] the clients have made the subscriptions of
    the table, in its order, and then each of three messages has been read by
    exactly the clients that get it from a broker which sends it to every
    ordinary subscriber and, in each group on its own, to the next member in
    the order of subscription ([receivers_of]). *)
Theorem shared_rotation_round_robin w w' t :
    shared_subscription_rotation (W:=W) exe mqtt_packets w = (Ok tt, w', t) ->
    exists before st joins st1 rotation st2 after rounds,
      t = before ++ joins ++ rotation ++ after /\
      spells exe st (flat_map (fun '(i, filter) => subs mqtt_packets (Z.to_nat i) 1 filter 0 0)
        shared_filters) joins st1 /\
      Forall2 (fun receivers n => receivers ≡ₚ receivers_of shared_filters "02A/share/test" n)
        rounds [0; 1; 2]%nat /\
      spells exe st1 (concat (imap rotation_round rounds)) rotation st2.
Proof.
    intros Hr. set (sc := shared_subscription_rotation_script mqtt_packets).
    assert (plays (W:=W) exe idle (shared_subscription_rotation exe mqtt_packets)
      (take 16 sc ++ flat_map (fun '(i, filter) => subs mqtt_packets (Z.to_nat i) 1 filter 0 0)
         shared_filters ++ concat (imap rotation_round expected_receivers) ++ drop 40 sc)) as Hp.
    { match goal with |- plays _ _ _ ?l => change l with sc end.
      subst sc. open_script. open_scenario. play. }
    destruct (plays_parts _ _ _ _ _ _ _ _ Hp Hr) as (t1 & st & t2 & st1 & t3 & st2 & t4 & Ht & H1 & H2).
    exists t1, st, t2, st1, t3, st2, t4, expected_receivers.
    split_and!; [done|done|exact shared_rotation_expected|done].
Qed.

(** C30: Retain Handling.  In a passing run of [retained_subscription_handling]
    a message has been retained on three topics; then the client subscribes
    twice to each of them, with the Retain Handling options 2, 1 and 0, and
    after each SUBACK it has read the retained message, or nothing within 50
    ms, as the option demands when the subscription is new and when it exists
    ([replays]). *)
Theorem retain_handling_replays w w' t :
    retained_subscription_handling (W:=W) exe mqtt_packets mqtt5_opts w = (Ok tt, w', t) ->
    let message topic := mqtt_packets.(gen_publish) topic
      ["qos" @= 0; "retain" @= true; "payload" @= "message"; v5] in
    exists before st retained st1 answers st2 after,
      t = before ++ retained ++ answers ++ after /\
      spells exe st ((fun topic => Send 0 (message topic)) <$> [topic_always; topic_new; topic_never])
        retained st1 /\
      spells exe st1
        (flat_map (fun '(mid, topic, h) =>
           flat_map (fun subscribed =>
             subs mqtt_packets 0 mid topic (handling_bits mqtt5_opts h) 0 ++
             [if replays h subscribed then Recv 0 (message topic) else Quiet 0]) [false; true])
           [(532, topic_never, RetainNever); (531, topic_new, RetainNew);
            (530, topic_always, RetainAlways)]) answers st2.
Proof.
    intros Hr message. set (sc := retained_subscription_handling_script mqtt_packets mqtt5_opts).
    match goal with |- context [spells exe _ ?l _ _ /\ spells exe _ ?k _ _] =>
      assert (plays (W:=W) exe idle (retained_subscription_handling exe mqtt_packets mqtt5_opts)
        (take 4 sc ++ l ++ k ++ drop 25 sc)) as Hp end.
    { match goal with |- plays _ _ _ ?l => change l with sc end.
      subst sc. open_script. open_scenario. play. }
    by eapply plays_parts.
Qed.

(** Each published topic matches one subscription, with the expected identifier. *)
Lemma matching_subid_publish topic payload identifier :
    (topic, payload, identifier) ∈ subid_publishes ->
    identifiers_for (subscriptions_after subid_subscriptions) topic = [identifier].
Proof.
    assert (Forall (fun '(topic, _, identifier) =>
      identifiers_for (subscriptions_after subid_subscriptions) topic = [identifier])
      subid_publishes) as Hall by (by repeat constructor).
    intros Hin. rewrite list.Forall_forall in Hall. exact (Hall _ Hin).
Qed.

(** C29: Subscription identifiers.  In a passing run of
    [subscription_identifiers] the client has made the six SUBSCRIBEs of the
    table, which set, replace and remove identifiers, and then each of three
    messages has come back with exactly the identifiers of the subscriptions
    that match its topic at that point ([identifiers_for], with the wildcards
    of topic filters), byte for byte. *)
Theorem subscription_identifiers_forwarded w w' t :
    subscription_identifiers (W:=W) exe mqtt_packets mqtt5_props w = (Ok tt, w', t) ->
    exists before st joins st1 messages st2 after,
      t = before ++ joins ++ messages ++ after /\
      spells exe st
        (flat_map (fun '(mid, topic, identifier) =>
           [ Send 0 (mqtt_packets.(gen_subscribe) mid topic 0
               [v5; "properties" @= VBytes (subid_props mqtt5_props identifier)]);
             Recv 0 (mqtt_packets.(gen_suback) mid 0 [v5]) ]) subid_subscriptions) joins st1 /\
      spells exe st1
        (flat_map (fun '(topic, payload) =>
           [ Send 0 (mqtt_packets.(gen_publish) topic ["qos" @= 0; "payload" @= VStr payload; v5]);
             Recv 0 (mqtt_packets.(gen_publish) topic
               ["qos" @= 0; "payload" @= VStr payload; v5;
                "properties" @= VBytes (flat_map (subid_props mqtt5_props)
                  (identifiers_for (subscriptions_after subid_subscriptions) topic))]) ])
           [ ("02/subpub/subid/test/id2", "message2"); ("02/subpub/subid/noid", "message3");
             ("02/subpub/subid/id1", "message1") ]) messages st2.
Proof.
    intros Hr. set (sc := subscription_identifiers_script mqtt_packets mqtt5_props).
    match goal with |- context [spells exe _ ?l _ _ /\ spells exe _ ?k _ _] =>
      assert (plays (W:=W) exe idle (subscription_identifiers exe mqtt_packets mqtt5_props)
        (take 4 sc ++ l ++ k ++ drop 22 sc)) as Hp end.
    { match goal with |- plays _ _ _ ?l => assert (l = sc) as -> end.
      { cbn [flat_map].
        rewrite (matching_subid_publish "02/subpub/subid/test/id2" "message2" (Some 19)),
          (matching_subid_publish "02/subpub/subid/noid" "message3" (Some 21)),
          (matching_subid_publish "02/subpub/subid/id1" "message1" None)
          by (apply (bool_decide_eq_true_1 (_ ∈ subid_publishes)); reflexivity).
        cbn [flat_map subid_props]. by rewrite !app_nil_r. }
      subst sc. open_script. open_scenario. play. }
    by eapply plays_parts.
Qed.

End dialogues.

(** ** Instances *)

(** A scenario on the streams that its script prescribes. *)
Definition rehearse (m : M canned unit) (sc : script) : outcome unit * canned * trace :=
  m (good (transcript candidates [] [] sc)).

Lemma rehearsed m sc :
  (rehearse m sc).1.1 = Ok tt ->
  m (good (transcript candidates [] [] sc)) = (Ok tt, (rehearse m sc).1.2, (rehearse m sc).2).
Proof. unfold rehearse. by destruct (m _) as [[o w] t]; simpl; intros ->. Qed.

Abbreviation routes :=
  (rehearse (qos2_routes_at_pubrel "netz" wire_packets)
     (qos2_routes_at_pubrel_script wire_packets)).

Lemma qos2_routed_at_pubrel_witness :
  exists before publisher after,
    routes.2 = before ++ EvSendall publisher (gen_pubrel wire_packets 312 ["proto_ver" @= 5])
                           (inr tt) :: after.
Proof.
  destruct (qos2_routed_at_pubrel "netz" wire_packets
    (good (transcript candidates [] [] (qos2_routes_at_pubrel_script wire_packets)))
    routes.1.2 routes.2) as (s & p & t1 & a & q & c & d & t2 & Ht & _).
  - apply rehearsed. vm_compute. reflexivity.
  - exists (t1 ++ [EvSendall p (gen_publish wire_packets "pub/qos2/reuse"
      ["qos" @= 2; "mid" @= 312; "payload" @= "message"; "proto_ver" @= 5]) (inr tt)]
      ++ a ++ q), p, (c ++ d ++ t2).
    rewrite Ht. rewrite <-!app_assoc. reflexivity.
Defined.

Abbreviation duplicates :=
  (rehearse (qos2_duplicate_publish "netz" wire_packets)
     (qos2_duplicate_publish_script wire_packets)).

Lemma qos2_duplicate_read_once_witness :
  exists p, EvWait p 5000 (inr 0) ∈ duplicates.2.
Proof.
  destruct (qos2_duplicate_read_once "netz" wire_packets
    (good (transcript candidates [] [] (qos2_duplicate_publish_script wire_packets)))
    duplicates.1.2 duplicates.2)
    as (s & pub & p & t1 & a & q1 & b & q2 & c & d & e & Ht & _).
  - apply rehearsed. vm_compute. reflexivity.
  - exists p. rewrite Ht. do 12 (apply elem_of_app; right).
    do 5 apply list_elem_of_further. apply list_elem_of_here.
Defined.

Abbreviation rotates :=
  (rehearse (shared_subscription_rotation "netz" wire_packets)
     (shared_subscription_rotation_script wire_packets)).

Lemma shared_rotation_round_robin_witness :
  exists st rotation st2 rounds,
    length rounds = 3%nat /\
    spells "netz" st (concat (imap (rotation_round wire_packets) rounds)) rotation st2.
Proof.
  destruct (shared_rotation_round_robin "netz" wire_packets
    (good (transcript candidates [] [] (shared_subscription_rotation_script wire_packets)))
    rotates.1.2 rotates.2)
    as (t1 & st & t2 & st1 & t3 & st2 & t4 & rounds & _ & _ & Hall & Hs).
  - apply rehearsed. vm_compute. reflexivity.
  - exists st1, t3, st2, rounds. split; [|exact Hs]. exact (Forall2_length _ _ _ Hall).
Defined.

Abbreviation handles :=
  (rehearse (retained_subscription_handling "netz" wire_packets wire_opts)
     (retained_subscription_handling_script wire_packets wire_opts)).

Lemma retain_handling_replays_witness :
  exists before retained answers after, handles.2 = before ++ retained ++ answers ++ after.
Proof.
  destruct (retain_handling_replays "netz" wire_packets wire_opts
    (good (transcript candidates [] []
       (retained_subscription_handling_script wire_packets wire_opts)))
    handles.1.2 handles.2) as (t1 & st & t2 & st1 & t3 & st2 & t4 & Ht & _).
  - apply rehearsed. vm_compute. reflexivity.
  - exists t1, t2, t3, t4. exact Ht.
Defined.

Abbreviation identifies :=
  (rehearse (subscription_identifiers "netz" wire_packets wire_props)
     (subscription_identifiers_script wire_packets wire_props)).

Lemma subscription_identifiers_forwarded_witness :
  exists before joins messages after, identifies.2 = before ++ joins ++ messages ++ after.
Proof.
  destruct (subscription_identifiers_forwarded "netz" wire_packets wire_props
    (good (transcript candidates [] []
       (subscription_identifiers_script wire_packets wire_props)))
    identifies.1.2 identifies.2) as (t1 & st & t2 & st1 & t3 & st2 & t4 & Ht & _).
  - apply rehearsed. vm_compute. reflexivity.
  - exists t1, t2, t3, t4. exact Ht.
Defined.
