(* ===== verification/Suite.v ===== *)
(** * The suite as a whole: theorems about [main] *)

From Stdlib Require Import ZArith Lia.
From stdpp Require Import base list option strings gmultiset.
From S2P Require Import Prelude PyValues Effects Traces Canned Wire Expect Mosquitto Broker.
From S2P Require Import Connack Capabilities Qos Retained Sessions Forwarding Script.
From S2P Require Import Discipline Lifecycle Main Scripts Transcript WireFormat.
Local Open Scope Z_scope.

(** ** The order of the scenarios *)

Section order.
  Context {W : Type} `{Platform W}.

(** [passes l w w' t]: every scenario of [l] returns, one after the other, from
    the state [w] to [w'], and [t] is what they did. *)
Inductive passes : list (string * M W unit) -> W -> W -> trace -> Prop :=
  | passes_nil w : passes [] w w []
  | passes_cons name m l w w1 w2 t1 t2 :
      m w = (Ok tt, w1, t1) -> passes l w1 w2 t2 ->
      passes ((name, m) :: l) w w2 (t1 ++ t2).

(** The first scenario that raises ends the run; the later ones do not start. *)
Definition fails_at (l : list (string * M W unit)) (e : exn) (w w' : W) (t : trace) : Prop :=
    exists before name m after w1 t1 t2,
      l = before ++ (name, m) :: after /\
      passes before w w1 t1 /\ m w1 = (Raise e, w', t2) /\ t = t1 ++ t2.

Lemma for_each_order (l : list (string * M W unit)) w o w' t :
    Forall (fun '(_, m) => terminates m) l ->
    for_each l (fun '(_, m) => m) w = (o, w', t) ->
    (o = Ok tt /\ passes l w w' t) \/ (exists e, o = Raise e /\ fails_at l e w w' t).
Proof.
    intros Hterm. revert w t. induction Hterm as [|[name m] l Hm _ IH]; intros w t; simpl.
    { intros [= <- <- <-]. left. split; [done|constructor]. }
    unfold mbind, M_bind. destruct (m w) as [[[[]|e|] w1] t1] eqn:Hrun.
    - destruct (for_each l _ w1) as [[o2 w2] t2] eqn:Hrest. intros [= <- <- <-].
      destruct (IH _ _ Hrest) as [[-> Hp]|(e & -> & b & n & m' & a & v & s1 & s2 & -> & Hb & Hr & ->)].
      + left. split; [done|by econstructor].
      + right. exists e. split; [done|].
        exists ((name, m) :: b), n, m', a, v, (t1 ++ s1), s2.
        split_and!; [done|by econstructor|done|by rewrite app_assoc].
    - intros [= <- <- <-]. right. exists e. split; [done|].
      exists [], name, m, l, w, [], t1. split_and!; [done|constructor|done|done].
    - intros [= <- <- <-]. by destruct (Hm _ _ _ _ Hrun).
Qed.

(** What holds of each scenario holds of the loop over them. *)
Lemma terminates_all (l : list (string * M W unit)) :
    Forall (fun '(_, m) => terminates m) l -> terminates (for_each l (fun '(_, m) => m)).
Proof.
    induction 1 as [|[n m] l Hm _ IH]; [apply terminates_ret|]. by apply terminates_bind.
Qed.

Lemma emits_all P (l : list (string * M W unit)) :
    Forall (fun '(_, m) => emits P m) l -> emits P (for_each l (fun '(_, m) => m)).
Proof.
    induction 1 as [|[n m] l Hm _ IH]; [apply emits_ret|]. by apply emits_bind.
Qed.

Lemma keeps_all {X} (step : X -> event -> option X) I (l : list (string * M W unit)) :
    Forall (fun '(_, m) => keeps step I m) l -> keeps step I (for_each l (fun '(_, m) => m)).
Proof.
    induction 1 as [|[n m] l Hm _ IH]; [apply keeps_ret|]. by apply keeps_bind.
Qed.

Lemma budgeted_all (l : list (string * M W unit)) :
    Forall (fun '(_, m) => budgeted m) l -> budgeted (for_each l (fun '(_, m) => m)).
Proof.
    induction 1 as [|[n m] l Hm _ IH]; [apply budgeted_ret|]. by apply budgeted_bind.
Qed.

Lemma orderly_all (l : list (string * M W unit)) :
    Forall (fun '(_, m) => orderly m) l -> orderly (for_each l (fun '(_, m) => m)).
Proof.
    induction 1 as [|[n m] l Hm _ IH]; [by apply orderly_processless, emits_ret|].
    by apply orderly_bind.
Qed.

Lemma prompt_all (l : list (string * M W unit)) :
    Forall (fun '(_, m) => prompt m) l -> prompt (for_each l (fun '(_, m) => m)).
Proof.
    induction 1 as [|[n m] l Hm _ IH]; [by apply prompt_processless, emits_ret|].
    by apply prompt_bind.
Qed.

Lemma costs_all f (l : list (string * M W unit)) ns :
    Forall2 (fun '(_, m) n => costs f n m) l ns ->
    costs f (foldr Z.add 0 ns) (for_each l (fun '(_, m) => m)).
Proof.
    induction 1 as [|[name m] n l ns Hm _ IH]; [apply costs_emits, emits_ret|].
    by apply costs_bind.
Qed.

End order.

Section theorems.
  Context {W : Type} `{Platform W}.
  Context (exe : string) (mqtt_packets : MqttPackets) (mqtt5_props : Mqtt5Props)
    (mqtt5_rc : Mqtt5Rc) (mqtt5_opts : Mqtt5Opts).

Abbreviation suite :=
    (scenarios (W:=W) exe mqtt_packets mqtt5_props mqtt5_rc mqtt5_opts).
Abbreviation run_main :=
    (main (W:=W) exe mqtt_packets mqtt5_props mqtt5_rc mqtt5_opts).

Lemma main_terminates : terminates run_main.
Proof.
    apply terminates_bind; [apply terminates_all, scenarios_terminate|].
    intros _. apply terminates_call.
Qed.

(** C10: [main] ends if every system call returns: each loop of each scenario
    ends, and the run returns or raises.  The calls whose return nothing bounds
    are found at two places only: the [readline] that directly follows the
    launch of a broker, and the [read] of the output of a broker that has
    exited with another status than 0, the last call of the run.  (A broker
    that writes no line and does not exit keeps that [readline] waiting.) *)
Theorem main_total w :
    exists r w' t, run_main w = (of_result r, w', t) /\
      exists x, watch blocking_step Busy t = Some x /\ (x = Over -> exists e, r = inl e).
Proof.
    assert (prompt run_main) as Hp.
    { apply prompt_bind; [apply prompt_all, scenarios_prompt|].
      intros _. by apply prompt_processless, emits_call. }
    destruct (run_main w) as [[[a|e|] w'] t] eqn:Hr;
      [..|by destruct (main_terminates _ _ _ _ Hr)];
      destruct (Hp _ _ _ _ Hr Busy ltac:(done)) as (x & Hx & Ho).
    - exists (inr a), w', t. split; [done|]. exists x. split; [done|]. intros Hover. by destruct (Ho a eq_refl).
    - exists (inl e), w', t. split; [done|]. eauto.
Qed.

(** C4: The verdict of the suite.  [main] returns exactly when all 36 scenarios
    returned, in the order of the source, and only then has it printed the
    final line, its last action; a raised exception is that of the first
    scenario that failed, nothing of a later scenario has run, and nothing was
    printed (or the print itself failed). *)
Theorem main_verdict w o w' t :
    run_main w = (o, w', t) ->
    (exists w1 t1, passes suite w w1 t1 /\ Forall (fun e => is_print e = false) t1 /\
       ((o = Ok tt /\ t = t1 ++ [EvPrint passed_line (inr tt)]) \/
        (exists e, o = Raise e /\ t = t1 ++ [EvPrint passed_line (inl e)]))) \/
    (exists e, o = Raise e /\ fails_at suite e w w' t /\
       Forall (fun e => is_print e = false) t).
Proof.
    unfold main at 1. unfold mbind, M_bind.
    destruct (for_each _ _ w) as [[o1 w1] t1] eqn:Hfor.
    assert (Forall (fun e => is_print e = false) t1) as Hsilent.
    { pose proof (scenarios_silent exe mqtt_packets mqtt5_props mqtt5_rc mqtt5_opts) as Hs.
      exact (emits_all _ _ Hs _ _ _ _ Hfor). }
    destruct (for_each_order _ _ _ _ _ (scenarios_terminate _ _ _ _ _) Hfor)
      as [[-> Hp]|(e & -> & Hf)].
    - unfold print, call. destruct (sys_print _ w1) as [[e|[]] w2]; simpl; intros [= <- <- <-];
        left; exists w1, t1; eauto 10.
    - intros [= <- <- <-]. right. eauto.
Qed.

(** C5: The connection budget.  In a passing run every broker process is
    launched with a [--connections] argument, the driver then opens exactly
    that many connections to it before it waits for its exit, and no two
    processes overlap: the finite broker is neither starved of a connection
    (it would never exit) nor asked for one too many (it would refuse it). *)
Theorem main_budget w w' t :
    run_main w = (Ok tt, w', t) -> watch budget_step None t = Some None.
Proof.
    intros Hr. refine ((_ : budgeted run_main) _ _ _ _ Hr tt eq_refl).
    apply budgeted_bind; [apply budgeted_all, scenarios_budgeted|].
    intros _. apply runs_call. by intros v [e|[]] v' _.
Qed.

(** C7: One broker at a time, and none left behind, on passing and on failing
    runs: no process is launched while another one that has reported that it
    listens has not been waited for, [wait] and [terminate] are only called on
    that process, and when the run ends it has been waited for, whatever the
    scenario raised; only a [wait] or [terminate] that fails, as the last call
    of the run, leaves it.  A passing run has waited for all of them. *)
Theorem main_processes w o w' t :
    run_main w = (o, w', t) ->
    exists x, watch process_step None t = Some x /\ (o = Ok tt -> x = None) /\
      (forall p, x = Some p -> abandoned p t).
Proof.
    intros Hr. pose proof (main_terminates _ _ _ _ Hr) as Hd. assert (orderly run_main) as Hm.
    { apply orderly_bind; [apply orderly_all, scenarios_orderly|].
      intros _. by apply orderly_processless, emits_call. }
    destruct (Hm _ _ _ _ Hr) as (x & Hx & Ho & Hab). exists x. split_and!; [done| |by apply Hab].
    intros ->. by apply (Ho tt).
Qed.

(** C35: A passing run launches 39 broker processes, the number that the final
    line reports: one per scenario function, two for
    [publish_capability_disconnects] and three for
    [subscription_capability_disconnects]. *)
Theorem main_launches w w' t :
    run_main w = (Ok tt, w', t) ->
    count is_popen t = 39 /\
    passed_line = "Mosquitto-derived MQTT wire vectors passed: "
                  +:+ str_int (count is_popen t) +:+ " scenarios".
Proof.
    intros Hr. assert (count is_popen t = 39) as ->; [|done].
    refine ((_ : costs is_popen 39 run_main) _ _ _ _ Hr tt eq_refl).
    refine (costs_bind _ _ _ 39 0 _ _).
    - eapply costs_weaken; [eapply costs_all, scenarios_launch|reflexivity].
    - intros _. apply costs_emits, emits_call. done.
Qed.

End theorems.

Section laws.
  Context {W : Type} `{PlatformLaws W}.
  Context (exe : string) (mqtt_packets : MqttPackets) (mqtt5_props : Mqtt5Props)
    (mqtt5_rc : Mqtt5Rc) (mqtt5_opts : Mqtt5Opts).

Abbreviation suite :=
    (scenarios (W:=W) exe mqtt_packets mqtt5_props mqtt5_rc mqtt5_opts).
Abbreviation run_main :=
    (main (W:=W) exe mqtt_packets mqtt5_props mqtt5_rc mqtt5_opts).

(** C1: The dialogue of the suite.  A passing run of [main] performs the script
    of every scenario, in order and with nothing in between: the launches, the
    bytes sent, the packets received (read to their last byte and no further),
    the silences, pauses and closes of [suite_script] are, one after the other,
    all the system calls that it makes before the final line. *)
Theorem main_dialogue w w' t :
    run_main w = (Ok tt, w', t) ->
    exists t', t = t' ++ [EvPrint passed_line (inr tt)] /\
      spells exe idle (suite_script mqtt_packets mqtt5_props mqtt5_rc mqtt5_opts) t' idle.
Proof.
    unfold main, mbind, M_bind.
    destruct (for_each _ _ w) as [[[[]|e|] w1] t1] eqn:Hfor; try done.
    unfold print, call. destruct (sys_print _ w1) as [[e|[]] w2]; simpl; [done|].
    intros [= <- <-]. exists t1. split; [done|].
    eapply spells_suite; [apply scenarios_play|exact Hfor].
Qed.

(** C6: The timeout discipline, on passing and on failing runs: every socket
    connects with a timeout of five seconds and gets it again; a socket whose
    timeout is shortened to 50 ms is used for one one-byte read and has its
    five seconds back before anything else happens. *)
Theorem main_timeouts w o w' t :
    run_main w = (o, w', t) -> watch timeout_step None t = Some None.
Proof.
    intros Hr. pose proof (main_terminates _ _ _ _ _ _ _ _ _ Hr) as Hd.
    refine ((_ : patient run_main) None eq_refl _ _ _ _ Hr _).
    - apply keeps_bind; [apply keeps_all, scenarios_patient|].
      intros _. apply keeps_call. by intros x r' ->.
    - done.
Qed.

(** C8: The socket discipline of the suite, on passing and on failing runs:
    every call is on a socket that is open, no socket is closed twice, and
    when the suite passes no socket is left open. *)
Theorem main_sockets w o w' t :
    run_main w = (o, w', t) ->
    exists open, watch open_step ∅ t = Some open /\ (o = Ok tt -> open = ∅).
Proof.
    intros Hr. pose proof (main_terminates _ _ _ _ _ _ _ _ _ Hr) as Hd.
    assert (watched [] run_main) as Hm.
    { apply watched_bind; [apply watched_for_each|].
      - intros [name m] Hin. pose proof (scenarios_watched exe mqtt_packets mqtt5_props
          mqtt5_rc mqtt5_opts) as Hs. rewrite list.Forall_forall in Hs. apply (Hs _ Hin).
      - intros _. by apply watched_of_tidy, keeps_call. }
    destruct (Hm ∅ (Forall_nil_2 _) _ _ _ _ Hr) as (open & Hw & _ & Ho).
    - done.
    - exists open. split; [done|]. intros ->. by apply (Ho tt).
Qed.

(** C9: No scenario but [shared_subscription_rotation] leaves a socket open,
    whichever call of it raises: the [with] blocks close what they opened. *)
Theorem scenario_sockets name m w o w' t :
    (name, m) ∈ suite -> name <> "shared_subscription_rotation" ->
    m w = (o, w', t) -> watch open_step ∅ t = Some ∅.
Proof.
    intros Hin Hname Hr.
    pose proof (scenarios_tidy exe mqtt_packets mqtt5_props mqtt5_rc mqtt5_opts) as Ht.
    pose proof (scenarios_terminate exe mqtt_packets mqtt5_props mqtt5_rc mqtt5_opts) as Hd.
    rewrite list.Forall_forall in Ht, Hd. specialize (Ht _ Hin Hname). specialize (Hd _ Hin).
    apply (Ht ∅ (Forall_nil_2 _) _ _ _ _ Hr). by eapply Hd.
Qed.




End laws.

(** ** Instances

    The theorems at the conforming transcript, and at a listener that refuses
    its third connection. *)

Lemma main_verdict_witness :
  exists w1 t1,
    passes (scenarios "netz-mqtt-broker" wire_packets wire_props wire_rc wire_opts)
      conforming w1 t1.
Proof.
  destruct (main_verdict "netz-mqtt-broker" wire_packets wire_props wire_rc wire_opts
              conforming _ _ _ conforming_run) as [(w1 & t1 & Hp & _)|(e & He & _)].
  - exists w1, t1. exact Hp.
  - discriminate He.
Defined.

Lemma main_budget_witness : watch budget_step None (wire_main conforming).2 = Some None.
Proof.
  apply (main_budget "netz-mqtt-broker" wire_packets wire_props wire_rc wire_opts
           conforming (wire_main conforming).1.2). exact conforming_run.
Defined.

Lemma main_processes_witness :
  exists x, watch process_step None (wire_main conforming).2 = Some x /\
    (Ok tt = Ok tt -> x = None) /\
    (forall p, x = Some p -> abandoned p (wire_main conforming).2).
Proof.
  apply (main_processes "netz-mqtt-broker" wire_packets wire_props wire_rc wire_opts
           conforming (Ok tt) (wire_main conforming).1.2). exact conforming_run.
Defined.

Lemma main_launches_witness : count is_popen (wire_main conforming).2 = 39.
Proof.
  apply (main_launches "netz-mqtt-broker" wire_packets wire_props wire_rc wire_opts
           conforming (wire_main conforming).1.2). exact conforming_run.
Defined.

Lemma main_dialogue_witness :
  exists t', (wire_main conforming).2 = t' ++ [EvPrint passed_line (inr tt)] /\
    spells "netz-mqtt-broker" idle wire_script t' idle.
Proof.
  apply (main_dialogue "netz-mqtt-broker" wire_packets wire_props wire_rc wire_opts
           conforming (wire_main conforming).1.2). exact conforming_run.
Defined.

Lemma main_timeouts_witness : watch timeout_step None (wire_main conforming).2 = Some None.
Proof.
  apply (main_timeouts "netz-mqtt-broker" wire_packets wire_props wire_rc wire_opts
           conforming (Ok tt) (wire_main conforming).1.2). exact conforming_run.
Defined.

Lemma main_sockets_witness :
  exists open, watch open_step ∅ (wire_main conforming).2 = Some open /\
    (Ok tt = Ok tt -> open = ∅).
Proof.
  apply (main_sockets "netz-mqtt-broker" wire_packets wire_props wire_rc wire_opts
           conforming (Ok tt) (wire_main conforming).1.2). exact conforming_run.
Defined.

(** A listener that accepts two connections and refuses the next. *)
Definition refusing : canned := Canned [] 0 2 0 "listening" (inr 0).

(** The first scenario, on a broker that never answers. *)
Definition unanswered : outcome unit * canned * trace :=
  no_matching_subscribers "netz-mqtt-broker" wire_packets wire_rc refusing.

Lemma scenario_sockets_witness :
  unanswered.1.1 = Raise SocketTimeout /\ watch open_step ∅ unanswered.2 = Some ∅.
Proof.
  split; [vm_compute; reflexivity|].
  apply (scenario_sockets "netz-mqtt-broker" wire_packets wire_props wire_rc wire_opts
           "no_matching_subscribers"
           (no_matching_subscribers "netz-mqtt-broker" wire_packets wire_rc)
           refusing unanswered.1.1 unanswered.1.2).
  - apply list_elem_of_here.
  - discriminate.
  - unfold unanswered. destruct (no_matching_subscribers _ _ _ _) as [[o w] t]. reflexivity.
Defined.

(** Two connections are made, the third is refused, and the two stay open. *)
Abbreviation stranded := (shared_subscription_rotation "netz" wire_packets refusing).


Example stranded_open :
  watch open_step ∅ stranded.2 = Some ({[+ 0%nat; 1%nat +]}).
Proof. vm_compute. reflexivity. Qed.
