(* ===== verification/Rejection.v ===== *)
(** * Brokers that the suite rejects

    [deviates st sc w]: from the state [w] the platform follows the script [sc]
    up to some step and breaks it there: a broker that does not start or exit,
    a refused connection, a byte that differs, a stream that stops short, data
    where there should be silence.  The suite raises on every such platform. *)

From Stdlib Require Import ZArith Lia.
From stdpp Require Import base list option strings.
From S2P Require Import Prelude PyValues Effects Traces Canned Wire Expect Mosquitto Broker.
From S2P Require Import Connack Handshake WireFormat Script Conform Discipline Capabilities Qos Retained.
From S2P Require Import Sessions Forwarding Main Honest Scripts Transcript Acceptance Suite.
Local Open Scope Z_scope.

(** Neither is the beginning of the other: a byte differs. *)
Definition differ (p q : bytes) : Prop := ~ p `prefix_of` q /\ ~ q `prefix_of` p.

(** No packet is a proper beginning of another one. *)
Lemma packet_prefix p q : packet p -> packet q -> p `prefix_of` q -> p = q.
Proof.
  intros Hp Hq [r Hr]. set (w := good [[Chunk q]]).
  assert (serves 0%nat (fun _ => True) q w) as Hs.
  { rewrite <-(app_nil_r q). change (q ++ []) with (concat [q]). eapply serves_mono;
      [|apply (canned_serves 0%nat [q] [] w); [done|]]; [done|].
    repeat constructor. by apply packet_nonempty. }
  destruct (read_packet_serves 0%nat (fun _ => True) p r w Hp) as (w1 & t1 & H1 & _);
    [by rewrite <-Hr|].
  destruct (read_packet_serves 0%nat (fun _ => True) q [] w Hq) as (w2 & t2 & H2 & _);
    [by rewrite app_nil_r|].
  congruence.
Qed.

Lemma packets_comparable p q : packet p -> packet q ->
  p `prefix_of` q \/ q `prefix_of` p -> p = q.
Proof. intros Hp Hq [H|H]; [|symmetry]; by apply packet_prefix. Qed.

(** Arrangements of the same packets have the same length. *)
Lemma concat_length_perm (ps qs : list bytes) :
  ps ≡ₚ qs -> length (concat ps) = length (concat qs).
Proof.
  induction 1; simpl; rewrite ?length_app; lia.
Qed.

Lemma arrangements_comparable (ps qs : list bytes) : ps ≡ₚ qs ->
  concat ps `prefix_of` concat qs \/ concat qs `prefix_of` concat ps -> concat ps = concat qs.
Proof.
  intros Hl%concat_length_perm [H|H]; [|symmetry]; apply prefix_length_eq; try done; lia.
Qed.

Section deviates.
  Context (exe : string) {W : Type} `{Platform W}.

(** The socket does not deliver any of the byte strings in [ok]: the bytes
    that come next, whatever comes behind them, differ from all of these
    strings, or the stream stops before one is complete. *)
Definition denies (s : sock) (ok : bytes -> Prop) (w : W) : Prop :=
    (exists bs, streams s (fun _ => True) bs w /\ forall p, ok p -> differ p bs) \/
    (exists bs e, serves s (stops s e) bs w /\ forall p, ok p -> ~ p `prefix_of` bs).

(** A call that fails, or is followed by a deviation. *)
Definition then_deviates {A} (call : result A * W) (K : A -> W -> Prop) : Prop :=
    match call with
    | (inl _, _) => True
    | (inr a, w) => K a w
    end.

Definition launch_deviates n ignore extra (K : Z -> proc -> W -> Prop) (w : W) : Prop :=
    then_deviates (sys_socket w) (fun probe w =>
    then_deviates (sys_bind probe "127.0.0.1" 0 w) (fun _ w =>
    then_deviates (sys_getsockname probe w) (fun '(_, port) w =>
    then_deviates (sys_close probe w) (fun _ w =>
    then_deviates (sys_popen (launch_command exe port n ignore extra) w) (fun p w =>
    then_deviates (sys_readline p w) (fun line w =>
      occurs_in "listening" line = true -> K port p w)))))).

Fixpoint deviates (st : stage) (sc : script) (w : W) : Prop :=
    match sc with
    | [] => False
    | Launch n ignore extra :: sc' =>
        launch_deviates n ignore extra (fun port p => deviates (staged port p [] []) sc') w
    | Open :: sc' => exists port p, running st = Some (port, p) /\
        then_deviates (sys_create_connection "127.0.0.1" port 5000 w) (fun s w =>
        then_deviates (sys_settimeout s 5000 w) (fun _ w =>
          deviates (staged port p (conns st ++ [s]) (seen st)) sc' w))
    | Finish :: sc' => exists port p, running st = Some (port, p) /\
        then_deviates (sys_wait p 5000 w) (fun code w => code = 0 -> deviates idle sc' w)
    | Pause ms :: sc' => then_deviates (sys_sleep ms w) (fun _ => deviates st sc')
    | Send i d :: sc' => exists s, conns st !! i = Some s /\
        then_deviates (sys_sendall s d w) (fun _ => deviates st sc')
    | Close i :: sc' => exists s, conns st !! i = Some s /\
        then_deviates (sys_close s w) (fun _ => deviates st sc')
    | Recv i p :: sc' => exists s, conns st !! i = Some s /\
        (denies s (fun q => q = p) w \/ streams s (deviates st sc') p w)
    | RecvOk i good :: sc' => exists s, conns st !! i = Some s /\
        (denies s (fun q => packet q /\ good (seen st) q = true) w \/
         exists p, packet p /\ streams s (deviates (see st p) sc') p w)
    | RecvAll i ps :: sc' => exists s, conns st !! i = Some s /\
        (denies s (fun q => exists qs, qs ≡ₚ ps /\ q = concat qs) w \/
         exists qs, qs ≡ₚ ps /\ streams s (deviates st sc') (concat qs) w)
    | Quiet i :: sc' => exists s, conns st !! i = Some s /\
        then_deviates (sys_settimeout s 50 w) (fun _ w =>
          match sys_recv s 1 w with
          | (inl SocketTimeout, w) | (inr [], w) =>
              then_deviates (sys_settimeout s 5000 w) (fun _ => deviates st sc')
          | _ => True
          end)
    | NoAnswer i :: sc' => exists s, conns st !! i = Some s /\
        match sys_recv s 1 w with
        | (inl ConnectionResetError, w) | (inl BrokenPipeError, w) | (inr [], w) =>
            deviates st sc' w
        | _ => True
        end
    | Ended i :: sc' => exists s, conns st !! i = Some s /\
        match sys_recv s 1 w with (inr [], w) => deviates st sc' w | _ => True end
    end.

(** ** What was read against what is delivered *)

Lemma reads_serves s p t w w1 (K : W -> Prop) bs :
    reads s p t -> happened w t w1 -> serves s K bs w ->
    (exists rest, bs = p ++ rest /\ serves s K rest w1) \/
    (exists more t2 w2, more <> [] /\ p = bs ++ more /\ K w2 /\
       reads s more t2 /\ happened w2 t2 w1).
Proof.
    intros Hr. revert w bs. induction Hr as [|n c p t Hc Hn Hl Hr IH]; intros w bs Hh Hs.
    { simpl in Hh. subst. left. by exists bs. }
    destruct Hh as (w2 & Ho & Hh). simpl in Ho. destruct Hs as [w Hw|b bs w Hs].
    - right. exists (c ++ p), (EvRecv s n (inr c) :: t), w. split_and!; try done.
      + by destruct c.
      + by constructor.
      + by exists w2.
    - destruct (Hs n Hn) as (c' & rest & w' & Hb & _ & _ & Hrecv & Hrest).
      rewrite Hrecv in Ho. injection Ho as -> ->. rewrite Hb.
      destruct (IH _ _ Hh Hrest) as [(r & -> & Hr')|(more & t2 & w3 & Hm & -> & Hk & Hr2 & Hh2)].
      + left. exists r. by rewrite (assoc_L (++)).
      + right. exists more, t2, w3. by rewrite (assoc_L (++)).
Qed.

(** Data that was read was there. *)
Lemma reads_not_stopped s e p t w w1 :
    p <> [] -> reads s p t -> happened w t w1 -> ~ stops s e w.
Proof.
    intros Hp Hr Hh Hst. destruct Hr as [|n c p t Hc Hn _ _]; [done|].
    destruct Hh as (w2 & Ho & _). simpl in Ho.
    destruct Hst as [v Hst|e v Hst]; destruct (Hst n Hn) as [w' Hw']; congruence.
Qed.

(** Against a stream with more bytes behind it: what was read is a beginning
    of the stream, or the stream is a proper beginning of what was read. *)
Lemma reads_streams s p t w w1 (K : W -> Prop) bs :
    reads s p t -> happened w t w1 -> streams s K bs w ->
    (exists rest, bs = p ++ rest /\ streams s K rest w1) \/
    (exists more, more <> [] /\ p = bs ++ more).
Proof.
    intros Hr. revert w bs. induction Hr as [|n c p t Hc Hn Hl Hr IH]; intros w bs Hh Hs.
    { simpl in Hh. subst. left. by exists bs. }
    destruct Hh as (w2 & Ho & Hh). simpl in Ho. destruct Hs as [w Hw|b bs w Hs].
    - right. exists (c ++ p). split; [by destruct c|done].
    - destruct (Hs n Hn) as (c' & w' & Hrecv & _ & _ & Hcase).
      rewrite Hrecv in Ho. injection Ho as -> ->.
      destruct Hcase as [(rest & Hb & Hrest)|(more & Hm & ->)].
      + rewrite Hb. destruct (IH _ _ Hh Hrest) as [(r & -> & Hr')|(more & Hm & ->)].
        * left. exists r. by rewrite (assoc_L (++)).
        * right. exists more. by rewrite (assoc_L (++)).
      + right. exists (more ++ p). split; [by destruct more|].
        by rewrite <-(assoc_L (++) (b :: bs)).
Qed.

Lemma reads_not_denied s (ok : bytes -> Prop) p t w w1 :
    reads s p t -> happened w t w1 -> ok p -> ~ denies s ok w.
Proof.
    intros Hr Hh Hok [(bs & Hs & Hd)|(bs & e & Hs & Hd)]; specialize (Hd p Hok).
    - destruct (reads_streams _ _ _ _ _ _ _ Hr Hh Hs) as [(rest & -> & _)|(more & _ & ->)].
      + apply (proj1 Hd). by apply prefix_app_r.
      + apply (proj2 Hd). by apply prefix_app_r.
    - destruct (reads_serves _ _ _ _ _ _ _ Hr Hh Hs)
        as [(rest & -> & _)|(more & t2 & w2 & Hm & -> & Hk & Hr2 & Hh2)].
      + apply Hd. by apply prefix_app_r.
      + by eapply reads_not_stopped.
Qed.

(** The stream delivers a string of the same length: it is what was read. *)
Lemma reads_same s (K : W -> Prop) p q t w w1 :
    reads s p t -> happened w t w1 -> streams s K q w ->
    (p `prefix_of` q \/ q `prefix_of` p -> p = q) -> p = q /\ K w1.
Proof.
    intros Hr Hh Hs Heq.
    destruct (reads_streams _ _ _ _ _ _ _ Hr Hh Hs) as [(rest & -> & Hs')|(more & Hm & ->)].
    - assert (rest = []) as ->.
      { apply (app_inv_head p). rewrite app_nil_r. symmetry. apply Heq. left. by exists rest. }
      rewrite app_nil_r. split; [done|by inversion Hs'].
    - destruct Hm. apply (app_inv_head q). rewrite app_nil_r. apply Heq. right. by exists more.
Qed.

(** A trace that performs the script rules a deviation out. *)
Ltac unfold_happened :=
    repeat match goal with
      | Hh : happened _ (_ ++ _) _ |- _ => apply happened_app in Hh as (? & ? & ?)
      | Hh : happened _ (_ :: _) _ |- _ => destruct Hh as (? & ? & ?)
      | Hh : happened _ [] _ |- _ => simpl in Hh; subst
      | Ho : occurs _ _ _ |- _ => simpl in Ho
      end.

(** Replace the calls by their recorded results. *)
Ltac recall Hd :=
    repeat match type of Hd with
      | context [?call] => match goal with Hc : call = (_, _) |- _ => rewrite Hc in Hd end
      end; cbv beta iota in Hd.

Lemma performs_no_deviation st x sc t1 st1 w w1 :
    performs exe st x t1 st1 -> happened w t1 w1 -> deviates st (x :: sc) w ->
    deviates st1 sc w1.
Proof.
    destruct 1; intros Hh Hd; cbn [deviates] in Hd; unfold launch_deviates, then_deviates in Hd;
      unfold_happened;
      try (destruct Hd as (s' & Hs' & Hd);
        match goal with Hs : conns _ !! _ = Some _ |- _ =>
          rewrite Hs in Hs'; injection Hs' as <- end);
      recall Hd; try done.
    - auto.
    - destruct Hd as (port' & p' & [= <- <-] & Hd). recall Hd. done.
    - destruct Hd as [Hd|Hd]; [by destruct (reads_not_denied _ _ _ _ _ _ H1 Hh eq_refl Hd)|].
      by destruct (reads_same _ _ _ _ _ _ _ H1 Hh Hd) as [_ ?].
    - destruct Hd as [Hd|(q & Hq & Hd)].
      { by destruct (reads_not_denied _ _ _ _ _ _ H1 Hh (conj H2 H3) Hd). }
      destruct (reads_same _ _ _ _ _ _ _ H1 Hh Hd) as [-> ?]; [|done].
      by apply packets_comparable.
    - destruct Hd as [Hd|(qs' & Hq & Hd)].
      { by destruct (reads_not_denied _ _ _ _ _ _ H3 Hh
          (ex_intro _ qs (conj H1 eq_refl)) Hd). }
      destruct (reads_same _ _ _ _ _ _ _ H3 Hh Hd) as [_ ?]; [|done].
      apply arrangements_comparable. by rewrite Hq.
    - destruct H1 as [-> | ->]; recall Hd; done.
    - destruct H1 as [-> |[-> | ->]]; recall Hd; done.
    - destruct Hd as (port' & p' & [= <- <-] & Hd). recall Hd. auto.
Qed.

Lemma spells_no_deviation st sc t st' w w' :
    spells exe st sc t st' -> happened w t w' -> ~ deviates st sc w.
Proof.
    intros Hs. revert w. induction Hs as [|st x t1 st1 sc t2 st2 Hx _ IH]; intros w Hh Hd; [done|].
    apply happened_app in Hh as (w1 & H1 & H2).
    eapply IH; [exact H2|]. by eapply performs_no_deviation.
Qed.

End deviates.

(** ** The suite *)

Section suite.
  Context {W : Type} `{PlatformLaws W}.
  Context (exe : string) (mqtt_packets : MqttPackets) (mqtt5_props : Mqtt5Props)
    (mqtt5_rc : Mqtt5Rc) (mqtt5_opts : Mqtt5Opts).

(** C3: A platform that breaks the script makes the suite fail.  [deviates]:
    the platform follows [suite_script] up to some step, and at that step a
    system call of the step fails, the broker's first line lacks "listening" or
    its exit status is not 0, the bytes that come next on the connection differ
    from every packet that the step accepts (whatever has arrived behind them),
    the stream stops before such a packet is complete, or there is data where
    the step listens for silence.  Then [main] raises and never prints the line
    that reports success.  (Data that the broker sends where no step of the
    script reads is not a deviation: the driver does not look for it.) *)
Theorem main_rejects w :
    deviates exe idle (suite_script mqtt_packets mqtt5_props mqtt5_rc mqtt5_opts) w ->
    exists e w' t,
      main exe mqtt_packets mqtt5_props mqtt5_rc mqtt5_opts w = (Raise e, w', t) /\
      Forall (fun ev => is_print ev = false) t.
Proof.
    intros Hd. set (m := for_each (scenarios exe mqtt_packets mqtt5_props mqtt5_rc mqtt5_opts)
      (fun '(_, scenario) => scenario)).
    assert (honest m) as Hh.
    { pose proof (scenarios_honest (W:=W) exe mqtt_packets mqtt5_props mqtt5_rc mqtt5_opts) as Hs.
      subst m. induction Hs as [|[name m] l Hm _ IH]; [apply honest_ret|by apply honest_bind]. }
    pose proof (emits_all _ _ (scenarios_silent (W:=W) exe mqtt_packets mqtt5_props mqtt5_rc
      mqtt5_opts)) as Hq.
    pose proof (terminates_all _ (scenarios_terminate (W:=W) exe mqtt_packets mqtt5_props
      mqtt5_rc mqtt5_opts)) as Ht.
    unfold main, mbind, M_bind. fold m. destruct (m w) as [[[[]|e|] w1] t1] eqn:Hr.
    - exfalso. eapply spells_no_deviation; [|by eapply Hh|exact Hd].
      eapply spells_suite; [apply scenarios_play|exact Hr].
    - exists e, w1, t1. split; [done|]. by eapply Hq.
    - by apply Ht in Hr.
Qed.

End suite.

(** ** A broker that speaks out of turn *)

(** Whether the canned platform leaves a script, by running it. *)
Fixpoint strays (st : stage) (sc : script) (w : canned) : bool :=
  match sc with
  | [] => false
  | Launch _ _ _ :: sc' =>
      if occurs_in "listening" w.(log_line) then
        strays (staged 18830 w.(launched) [] []) sc'
          (Canned w.(inboxes) w.(accepted) w.(refuses_after) (S w.(launched))
             w.(log_line) w.(exit_status))
      else true
  | Open :: sc' =>
      match running st, canned_connect w with
      | Some (port, p), (inr s, w') => strays (staged port p (conns st ++ [s]) (seen st)) sc' w'
      | Some _, (inl _, _) => true
      | None, _ => false
      end
  | Finish :: sc' =>
      match running st with
      | Some _ => match w.(exit_status) with
                  | inr code => if decide (code = 0) then strays idle sc' w else true
                  | inl _ => true
                  end
      | None => false
      end
  | Pause _ :: sc' => strays st sc' w
  | Send i _ :: sc' | Close i :: sc' =>
      match conns st !! i with Some _ => strays st sc' w | None => false end
  | Recv i p :: sc' =>
      match conns st !! i ≫= (fun s => next_bytes (length p) s w) with
      | Some (q, w') => if decide (q = p) then strays st sc' w' else bool_decide (differ p q)
      | None => false
      end
  | RecvOk i _ :: sc' =>
      match conns st !! i ≫= (fun s => next_packet s w) with
      | Some (p, w') => is_packet p && strays (see st p) sc' w'
      | None => false
      end
  | RecvAll i ps :: sc' =>
      match conns st !! i ≫= (fun s => next_bytes (length (concat ps)) s w) with
      | Some (q, w') => bool_decide (q = concat (reverse ps)) && strays st sc' w'
      | None => false
      end
  | Quiet i :: sc' =>
      match conns st !! i with
      | Some s => match canned_recv s 1 w with
                  | (inl SocketTimeout, w') | (inr [], w') => strays st sc' w'
                  | _ => true
                  end
      | None => false
      end
  | NoAnswer i :: sc' =>
      match conns st !! i with
      | Some s => match canned_recv s 1 w with
                  | (inl ConnectionResetError, w') | (inl BrokenPipeError, w') | (inr [], w') =>
                      strays st sc' w'
                  | _ => true
                  end
      | None => false
      end
  | Ended i :: sc' =>
      match conns st !! i with
      | Some s => match canned_recv s 1 w with (inr [], w') => strays st sc' w' | _ => true end
      | None => false
      end
  end.

#[global] Instance differ_dec p q : Decision (differ p q).
Proof. unfold differ. apply _. Defined.

(** The socket of a connection, and the next packets of its inbox. *)
Ltac on_socket Hf :=
  let s := fresh "s" in let q := fresh "q" in let w1 := fresh "w1" in let Hq := fresh "Hq" in
  match type of Hf with
  | context [conns ?st !! ?i ≫= _] =>
      destruct (conns st !! i) as [s|]; [|done]; cbn [mbind option_bind] in Hf;
      match type of Hf with
      | context [next_bytes ?k s ?w] =>
          destruct (next_bytes k s w) as [[q w1]|] eqn:Hq; [|done]
      | context [next_packet s ?w] =>
          destruct (next_packet s w) as [[q w1]|] eqn:Hq; [|done]
      end
  | context [conns ?st !! ?i] => destruct (conns st !! i) as [s|]; [|done]
  end; exists s; split; [done|].

Lemma strays_deviates exe st sc w : strays st sc w = true -> deviates exe st sc w.
Proof.
  revert st w. induction sc as [|x sc IH]; intros st w; [done|].
  destruct x; cbn [strays deviates]; intros Hf;
    unfold launch_deviates, then_deviates; simpl; try on_socket Hf; auto.
  - intros Hl. rewrite Hl in Hf. auto.
  - destruct (running st) as [[port p]|]; [|done]. exists port, p. split; [done|].
    destruct (canned_connect w) as [[e|s] w']; auto.
  - case_decide as Hp.
    + right. subst q. eapply next_bytes_streams; [exact Hq|auto].
    + left; left. exists q. split; [by eapply next_bytes_streams|].
      intros p' ->. by apply bool_decide_eq_true in Hf.
  - apply andb_prop in Hf as [Hp Hf]. right. exists q. split; [by apply is_packet_spec|].
    eapply next_packet_streams; [exact Hq|auto].
  - apply andb_prop in Hf as [->%bool_decide_eq_true Hf]. right. exists (reverse ps).
    split; [by rewrite reverse_Permutation|]. eapply next_bytes_streams; [exact Hq|auto].
  - destruct (canned_recv s 1 w) as [[[]|[]] w']; auto.
  - destruct (canned_recv s 1 w) as [[[]|[]] w']; auto.
  - destruct (canned_recv s 1 w) as [[[]|[]] w']; auto.
  - destruct (running st) as [[port p]|]; [|done]. exists port, p. split; [done|].
    destruct (exit_status w) as [e|code]; [done|]. case_decide; [auto|done].
Qed.

(** The conforming broker, but it sends a PINGRESP whenever the scenario
    listens for silence, in one buffer with what it sent before. *)
Definition noisy (x : step) : step :=
  match x with Quiet i => Recv i (gen_pingresp wire_packets) | _ => x end.
Definition chatty : canned := good (coalesce <$> transcript candidates [] [] (noisy <$> wire_script)).

Lemma chatty_strays : strays idle wire_script chatty = true.
Proof. vm_compute. reflexivity. Qed.

Lemma main_rejects_witness :
  exists e w' t, wire_main chatty = (Raise e, w', t) /\
    Forall (fun ev => is_print ev = false) t.
Proof.
  apply (main_rejects "netz-mqtt-broker" wire_packets wire_props wire_rc wire_opts chatty).
  apply strays_deviates. exact chatty_strays.
Defined.
