(* ===== verification/Paths.v ===== *)
(** * Paths of the command line

    The fragment of [pathlib] that the driver uses on a POSIX system: the
    constructor [Path(s)], [str(p)] and [p / s].  A path is its root and its
    components; [str] of it is the text that the driver hands to the operating
    system, which is not always the text that it was given. *)

From Stdlib Require Import ZArith Lia Ascii.
From stdpp Require Import base list option strings.
From S2P Require Import Prelude PyValues.

Definition slash : ascii := "/"%char.

Record Path : Type := MkPath {
  path_root : string;              (** empty, one slash or two *)
  path_parts : list string;
}.

(** Leading slashes: exactly two are kept, any other number is one. *)
Fixpoint lstrip_slash (cs : list ascii) : nat * list ascii :=
  match cs with
  | c :: cs' =>
      if decide (c = slash) then let '(n, rest) := lstrip_slash cs' in (S n, rest)
      else (O, cs)
  | [] => (O, [])
  end.

Definition splitroot (cs : list ascii) : string * list ascii :=
  let '(n, rest) := lstrip_slash cs in
  (match n with O => "" | 2 => "//" | _ => "/" end, rest).

(** Components that say nothing are dropped: the empty one and the dot. *)
Definition is_part (cs : list ascii) : Prop := cs <> [] /\ cs <> ["."%char].
#[global] Instance is_part_dec cs : Decision (is_part cs).
Proof. unfold is_part. apply _. Defined.

(** [Path(s)]. *)
Definition parse_path (s : string) : Path :=
  let '(r, rel) := splitroot (chars s) in
  MkPath r (of_chars <$> filter is_part (split_chars slash rel)).

(** [str(p)]. *)
Definition path_str (p : Path) : string :=
  let s := p.(path_root) +:+ join "/" p.(path_parts) in
  if decide (s = "") then "." else s.

(** [p / s]. *)
Definition path_join (p : Path) (s : string) : Path :=
  let q := parse_path s in
  if decide (q.(path_root) = "") then MkPath p.(path_root) (p.(path_parts) ++ q.(path_parts))
  else q.

#[global] Instance path_eq_dec : EqDecision Path.
Proof. solve_decision. Defined.

(** ** Well-formed paths *)

Definition plain_part (s : string) : Prop :=
  s <> "" /\ s <> "." /\ slash ∉ chars s.

Definition wf_path (p : Path) : Prop :=
  (p.(path_root) = "" \/ p.(path_root) = "/" \/ p.(path_root) = "//") /\
  Forall plain_part p.(path_parts).

Lemma split_chars_free cs : Forall (fun w => slash ∉ w) (split_chars slash cs).
Proof.
  induction cs as [|c cs IH]; simpl; [repeat constructor; apply not_elem_of_nil|].
  case_decide as Hc; [constructor; [apply not_elem_of_nil|done]|].
  destruct IH as [|w ws Hw Hws]; repeat constructor; try done;
    (apply not_elem_of_cons; split; [congruence|]); [apply not_elem_of_nil|done].
Qed.

Lemma chars_inj s1 s2 : chars s1 = chars s2 -> s1 = s2.
Proof. intros H. by rewrite <-(of_chars_chars s1), H, of_chars_chars. Qed.

Lemma of_chars_inj c1 c2 : of_chars c1 = of_chars c2 -> c1 = c2.
Proof. intros H. by rewrite <-(chars_of_chars c1), H, chars_of_chars. Qed.

Lemma parse_path_wf s : wf_path (parse_path s).
Proof.
  unfold parse_path, splitroot. destruct (lstrip_slash (chars s)) as [n rel]. split; simpl.
  - destruct n as [|[|[|n]]]; auto.
  - apply Forall_fmap, Forall_forall. intros w [[Hn Hd] Hin]%list_elem_of_filter.
    pose proof (split_chars_free rel) as Hf. rewrite Forall_forall in Hf.
    split_and!; simpl; [intros Hw|intros Hw|rewrite chars_of_chars; by apply Hf];
      [apply Hn|apply Hd]; by apply of_chars_inj.
Qed.

(** ** [Path(str(p))] is [p] *)

(** A word without a slash, and what follows the next one. *)
Lemma split_chars_word w : slash ∉ w -> split_chars slash w = [w].
Proof.
  induction w as [|c w IH]; intros Hw; simpl; [done|].
  apply not_elem_of_cons in Hw as [Hc Hw]. rewrite decide_False by congruence.
  by rewrite IH.
Qed.

Lemma split_chars_app w cs :
  slash ∉ w -> split_chars slash (w ++ slash :: cs) = w :: split_chars slash cs.
Proof.
  induction w as [|c w IH]; intros Hw; simpl; [done|].
  apply not_elem_of_cons in Hw as [Hc Hw]. rewrite decide_False by congruence.
  by rewrite IH.
Qed.

Lemma split_chars_join parts :
  parts <> [] -> Forall (fun s => slash ∉ chars s) parts ->
  split_chars slash (chars (join "/" parts)) = chars <$> parts.
Proof.
  intros Hne Hf. induction Hf as [|s [|s' parts] Hs Hf IH]; [done| |].
  - simpl. by apply split_chars_word.
  - change (join "/" (s :: s' :: parts)) with (s +:+ "/" +:+ join "/" (s' :: parts)).
    rewrite chars_app.
    change (chars ("/" +:+ join "/" (s' :: parts)))
      with (slash :: chars (join "/" (s' :: parts))).
    rewrite split_chars_app by done. by rewrite IH.
Qed.

Lemma filter_parts parts :
  Forall plain_part parts -> of_chars <$> filter is_part (chars <$> parts) = parts.
Proof.
  induction 1 as [|s parts (Hn & Hd & _) _ IH]; [done|].
  rewrite fmap_cons, filter_cons_True, fmap_cons.
  - by rewrite of_chars_chars, IH.
  - split; [intros Hs; by apply Hn, chars_inj|intros Hs; by apply Hd, chars_inj].
Qed.

Lemma lstrip_slash_relative cs :
  head cs <> Some slash -> lstrip_slash cs = (O, cs).
Proof. destruct cs as [|c cs]; [done|]. simpl. intros Hc. by rewrite decide_False by congruence. Qed.

Lemma join_relative parts :
  Forall plain_part parts -> head (chars (join "/" parts)) <> Some slash.
Proof.
  intros Hp. destruct Hp as [|s parts (Hn & _ & Hs) _]; [done|].
  assert (exists c s', s = String c s' /\ c <> slash) as (c & s' & -> & Hc).
  { destruct s as [|c s']; [done|]. exists c, s'. split; [done|]. intros ->.
    apply Hs. simpl. apply list_elem_of_here. }
  destruct parts; simpl; congruence.
Qed.

Lemma split_parts parts :
  Forall plain_part parts ->
  of_chars <$> filter is_part (split_chars slash (chars (join "/" parts))) = parts.
Proof.
  intros Hp. destruct (decide (parts = [])) as [->|Hne]; [done|].
  rewrite split_chars_join; [by apply filter_parts|done|].
  eapply Forall_impl; [exact Hp|]. by intros s (_ & _ & ?).
Qed.

Lemma parse_rooted n parts s :
  Forall plain_part parts ->
  lstrip_slash (chars s) = (n, chars (join "/" parts)) ->
  parse_path s = MkPath match n with O => "" | 2 => "//" | _ => "/" end parts.
Proof.
  intros Hp Hs. unfold parse_path, splitroot. rewrite Hs. cbv beta iota.
  by rewrite split_parts.
Qed.

Lemma parse_path_str p : wf_path p -> parse_path (path_str p) = p.
Proof.
  destruct p as [r parts]. intros [Hr Hp]. cbn [path_root path_parts] in *.
  pose proof (lstrip_slash_relative _ (join_relative parts Hp)) as Hj.
  unfold path_str. cbn [path_root path_parts]. destruct Hr as [->|[-> | ->]].
  - change ("" +:+ join "/" parts) with (join "/" parts). case_decide as He.
    + pose proof (split_parts parts Hp) as Hs. rewrite He in Hs. by subst parts.
    + by apply (parse_rooted 0).
  - rewrite decide_False by done. apply (parse_rooted 1); [done|].
    change (chars ("/" +:+ join "/" parts)) with (slash :: chars (join "/" parts)).
    cbn [lstrip_slash]. rewrite decide_True by done. by rewrite Hj.
  - rewrite decide_False by done. apply (parse_rooted 2); [done|].
    change (chars ("//" +:+ join "/" parts)) with (slash :: slash :: chars (join "/" parts)).
    cbn [lstrip_slash]. rewrite !decide_True by done. by rewrite Hj.
Qed.

(** The leading dot of [./name] is dropped. *)
Lemma parse_dotted name : plain_part name -> path_str (parse_path ("./" +:+ name)) = name.
Proof.
  intros Hn. assert (parse_path ("./" +:+ name) = MkPath "" [name]) as ->.
  { unfold parse_path, splitroot. change (chars ("./" +:+ name)) with ("."%char :: slash :: chars name).
    cbn [lstrip_slash]. rewrite decide_False by done. cbv beta iota.
    change ("."%char :: slash :: chars name) with (["."%char] ++ slash :: chars name).
    rewrite split_chars_app by (by apply (bool_decide_unpack _)).
    rewrite split_chars_word by apply Hn.
    rewrite filter_cons_False by (intros [_ Hd]; done).
    f_equal. apply (filter_parts [name]). by repeat constructor; apply Hn. }
  unfold path_str. simpl. rewrite decide_False; [done|apply Hn].
Qed.
