(* ===== verification/CommandLine.v ===== *)
(** * The command line: [parse_args]

    The driver declares one positional argument, [broker], and one option,
    [--mosquitto-test-root]; [argparse] adds [-h] and [--help].  The model is
    the algorithm of CPython's [argparse] (3.11) for this parser: every
    argument is classified first, then positionals and options are consumed
    from left to right, and what is left over is an error.  An error writes its
    message and raises [SystemExit] with status 2. *)

From Stdlib Require Import ZArith Lia Ascii.
From stdpp Require Import base list option strings.
From S2P Require Import Prelude PyValues Paths.
Local Open Scope Z_scope.

(** ** Options *)

Inductive action : Type := Help | TestRoot.

Definition test_root_option : string := "--mosquitto-test-root".

Definition option_string_actions : list (string * action) :=
  [("-h", Help); ("--help", Help); (test_root_option, TestRoot)].

(** How messages name an action. *)
Definition argument_name (a : action) : string :=
  match a with Help => "-h/--help" | TestRoot => test_root_option end.

Definition usage_error (msg : string) : exn := SystemExit 2 msg.
Definition argument_error (a : action) (msg : string) : exn :=
  usage_error ("argument " +:+ argument_name a +:+ ": " +:+ msg).
Definition ignored_explicit (a : action) (arg : string) : exn :=
  argument_error a ("ignored explicit argument " +:+ repr arg).

(** ** Classification of an argument *)

Inductive token : Type :=
  | Argument
  | DoubleDash
  | Option (a : option action) (name : string) (explicit : option string).

Definition dash : ascii := "-"%char.

(** [s.split('=', 1)], if there is an equals sign. *)
Fixpoint split_equals (cs : list ascii) : option (list ascii * list ascii) :=
  match cs with
  | [] => None
  | c :: cs' =>
      if decide (c = "="%char) then Some ([], cs')
      else '(l, r) ← split_equals cs'; Some (c :: l, r)
  end.

Definition find_option (name : string) : option action :=
  snd <$> List.find (fun '(o, _) => String.eqb o name) option_string_actions.

(** [_get_option_tuples]: the options that [arg] may abbreviate. *)
Definition get_option_tuples (arg : string) : list (action * string * option string) :=
  if startswith arg "--" then
    let '(name, explicit) :=
      match split_equals (chars arg) with
      | Some (l, r) => (of_chars l, Some (of_chars r))
      | None => (arg, None)
      end in
    '(o, a) ← option_string_actions;
    if startswith o name then [(a, o, explicit)] else []
  else
    let short := of_chars (take 2 (chars arg)) in
    let rest := of_chars (drop 2 (chars arg)) in
    '(o, a) ← option_string_actions;
    if decide (o = short) then [(a, o, Some rest)]
    else if startswith o arg then [(a, o, None)] else [].

(** The pattern of a negative number: [^-\d+$|^-\d*\.\d+$]. *)
Definition is_digit (c : ascii) : bool :=
  bool_decide (48 <= N_of_ascii c)%N && bool_decide (N_of_ascii c <= 57)%N.

(** [$] also matches before a final newline. *)
Definition chop_newline (cs : list ascii) : list ascii :=
  match reverse cs with
  | c :: cs' => if decide (N_of_ascii c = 10%N) then reverse cs' else cs
  | [] => []
  end.

Definition digits (cs : list ascii) : bool := bool_decide (cs <> []) && forallb is_digit cs.

Fixpoint dotted (cs : list ascii) : bool :=
  match cs with
  | [] => false
  | c :: cs' =>
      if decide (c = "."%char) then digits cs' else is_digit c && dotted cs'
  end.

Definition negative_number (cs : list ascii) : bool :=
  match chop_newline cs with
  | c :: cs' => bool_decide (c = dash) && (digits cs' || dotted cs')
  | [] => false
  end.

(** [_parse_optional]. *)
Definition parse_optional (arg : string) : result token :=
  match chars arg with
  | [] => inr Argument
  | c :: rest =>
      if decide (c <> dash) then inr Argument
      else
        match find_option arg with
        | Some a => inr (Option (Some a) arg None)
        | None =>
            if decide (rest = []) then inr Argument
            else
              match '(l, r) ← split_equals (chars arg);
                    a ← find_option (of_chars l); Some (a, of_chars l, of_chars r) with
              | Some (a, name, explicit) => inr (Option (Some a) name (Some explicit))
              | None =>
                  match get_option_tuples arg with
                  | [(a, name, explicit)] => inr (Option (Some a) name explicit)
                  | [] =>
                      if negative_number (chars arg) then inr Argument
                      else if decide (" "%char ∈ chars arg) then inr Argument
                      else inr (Option None arg None)
                  | tuples =>
                      inl (usage_error ("ambiguous option: " +:+ arg +:+ " could match "
                             +:+ join ", " ((fun '(_, o, _) => o) <$> tuples)))
                  end
              end
        end
  end.

(** The loop over the arguments: all of them after [--] are positional. *)
Fixpoint classify (args : list string) : result (list (string * token)) :=
  match args with
  | [] => inr []
  | arg :: args' =>
      if decide (arg = "--")
      then inr ((arg, DoubleDash) :: ((fun s => (s, Argument)) <$> args'))
      else
        let! t := parse_optional arg in
        let! ts := classify args' in
        inr ((arg, t) :: ts)
  end.

(** ** Consuming the arguments *)

(** The value of an option: a path; [_get_values] drops a value [--] and
    stores the empty list. *)
Inductive root_value : Type :=
  | PathValue (p : Path)
  | EmptyList.

Definition get_value (s : string) : root_value :=
  if decide (s = "--") then EmptyList else PathValue (parse_path s).

(** [str(value)]. *)
Definition str_value (v : root_value) : string :=
  match v with PathValue p => path_str p | EmptyList => "[]" end.

Record parsing : Type := Parsing {
  broker_arg : option string;
  root_arg : option root_value;
  extras : list string;
}.

Definition set_broker s (st : parsing) : parsing :=
  Parsing (Some s) st.(root_arg) st.(extras).
Definition set_root v (st : parsing) : parsing :=
  Parsing st.(broker_arg) (Some v) st.(extras).
Definition add_extras l (st : parsing) : parsing :=
  Parsing st.(broker_arg) st.(root_arg) (st.(extras) ++ l).

(** Further flags in the tail of [-h]: only [h] is one. *)
Fixpoint help_cluster (explicit : list ascii) : exn :=
  match explicit with
  | [] => SystemExit 0 ""
  | c :: rest =>
      if decide (c = "h"%char) then help_cluster rest
      else ignored_explicit Help (of_chars explicit)
  end.

(** [-h] prints the help and exits. *)
Definition take_help (name : string) (explicit : option string) : exn :=
  match explicit with
  | None => SystemExit 0 ""
  | Some arg =>
      if decide (name = "-h" /\ arg <> "") then help_cluster (chars arg)
      else ignored_explicit Help arg
  end.

(** Positionals and options from left to right. *)
Fixpoint consume (ts : list (string * token)) (st : parsing) : result parsing :=
  match ts with
  | [] => inr st
  | (arg, Option None _ _) :: ts' => consume ts' (add_extras [arg] st)
  | (_, Option (Some Help) name explicit) :: _ => inl (take_help name explicit)
  | (_, Option (Some TestRoot) _ (Some explicit)) :: ts' =>
      consume ts' (set_root (get_value explicit) st)
  | (_, Option (Some TestRoot) _ None) :: ts' =>
      match ts' with
      | (v, Argument) :: ts'' => consume ts'' (set_root (get_value v) st)
      | _ => inl (argument_error TestRoot "expected one argument")
      end
  | (arg, Argument) :: ts' =>
      match st.(broker_arg), ts' with
      | Some _, _ => consume ts' (add_extras [arg] st)
      | None, (_, DoubleDash) :: ts'' => consume ts'' (set_broker arg st)
      | None, _ => consume ts' (set_broker arg st)
      end
  | (arg, DoubleDash) :: ts' =>
      match st.(broker_arg), ts' with
      | None, (v, Argument) :: ts'' => consume ts'' (set_broker v st)
      | _, _ => consume ts' (add_extras [arg] st)
      end
  end.

(** ** [parse_args] *)

Record Namespace : Type := {
  broker : Path;
  mosquitto_test_root : root_value;
}.

(** [Path.home()]; [home] is what [os.path.expanduser] makes of a tilde. *)
Definition path_home (home : string) : result Path :=
  if startswith home "~" then inl (RuntimeError "Could not determine home directory.")
  else inr (parse_path home).

(** The default is evaluated when the option is declared, given or not. *)
Definition parse_args (home : string) (argv : list string) : result Namespace :=
  let! h := path_home home in
  let default_root := path_join h "Work/mosquitto/test" in
  let! ts := classify argv in
  let! st := consume ts (Parsing None None []) in
  match st.(broker_arg) with
  | None => inl (usage_error "the following arguments are required: broker")
  | Some b =>
      if decide (st.(extras) = []) then
        inr {| broker := parse_path b;
               mosquitto_test_root := default (PathValue default_root) st.(root_arg) |}
      else inl (usage_error ("unrecognized arguments: " +:+ join " " st.(extras)))
  end.
