(* ===== verification/CommandGrammar.v ===== *)
(** * The command lines that the driver accepts

    A grammar of the accepted lines, and the proof that [parse_args] accepts
    exactly them. *)

From Stdlib Require Import ZArith Lia Ascii Wf_nat.
From stdpp Require Import base list option strings.
From S2P Require Import Prelude PyValues Paths CommandLine.
Local Open Scope Z_scope.

(** ** The accepted command lines *)

(** The spellings of the option: its prefixes, from the first that is not also
    one of [--help]. *)
Definition abbreviations : list string :=
  (fun n => of_chars (take n (chars test_root_option))) <$> seq 3 19.

(** Arguments that are not taken for options. *)
Definition positional (s : string) : Prop := parse_optional s = inr Argument.

(** Occurrences of the option, with their values. *)
Inductive root_options : list string -> list root_value -> Prop :=
  | no_option : root_options [] []
  | joined_option name v args vs :
      name ∈ abbreviations -> root_options args vs ->
      root_options ((name +:+ "=" +:+ v) :: args) (get_value v :: vs)
  | separate_option name v args vs :
      name ∈ abbreviations -> positional v -> root_options args vs ->
      root_options (name :: v :: args) (get_value v :: vs).

(** One broker among any number of options, the last of which counts; two
    dashes may stand directly before or after it at the end. *)
Inductive command_line : list string -> string -> list root_value -> Prop :=
  | broker_among before b after v1 v2 :
      root_options before v1 -> positional b -> root_options after v2 ->
      command_line (before ++ b :: after) b (v1 ++ v2)
  | broker_after_dashes before b vs :
      root_options before vs -> command_line (before ++ ["--"; b]) b vs
  | broker_before_dashes before b vs :
      root_options before vs -> positional b -> command_line (before ++ [b; "--"]) b vs.

(** *** The options *)

(** One case per spelling. *)
Ltac each_abbreviation H :=
  let l := eval vm_compute in abbreviations in change abbreviations with l in H;
  repeat (apply elem_of_cons in H as [-> |H]; [|]);
  try (by apply not_elem_of_nil in H).

Lemma parse_abbreviation name :
  name ∈ abbreviations ->
  name <> "--" /\ parse_optional name = inr (Option (Some TestRoot) test_root_option None).
Proof. intros Hn. each_abbreviation Hn; done. Qed.

Lemma parse_joined name v :
  name ∈ abbreviations ->
  name +:+ "=" +:+ v <> "--" /\
  parse_optional (name +:+ "=" +:+ v)
    = inr (Option (Some TestRoot) test_root_option (Some v)).
Proof.
  intros Hn. rewrite <-(of_chars_chars v) at 3.
  each_abbreviation Hn; (split; [done|reflexivity]).
Qed.

(** Conversely, only these spellings are taken for the option. *)
Lemma find_option_root name : find_option name = Some TestRoot -> name = test_root_option.
Proof.
  unfold find_option, option_string_actions. cbn [List.find].
  destruct (String.eqb "-h" name); [done|]. destruct (String.eqb "--help" name); [done|].
  destruct (String.eqb test_root_option name) eqn:Hn; [|done].
  intros _. symmetry. by apply String.eqb_eq.
Qed.

Lemma split_equals_app cs l r : split_equals cs = Some (l, r) -> cs = l ++ "="%char :: r.
Proof.
  revert l. induction cs as [|c cs IH]; intros l; simpl; [done|]. case_decide as Hc.
  - intros [= <- <-]. by subst.
  - intros ([l' r'] & Hs & [= <- <-])%bind_Some. simpl. by rewrite <-(IH l').
Qed.

Lemma joined_text arg l r :
  split_equals (chars arg) = Some (l, r) -> arg = of_chars l +:+ "=" +:+ of_chars r.
Proof.
  intros Hs%split_equals_app. apply chars_inj. rewrite !chars_app, !chars_of_chars. by rewrite Hs.
Qed.

Lemma prefix_take p s :
  startswith s p = true -> p = of_chars (take (String.length p) (chars s)) /\
  (String.length p <= String.length s)%nat.
Proof.
  unfold startswith. revert s. induction p as [|c p IH]; intros s; simpl; [intros _; split; [done|lia]|].
  destruct s as [|c' s]; [done|]. simpl. destruct (ascii_dec c c') as [->|]; [|done].
  intros [Hp Hl]%IH. simpl. split; [by f_equal|lia].
Qed.

Lemma abbreviation_prefix name :
  startswith test_root_option name = true -> startswith "--help" name = false ->
  name ∈ abbreviations.
Proof.
  intros Hp Hh. destruct (prefix_take _ _ Hp) as [Hn Hl]. apply list_elem_of_fmap.
  exists (String.length name). split; [done|]. apply elem_of_seq.
  cut (3 <= String.length name)%nat; [simpl in Hl; lia|].
  destruct (String.length name) as [|[|[|n]]]; [..|lia]; simpl in Hn; by subst name.
Qed.

Lemma startswith_cons c s c' p :
  startswith (String c s) (String c' p) = bool_decide (c = c') && startswith s p.
Proof.
  unfold startswith. simpl. destruct (ascii_dec c' c) as [-> |Hc].
  - by rewrite bool_decide_eq_true_2.
  - by rewrite bool_decide_eq_false_2 by congruence.
Qed.

(** The options that a name with two dashes abbreviates. *)
Lemma long_option_root name (e e' : option string) n :
  ('(o, a) ← option_string_actions; if startswith o name then [(a, o, e')] else [])
    = [(TestRoot, n, e)] ->
  name ∈ abbreviations /\ e = e'.
Proof.
  unfold option_string_actions. cbn -[startswith].
  destruct (startswith "-h" name), (startswith "--help" name) eqn:Hh,
    (startswith test_root_option name) eqn:Hr; cbn; try done.
  intros [= _ <-]. split; [by apply abbreviation_prefix|done].
Qed.

Lemma get_option_tuples_root c rest n e :
  let arg := String dash (String c rest) in
  get_option_tuples arg = [(TestRoot, n, e)] ->
  (e = None /\ arg ∈ abbreviations) \/
  (exists name v, e = Some v /\ arg = name +:+ "=" +:+ v /\ name ∈ abbreviations).
Proof.
  intros arg. unfold get_option_tuples. destruct (startswith arg "--") eqn:Hdd.
  - destruct (split_equals (chars arg)) as [[l r]|] eqn:Hs; intros [Hn ->]%long_option_root.
    + right. exists (of_chars l), (of_chars r). split_and!; [done|by apply joined_text|done].
    + by left.
  - assert (bool_decide (dash = c) = false) as Hc.
    { apply bool_decide_eq_false. intros <-. subst arg.
      change "--" with (String dash (String dash "")) in Hdd.
      rewrite !startswith_cons, bool_decide_eq_true_2 in Hdd by done. by destruct rest. }
    assert (startswith "--help" arg = false /\ startswith test_root_option arg = false) as [H1 H2].
    { subst arg. change "--help" with (String dash (String dash "help")).
      change test_root_option with (String dash (String dash "mosquitto-test-root")).
      rewrite !startswith_cons, Hc. by rewrite !andb_false_r. }
    unfold option_string_actions. cbn -[startswith take drop chars].
    rewrite H1, H2. change (take 2 (chars arg)) with [dash; c].
    repeat case_decide; destruct (startswith "-h" arg); cbn; try done.
Qed.

Lemma parse_optional_root arg n e :
  parse_optional arg = inr (Option (Some TestRoot) n e) ->
  (e = None /\ arg ∈ abbreviations) \/
  (exists name v, e = Some v /\ arg = name +:+ "=" +:+ v /\ name ∈ abbreviations).
Proof.
  assert (test_root_option ∈ abbreviations) as Hroot.
  { apply (bool_decide_unpack _). vm_compute. exact I. }
  unfold parse_optional. destruct arg as [|c arg]; [done|]. cbn [chars].
  case_decide as Hc; [done|]. subst c.
  destruct (find_option _) as [a|] eqn:Hf.
  { intros [= -> <- <-]. apply find_option_root in Hf as ->. by left. }
  case_decide as Hr; [done|]. destruct arg as [|c arg]; [done|].
  destruct (_ ≫= _) as [[[a name] v]|] eqn:Hj.
  { intros [= -> <- <-]. apply bind_Some in Hj as ([l r] & Hs & Hj).
    apply bind_Some in Hj as (a & Hl & [= -> <- <-]).
    apply find_option_root in Hl. right. exists (of_chars l), (of_chars r).
    split_and!; [done|by apply joined_text|by rewrite Hl]. }
  destruct (get_option_tuples _) as [|[[a name] v] [|]] eqn:Ht; [by repeat case_match| |done].
  intros [= -> <- <-]. by eapply get_option_tuples_root.
Qed.

(** *** The whole line *)

Definition run_arguments (args : list string) (st : parsing) : result parsing :=
  let! ts := classify args in consume ts st.

Definition set_roots (vs : list root_value) (st : parsing) : parsing :=
  foldl (fun st v => set_root v st) st vs.

Lemma set_roots_broker vs b st : set_roots vs (set_broker b st) = set_broker b (set_roots vs st).
Proof. revert st. induction vs as [|v vs IH]; intros st; [done|]. apply (IH (set_root v st)). Qed.

Lemma set_roots_app v1 v2 st : set_roots (v1 ++ v2) st = set_roots v2 (set_roots v1 st).
Proof. apply foldl_app. Qed.

Lemma set_roots_keeps vs st :
  broker_arg (set_roots vs st) = broker_arg st /\ extras (set_roots vs st) = extras st /\
  root_arg (set_roots vs st) = from_option Some (root_arg st) (last vs).
Proof.
  induction vs as [|v vs IH] using rev_ind; [done|].
  rewrite set_roots_app, last_snoc. simpl. naive_solver.
Qed.

(** A classified argument is consumed on its own. *)
Lemma run_cons arg t args st :
  arg <> "--" -> parse_optional arg = inr t ->
  run_arguments (arg :: args) st =
    let! ts := classify args in consume ((arg, t) :: ts) st.
Proof.
  intros Ha Ht. unfold run_arguments. cbn [classify]. rewrite decide_False, Ht by done.
  simpl. by destruct (classify args).
Qed.

Lemma positional_not_dashes s : positional s -> s <> "--".
Proof. intros Hs ->. done. Qed.

Lemma run_options before vs args st :
  root_options before vs ->
  run_arguments (before ++ args) st = run_arguments args (set_roots vs st).
Proof.
  intros Hb. revert st. induction Hb as [|name v before vs Hn _ IH|name v before vs Hn Hv _ IH];
    intros st; [done| |]; cbn [app].
  - destruct (parse_joined name v Hn) as [Hd Hp]. rewrite (run_cons _ _ _ _ Hd Hp).
    change (set_roots (_ :: vs) st) with (set_roots vs (set_root (get_value v) st)).
    rewrite <-IH. unfold run_arguments. by destruct (classify (before ++ args)).
  - destruct (parse_abbreviation name Hn) as [Hd Hp]. rewrite (run_cons _ _ _ _ Hd Hp).
    cbn [classify]. rewrite decide_False, Hv by by apply positional_not_dashes.
    change (set_roots (_ :: vs) st) with (set_roots vs (set_root (get_value v) st)).
    rewrite <-IH. unfold run_arguments. simpl. by destruct (classify (before ++ args)).
Qed.

Lemma parse_optional_not_dashes arg t : parse_optional arg = inr t -> t <> DoubleDash.
Proof. intros Ht ->. revert Ht. unfold parse_optional. by repeat case_match. Qed.

Lemma run_broker b args st :
  broker_arg st = None -> positional b -> head args <> Some "--" ->
  run_arguments (b :: args) st = run_arguments args (set_broker b st).
Proof.
  intros Hst Hb Ha. rewrite (run_cons _ _ _ _ (positional_not_dashes b Hb) Hb).
  unfold run_arguments. destruct args as [|a args]; [simpl; by rewrite Hst|].
  cbn [classify]. rewrite decide_False by (simpl in Ha; congruence).
  destruct (parse_optional a) as [e|t] eqn:Ht; [done|].
  apply parse_optional_not_dashes in Ht. simpl. destruct (classify args); [done|].
  simpl. rewrite Hst. by destruct t.
Qed.

Lemma root_options_head args vs : root_options args vs -> head args <> Some "--".
Proof.
  intros [|name v args' vs' Hn _|name v args' vs' Hn _ _]; [done| |]; intros [= He].
  - by apply (parse_joined name v Hn).
  - by apply (parse_abbreviation name Hn).
Qed.

Lemma run_command_line args b vs st :
  broker_arg st = None -> command_line args b vs ->
  run_arguments args st = inr (set_roots vs (set_broker b st)).
Proof.
  intros Hst [before b' after v1 v2 Hb Hp Ha|before b' vs' Hb|before b' vs' Hb Hp];
    rewrite (run_options _ _ _ _ Hb);
    (match type of Hb with root_options _ ?v => pose proof (set_roots_keeps v st) as (Hst1 & _) end);
    rewrite Hst in Hst1; rewrite ?set_roots_app, set_roots_broker.
  - rewrite run_broker by (try done; by eapply root_options_head).
    rewrite <-(app_nil_r after), (run_options _ _ _ _ Ha). by rewrite set_roots_broker.
  - unfold run_arguments. cbn [classify fmap list_fmap]. rewrite decide_True by done. simpl.
    by rewrite Hst1.
  - rewrite (run_cons _ _ _ _ (positional_not_dashes b' Hp) Hp). cbn [classify].
    rewrite decide_True by done. simpl. by rewrite Hst1.
Qed.

(** Conversely, what is consumed without extras is such a line. *)
Lemma consume_extras ts st st' :
  consume ts st = inr st' -> extras st' = [] -> extras st = [].
Proof.
  intros Hc He. cut (exists l, extras st' = extras st ++ l).
  { intros [l Hl]. rewrite He in Hl. symmetry in Hl. by apply app_eq_nil in Hl as [? _]. }
  clear He. revert st Hc. induction ts as [ts IH] using (induction_ltof1 _ length).
  unfold ltof in IH. intros st. destruct ts as [|[arg t] ts]; simpl.
  { intros [= <-]. exists []. by rewrite app_nil_r. }
  repeat case_match; try done; subst; intros Hc; apply IH in Hc as [more Hl];
    try (simpl; lia); simpl in Hl; rewrite <-?(assoc_L (++)) in Hl; eauto.
Qed.

Lemma consume_extra ts a st st' :
  consume ts (add_extras [a] st) = inr st' -> extras st' <> [].
Proof.
  intros Hc He. pose proof (consume_extras _ _ _ Hc He) as Hx. simpl in Hx.
  by destruct (extras st).
Qed.

(** Once the broker is known, further plain arguments are extras. *)
Lemma consume_arguments args st st' :
  consume ((fun s => (s, Argument)) <$> args) st = inr st' -> extras st' = [] ->
  broker_arg st <> None -> args = [] /\ st' = st.
Proof.
  destruct args as [|a args]; [by intros [= <-]|]. simpl.
  destruct (broker_arg st); [|done]. by intros Hc%consume_extra.
Qed.

Lemma classify_argument args v ts :
  classify args = inr ((v, Argument) :: ts) ->
  exists args', args = v :: args' /\ positional v /\ classify args' = inr ts.
Proof.
  destruct args as [|a args]; [done|]. cbn [classify]. case_decide; [done|].
  destruct (parse_optional a) as [e|t] eqn:Ht; [done|]. simpl.
  destruct (classify args) eqn:Hts; [done|]. intros [= -> -> ->]. by exists args.
Qed.

(** What the consumed arguments have the form of. *)
Definition consumed (args : list string) (st st' : parsing) : Prop :=
  (exists vs, root_options args vs /\ st' = set_roots vs st) \/
  (broker_arg st = None /\
   exists b vs, command_line args b vs /\ st' = set_roots vs (set_broker b st)).

(** The broker is taken; two dashes after it are dropped. *)
Lemma consumed_broker b args st st' :
  broker_arg st = None -> positional b -> consumed args (set_broker b st) st' ->
  consumed (b :: args) st st'.
Proof.
  intros Hst Hb [(vs & Ha & ->)|[? _]]; [|done]. right. split; [done|].
  exists b, vs. split; [|done]. apply (broker_among [] b args []); [constructor|done|done].
Qed.

Lemma classify_dashes args a ts :
  classify args = inr ((a, DoubleDash) :: ts) ->
  exists args', args = "--" :: args' /\ ts = (fun s => (s, Argument)) <$> args'.
Proof.
  destruct args as [|a' args]; [done|]. cbn [classify]. case_decide as Hd.
  - intros [= _ <-]. exists args. by subst.
  - destruct (parse_optional a') as [e|t] eqn:Ht; [done|]. simpl.
    destruct (classify args); [done|]. intros [= _ -> _].
    by apply parse_optional_not_dashes in Ht.
Qed.

Lemma root_options_app a1 v1 a2 v2 :
  root_options a1 v1 -> root_options a2 v2 -> root_options (a1 ++ a2) (v1 ++ v2).
Proof. induction 1; simpl; [done|constructor; auto..]. Qed.

Lemma command_line_options o v args b vs :
  root_options o v -> command_line args b vs -> command_line (o ++ args) b (v ++ vs).
Proof.
  intros Ho [before b' after v1 v2 Hb Hp Ha|before b' vs' Hb|before b' vs' Hb Hp];
    rewrite !(assoc_L (++)); constructor; by try apply root_options_app.
Qed.

Lemma consumed_option o v args st st' :
  root_options o [v] -> consumed args (set_root v st) st' -> consumed (o ++ args) st st'.
Proof.
  intros Ho [(vs & Ha & ->)|(Hb & b & vs & Hc & ->)].
  - left. exists (v :: vs). split; [by apply (root_options_app o [v])|done].
  - right. split; [done|]. exists b, (v :: vs).
    split; [by apply (command_line_options o [v])|done].
Qed.

Lemma run_consumed args st st' :
  run_arguments args st = inr st' -> extras st' = [] -> consumed args st st'.
Proof.
  revert st. induction args as [args IH] using (induction_ltof1 _ length). unfold ltof in IH.
  intros st Hr He. destruct args as [|arg args].
  { injection Hr as <-. left. exists []. by split; [constructor|]. }
  unfold run_arguments in Hr. cbn [classify] in Hr. case_decide as Hd.
  - subst arg. simpl in Hr. destruct (broker_arg st) as [b|] eqn:Hb.
    { by apply consume_extra in Hr. }
    destruct args as [|v args]; [by apply consume_extra in Hr|]. simpl in Hr.
    apply consume_arguments in Hr as [-> ->]; [|done|done]. right. split; [done|].
    exists v, []. split; [|done]. apply (broker_after_dashes []). constructor.
  - destruct (parse_optional arg) as [e|t] eqn:Ht; [done|]. simpl in Hr.
    destruct (classify args) as [e|ts] eqn:Hts; [done|]. simpl in Hr.
    assert (forall st1, consume ts st1 = inr st' -> consumed args st1 st') as IH1.
    { intros st1 H1. apply IH; [simpl; lia| |done]. unfold run_arguments. by rewrite Hts. }
    destruct t as [| |[[]|] n [v|]]; try done.
    + destruct (broker_arg st) eqn:Hb; [by apply consume_extra in Hr|].
      destruct ts as [|[x []] ts]; try (by apply consumed_broker, IH1).
      apply classify_dashes in Hts as (args' & -> & ->).
      apply consume_arguments in Hr as [-> ->]; [|done|done]. right. split; [done|].
      exists arg, []. split; [|done]. by apply (broker_before_dashes []); [constructor|].
    + by apply parse_optional_not_dashes in Ht.
    + apply parse_optional_root in Ht as [[? _]|(name & v' & [= <-] & -> & Hn)]; [done|].
      apply (consumed_option [_] (get_value v));
        [by apply joined_option; [|constructor]|auto].
    + apply parse_optional_root in Ht as [[_ Hn]|(name & v' & ? & _)]; [|done].
      destruct ts as [|[v []] ts]; try done. apply classify_argument in Hts
        as (args' & -> & Hv & Hts).
      apply (consumed_option [arg; v] (get_value v));
        [by apply separate_option; [..|constructor]|].
      apply IH; [simpl; lia| |done]. unfold run_arguments. by rewrite Hts.
    + by apply consume_extra in Hr.
    + by apply consume_extra in Hr.
Qed.

(** The result of an accepted line. *)
Definition parsed (home : string) (b : string) (vs : list root_value) : Namespace :=
  {| broker := parse_path b;
     mosquitto_test_root :=
       List.last vs (PathValue (path_join (parse_path home) "Work/mosquitto/test")) |}.

Lemma parse_args_iff home argv ns :
  startswith home "~" = false ->
  parse_args home argv = inr ns <->
  exists b vs, command_line argv b vs /\ ns = parsed home b vs.
Proof.
  intros Hh. unfold parse_args, path_home, parsed. rewrite Hh. cbn [rbind].
  set (root := PathValue _). set (st := Parsing None None []).
  assert (forall vs, default root (root_arg (set_roots vs st)) = List.last vs root) as Hlast.
  { intros vs. rewrite (proj2 (proj2 (set_roots_keeps vs st))).
    induction vs as [|v vs _] using rev_ind; [done|].
    rewrite last_snoc, List.last_last. done. }
  assert (forall b vs st', st' = set_roots vs (set_broker b st) ->
    broker_arg st' = Some b /\ extras st' = [] /\ default root (root_arg st') = List.last vs root)
    as Hend.
  { intros b vs st' ->. rewrite set_roots_broker. simpl.
    by rewrite Hlast, (proj1 (proj2 (set_roots_keeps vs st))). }
  pose proof (fun b vs => run_command_line argv b vs st eq_refl) as Hcomplete.
  pose proof (run_consumed argv st) as Hsound. unfold run_arguments in Hcomplete, Hsound.
  destruct (classify argv) as [e|ts]; cbn [rbind] in *.
  { split; [done|]. intros (b & vs & Hc & _). by apply Hcomplete in Hc. }
  destruct (consume ts st) as [e|st'] eqn:Hst'; cbn [rbind].
  { split; [done|]. intros (b & vs & Hc & _). by apply Hcomplete in Hc. }
  split.
  - destruct (broker_arg st') as [b|] eqn:Hb; [|done]. case_decide as He; [|done].
    intros [= <-]. destruct (Hsound st' eq_refl He) as [(vs & _ & ->)|(_ & b' & vs & Hc & Hs)].
    { by rewrite (proj1 (set_roots_keeps vs st)) in Hb. }
    destruct (Hend _ _ _ Hs) as (Hb' & _ & Hr). rewrite Hb' in Hb. injection Hb as ->.
    exists b, vs. by rewrite Hr.
  - intros (b & vs & Hc & ->). apply Hcomplete in Hc as [= Hs].
    destruct (Hend _ _ _ Hs) as (-> & He & ->). by rewrite decide_True.
Qed.

Lemma parse_args_line home argv ns :
  startswith home "~" = false -> parse_args home argv = inr ns ->
  exists b vs, command_line argv b vs /\ ns = parsed home b vs.
Proof. intros Hh. apply (parse_args_iff home argv ns Hh). Qed.

Lemma parse_args_accepts home argv b vs :
  startswith home "~" = false -> command_line argv b vs ->
  parse_args home argv = inr (parsed home b vs).
Proof. intros Hh Hc. apply (parse_args_iff home argv _ Hh). eauto. Qed.

(** A line of one argument that is not an option. *)
Lemma command_line_one arg b vs : command_line [arg] b vs -> b = arg.
Proof.
  intros Hc. remember [arg] as args eqn:Ha.
  destruct Hc as [before b' after v1 v2 Hb _ _|before b' vs' Hb|before b' vs' Hb _];
    destruct before as [|x before]; simplify_eq/=; try done; by destruct before.
Qed.


(** The ways in which [parse_args] ends without a result: help was asked for,
    or the line is wrong. *)
Definition exits (e : exn) : Prop := exists msg, e = SystemExit 0 msg \/ e = SystemExit 2 msg.

Lemma usage_error_exits msg : exits (usage_error msg).
Proof. exists msg. by right. Qed.

Lemma help_cluster_exits cs : exits (help_cluster cs).
Proof.
  induction cs as [|c cs IH]; simpl; [eexists; by left|].
  case_decide; [done|apply usage_error_exits].
Qed.

Lemma take_help_exits name explicit : exits (take_help name explicit).
Proof.
  destruct explicit as [arg|]; simpl; [|eexists; by left].
  case_decide; [apply help_cluster_exits|apply usage_error_exits].
Qed.

Lemma consume_exits ts st e : consume ts st = inl e -> exits e.
Proof.
  revert st e. induction ts as [ts IH] using (induction_ltof1 _ length). unfold ltof in IH.
  intros st e. destruct ts as [|[a t] ts]; [done|]. simpl.
  repeat case_match; subst; intros Hr; try (eapply IH; [|exact Hr]; simpl; lia);
    injection Hr as <-; first [apply take_help_exits | apply usage_error_exits].
Qed.

Lemma classify_exits args e : classify args = inl e -> exits e.
Proof.
  revert e. induction args as [|a args IH]; intros e; simpl; [done|]. case_decide; [done|].
  destruct (parse_optional a) as [e1|t] eqn:Ht; simpl.
  - intros [= <-]. revert Ht. unfold parse_optional. repeat case_match; try done.
    intros [= <-]. apply usage_error_exits.
  - destruct (classify args); simpl; [|done]. auto.
Qed.

Lemma parse_args_exits home argv e :
  startswith home "~" = false -> parse_args home argv = inl e -> exits e.
Proof.
  unfold parse_args, path_home. intros ->. simpl.
  destruct (classify argv) as [e1|ts] eqn:H1; simpl.
  { intros [= <-]. by eapply classify_exits. }
  destruct (consume ts _) as [e1|st] eqn:H2; simpl.
  { intros [= <-]. by eapply consume_exits. }
  repeat case_match; try done; intros [= <-]; apply usage_error_exits.
Qed.

(** ** Properties *)

(** C12: [parse_args] accepts exactly the lines with one broker among any number
    of spellings of the option, joined to their value or followed by it; the
    last value of the option counts, and its default without one.  Every other
    line exits before anything has happened. *)
Theorem parse_args_exact home argv ns :
  startswith home "~" = false ->
  parse_args home argv = inr ns <->
  exists b vs, command_line argv b vs /\
    ns = {| broker := parse_path b;
            mosquitto_test_root :=
              List.last vs (PathValue (path_join (parse_path home) "Work/mosquitto/test")) |}.
Proof. apply parse_args_iff. Qed.

(** *** Instances *)

Lemma parse_args_exact_witness :
  exists b vs, command_line ["--mosq=/opt/mosquitto/test"; "zig-out/bin/broker"] b vs /\
    {| broker := MkPath "" ["zig-out"; "bin"; "broker"];
       mosquitto_test_root := PathValue (MkPath "/" ["opt"; "mosquitto"; "test"]) |} =
    {| broker := parse_path b;
       mosquitto_test_root := List.last vs
         (PathValue (path_join (parse_path "/home/user") "Work/mosquitto/test")) |}.
Proof.
  apply (parse_args_exact "/home/user" ["--mosq=/opt/mosquitto/test"; "zig-out/bin/broker"]);
    reflexivity.
Defined.
