(* ===== verification/Program.v ===== *)
(** * The program: from the command line to the verdict

    [main] of the driver with its first lines: the arguments, the search path
    of the modules, the imports.  The interpreter's import system is a
    parameter; the modules that it finds are Mosquitto's generators. *)

From Stdlib Require Import ZArith Lia Ascii.
From stdpp Require Import base list option strings.
From S2P Require Import Prelude PyValues Paths CommandLine CommandGrammar Effects Traces Canned.
From S2P Require Import Wire Expect Mosquitto WireFormat Broker Connack Script Conform.
From S2P Require Import Discipline Lifecycle Capabilities Qos Retained Sessions Forwarding Main.
From S2P Require Import Scripts Transcript Acceptance.
Local Open Scope Z_scope.

(** What [import m] gives for a search path. *)
Record Modules : Type := {
  import_mqtt5_props : list string -> result Mqtt5Props;
  import_mqtt5_rc : list string -> result Mqtt5Rc;
  import_mqtt5_opts : list string -> result Mqtt5Opts;
  import_mqtt_packets : list string -> result MqttPackets;
}.

Section program.
  Context {W : Type} `{Platform W}.
  Context (modules : Modules) (sys_path : list string) (home : string).

Definition program (argv : list string) : M W unit :=
    args ← lift (parse_args home argv);
    let path := str_value args.(mosquitto_test_root) :: sys_path in
    mqtt5_props ← lift (modules.(import_mqtt5_props) path);
    mqtt5_rc ← lift (modules.(import_mqtt5_rc) path);
    mqtt5_opts ← lift (modules.(import_mqtt5_opts) path);
    mqtt_packets ← lift (modules.(import_mqtt_packets) path);
    main (path_str args.(broker)) mqtt_packets mqtt5_props mqtt5_rc mqtt5_opts.

(** *** The executable *)

(** A launch of [exe], or another call. *)
Definition launches_exe (exe : string) (e : event) : Prop :=
    match e with EvPopen cmd _ => head cmd = Some exe | _ => True end.

#[local] Hint Extern 1 (launches_exe _ _) => first [exact I | reflexivity] : netz.

Lemma launches_exe_conversation exe : conversation (launches_exe exe).
Proof. done. Qed.

Lemma launch_with_broker {A} exe n ig extra (body : NetzBroker -> M W A) :
    (forall b, emits (launches_exe exe) (body b)) ->
    emits (launches_exe exe) (with_broker exe n ig extra body).
Proof.
    intros Hb. assert (emits (launches_exe exe) free_port) as Hfree.
    { unfold free_port. eauto 20 with netz. }
    apply runs_bind, runs_bind. eapply runs_mono; [exact Hfree|].
    intros [p|e|] t Ht; [|done|done]. apply runs_ret. rewrite app_nil_r.
    refine (runs_mono _ _ _ (_ : emits (launches_exe exe) _) _).
    - apply emits_bind.
      + unfold enter. eauto 20 with netz.
      + intros b'. apply emits_with_exit; [done|]. intros raised. unfold exit. eauto 20 with netz.
    - intros o t' Ht'. by apply Forall_app.
Qed.

#[local] Hint Resolve launches_exe_conversation launch_with_broker : netz.

Lemma scenarios_launch_exe exe mp pr rc op :
    Forall (fun '(_, m) => emits (launches_exe exe) m) (scenarios (W:=W) exe mp pr rc op).
Proof. each_scenario ltac:(eauto 200 with netz). Qed.

Lemma main_launches_exe exe mp pr rc op :
    emits (launches_exe exe) (main (W:=W) exe mp pr rc op).
Proof.
    apply emits_bind; [|intros _; by apply emits_call].
    induction (scenarios_launch_exe exe mp pr rc op) as [|[name m] l Hm _ IH];
      [apply emits_ret|by apply emits_bind].
Qed.

(** *** Runs of the program *)

(** The modules that the search path of a command line gives. *)
Definition imports (args : Namespace) mp pr rc op : Prop :=
    let path := str_value args.(mosquitto_test_root) :: sys_path in
    modules.(import_mqtt5_props) path = inr pr /\ modules.(import_mqtt5_rc) path = inr rc /\
    modules.(import_mqtt5_opts) path = inr op /\ modules.(import_mqtt_packets) path = inr mp.

Lemma program_started argv args mp pr rc op w :
    parse_args home argv = inr args -> imports args mp pr rc op ->
    program argv w = main (path_str args.(broker)) mp pr rc op w.
Proof.
    intros Hp (H1 & H2 & H3 & H4). unfold program, lift, mbind, M_bind.
    rewrite Hp. simpl. rewrite H1. simpl. rewrite H2. simpl. rewrite H3. simpl. rewrite H4. simpl.
    by destruct (main _ _ _ _ _ w) as [[o w'] t].
Qed.

Lemma program_run argv w o w' t :
    program argv w = (o, w', t) ->
    (exists e, o = Raise e /\ w' = w /\ t = [] /\
       (parse_args home argv = inl e \/
        exists args, parse_args home argv = inr args /\
          forall mp pr rc op, ~ imports args mp pr rc op)) \/
    (exists args mp pr rc op, parse_args home argv = inr args /\ imports args mp pr rc op /\
       main (path_str args.(broker)) mp pr rc op w = (o, w', t)).
Proof.
    intros Hr. destruct (parse_args home argv) as [e|args] eqn:Hp.
    { left. exists e. revert Hr. unfold program, lift, mbind, M_bind. rewrite Hp. simpl.
      intros [= <- <- <-]. auto. }
    destruct (modules.(import_mqtt5_props) (str_value args.(mosquitto_test_root) :: sys_path))
      as [e1|pr] eqn:H1;
    destruct (modules.(import_mqtt5_rc) (str_value args.(mosquitto_test_root) :: sys_path))
      as [e2|rc] eqn:H2;
    destruct (modules.(import_mqtt5_opts) (str_value args.(mosquitto_test_root) :: sys_path))
      as [e3|op] eqn:H3;
    destruct (modules.(import_mqtt_packets) (str_value args.(mosquitto_test_root) :: sys_path))
      as [e4|mp] eqn:H4.
    16: { right. exists args, mp, pr, rc, op. split_and!; [done|done|].
      by rewrite <-Hr, (program_started argv args mp pr rc op). }
    all: left; revert Hr; unfold program, lift, mbind, M_bind; rewrite Hp; simpl;
      rewrite ?H1; simpl; rewrite ?H2; simpl; rewrite ?H3; simpl; rewrite ?H4; simpl;
      intros [= <- <- <-]; eexists; split_and!; [done..|]; right; exists args; split; [done|];
      intros mp' pr' rc' op' (I1 & I2 & I3 & I4); congruence.
Qed.

(** C13: The gate of the program.  With a line that is not accepted, or modules
    that cannot be imported, it raises ([SystemExit] in the first case) and has
    made no system call; otherwise its run is that of [main], and every process
    that it launches is the broker of the command line, by the normal form of
    its path. *)
Theorem program_gate argv w o w' t :
    startswith home "~" = false -> program argv w = (o, w', t) ->
    (exists e, o = Raise e /\ w' = w /\ t = [] /\
       (((~ exists b vs, command_line argv b vs) /\ exits e) \/
        exists args, parse_args home argv = inr args /\
          forall mp pr rc op, ~ imports args mp pr rc op)) \/
    (exists b vs mp pr rc op,
       command_line argv b vs /\
       main (path_str (parse_path b)) mp pr rc op w = (o, w', t) /\
       Forall (launches_exe (path_str (parse_path b))) t).
Proof.
    intros Hh Hr. apply program_run in Hr as [(e & -> & -> & -> & Hwhy)|
      (args & mp & pr & rc & op & Hp & _ & Hm)].
    - left. exists e. split_and!; [done..|]. destruct Hwhy as [He|Himp]; [left|by right].
      split; [|by eapply parse_args_exits]. intros (b & vs & Hc).
      pose proof (parse_args_accepts home argv b vs Hh Hc) as Ha. congruence.
    - right. destruct (parse_args_line home argv args Hh Hp) as (b & vs & Hc & ->).
      exists b, vs, mp, pr, rc, op. split_and!; [done|done|]. by eapply main_launches_exe.
Qed.

(** C40: A broker of the current directory is not found there.  The path drops
    the leading dot of [./name], so that every command that the program
    launches begins with a word without a slash, which the operating system
    looks up in the search path for programs and not in the current
    directory. *)
Theorem local_executable_searched name w o w' t :
    plain_part name -> startswith home "~" = false ->
    program ["./" +:+ name] w = (o, w', t) ->
    Forall (fun e => match e with
                     | EvPopen cmd _ => head cmd = Some name /\ slash ∉ chars name
                     | _ => True
                     end) t.
Proof.
    intros Hn Hh Hr. apply program_run in Hr as [(e & _ & _ & -> & _)|
      (args & mp & pr & rc & op & Hp & _ & Hm)]; [constructor|].
    assert (broker args = parse_path ("./" +:+ name)) as Hb.
    { destruct (parse_args_line _ _ _ Hh Hp) as (b & vs & Hc & ->). simpl.
      by rewrite (command_line_one _ _ _ Hc). }
    rewrite Hb, parse_dotted in Hm by done. eapply Forall_impl; [by eapply main_launches_exe|].
    intros [] Hl; try done. split; [done|apply Hn].
Qed.

End program.

(** *** Instances *)

(** An interpreter that finds the modules in one directory. *)
Definition found {A} (m : A) (name : string) (path : list string) : result A :=
  if decide ("/opt/mosquitto/test" ∈ path) then inr m else inl (ModuleNotFoundError name).

Definition installed : Modules := {|
  import_mqtt5_props := found wire_props "mqtt5_props";
  import_mqtt5_rc := found wire_rc "mqtt5_rc";
  import_mqtt5_opts := found wire_opts "mqtt5_opts";
  import_mqtt_packets := found wire_packets "mqtt_packets";
|}.

Abbreviation local_program :=
  (program (W:=canned) installed ["/opt/mosquitto/test"] "/home/user" ["./netz-mqtt-broker"]).

Lemma local_program_run : local_program conforming =
  (Ok tt, (wire_main conforming).1.2, (wire_main conforming).2).
Proof.
  rewrite (program_started installed ["/opt/mosquitto/test"] "/home/user" _
    {| broker := parse_path "./netz-mqtt-broker";
       mosquitto_test_root :=
         PathValue (path_join (parse_path "/home/user") "Work/mosquitto/test") |}
    wire_packets wire_props wire_rc wire_opts); [exact conforming_run|reflexivity|].
  by repeat split.
Qed.

Lemma program_gate_witness :
  exists b vs, command_line ["./netz-mqtt-broker"] b vs /\
    Forall (launches_exe (path_str (parse_path b))) (wire_main conforming).2.
Proof.
  destruct (program_gate installed ["/opt/mosquitto/test"] "/home/user" ["./netz-mqtt-broker"]
    conforming (Ok tt) (wire_main conforming).1.2 (wire_main conforming).2 eq_refl
    local_program_run) as [(e & [=] & _)|(b & vs & mp & pr & rc & op & Hc & _ & Hl)].
  exists b, vs. exact (conj Hc Hl).
Defined.

Lemma local_executable_searched_witness :
  Forall (fun e => match e with
                   | EvPopen cmd _ => head cmd = Some "netz-mqtt-broker" /\
                       slash ∉ chars "netz-mqtt-broker"
                   | _ => True
                   end) (wire_main conforming).2.
Proof.
  apply (local_executable_searched installed ["/opt/mosquitto/test"] "/home/user"
    "netz-mqtt-broker" conforming (Ok tt) (wire_main conforming).1.2).
  - split_and!; [done|done|]. by apply (bool_decide_unpack _).
  - reflexivity.
  - exact local_program_run.
Defined.
